(* ===== verification/_CoqProject ===== *)
-Q . S2P
Prelude.v
IoContext.v
ErrorCodes.v
ErrorTranslation.v
SocketBase.v
Socket.v
Ticket.v
TicketJson.v
TicketFrame.v
TicketPeer.v
TicketController.v
TicketWorker.v
TicketLifetimes.v
TicketProtocol.v
FileTree.v
FsPath.v
Options.v
TlsContext.v
Client.v
SocketResources.v
Server.v
ServerInv.v
ServerSpec.v
TicketSession.v
TicketService.v
FtpUtils.v
FtpParse.v
FileTransfer.v
FtpFileTransfer.v
FtpSession.v
FtpTransfer.v
FtpClient.v
FtpResources.v
FtpFiles.v
FtpStore.v
FtpStream.v
FtpLogin.v
FtpServer.v
FtpNetwork.v
FtpStack.v
FtpWorld.v
