(* ===== verification/Prelude.v ===== *)
(** * A model of network_stack: sockets, clients, servers, the ticket protocol and FTP

    The repository is a C++23 network stack on ASIO. This library translates its own
    logic into Rocq and proves what makes it correct. Paths below are relative to the
    source tree of the stack (its directories include/ and src/).

    ** Parts of the program and files of the library

    Foundations:
    - [Prelude] (this file): bytes and texts, [std::expected] ([expected]), the
      outcomes of running code ([outcome]: a result, an exception, undefined behaviour,
      or the end of the model's fuel), and the state monad [M], with its weakest
      preconditions [wp] (total) and [wlp] (partial), with [steps R] and [settles R] for
      what code changes whatever comes of it, and the lemmas that the files share.
    - [IoContext]: the pool wrapper of src/core/Context.cpp and
      include/core/details/ContextDetail.h; [asio::thread_pool] is the class [ThreadPool].
    - [ErrorCodes], [ErrorTranslation]: include/core/ErrorCodes.h, src/core/ErrorCodes.cpp
      and src/core/ErrorTranslation.cpp. ASIO's own error constants are the class
      [AsioErrors].

    Sockets:
    - [SocketBase]: the interfaces of include/socket/SocketBase.h as the class
      [DualSocket]; [DualSocketSpec] is the contract the protocols rely on, over the
      bytes a socket will still deliver ([rx]), those it has accepted ([sent]) and
      connections without faults ([live]); [LineSocketSpec] adds reading lines and
      reading up to the end of the stream; [SocketInvariant] is a relation that every
      operation keeps.
    - [Socket]: TcpSocket and TlsSocket (src/socket/, the coroutines of
      include/socket/details/SocketBaseDetail.h) over the class [Asio], whose
      documented laws are [AsioSpec]; the instances [socket_DualSocketSpec] and
      [socket_LineSocketSpec] prove the contracts. [mem_net] is an in-memory
      implementation of the interface.
    - [SocketResources]: which streams are open because of a socket ([AsioQuiet]).

    Tickets:
    - [Ticket], [TicketJson], [TicketFrame]: src/protocol/TicketJson.cpp,
      src/protocol/TicketFrame.cpp and the data of include/protocol/Ticket.h.
      nlohmann::json is a class; [TicketJson] has an implementation of it.
    - [TicketPeer], [TicketController], [TicketWorker]: the files of those names under
      src/protocol/. Controllers and workers use a peer, which owns a socket.
    - [TicketLifetimes]: the special members of the three classes, over a store of
      objects, because moving from them and destroying them is what can go wrong.
    - [TicketProtocol]: a controller and a worker connected to each other.
    - [TicketSession], [TicketService]: whole programs. A session connects with a client,
      hands the socket to a controller, makes requests and destroys the controller; a
      service is a server whose handler makes a worker for every connection.

    Clients and servers:
    - [Options], [TlsContext]: include/socket/TcpOptions.h and TlsOptions.h, and
      src/core/TlsContextWrapper.cpp over the class [OpenSsl].
    - [Client]: src/client/Client.cpp and ClientBase.cpp over the classes [AsioConnect]
      and [AsioTls]; [AsioConnectSpec] and [AsioTlsSpec] are what is documented of them,
      in terms of which streams are open, and [dial_net] is an implementation. The
      interfaces of include/client/ClientBase.h are the classes [ClientSync] and
      [ClientAsync] with the contract [ClientSpec].
    - [Server]: src/server/Server.cpp and ServerBase.cpp over the class [AsioAcceptor],
      as a transition system: the state is where every listening coroutine is suspended,
      and the coroutines that they spawned; an event is a call of the user, the completion
      of an accept, the resumption of a spawned coroutine, or the handler of a handshake's
      timer that was queued when the handshake ended, in any order. A coroutine that waits
      for a handshake is suspended, and one that outlives its listener still refers to the
      listener's variables. The interfaces of include/server/ServerBase.h are the classes
      [ServerSync] and [ServerAsync].
      [ServerInv]: what an event may do to the record of the server, as a step relation.
      [ServerSpec]: an abstract service, and that the server implements it.

    FTP:
    - [FsPath], [FtpUtils]: [std::filesystem::path] on POSIX, as far as it is used, and
      the directory navigator of src/protocol/FtpUtils.cpp, whose virtual functions are
      the class [SmartDirectoryNavigator].
    - [FileTransfer]: IAbstractFileTransfer (include/protocol/FileTransfer.h) as the
      class [AbstractFileTransfer], with its contracts: [FileTransferSpec] for the tree
      of files and [FileStoreSpec] for their contents.
    - [FtpParse], [FtpFileTransfer]: the parsers and the operations of
      src/protocol/FtpFileTransfer.cpp. [Client_connect], the clock and the text of an
      address come from the classes [FtpEnvironment] and [Clock].
    - [FtpSession], [FtpFiles], [FtpStore]: the FTP client against a server that keeps
      promises, which are stated of the client's commands and of its data sockets:
      queries about paths on a [FileServer], making and removing files on a
      [WritableServer], and reading and writing the contents of files on a
      [TransferServer].
    - [FtpTransfer], [FtpStream], [FtpLogin]: what any transfer means, whole and with
      callbacks, and the login, on whatever server.
    - [FtpClient]: [FtpEnvironment] with the TCP client of [Client].
    - [FtpResources]: programs that use an FTP client, and the streams they hold.
    - [FtpServer], [FtpNetwork], [FtpStack]: the whole stack. [FtpServerSpec] is a server
      by itself, as lines that it is given and lines that it answers. It keeps to RFC 959
      and is narrower: its replies have the codes that the client accepts (150 and 226 for
      a transfer, where the standard also allows 125 and 250), and to show that a file is
      there it needs MLST or SIZE of RFC 3659, which have to be in its answer to FEAT.
      [FtpNetwork] is a network on which nothing fails, with such a server at its other
      end, in terms of ASIO's operations; the promises that [FtpSession], [FtpFiles] and
      [FtpStore] ask for are then proved of the program's own sockets and client. None
      of the three models code of the program: they say what is assumed of the peer.
    - [FileTree], [FtpWorld]: trees of files, and a concrete server and network, on which
      the theorems on FTP sessions are run.

    An operation of a C++ class is a definition with the method's name (prefixed where
    the name is taken) in the monad over the state of the object and the world: for
    example [peer_sendFrame] is TicketPeer::sendFrame. Blocking and coroutine versions
    are one definition with a [mode] where the code is the same, and [sendFrame] and
    [sendFrameAsync] are its two instances. Early returns with [std::unexpected] are
    the bind [x ←? m; k].

    ** What the theorems show

    - Whole programs: a ticket that a program sends through a client, a controller and a
      server's worker is answered with what the handler made of it; a service answers
      every ticket of every connection, in order; a file that an FTP client uploads in
      one session is what another downloads in a later one; and neither a ticket session
      nor a program with an FTP client leaves a stream open, however it ends.
    - Sockets: the reads deliver the byte stream in order, whole, whatever the pieces
      it arrives in, and end; writes transmit exactly the caller's bytes; every
      translated error is an error. A read that failed leaves invented bytes behind.
    - Frames and serialization: prefix, frame and ticket round trips with their bounds
      (2^32 bytes, 31-bit timeouts), exactly which inputs throw or are refused, and that
      whatever arrives is refused or becomes a well-formed ticket that can be passed on.
    - Lifetimes: no sequence of constructions, moves, assignments, uses and destructions
      of peers, controllers and workers destroys a socket twice or uses a missing one in
      a destructor, and every socket has one owner; what happens on use after a move.
    - Controller and worker: each against the specification of the other side, and
      both together: the result of a request, one answer per ticket in order, distinct
      identifiers, termination of long requests, and that workers never run a long
      handler.
    - Connecting: it ends with an open socket or with an error and nothing left open;
      each option that the client applies has the value that was asked for, as the int
      that the system is given, or the first refused one ends the call; a TLS context
      speaks the minimum version and no other, and none at all when the maximum is below
      it; freeing it by [shutdown] is undefined.
    - Serving: every order of events refines the abstract service; an accepted connection
      is handed over exactly once, or given up because one of its options was refused or
      its handshake failed; listening sets the acceptor up by four calls and reports the
      one that failed; at most one listener waits at a time, and none again after a stop;
      the blocking call returns; a TLS connection is handed over secured or leaves nothing
      open. What goes wrong is stated as well: a stop that throws, an acceptor that stays
      open, a TLS connection that outlives its listener's variables, and a timer's handler
      that outlives the variables of the handshake.
    - FTP texts: PASV addresses and feature lists are read as written, and so are listings,
      except that blanks around a name are lost and that a time of the last six months
      gets the current year; one response at a time is taken off the control connection,
      and receiving ends.
    - FTP operations: the navigator stays in step with the server, [exists] and
      [isDirectory] answer for the server's files, [createDir] and [remove] change
      exactly the file they name, what is written is what is read back and nothing else
      changes, a transfer that succeeds is complete, a callback is given every chunk once
      and in order, and a login succeeds only with the server's consent. The cases in
      which this fails are theorems too: paths that end in a separator, servers that
      answer 125 or 250, responses without an address.

    ** Fuel

    Loops whose number of rounds the peer decides take fuel, and [NoFuel] is not a
    result: [wp] excludes it. [read_exact_loop] needs the length of the span;
    [read_until_loop], [response_loop] and [raw_loop] need one more than the bytes the
    peer sends, because every round takes at least one; [running_loop] needs one round
    per running response, and [read_chunks] and [write_chunks] one per chunk. A whole FTP
    session needs as much as the server sends at a time, and more than the longest file
    ([EnoughFuel]). Theorems about what remains open ([settles]) speak of code that
    returns or throws.

    ** What is not modelled

    Logging; memory exhaustion; ASIO's executor, resolver and timers beyond their
    documented results (of a client, the timer handler that outlives the coroutine whose
    variables it refers to is not visible, as that of a server is; nor is a blocking call
    whose executor neither runs nor drops the coroutine, which waits for ever); threads
    that share an object without synchronisation; the values of negative characters passed
    to [isdigit]. Sockets do not share state: a law about one says nothing about another. Exceptions out of the
    constructors of ASIO and OpenSSL objects. Of the server: the acceptor used from two
    threads at once (which the code does not prevent), a server object destroyed before
    its coroutines, and a suspension inside the handler, which runs to its end.
    FileTransferUtils (include/protocol/FileTransfer.h) has no implementation in the
    repository. What is left of the source besides is declarations whose definitions are
    modelled, casts between views of bytes, and the tests. *)

From stdpp Require Export base tactics option list gmap.
From stdpp Require Import pretty.
From Stdlib Require Export ZArith Lia.
From Stdlib Require Export Strings.Byte.
From Stdlib Require Strings.String.
Export String.StringSyntax.

#[global] Open Scope Z_scope.
#[global] Set Default Goal Selector "!".

(** ** Bytes and texts

    [std::byte] and [char] are both one byte wide and the program copies
    between them with casts that keep the bits, so [std::string],
    [std::string_view], [std::vector<std::byte>] and [std::span<std::byte>] are
    all lists of bytes. *)

Abbreviation bytes := (list byte).

#[export] Instance byte_eq_dec : EqDecision byte := Byte.byte_eq_dec.

#[export] Program Instance byte_countable : Countable byte :=
  {| encode b := encode (Byte.to_N b);
     decode p := n ← decode p; Byte.of_N n |}.
Next Obligation.
  intros b; simpl; rewrite decode_encode; simpl; apply Byte.of_to_N.
Qed.

(** A literal of the source. *)
Definition txt (s : String.string) : bytes := String.list_byte_of_string s.
Arguments txt s%_string_scope.

(** [static_cast<std::uint32_t>(b)] for a byte. *)
Definition byte_val (b : byte) : Z := Z.of_N (Byte.to_N b).

(** [std::byte(x & 0xFF)]. *)
Definition byte_of (z : Z) : byte :=
  default Byte.x00 (Byte.of_N (Z.to_N (z `mod` 256))).

Definition CR : byte := Byte.x0d.
Definition LF : byte := Byte.x0a.
Definition CRLF : bytes := [CR; LF].

(** Fixed-width integers: the value after the wrap of the C++ conversion. *)
Definition wrap_u16 (z : Z) : Z := z `mod` 2 ^ 16.
Definition wrap_u32 (z : Z) : Z := z `mod` 2 ^ 32.
Definition wrap_u64 (z : Z) : Z := z `mod` 2 ^ 64.
(** [static_cast<int>] of a wider signed integer (modulo 2^32 since C++20). *)
Definition wrap_i32 (z : Z) : Z := (z + 2 ^ 31) `mod` 2 ^ 32 - 2 ^ 31.

(** ** Results and effects *)

(** [std::expected<A, E>]. *)
Inductive expected (E A : Type) :=
| Ok (a : A)
| Unexpected (e : E).
Arguments Ok {E A} a.
Arguments Unexpected {E A} e.

(** [has_value()]. *)
Definition has_value {E A} (r : expected E A) : bool :=
  match r with Ok _ => true | Unexpected _ => false end.

(** The exceptions the modelled code can meet. *)
Inductive exn :=
| std_invalid_argument
| std_out_of_range
| std_runtime_error (what : bytes)
| std_future_error
| std_system_error
| json_exception
| other_exception (n : nat).

(** What running a piece of C++ does: it returns, it throws, it reaches
    undefined behaviour, or the fuel of the model runs out. *)
Inductive outcome (A : Type) :=
| Done (a : A)
| Throw (x : exn)
| Undef
| NoFuel.
Arguments Done {A} a.
Arguments Throw {A} x.
Arguments Undef {A}.
Arguments NoFuel {A}.

(** A computation over the state [S]. *)
Definition M (S A : Type) : Type := S → outcome A * S.

#[export] Instance M_ret S : MRet (M S) := λ A a s, (Done a, s).

#[export] Instance M_bind S : MBind (M S) := λ A B k m s,
  match m s with
  | (Done a, s') => k a s'
  | (Throw x, s') => (Throw x, s')
  | (Undef, s') => (Undef, s')
  | (NoFuel, s') => (NoFuel, s')
  end.

Definition get {S} : M S S := λ s, (Done s, s).
Definition gets {S A} (f : S → A) : M S A := λ s, (Done (f s), s).
Definition modify {S} (f : S → S) : M S unit := λ s, (Done tt, f s).
Definition throw {S A} (x : exn) : M S A := λ s, (Throw x, s).
Definition undef {S A} : M S A := λ s, (Undef, s).
Definition out_of_fuel {S A} : M S A := λ s, (NoFuel, s).
Definition lift {S A} (o : outcome A) : M S A := λ s, (o, s).

(** [if (!r) return std::unexpected(r.error());] *)
Definition bind_expected {S E A B} (m : M S (expected E A))
    (k : A → M S (expected E B)) : M S (expected E B) :=
  m ≫= λ r, match r with Ok a => k a | Unexpected e => mret (Unexpected e) end.

Notation "x ←? m ; k" := (bind_expected m (λ x, k))
  (at level 100, m at next level, right associativity,
   format "x  '←?'  m ;  '/' k") : stdpp_scope.

(** Runs a computation on one component of a larger state. *)
Definition zoom {S T A} (get_part : S → T) (set_part : T → S → S) (m : M T A) : M S A :=
  λ s, let '(o, t) := m (get_part s) in (o, set_part t s).

(** ** Text helpers *)

(** [std::string_view::starts_with]. *)
Fixpoint starts_with (p s : bytes) : bool :=
  match p, s with
  | [], _ => true
  | _ :: _, [] => false
  | a :: p', b :: s' => bool_decide (a = b) && starts_with p' s'
  end.

(** Index of the first occurrence of a sequence: [std::search] and
    [std::string::find]. *)
Fixpoint search (needle hay : bytes) : option nat :=
  if starts_with needle hay then Some 0%nat
  else match hay with
       | [] => None
       | _ :: hay' => S <$> search needle hay'
       end.

(** [std::to_string] of an integer. *)
Definition to_string (z : Z) : bytes := txt (pretty z).

(** ** Program logic: weakest preconditions, total and partial *)

(** [wp m Q s]: run from [s], [m] returns (it does not throw, has no undefined
    behaviour and does not run out of fuel) and the result satisfies [Q]. *)
Definition wp {S A} (m : M S A) (Q : A → S → Prop) (s : S) : Prop :=
  match m s with (Done a, s') => Q a s' | _ => False end.

(** [wlp m Q s]: if [m] returns from [s], the result satisfies [Q]. *)
Definition wlp {S A} (m : M S A) (Q : A → S → Prop) (s : S) : Prop :=
  match m s with (Done a, s') => Q a s' | _ => True end.

Section wp_rules.
Context {S : Type}.
Implicit Types s : S.

Lemma wp_run {A} (m : M S A) (Q : A → S → Prop) s :
  wp m Q s ↔ ∃ a s', m s = (Done a, s') ∧ Q a s'.
Proof.
  unfold wp. destruct (m s) as [[a| | |] s'];
    (split; [by eauto|by intros (?&?&[= <- <-]&?)]) ||
    (split; [done|by intros (?&?&?&?)]).
Qed.

Lemma wlp_run {A} (m : M S A) (Q : A → S → Prop) s :
  wlp m Q s ↔ ∀ a s', m s = (Done a, s') → Q a s'.
Proof.
  unfold wlp. destruct (m s) as [[a| | |] s']; [|done..].
  split; [by intros ? ?? [= <- <-]|by auto].
Qed.

Lemma wp_mono {A} (m : M S A) (P Q : A → S → Prop) s :
  wp m P s → (∀ a s', P a s' → Q a s') → wp m Q s.
Proof. unfold wp. destruct (m s) as [[a| | |] s']; auto. Qed.

Lemma wlp_mono {A} (m : M S A) (P Q : A → S → Prop) s :
  wlp m P s → (∀ a s', P a s' → Q a s') → wlp m Q s.
Proof. unfold wlp. destruct (m s) as [[a| | |] s']; auto. Qed.

Lemma wp_conj {A} (m : M S A) (P Q : A → S → Prop) s :
  wp m P s → wlp m Q s → wp m (λ a s', P a s' ∧ Q a s') s.
Proof. unfold wp, wlp. destruct (m s) as [[a| | |] s']; auto. Qed.

Lemma wlp_conj {A} (m : M S A) (P Q : A → S → Prop) s :
  wlp m P s → wlp m Q s → wlp m (λ a s', P a s' ∧ Q a s') s.
Proof. unfold wlp. destruct (m s) as [[a| | |] s']; auto. Qed.

Lemma wp_wlp {A} (m : M S A) (Q : A → S → Prop) s : wp m Q s → wlp m Q s.
Proof. unfold wp, wlp. by destruct (m s) as [[a| | |] s']. Qed.

Lemma wp_ret {A} (a : A) (Q : A → S → Prop) s : wp (mret a) Q s ↔ Q a s.
Proof. done. Qed.
Lemma wlp_ret {A} (a : A) (Q : A → S → Prop) s : wlp (mret a) Q s ↔ Q a s.
Proof. done. Qed.

Lemma wp_bind {A B} (m : M S A) (k : A → M S B) (Q : B → S → Prop) s :
  wp (m ≫= k) Q s ↔ wp m (λ a s', wp (k a) Q s') s.
Proof.
  unfold wp, mbind, M_bind. by destruct (m s) as [[a| | |] s'].
Qed.
Lemma wlp_bind {A B} (m : M S A) (k : A → M S B) (Q : B → S → Prop) s :
  wlp (m ≫= k) Q s ↔ wlp m (λ a s', wlp (k a) Q s') s.
Proof.
  unfold wlp, mbind, M_bind. by destruct (m s) as [[a| | |] s'].
Qed.

Lemma wp_bind_expected {E A B} (m : M S (expected E A))
    (k : A → M S (expected E B)) (Q : expected E B → S → Prop) s :
  wp (bind_expected m k) Q s ↔
  wp m (λ r s', match r with
                | Ok a => wp (k a) Q s'
                | Unexpected e => Q (Unexpected e) s'
                end) s.
Proof.
  unfold bind_expected. rewrite wp_bind. unfold wp.
  by destruct (m s) as [[[a|e]| | |] s'].
Qed.
Lemma wlp_bind_expected {E A B} (m : M S (expected E A))
    (k : A → M S (expected E B)) (Q : expected E B → S → Prop) s :
  wlp (bind_expected m k) Q s ↔
  wlp m (λ r s', match r with
                 | Ok a => wlp (k a) Q s'
                 | Unexpected e => Q (Unexpected e) s'
                 end) s.
Proof.
  unfold bind_expected. rewrite wlp_bind. unfold wlp.
  by destruct (m s) as [[[a|e]| | |] s'].
Qed.

Lemma wp_gets {A} (f : S → A) (Q : A → S → Prop) s : wp (gets f) Q s ↔ Q (f s) s.
Proof. done. Qed.
Lemma wlp_gets {A} (f : S → A) (Q : A → S → Prop) s : wlp (gets f) Q s ↔ Q (f s) s.
Proof. done. Qed.
Lemma wp_modify (f : S → S) (Q : unit → S → Prop) s : wp (modify f) Q s ↔ Q tt (f s).
Proof. done. Qed.
Lemma wlp_modify (f : S → S) (Q : unit → S → Prop) s : wlp (modify f) Q s ↔ Q tt (f s).
Proof. done. Qed.

Lemma wp_zoom {T A} (g : S → T) (p : T → S → S) (m : M T A) (Q : A → S → Prop) s :
  wp (zoom g p m) Q s ↔ wp m (λ a t, Q a (p t s)) (g s).
Proof. unfold wp, zoom. by destruct (m (g s)) as [[a| | |] t]. Qed.
Lemma wlp_zoom {T A} (g : S → T) (p : T → S → S) (m : M T A) (Q : A → S → Prop) s :
  wlp (zoom g p m) Q s ↔ wlp m (λ a t, Q a (p t s)) (g s).
Proof. unfold wlp, zoom. by destruct (m (g s)) as [[a| | |] t]. Qed.

(** The monad laws, so that code can be rearranged. *)
Lemma M_bind_ret {A B} (a : A) (k : A → M S B) s : (mret a ≫= k) s = k a s.
Proof. done. Qed.
Lemma M_bind_assoc {A B C} (m : M S A) (k : A → M S B) (h : B → M S C) s :
  ((m ≫= k) ≫= h) s = (m ≫= λ a, k a ≫= h) s.
Proof. unfold mbind, M_bind. by destruct (m s) as [[a| | |] s']. Qed.
Lemma M_bind_Done {A B} (m : M S A) (k : A → M S B) s a s' :
  m s = (Done a, s') → (m ≫= k) s = k a s'.
Proof. intros H. unfold mbind, M_bind. by rewrite H. Qed.
Lemma bind_expected_Ok {E A B} (m : M S (expected E A)) (k : A → M S (expected E B)) s a s' :
  m s = (Done (Ok a), s') → bind_expected m k s = k a s'.
Proof. intros H. unfold bind_expected. by rewrite (M_bind_Done _ _ _ _ _ H). Qed.
Lemma bind_expected_Unexpected {E A B} (m : M S (expected E A))
    (k : A → M S (expected E B)) s e s' :
  m s = (Done (Unexpected e), s') → bind_expected m k s = (Done (Unexpected e), s').
Proof. intros H. unfold bind_expected. by rewrite (M_bind_Done _ _ _ _ _ H). Qed.
Lemma M_bind_inv {A B} (m : M S A) (k : A → M S B) s b s' :
  (m ≫= k) s = (Done b, s') → ∃ a s1, m s = (Done a, s1) ∧ k a s1 = (Done b, s').
Proof. unfold mbind, M_bind. destruct (m s) as [[a| | |] s1]; [by eauto|done..]. Qed.
Lemma bind_expected_inv {E A B} (m : M S (expected E A)) (k : A → M S (expected E B)) s b s' :
  bind_expected m k s = (Done (Ok b), s') →
  ∃ a s1, m s = (Done (Ok a), s1) ∧ k a s1 = (Done (Ok b), s').
Proof.
  intros H. apply M_bind_inv in H as ([a|e] & s1 & Hm & Hk); [by eauto|].
  by inversion Hk.
Qed.
End wp_rules.

(** [M] is extensional: a continuation may be replaced by an equal one. *)
#[export] Instance M_bind_proper S A B :
  Proper (pointwise_relation A (pointwise_relation S (=)) ==>
          pointwise_relation S (=) ==> pointwise_relation S (=)) (@mbind (M S) _ A B).
Proof.
  intros k k' Hk m m' Hm s. unfold mbind, M_bind. rewrite Hm.
  destruct (m' s) as [[a| | |] s']; [apply Hk|done..].
Qed.

(** One step of symbolic execution of a computation under [wp] or [wlp]. *)
Ltac wp_step :=
  first
    [ rewrite wp_bind | rewrite wp_bind_expected | rewrite wp_ret | rewrite wp_gets
    | rewrite wp_modify | rewrite wp_zoom
    | rewrite wlp_bind | rewrite wlp_bind_expected | rewrite wlp_ret | rewrite wlp_gets
    | rewrite wlp_modify | rewrite wlp_zoom ]; cbn beta iota.
Ltac wp_steps := repeat wp_step.

(** ** What running code changes, whatever comes of it

    [steps R m]: the state that [m] leaves, whether it returns, throws or stops for
    another reason, is related by [R] to the one it found. *)
Definition steps {S A} (R : S → S → Prop) (m : M S A) : Prop := ∀ s, R s (m s).2.

Lemma steps_wlp {S A} (R : S → S → Prop) (m : M S A) s : steps R m → wlp m (λ _ s', R s s') s.
Proof. intros Hm. specialize (Hm s). unfold wlp. by destruct (m s) as [[] ?]. Qed.

Section steps_rules.
Context {S : Type} (R : S → S → Prop) `{PR : !PreOrder R}.

Lemma steps_here {A} (m : M S A) : (∀ s, (m s).2 = s) → steps R m.
Proof. intros Hm s. by rewrite Hm. Qed.

Lemma steps_modify (f : S → S) : (∀ s, R s (f s)) → steps R (modify f).
Proof. by intros Hf s. Qed.

Lemma steps_bind {A B} (m : M S A) (k : A → M S B) :
  steps R m → (∀ a, steps R (k a)) → steps R (m ≫= k).
Proof.
  intros Hm Hk s. unfold mbind, M_bind. specialize (Hm s).
  destruct (m s) as [[a| | |] s']; simpl in *; [|done..]. etrans; [exact Hm|apply Hk].
Qed.

Lemma steps_bind_expected {E A B} (m : M S (expected E A)) (k : A → M S (expected E B)) :
  steps R m → (∀ a, steps R (k a)) → steps R (bind_expected m k).
Proof. intros Hm Hk. apply steps_bind; [done|]. intros [a|e]; [apply Hk|by apply steps_here]. Qed.

Lemma steps_zoom {T A} (R' : T → T → Prop) (g : S → T) (p : T → S → S) (m : M T A) :
  (∀ s t', R' (g s) t' → R s (p t' s)) → steps R' m → steps R (zoom g p m).
Proof.
  intros Hp Hm s. unfold zoom. specialize (Hm (g s)). destruct (m (g s)) as [o t']. by apply Hp.
Qed.
End steps_rules.

(** The same for code that comes back to its caller. *)
Definition returns_or_throws {A} (o : outcome A) : bool :=
  match o with Done _ | Throw _ => true | Undef | NoFuel => false end.

Definition settles {S A} (R : S → S → Prop) (m : M S A) : Prop :=
  ∀ s, returns_or_throws (m s).1 = true → R s (m s).2.

Section settles_rules.
Context {S : Type} (R : S → S → Prop) `{PR : !PreOrder R}.

Lemma steps_settles {A} (m : M S A) : steps R m → settles R m.
Proof. by intros Hm s _. Qed.

Lemma settles_bind {A B} (m : M S A) (k : A → M S B) :
  settles R m → (∀ a, settles R (k a)) → settles R (m ≫= k).
Proof.
  intros Hm Hk s. unfold mbind, M_bind. specialize (Hm s).
  destruct (m s) as [[a| | |] s']; simpl in *; [|by auto|done..].
  intros Hr. etrans; [by apply Hm|by apply Hk].
Qed.

Lemma settles_bind_expected {E A B} (m : M S (expected E A)) (k : A → M S (expected E B)) :
  settles R m → (∀ a, settles R (k a)) → settles R (bind_expected m k).
Proof.
  intros Hm Hk. apply settles_bind; [done|]. intros [a|e]; [apply Hk|].
  intros s _. simpl. reflexivity.
Qed.

Lemma settles_mono {A} (R' : S → S → Prop) (m : M S A) :
  (∀ s s', R s s' → R' s s') → settles R m → settles R' m.
Proof. intros HR Hm s Hs. by apply HR, Hm. Qed.
End settles_rules.

(** Takes code apart down to the operations, for which the context knows the rules. *)
Ltac steps :=
  repeat first
    [ assumption
    | match goal with H : ∀ _, steps _ _ |- _ => apply H | H : ∀ _ _, steps _ _ |- _ => apply H
      | H : ∀ _ _ _, steps _ _ |- _ => apply H | H : ∀ _ _ _ _, steps _ _ |- _ => apply H end
    | apply steps_bind; [apply _| |intros ?] | apply steps_bind_expected; [apply _| |intros ?]
    | match goal with |- steps _ (match ?x with _ => _ end) => destruct x end
    | apply steps_here; [apply _|done] ].

(** ** Lemmas on texts, lists and integers *)

Create HintDb netlib discriminated.

(** Rewriting rules of list bookkeeping (take, drop, lengths of appends). *)
Create Rewrite HintDb netlist.

#[export] Hint Rewrite @length_app @length_take @length_drop @length_replicate
  @take_nil @drop_nil @app_nil_r @length_insert : netlist.

(** Linear arithmetic with division and modulo by constants. *)
Ltac div_lia := Z.to_euclidean_division_equations; lia.

Ltac list_simp := autorewrite with netlist in *; simpl in *.

#[export] Instance txt_inj : Inj (=) (=) txt.
Proof.
  intros s1 s2 H. apply (f_equal String.string_of_list_byte) in H. unfold txt in H.
  by rewrite !String.string_of_list_byte_of_string in H.
Qed.

#[export] Instance to_string_inj : Inj (=) (=) to_string.
Proof. intros z1 z2 H. by apply (inj txt), (inj pretty) in H. Qed.

Lemma starts_with_app p s : starts_with p (p ++ s) = true.
Proof.
  induction p as [|a p IH]; simpl; [done|]. by rewrite bool_decide_true.
Qed.

Lemma starts_with_spec p s : starts_with p s = true ↔ ∃ r, s = p ++ r.
Proof.
  split; [|by intros [r ->]; apply starts_with_app].
  revert s. induction p as [|a p IH]; intros s; simpl; [by eauto|].
  destruct s as [|b s]; [done|].
  rewrite andb_true_iff, bool_decide_eq_true. intros [-> (r & ->)%IH]; by eauto.
Qed.

Lemma starts_with_take p s :
  starts_with p s = true → take (length p) s = p ∧ (length p ≤ length s)%nat.
Proof.
  intros [r ->]%starts_with_spec. rewrite take_app_length, length_app. split; [done|lia].
Qed.

Lemma starts_with_short p s : (length s < length p)%nat → starts_with p s = false.
Proof.
  intros Hlt. destruct (starts_with p s) eqn:H; [|done].
  apply starts_with_take in H. lia.
Qed.

Lemma search_Some needle hay i :
  search needle hay = Some i ↔
  starts_with needle (drop i hay) = true ∧ (i + length needle ≤ length hay)%nat ∧
  ∀ j, (j < i)%nat → starts_with needle (drop j hay) = false.
Proof.
  revert i. induction hay as [|b hay IH]; intros i; simpl.
  - destruct (starts_with needle []) eqn:H.
    + split.
      * intros [= <-]. split_and!; [done| |lia].
        apply starts_with_take in H as [_ H]. simpl in *. lia.
      * intros (_ & Hl & _). f_equal. lia.
    + split; [done|]. intros (Hs & Hl & _).
      replace i with 0%nat in Hs by lia. simpl in Hs. congruence.
  - destruct (starts_with needle (b :: hay)) eqn:H.
    + split.
      * intros [= <-]. split_and!; [done| |lia].
        by apply starts_with_take in H as [_ H].
      * intros (_ & _ & Hmin). destruct i as [|i]; [done|].
        specialize (Hmin 0%nat). simpl in Hmin. rewrite Hmin in H; [done|lia].
    + rewrite fmap_Some. split.
      * intros (k & Hk & ->). apply IH in Hk as (H1 & H2 & H3).
        split_and!; simpl; [done|lia|]. intros [|j] Hj; simpl; [done|apply H3; lia].
      * intros (H1 & H2 & H3). destruct i as [|i]; simpl in *; [congruence|].
        exists i. split; [|done]. apply IH. split_and!; [done|lia|].
        intros j Hj. apply (H3 (S j)). lia.
Qed.

Lemma search_None needle hay :
  search needle hay = None ↔ ∀ j, starts_with needle (drop j hay) = false.
Proof.
  induction hay as [|b hay IH]; simpl.
  - destruct (starts_with needle []) eqn:H.
    + split; [done|]. intros Hj. specialize (Hj 0%nat). simpl in Hj. congruence.
    + split; [|done]. intros _ j. by rewrite drop_nil.
  - destruct (starts_with needle (b :: hay)) eqn:H.
    + split; [done|]. intros Hj. specialize (Hj 0%nat). simpl in Hj. congruence.
    + rewrite fmap_None, IH. split; intros Hj j.
      * by destruct j as [|j]; simpl.
      * apply (Hj (S j)).
Qed.

(** Once an occurrence is complete, appending more bytes does not move it. *)
Lemma search_app needle hay more i :
  search needle hay = Some i → search needle (hay ++ more) = Some i.
Proof.
  rewrite !search_Some. intros (H1 & H2 & H3). split_and!.
  - apply starts_with_spec in H1 as [r Hr]. apply starts_with_spec.
    exists (r ++ more). rewrite drop_app_le by lia. by rewrite Hr, <- app_assoc.
  - rewrite length_app. lia.
  - intros j Hj. specialize (H3 j Hj).
    destruct (starts_with needle (drop j (hay ++ more))) eqn:E; [|done].
    rewrite drop_app_le in E by lia.
    apply starts_with_take in E as [E1 E2]. rewrite take_app_le in E1.
    + rewrite <- E1 in H3 at 1. rewrite <- H3. symmetry. apply starts_with_spec.
      exists (drop (length needle) (drop j hay)). by rewrite take_drop.
    + rewrite length_drop. lia.
Qed.

Lemma search_needle_app needle more : search needle (needle ++ more) = Some 0%nat.
Proof.
  destruct needle as [|b n]; simpl; [by destruct more|].
  rewrite bool_decide_true by done. by rewrite starts_with_app.
Qed.

Lemma byte_val_range b : 0 ≤ byte_val b < 256.
Proof.
  unfold byte_val. pose proof (Byte.to_N_bounded b). lia.
Qed.

Lemma byte_val_of z : 0 ≤ z < 256 → byte_val (byte_of z) = z.
Proof.
  intros Hz. unfold byte_val, byte_of. rewrite Z.mod_small by lia.
  destruct (Byte.of_N (Z.to_N z)) as [b|] eqn:E; simpl.
  - apply Byte.to_of_N in E. lia.
  - apply Byte.of_N_None_iff in E. lia.
Qed.

Lemma byte_of_val b : byte_of (byte_val b) = b.
Proof.
  unfold byte_of. rewrite Z.mod_small by apply byte_val_range.
  unfold byte_val. by rewrite N2Z.id, Byte.of_to_N.
Qed.

Lemma byte_of_mod z : byte_of (z `mod` 256) = byte_of z.
Proof. unfold byte_of. by rewrite Z.mod_mod by lia. Qed.

Lemma lor_shift8 a b : 0 ≤ b < 2 ^ 8 → Z.lor (Z.shiftl a 8) b = a * 256 + b.
Proof.
  intros Hb. assert (Z.land (Z.shiftl a 8) b = 0) as Hl.
  { apply Z.bits_inj_0. intros i. rewrite Z.land_spec.
    destruct (Z.ltb_spec i 0) as [Hi0|Hi0]; [by rewrite !Z.testbit_neg_r by lia|].
    destruct (Z.ltb_spec i 8) as [Hi|Hi]; [by rewrite Z.shiftl_spec_low by lia|].
    assert (Z.testbit b i = false) as ->; [|by rewrite andb_false_r].
    apply Z.testbit_false; [lia|]. rewrite Z.div_small; [done|].
    split; [lia|]. apply Z.lt_le_trans with (2 ^ 8); [lia|]. by apply Z.pow_le_mono_r. }
  pose proof (Z.add_lor_land (Z.shiftl a 8) b). rewrite Z.shiftl_mul_pow2 in * by lia. lia.
Qed.

Lemma wrap_i32_small z : - 2 ^ 31 ≤ z < 2 ^ 31 → wrap_i32 z = z.
Proof. intros. unfold wrap_i32. rewrite Z.mod_small; lia. Qed.

Lemma wrap_i32_range z : - 2 ^ 31 ≤ wrap_i32 z < 2 ^ 31.
Proof. unfold wrap_i32. pose proof (Z.mod_pos_bound (z + 2 ^ 31) (2 ^ 32)). lia. Qed.

#[export] Hint Resolve byte_val_range wrap_i32_range starts_with_app : netlib.
