(* ===== verification/IoContext.v ===== *)
(** The executor (include/core/Context.h, src/core/Context.cpp and
    include/core/details/ContextDetail.h): wrappers that share a pool of threads, which
    is shut down once. The pool of ASIO is an interface. *)

From S2P Require Import Prelude.

(** [asio::thread_pool]: its constructor, [stop] and [join]. *)
Class ThreadPool (P : Type) := {
  pool_new : Z → P;
  pool_stop : P → P;
  pool_join : P → P
}.

Section io_context.
Context {P : Type} `{ThreadPool P}.

(** [IoContextWrapper::Private]; [shutdown_once_] says whether [call_once] has run. *)
Record io_private := IoPrivate { pool_ : P; shutdown_once_ : bool }.

(** The shared objects; a wrapper is a pointer to one of them, or null after a move. *)
Abbreviation io_heap := (gmap nat io_private).
Definition IoContextWrapper := option nat.

(** [std::make_shared<Private>(thread_count)]; four threads by default. *)
Definition IoContextWrapper_new (thread_count : Z) : M io_heap IoContextWrapper := λ s,
  let l := fresh (dom s) in
  (Done (Some l), <[l := IoPrivate (pool_new thread_count) false]> s).

(** The move constructor empties its argument; copies share. *)
Definition IoContextWrapper_move (w : IoContextWrapper) : IoContextWrapper * IoContextWrapper :=
  (w, None).

(** [std::call_once(shutdown_once_, ...)] *)
Definition shutdown_private (p : io_private) : io_private :=
  if shutdown_once_ p then p else IoPrivate (pool_join (pool_stop (pool_ p))) true.

Definition IoContextWrapper_shutdown (w : IoContextWrapper) : M io_heap unit :=
  match w with
  | None => mret tt
  | Some l => modify (alter shutdown_private l)
  end.

Lemma shutdown_private_idemp p : shutdown_private (shutdown_private p) = shutdown_private p.
Proof. unfold shutdown_private. destruct p as [q b]. by destruct b. Qed.

(** Shutting wrappers down, one after the other. *)
Fixpoint shutdown_all (ws : list IoContextWrapper) : M io_heap unit :=
  match ws with
  | [] => mret tt
  | w :: ws => IoContextWrapper_shutdown w;; shutdown_all ws
  end.

(** The pool is stopped and joined exactly once, however often and through whatever
    copies its wrappers are shut down, and no other pool is touched. *)
Lemma shutdown_all_once ws (s : io_heap) l :
  wp (shutdown_all ws) (λ _ s',
    s' !! l = if bool_decide (Some l ∈ ws) then shutdown_private <$> s !! l else s !! l) s.
Proof.
  revert s. induction ws as [|w ws IH]; intros s; simpl; [by wp_steps|].
  wp_step. assert (Hw : ∀ s', s' !! l = (if bool_decide (w = Some l) then shutdown_private <$> s !! l
    else s !! l) → wp (shutdown_all ws) (λ _ s'', s'' !! l =
      if bool_decide (Some l ∈ w :: ws) then shutdown_private <$> s !! l else s !! l) s').
  { intros s' Hs'. eapply wp_mono; [apply IH|]. simpl. intros _ s'' ->. rewrite Hs'.
    destruct (decide (w = Some l)) as [->|Hne].
    - rewrite !(bool_decide_true (Some l = Some l)) by done.
      rewrite (bool_decide_true (Some l ∈ Some l :: ws)) by left.
      destruct (bool_decide (Some l ∈ ws)), (s !! l); simpl; by rewrite ?shutdown_private_idemp.
    - rewrite !(bool_decide_false (w = Some l)) by done.
      rewrite (bool_decide_ext (Some l ∈ w :: ws) (Some l ∈ ws)); [done|].
      rewrite elem_of_cons. split; [intros [E|?]; [by destruct Hne|done]|by right]. }
  destruct w as [l'|]; simpl; wp_steps; apply Hw.
  - destruct (decide (l' = l)) as [->|Hne].
    + rewrite bool_decide_true by done. by rewrite lookup_alter_eq.
    + rewrite bool_decide_false by congruence. by rewrite lookup_alter_ne.
  - by rewrite bool_decide_false.
Qed.
End io_context.
