(* ===== verification/ErrorCodes.v ===== *)
(** Error codes: [Network::Error], [ErrorCategory] and [std::error_code]
    (include/core/ErrorCodes.h, src/core/ErrorCodes.cpp), the translation of ASIO
    errors into them (src/core/ErrorTranslation.cpp), and the interface of ASIO's
    own error constants, which are not part of the repository. *)

From S2P Require Import Prelude.

(** ** Data *)

(** [Network::Error]. *)
Inductive Error :=
| NO_ERROR
| CONNECTION_REFUSED
| CONNECTION_TIMEOUT
| CONNECTION_LOST
| CONNECTION_ESTABLISHMENT_FAILED
| SOCKET_CREATE_FAILED
| DNS_RESOLUTION_FAILED
| READ_FAILED
| WRITE_FAILED
| TIMEOUT
| PROTOCOL_ERROR
| TLS_HANDSHAKE_FAILED
| TLS_VALIDATION_FAILED
| TLS_CERT_LOAD_FAILURE
| SERVER_LISTEN_FAILED
| SERVER_ACCEPT_FAILED
| OPTION_ERROR
| INTERNAL_ERROR.

#[export] Instance Error_eq_dec : EqDecision Error.
Proof. solve_decision. Defined.

(** The enumerators in declaration order. *)
Definition all_errors : list Error :=
  [ NO_ERROR; CONNECTION_REFUSED; CONNECTION_TIMEOUT; CONNECTION_LOST;
    CONNECTION_ESTABLISHMENT_FAILED; SOCKET_CREATE_FAILED; DNS_RESOLUTION_FAILED;
    READ_FAILED; WRITE_FAILED; TIMEOUT; PROTOCOL_ERROR; TLS_HANDSHAKE_FAILED;
    TLS_VALIDATION_FAILED; TLS_CERT_LOAD_FAILURE; SERVER_LISTEN_FAILED;
    SERVER_ACCEPT_FAILED; OPTION_ERROR; INTERNAL_ERROR ].

(** [static_cast<int>(err)]: the first enumerator is 0, each next one adds 1. *)
Definition Error_to_int (e : Error) : Z :=
  match e with
  | NO_ERROR => 0
  | CONNECTION_REFUSED => 1
  | CONNECTION_TIMEOUT => 2
  | CONNECTION_LOST => 3
  | CONNECTION_ESTABLISHMENT_FAILED => 4
  | SOCKET_CREATE_FAILED => 5
  | DNS_RESOLUTION_FAILED => 6
  | READ_FAILED => 7
  | WRITE_FAILED => 8
  | TIMEOUT => 9
  | PROTOCOL_ERROR => 10
  | TLS_HANDSHAKE_FAILED => 11
  | TLS_VALIDATION_FAILED => 12
  | TLS_CERT_LOAD_FAILURE => 13
  | SERVER_LISTEN_FAILED => 14
  | SERVER_ACCEPT_FAILED => 15
  | OPTION_ERROR => 16
  | INTERNAL_ERROR => 17
  end.

(** [static_cast<Error>(ev)], [None] when no enumerator has the value. *)
Definition Error_of_int (ev : Z) : option Error :=
  if decide (0 ≤ ev) then all_errors !! Z.to_nat ev else None.

(** The error categories, compared by identity as [std::error_category] is. *)
Inductive category :=
| cat_network                  (* getNetworkCategory() *)
| cat_generic                  (* std::generic_category() *)
| cat_system                   (* std::system_category() *)
| cat_foreign (n : nat).       (* a category of another library *)

#[export] Instance category_eq_dec : EqDecision category.
Proof. solve_decision. Defined.

(** [std::error_code]. *)
Record error_code := ErrorCode { ec_value : Z; ec_category : category }.

#[export] Instance error_code_eq_dec : EqDecision error_code.
Proof. solve_decision. Defined.

(** [std::expected<A, std::error_code>]. *)
Abbreviation result := (expected error_code).

(** The default-constructed [std::error_code]. *)
Definition ec_none : error_code := ErrorCode 0 cat_system.

(** [explicit operator bool]: true for an error. *)
Definition ec_bool (ec : error_code) : bool := negb (bool_decide (ec_value ec = 0)).

(** [make_error_code(Network::Error)]. *)
Definition make_error_code (err : Error) : error_code :=
  ErrorCode (Error_to_int err) cat_network.

(** [ErrorCategory::name]. *)
Definition category_name : bytes := txt "network".

(** [ErrorCategory::message]. *)
Definition message (ev : Z) : bytes :=
  match Error_of_int ev with
  | Some NO_ERROR => txt "No error"
  | Some CONNECTION_REFUSED => txt "Connection was refused by the remote host"
  | Some CONNECTION_TIMEOUT => txt "Connection attempt timed out"
  | Some CONNECTION_LOST => txt "Connection was lost during communication"
  | Some CONNECTION_ESTABLISHMENT_FAILED =>
      txt "Failed to establish connection to remote host"
  | Some SOCKET_CREATE_FAILED => txt "Failed to create socket"
  | Some DNS_RESOLUTION_FAILED => txt "Failed to resolve hostname (DNS lookup failed)"
  | Some READ_FAILED => txt "Failed to read data from socket"
  | Some WRITE_FAILED => txt "Failed to write data to socket"
  | Some TIMEOUT => txt "Operation timed out"
  | Some PROTOCOL_ERROR =>
      txt "Protocol error occurred while communicating with the server"
  | Some TLS_HANDSHAKE_FAILED => txt "TLS handshake failed"
  | Some TLS_VALIDATION_FAILED => txt "TLS certificate validation failed"
  | Some TLS_CERT_LOAD_FAILURE => txt "Failed to load TLS certificate or private key"
  | Some SERVER_LISTEN_FAILED => txt "Failed to start server listener"
  | Some SERVER_ACCEPT_FAILED => txt "Failed to accept incoming connection"
  | Some INTERNAL_ERROR => txt "Internal error occurred"
  | Some OPTION_ERROR => txt "Internal options failure"
  | None => txt "Unknown network error"
  end.

(** The [std::errc] conditions the program makes error codes of, with the errno
    values of Linux. *)
Inductive errc := io_error | invalid_argument | result_out_of_range | protocol_error
  | operation_canceled.

Definition errc_value (e : errc) : Z :=
  match e with
  | io_error => 5
  | invalid_argument => 22
  | result_out_of_range => 34
  | protocol_error => 71
  | operation_canceled => 125
  end.

(** [std::make_error_code(std::errc)]. *)
Definition std_make_error_code (e : errc) : error_code :=
  ErrorCode (errc_value e) cat_generic.

(** ** ASIO's error constants (interface)

    The names of [asio::error] and [asio::ssl::error] the program compares with.
    ASIO documents them as distinct error codes, all different from success, in
    the categories system, netdb, misc and stream, which are neither the
    program's own category nor the generic one. *)
Inductive asio_errname :=
| eof | connection_reset | broken_pipe | not_connected | timed_out
| connection_refused | connection_aborted | host_not_found
| host_not_found_try_again | try_again | address_family_not_supported
| already_open | operation_not_supported | no_buffer_space
| operation_aborted | bad_descriptor | stream_truncated.

#[export] Instance asio_errname_eq_dec : EqDecision asio_errname.
Proof. solve_decision. Defined.

Class AsioErrors := {
  asio_error : asio_errname → error_code;
  asio_error_inj :: Inj (=) (=) asio_error;
  asio_error_set x : ec_bool (asio_error x) = true;
  asio_error_cat x : ec_category (asio_error x) ≠ cat_network ∧
                     ec_category (asio_error x) ≠ cat_generic
}.

(** The values on Linux, which show that the interface can be implemented. *)
Definition linux_asio_error (x : asio_errname) : error_code :=
  match x with
  | eof => ErrorCode 2 (cat_foreign 0)
  | connection_reset => ErrorCode 104 cat_system
  | broken_pipe => ErrorCode 32 cat_system
  | not_connected => ErrorCode 107 cat_system
  | timed_out => ErrorCode 110 cat_system
  | connection_refused => ErrorCode 111 cat_system
  | connection_aborted => ErrorCode 103 cat_system
  | host_not_found => ErrorCode 1 (cat_foreign 1)
  | host_not_found_try_again => ErrorCode 2 (cat_foreign 1)
  | try_again => ErrorCode 11 cat_system
  | address_family_not_supported => ErrorCode 97 cat_system
  | already_open => ErrorCode 1 (cat_foreign 0)
  | operation_not_supported => ErrorCode 95 cat_system
  | no_buffer_space => ErrorCode 105 cat_system
  | operation_aborted => ErrorCode 125 cat_system
  | bad_descriptor => ErrorCode 9 cat_system
  | stream_truncated => ErrorCode 1 (cat_foreign 2)
  end.

#[export] Program Instance linux_asio_errors : AsioErrors :=
  {| asio_error := linux_asio_error |}.
Next Obligation. intros [] []; (done || discriminate). Qed.
Next Obligation. by intros []. Qed.
Next Obligation. by intros []. Qed.

(** ** Lemmas *)

Lemma all_errors_lookup e : all_errors !! Z.to_nat (Error_to_int e) = Some e.
Proof. by destruct e. Qed.

Lemma Error_to_int_range e : 0 ≤ Error_to_int e ≤ 17.
Proof. destruct e; simpl; lia. Qed.

Lemma Error_of_to_int e : Error_of_int (Error_to_int e) = Some e.
Proof.
  unfold Error_of_int. pose proof (Error_to_int_range e).
  rewrite decide_True by lia. apply all_errors_lookup.
Qed.

#[export] Instance Error_to_int_inj : Inj (=) (=) Error_to_int.
Proof.
  intros e1 e2 H. pose proof (Error_of_to_int e1) as H1.
  rewrite H, Error_of_to_int in H1. congruence.
Qed.

#[export] Instance make_error_code_inj : Inj (=) (=) make_error_code.
Proof. intros e1 e2 [=]. by apply (inj Error_to_int). Qed.

Lemma make_error_code_bool e : ec_bool (make_error_code e) = negb (bool_decide (e = NO_ERROR)).
Proof. by destruct e. Qed.

Section asio_lemmas.
Context `{AE : AsioErrors}.

Lemma asio_error_ne_network x e : asio_error x ≠ make_error_code e.
Proof. intros H. destruct (asio_error_cat x) as [Hc _]. by rewrite H in Hc. Qed.

Lemma asio_error_ne_generic x e : asio_error x ≠ std_make_error_code e.
Proof. intros H. destruct (asio_error_cat x) as [_ Hc]. by rewrite H in Hc. Qed.

Lemma asio_error_eq_decide x y :
  bool_decide (asio_error x = asio_error y) = bool_decide (x = y).
Proof. apply bool_decide_ext. split; [apply (inj _)|by intros ->]. Qed.

Lemma asio_error_none x : asio_error x ≠ ec_none.
Proof. intros H. pose proof (asio_error_set x) as Hs. by rewrite H in Hs. Qed.
End asio_lemmas.

(** An enumerator's value and its name are inverse, and a value that no
    enumerator has is reported as unknown. *)
Lemma message_unknown ev : ¬ (0 ≤ ev ≤ 17) → message ev = txt "Unknown network error".
Proof.
  intros Hev. unfold message, Error_of_int. destruct (decide (0 ≤ ev)) as [H|]; [|done].
  by rewrite lookup_ge_None_2 by (simpl; lia).
Qed.
