(* ===== verification/ErrorTranslation.v ===== *)
(** Translation of ASIO error codes into the program's own
    (src/core/ErrorTranslation.cpp). *)

From S2P Require Import Prelude ErrorCodes.

Section translation.
Context `{AE : AsioErrors}.
Implicit Types ec : error_code.

(** [ec == asio::error::x]. *)
Definition ec_is ec (x : asio_errname) : bool := bool_decide (ec = asio_error x).

Definition isConnectionClosed ec : bool :=
  ec_is ec eof || ec_is ec connection_reset || ec_is ec broken_pipe ||
  ec_is ec not_connected.

Definition isTimeout ec : bool := ec_is ec timed_out.

Definition isConnectionRefused ec : bool :=
  ec_is ec connection_refused || ec_is ec connection_aborted || ec_is ec broken_pipe.

Definition isDnsError ec : bool :=
  ec_is ec host_not_found || ec_is ec host_not_found_try_again || ec_is ec try_again.

Definition isSocketCreateError ec : bool :=
  ec_is ec address_family_not_supported || ec_is ec already_open ||
  ec_is ec operation_not_supported.

Definition makeConnectionError ec : error_code :=
  if negb (ec_bool ec) then make_error_code NO_ERROR
  else if isTimeout ec then make_error_code CONNECTION_TIMEOUT
  else if isConnectionRefused ec then make_error_code CONNECTION_REFUSED
  else if isConnectionClosed ec then make_error_code CONNECTION_LOST
  else make_error_code CONNECTION_ESTABLISHMENT_FAILED.

Definition makeReadError ec : error_code :=
  if negb (ec_bool ec) then make_error_code NO_ERROR
  else if isTimeout ec then make_error_code TIMEOUT
  else if isConnectionClosed ec then make_error_code CONNECTION_LOST
  else if ec_is ec no_buffer_space then make_error_code READ_FAILED
  else make_error_code READ_FAILED.

Definition makeWriteError ec : error_code :=
  if negb (ec_bool ec) then make_error_code NO_ERROR
  else if isTimeout ec then make_error_code TIMEOUT
  else if ec_is ec no_buffer_space || ec_is ec broken_pipe
  then make_error_code WRITE_FAILED
  else if isConnectionClosed ec then make_error_code CONNECTION_LOST
  else make_error_code WRITE_FAILED.

Definition makeDnsError ec : error_code :=
  if negb (ec_bool ec) then make_error_code NO_ERROR
  else if isDnsError ec then make_error_code DNS_RESOLUTION_FAILED
  else make_error_code DNS_RESOLUTION_FAILED.

Definition makeTlsError ec : error_code :=
  if negb (ec_bool ec) then make_error_code NO_ERROR
  else make_error_code TLS_HANDSHAKE_FAILED.

Definition makeServerError ec (operation : bytes) : error_code :=
  if negb (ec_bool ec) then make_error_code NO_ERROR
  else if bool_decide (operation = txt "listen") || starts_with (txt "listen") operation
  then make_error_code SERVER_LISTEN_FAILED
  else if bool_decide (operation = txt "accept") || starts_with (txt "accept") operation
  then make_error_code SERVER_ACCEPT_FAILED
  else make_error_code INTERNAL_ERROR.

Definition makeSocketCreateError ec : error_code :=
  if negb (ec_bool ec) then make_error_code NO_ERROR
  else if isSocketCreateError ec then make_error_code SOCKET_CREATE_FAILED
  else make_error_code SOCKET_CREATE_FAILED.

(** It only logs its argument. *)
Definition makeOptionError (ec : error_code) : error_code := make_error_code OPTION_ERROR.

(** ** Lemmas *)

Lemma ec_is_asio x y : ec_is (asio_error x) y = bool_decide (x = y).
Proof. apply asio_error_eq_decide. Qed.

Lemma ec_is_generic e x : ec_is (std_make_error_code e) x = false.
Proof.
  apply bool_decide_eq_false_2. intros H. by apply (asio_error_ne_generic x e).
Qed.

Lemma ec_is_network e x : ec_is (make_error_code e) x = false.
Proof.
  apply bool_decide_eq_false_2. intros H. by apply (asio_error_ne_network x e).
Qed.

(** What every translation of a code gives: a code of the program's category
    that is an error exactly when its argument is one. *)
Definition translates (f : error_code → error_code) : Prop :=
  ∀ ec, ec_category (f ec) = cat_network ∧ ec_bool (f ec) = ec_bool ec.
End translation.

Create Rewrite HintDb ecs.
#[export] Hint Rewrite @ec_is_asio @ec_is_generic @ec_is_network @asio_error_set : ecs.

(** Case analysis on the tests of a translation. *)
Ltac translation_cases :=
  repeat match goal with
         | |- context [if ?b then _ else _] => destruct b eqn:?
         end; try done.

(** Every translation function returns a code of the program's own category,
    which is an error exactly when the ASIO code is one (makeOptionError, which is
    called only with an error, apart): no error is lost and no success becomes
    an error. *)
Theorem translations_preserve_failure `{AE : AsioErrors} (operation : bytes) :
  translates makeConnectionError ∧ translates makeReadError ∧
  translates makeWriteError ∧ translates makeDnsError ∧ translates makeTlsError ∧
  translates (λ ec, makeServerError ec operation) ∧ translates makeSocketCreateError.
Proof.
  split_and!; intros ec;
    unfold makeConnectionError, makeReadError, makeWriteError, makeDnsError,
      makeTlsError, makeServerError, makeSocketCreateError;
    destruct (ec_bool ec) eqn:E; simpl; translation_cases.
Qed.

(** The code each ASIO error is reported as while connecting, reading and
    writing. *)
Definition connection_error_of (x : asio_errname) : Error :=
  match x with
  | timed_out => CONNECTION_TIMEOUT
  | connection_refused | connection_aborted | broken_pipe => CONNECTION_REFUSED
  | eof | connection_reset | not_connected => CONNECTION_LOST
  | _ => CONNECTION_ESTABLISHMENT_FAILED
  end.

Definition read_error_of (x : asio_errname) : Error :=
  match x with
  | timed_out => TIMEOUT
  | eof | connection_reset | broken_pipe | not_connected => CONNECTION_LOST
  | _ => READ_FAILED
  end.

Definition write_error_of (x : asio_errname) : Error :=
  match x with
  | timed_out => TIMEOUT
  | eof | connection_reset | not_connected => CONNECTION_LOST
  | _ => WRITE_FAILED
  end.

(** Which program error each ASIO error becomes: a broken pipe is a refusal
    while connecting, a lost connection while reading and a write failure while
    writing; a time-out keeps its own code in each of the three. *)
Theorem translation_table `{AE : AsioErrors} (x : asio_errname) :
  makeConnectionError (asio_error x) = make_error_code (connection_error_of x) ∧
  makeReadError (asio_error x) = make_error_code (read_error_of x) ∧
  makeWriteError (asio_error x) = make_error_code (write_error_of x).
Proof.
  unfold makeConnectionError, makeReadError, makeWriteError, isTimeout,
    isConnectionRefused, isConnectionClosed.
  autorewrite with ecs. by destruct x.
Qed.

(** The blocking wrappers report a coroutine that threw as these two codes. *)
Lemma makeReadError_canceled `{AE : AsioErrors} :
  makeReadError (std_make_error_code operation_canceled) = make_error_code READ_FAILED.
Proof.
  unfold makeReadError, isTimeout, isConnectionClosed. by autorewrite with ecs.
Qed.

Lemma makeWriteError_canceled `{AE : AsioErrors} :
  makeWriteError (std_make_error_code operation_canceled) = make_error_code WRITE_FAILED.
Proof.
  unfold makeWriteError, isTimeout, isConnectionClosed. by autorewrite with ecs.
Qed.
