(* ===== verification/SocketBase.v ===== *)
(** The socket interface of the stack: [SocketBase], [SyncSocket], [AsyncSocket]
    and [DualSocket] (include/socket/SocketBase.h) as a typeclass, with the
    contract its clients (frames, tickets, FTP) are proved against. The file
    Socket discharges the contract for TcpSocket and TlsSocket. *)

From S2P Require Import Prelude ErrorCodes.

(** The blocking operations and their coroutine versions. *)
Inductive mode := Sync | Async.

(** The dynamic type of a [DualSocket], what [dynamic_cast] asks for. *)
Inductive socket_class := TcpSocketClass | TlsSocketClass | OtherSocketClass.

(** [K] is the type of socket objects and [W] the world they live in. A read
    takes the caller's out span and gives back what it then holds; [destroySocket]
    is the virtual destructor. *)
Class DualSocket (K W : Type) := {
  dynamic_class : K → socket_class;
  getId : K → Z;
  isConnected : K → W → bool;
  closeSocket : M (K * W) unit;
  cancelSocket : M (K * W) unit;
  destroySocket : M (K * W) unit;
  writeAll : mode → bytes → option Z → M (K * W) (result nat);
  readSome : mode → bytes → option Z → M (K * W) (result nat * bytes);
  readExact : mode → bytes → option Z → M (K * W) (result nat * bytes);
  readUntil : mode → bytes → bytes → option Z → M (K * W) (result nat * bytes)
}.

(** What a client may rely on, over three views of a socket: [rx], the bytes it
    will still deliver to its reader, in order; [sent], the bytes it has accepted
    from its writer; and [live], a connection on which no operation fails. *)
Class DualSocketSpec (K W : Type) `{DualSocket K W} := {
  rx : K → W → bytes;
  sent : K → W → bytes;
  live : K → W → Prop;
  readExact_sound md out t k w :
    wlp (readExact md out t) (λ ro kw,
      ∀ n, ro.1 = Ok n →
        n = length out ∧ length ro.2 = length out ∧
        rx k w = ro.2 ++ rx kw.1 kw.2 ∧ sent kw.1 kw.2 = sent k w) (k, w);
  readExact_live md out t k w :
    live k w → (length out ≤ length (rx k w))%nat →
    wp (readExact md out t) (λ ro kw,
      ro = (Ok (length out), take (length out) (rx k w)) ∧
      rx kw.1 kw.2 = drop (length out) (rx k w) ∧
      sent kw.1 kw.2 = sent k w ∧ live kw.1 kw.2) (k, w);
  writeAll_sound md b t k w :
    wlp (writeAll md b t) (λ r kw,
      ∀ n, r = Ok n → n = length b ∧ sent kw.1 kw.2 = sent k w ++ b) (k, w);
  writeAll_live md b t k w :
    live k w →
    wp (writeAll md b t) (λ r kw,
      r = Ok (length b) ∧ sent kw.1 kw.2 = sent k w ++ b ∧ live kw.1 kw.2 ∧
      ∃ more, rx kw.1 kw.2 = rx k w ++ more) (k, w);
  dynamic_class_stable md out t k w :
    wlp (readExact md out t) (λ _ kw, dynamic_class kw.1 = dynamic_class k) (k, w) ∧
    wlp (writeAll md out t) (λ _ kw, dynamic_class kw.1 = dynamic_class k) (k, w);
  live_isConnected k w : live k w → isConnected k w = true;
  closeSocket_closes k w :
    wp closeSocket (λ _ kw, isConnected kw.1 kw.2 = false ∧
      dynamic_class kw.1 = dynamic_class k ∧ sent kw.1 kw.2 = sent k w) (k, w);
  destroySocket_closes k w :
    wp destroySocket (λ _ kw, isConnected kw.1 kw.2 = false) (k, w)
}.

(** What the text protocols need besides: reading lines that end with CR LF and
    reading up to the end of the stream. [search_fuel] bounds the lengths of the
    streams for which the search of a line is known to end. *)
Class LineSocketSpec (K W : Type) `{DualSocketSpec K W} `{AsioErrors} := {
  search_fuel : nat;
  readUntil_line md out t k w :
    (length (rx k w) < search_fuel)%nat →
    wp (readUntil md out CRLF t) (λ ro kw,
      length ro.2 = length out ∧ sent kw.1 kw.2 = sent k w ∧
      (∀ n, ro.1 = Ok n → ∃ i,
         search CRLF (rx k w) = Some i ∧ (i < length out)%nat ∧
         n = ((i + 2) `min` length out)%nat ∧ rx k w = take n ro.2 ++ rx kw.1 kw.2) ∧
      (∀ i, live k w → search CRLF (rx k w) = Some i → (i < length out)%nat →
         has_value ro.1 = true ∧ live kw.1 kw.2)) (k, w);
  readSome_next md out t k w :
    out ≠ [] →
    wp (readSome md out t) (λ ro kw,
      length ro.2 = length out ∧ sent kw.1 kw.2 = sent k w ∧
      (∀ n, ro.1 = Ok n →
         (0 < n ≤ length out)%nat ∧ rx k w = take n ro.2 ++ rx kw.1 kw.2) ∧
      (ro.1 = Unexpected (asio_error eof) → rx k w = [])) (k, w)
}.

(** ** What the operations keep

    A relation that every operation on a socket respects, whatever comes of it: between
    the socket and its world before and after. *)
Inductive socket_call {K W : Type} `{DualSocket K W} : ∀ A, M (K * W) A → Prop :=
| call_closeSocket : socket_call _ closeSocket
| call_cancelSocket : socket_call _ cancelSocket
| call_writeAll md b t : socket_call _ (writeAll md b t)
| call_readSome md out t : socket_call _ (readSome md out t)
| call_readExact md out t : socket_call _ (readExact md out t)
| call_readUntil md out d t : socket_call _ (readUntil md out d t).

Class SocketInvariant {K W : Type} `{DualSocket K W} (R : K * W → K * W → Prop) := {
  socket_preorder :: PreOrder R;
  socket_keeps A (m : M (K * W) A) : socket_call A m → steps R m
}.

(** Sockets that can be told apart, whatever is done with them. *)
Class SocketIdentity (K W : Type) `{DualSocket K W} := {
  identity : Type;
  key : K → identity;
  key_stable :: SocketInvariant (λ s s', key s'.1 = key s.1)
}.
