(* ===== verification/Socket.v ===== *)
(** TcpSocket and TlsSocket over ASIO: the read buffer and the four operations of
    include/socket/details/SocketBaseDetail.h, the classes of
    src/socket/TcpSocket.cpp, src/socket/TlsSocket.cpp and
    src/socket/SocketBase.cpp, and the proof that they keep the contract of
    SocketBase. ASIO itself is an interface with the laws it documents. *)

From S2P Require Import Prelude ErrorCodes ErrorTranslation SocketBase.

(** ** ASIO (interface) *)

(** What a coroutine sees when a read resumes it: the error code of the
    operation, the bytes put at the start of its buffer, and whether the handler
    of the timer that was started with it had run, without error, by then. *)
Record read_completion := ReadCompletion {
  rc_ec : error_code;
  rc_data : bytes;
  rc_timed_out : bool
}.

Record write_completion := WriteCompletion {
  wc_ec : error_code;
  wc_bytes : nat;
  wc_timed_out : bool
}.

(** The operations of ASIO on a stream ([asio::ip::tcp::socket] or
    [asio::ssl::stream]) and on [asio::dynamic_buffer] over a vector. A read of
    at most [n] bytes, or a write, runs against a timer of the given
    milliseconds. [executor_runs] says whether the executor still runs coroutines:
    the future of one that it drops throws. *)
Class Asio (W : Type) := {
  stream : Type;
  is_open : stream → W → bool;
  executor_runs : stream → W → bool;
  async_read_some : stream → nat → Z → W → read_completion * W;
  async_write : stream → bytes → Z → W → write_completion * W;
  shutdown_send : stream → W → W;
  close : stream → W → W;
  cancel : stream → W → W;
  emit_cancel_signal : stream → W → W;
  dyn_prepare : bytes → nat → bytes;
  dyn_commit : bytes → nat → nat → bytes
}.
Arguments stream W {_}.

(** The documented behaviour. [incoming] is the byte stream that the peer has
    written and that the connection will still deliver, [outgoing] what has been
    handed to it, and [healthy] a connection on which nothing fails. *)
Class AsioSpec (W : Type) `{AE : AsioErrors} `{A : Asio W} := {
  incoming : stream W → W → bytes;
  outgoing : stream W → W → bytes;
  healthy : stream W → W → Prop;
  (** a read fills at most its buffer, and nothing of it when it fails *)
  read_bounded h n t w c w' :
    async_read_some h n t w = (c, w') → (length (rc_data c) ≤ n)%nat;
  read_failed_nothing h n t w c w' :
    async_read_some h n t w = (c, w') → ec_bool (rc_ec c) = true → rc_data c = [];
  (** the stream is delivered in order, and reading leaves the rest alone *)
  read_in_order h n t w c w' :
    async_read_some h n t w = (c, w') →
    incoming h w = rc_data c ++ incoming h w' ∧ outgoing h w' = outgoing h w ∧
    is_open h w' = is_open h w;
  (** a read into a buffer that is not empty ends with eof, or takes nothing
      without failing, only when the peer has ended the stream and nothing is left *)
  read_ended h n t w c w' :
    (0 < n)%nat → async_read_some h n t w = (c, w') →
    rc_ec c = asio_error eof ∨ ec_bool (rc_ec c) = false ∧ rc_data c = [] →
    incoming h w = [];
  (** a successful write takes the whole buffer *)
  write_complete h b t w c w' :
    async_write h b t w = (c, w') → ec_bool (wc_ec c) = false →
    wc_bytes c = length b ∧ outgoing h w' = outgoing h w ++ b;
  (** a healthy connection delivers what is there and takes what is written *)
  healthy_open h w :
    healthy h w → is_open h w = true ∧ executor_runs h w = true;
  healthy_read h n t w c w' :
    healthy h w → (0 < n)%nat → incoming h w ≠ [] →
    async_read_some h n t w = (c, w') →
    ec_bool (rc_ec c) = false ∧ rc_data c ≠ [] ∧ healthy h w';
  healthy_write h b t w c w' :
    healthy h w → async_write h b t w = (c, w') →
    ec_bool (wc_ec c) = false ∧ healthy h w' ∧
    ∃ more, incoming h w' = incoming h w ++ more;
  (** closing makes a socket not open and sends nothing; shutting down its sending
      side or cancelling its operations does not open it again *)
  close_closes h w : is_open h (close h w) = false;
  close_sends_nothing h w : outgoing h (close h (shutdown_send h w)) = outgoing h w ∧
    outgoing h (close h w) = outgoing h w;
  (** [prepare(n)] resizes the vector so that [n] bytes follow its content;
      [commit(k)] keeps the first [k] of them and drops the rest *)
  dyn_prepare_spec v n : ∃ fresh, length fresh = n ∧ dyn_prepare v n = v ++ fresh;
  dyn_commit_spec v size k :
    (size ≤ length v)%nat →
    dyn_commit v size k = take (size + k `min` (length v - size)) v
}.

Section socket.
Context {W : Type} `{AE : AsioErrors} `{A : Asio W}.

(** ** State *)

(** A TcpSocket or TlsSocket: [_id], the class, the ASIO stream it owns and
    [_read_buffer]. *)
Record socket := Socket {
  s_id : Z;
  s_class : socket_class;
  s_stream : stream W;
  s_buf : bytes
}.

Definition st : Type := socket * W.

Definition set_buf (b : bytes) (s : st) : st :=
  (Socket (s_id s.1) (s_class s.1) (s_stream s.1) b, s.2).
Definition set_world (w : W) (s : st) : st := (s.1, w).
Definition read_buffer (s : st) : bytes := s_buf s.1.

(** [SocketBase::SocketBase]: takes the next value of [id_counter], an unsigned
    int that wraps. *)
Definition SocketBase_new (id_counter : Z) (c : socket_class) (h : stream W) : socket * Z :=
  (Socket id_counter c h [], wrap_u32 (id_counter + 1)).
(** [TcpSocket::TcpSocket] and [TlsSocket::TlsSocket]. *)
Definition TcpSocket_new (id_counter : Z) := SocketBase_new id_counter TcpSocketClass.
Definition TlsSocket_new (id_counter : Z) := SocketBase_new id_counter TlsSocketClass.

(** [isConnected] of both classes. *)
Definition socket_isConnected (k : socket) (w : W) : bool := is_open (s_stream k) w.
Definition connected (s : st) : bool := socket_isConnected s.1 s.2.

(** ** socket_detail *)

Definition makeTimeoutError : error_code := make_error_code CONNECTION_TIMEOUT.

(** [std::chrono::hours(24)] in milliseconds. *)
Definition hours24 : Z := 86400000.

(** The new content of the out span, the new read buffer and the number of
    bytes moved. [None] is [std::numeric_limits<std::size_t>::max()], which no
    length exceeds. *)
Definition move_data (buffer out : bytes) (max_len : option nat) : nat * (bytes * bytes) :=
  let room := (length buffer `min` length out)%nat in
  let bytes_to_copy := match max_len with Some m => (m `min` room)%nat | None => room end in
  (bytes_to_copy,
   (take bytes_to_copy buffer ++ drop bytes_to_copy out, drop bytes_to_copy buffer)).

(** [move_data] on the socket's own buffer. *)
Definition move_out (out : bytes) (max_len : option nat) : M st (result nat * bytes) :=
  buffer ← gets read_buffer;
  let '(n, (out', buffer')) := move_data buffer out max_len in
  modify (set_buf buffer');; mret (Ok n, out').

(** ASIO writes the received bytes into the vector from the prepared offset. *)
Definition write_at (off : nat) (data v : bytes) : bytes :=
  take off v ++ data ++ drop (off + length data) v.

(** Reads into the [n] bytes of the read buffer that start at [off]. *)
Definition asyncReadWithTimeout (off n : nat) (timeout : Z) : M st (result nat) :=
  λ s, let '(c, w') := async_read_some (s_stream s.1) n timeout s.2 in
       let s' := set_world w' (set_buf (write_at off (rc_data c) (read_buffer s)) s) in
       if ec_bool (rc_ec c) then
         if bool_decide (rc_ec c = asio_error operation_aborted) && rc_timed_out c
         then (Done (Unexpected makeTimeoutError), s')
         else (Done (Unexpected (rc_ec c)), s')
       else (Done (Ok (length (rc_data c))), s').

(** The block that each of the three reads runs to get more bytes: prepare the
    buffer, read, give up on an error or on zero bytes, commit. *)
Definition read_more (n : nat) (timeout : Z) : M st (result nat) :=
  size ← gets (λ s, length (read_buffer s));
  modify (λ s, set_buf (dyn_prepare (read_buffer s) n) s);;
  got ←? asyncReadWithTimeout size n timeout;
  if bool_decide (got = 0%nat) then mret (Unexpected (asio_error eof))
  else modify (λ s, set_buf (dyn_commit (read_buffer s) size got) s);; mret (Ok got).

Definition zeros (n : nat) : bytes := replicate n Byte.x00.

Definition asyncReadSomeCommon (out : bytes) (timeout : option Z) : M st (result nat * bytes) :=
  conn ← gets connected;
  if negb conn then mret (Unexpected (asio_error not_connected), out)
  else
    let out := zeros (length out) in
    let t := default hours24 timeout in
    if bool_decide (out = []) then mret (Ok 0%nat, out)
    else
      buffer ← gets read_buffer;
      r ← (if bool_decide (buffer = []) then read_more (length out) t
           else mret (Ok 0%nat));
      match r with
      | Unexpected e => mret (Unexpected e, out)
      | Ok _ => move_out out None
      end.

(** [while (readBuffer.size() < out.size())]: an iteration either returns or
    adds at least one byte, so the length of the out span is enough fuel. *)
Fixpoint read_exact_loop (fuel len : nat) (t : Z) : M st (result unit) :=
  buffer ← gets read_buffer;
  if bool_decide (length buffer < len)%nat then
    match fuel with
    | O => out_of_fuel
    | S fuel' => _ ←? read_more len t; read_exact_loop fuel' len t
    end
  else mret (Ok tt).

Definition asyncReadExactCommon (out : bytes) (timeout : option Z) : M st (result nat * bytes) :=
  conn ← gets connected;
  if negb conn then mret (Unexpected (asio_error not_connected), out)
  else
    let out := zeros (length out) in
    let t := default hours24 timeout in
    r ← read_exact_loop (length out) (length out) t;
    match r with
    | Unexpected e => mret (Unexpected e, out)
    | Ok _ => move_out out None
    end.

(** [while (true)] of the delimiter search. The iterations are bounded by the
    bytes the peer sends, so the fuel is a parameter. *)
Fixpoint read_until_loop (fuel : nat) (delim out : bytes) (t : Z) : M st (result nat * bytes) :=
  buffer ← gets read_buffer;
  let it := default (length buffer) (search delim buffer) in
  if bool_decide (it ≠ length buffer) then
    let len := (it + 1)%nat in
    if bool_decide (length out < len)%nat
    then mret (Unexpected (make_error_code PROTOCOL_ERROR), out)
    else move_out out (Some (len + 1)%nat)
  else
    match fuel with
    | O => out_of_fuel
    | S fuel' =>
        r ← read_more (length out) t;
        match r with
        | Unexpected e => mret (Unexpected e, out)
        | Ok _ => read_until_loop fuel' delim out t
        end
    end.

Definition asyncReadUntilCommon (fuel : nat) (out delim : bytes) (timeout : option Z)
    : M st (result nat * bytes) :=
  conn ← gets connected;
  if negb conn then mret (Unexpected (asio_error not_connected), out)
  else read_until_loop fuel delim out (default hours24 timeout).

Definition asyncWriteAllCommon (buffer : bytes) (timeout : option Z) : M st (result nat) :=
  conn ← gets connected;
  if negb conn then mret (Unexpected (asio_error not_connected))
  else
    λ s, let '(c, w') := async_write (s_stream s.1) buffer (default hours24 timeout) s.2 in
         let s' := set_world w' s in
         if ec_bool (wc_ec c) then
           if bool_decide (wc_ec c = asio_error operation_aborted) && wc_timed_out c
           then (Done (Unexpected makeTimeoutError), s')
           else (Done (Unexpected (wc_ec c)), s')
         else (Done (Ok (wc_bytes c)), s').

(** ** TcpSocket and TlsSocket *)

(** [co_spawn] with [use_future], then [future.get()] in a [try]: when the
    executor drops the coroutine, or the coroutine throws, the operation
    returns [failed]. *)
Definition block_on {B} (failed : B) (m : M st B) : M st B :=
  λ s, if executor_runs (s_stream s.1) s.2 then
         match m s with
         | (Throw _, s') => (Done failed, s')
         | r => r
         end
       else (Done failed, s).

Definition read_failed : error_code := makeReadError (std_make_error_code operation_canceled).
Definition write_failed : error_code := makeWriteError (std_make_error_code operation_canceled).

Definition socket_writeAll (md : mode) (b : bytes) (t : option Z) : M st (result nat) :=
  match md with
  | Async => asyncWriteAllCommon b t
  | Sync => block_on (Unexpected write_failed) (asyncWriteAllCommon b t)
  end.

Definition socket_readSome (md : mode) (out : bytes) (t : option Z) : M st (result nat * bytes) :=
  match md with
  | Async => asyncReadSomeCommon out t
  | Sync => block_on (Unexpected read_failed, out) (asyncReadSomeCommon out t)
  end.

Definition socket_readExact (md : mode) (out : bytes) (t : option Z) : M st (result nat * bytes) :=
  match md with
  | Async => asyncReadExactCommon out t
  | Sync => block_on (Unexpected read_failed, out) (asyncReadExactCommon out t)
  end.

Definition socket_readUntil (fuel : nat) (md : mode) (out delim : bytes) (t : option Z)
    : M st (result nat * bytes) :=
  match md with
  | Async => asyncReadUntilCommon fuel out delim t
  | Sync => block_on (Unexpected read_failed, out) (asyncReadUntilCommon fuel out delim t)
  end.

(** TlsSocket.cpp has the same four functions once more, on the layer below its stream,
    whose executor, reads and writes [stream] stands for. *)
Definition TlsSocket_writeAll : mode → bytes → option Z → M st (result nat) := socket_writeAll.
Definition TlsSocket_readSome : mode → bytes → option Z → M st (result nat * bytes) :=
  socket_readSome.
Definition TlsSocket_readExact : mode → bytes → option Z → M st (result nat * bytes) :=
  socket_readExact.
Definition TlsSocket_readUntil (fuel : nat)
    : mode → bytes → bytes → option Z → M st (result nat * bytes) := socket_readUntil fuel.

Definition on_stream (f : stream W → W → W) (s : st) : st :=
  set_world (f (s_stream s.1) s.2) s.

(** [TcpSocket::closeSocket] shuts the sending side down first. *)
Definition TcpSocket_closeSocket : M st unit :=
  conn ← gets connected;
  if (conn : bool) then modify (on_stream shutdown_send);; modify (on_stream close)
  else mret tt.

Definition TlsSocket_closeSocket : M st unit :=
  conn ← gets connected;
  if (conn : bool) then modify (on_stream close) else mret tt.

Definition socket_closeSocket : M st unit :=
  c ← gets (λ s : st, s_class s.1);
  match c with
  | TlsSocketClass => TlsSocket_closeSocket
  | _ => TcpSocket_closeSocket
  end.

(** [SocketBase::cancelSocket] *)
Definition SocketBase_cancelSocket : M st unit := modify (on_stream emit_cancel_signal).

(** [cancelSocket] of both classes. *)
Definition socket_cancelSocket : M st unit :=
  SocketBase_cancelSocket;;
  conn ← gets connected;
  if (conn : bool) then modify (on_stream cancel) else mret tt.

(** [TcpSocket::~TcpSocket] and [TlsSocket::~TlsSocket]. *)
Definition socket_destroy : M st unit := socket_cancelSocket;; socket_closeSocket.

(** [TcpSocket::isConnectionClosed] and [TlsSocket::isConnectionClosed]. *)
Definition TcpSocket_isConnectionClosed (ec : error_code) : bool :=
  ec_is ec eof || ec_is ec connection_reset || ec_is ec broken_pipe || ec_is ec not_connected.
Definition TlsSocket_isConnectionClosed (ec : error_code) : bool :=
  ec_is ec eof || ec_is ec connection_reset || ec_is ec broken_pipe || ec_is ec not_connected ||
  ec_is ec stream_truncated.

(** The sockets of the program as an instance of the interface. *)
#[export] Instance socket_DualSocket (fuel : nat) : DualSocket socket W := {|
  dynamic_class := s_class;
  getId := s_id;
  SocketBase.isConnected := socket_isConnected;
  closeSocket := socket_closeSocket;
  cancelSocket := socket_cancelSocket;
  destroySocket := socket_destroy;
  writeAll := socket_writeAll;
  readSome := socket_readSome;
  readExact := socket_readExact;
  readUntil := socket_readUntil fuel
|}.

(** The two classes by themselves: what [socket_DualSocket] finds by the class of a socket. *)
Definition TcpSocket_destroy : M st unit := socket_cancelSocket;; TcpSocket_closeSocket.

Definition TlsSocket_isConnected : socket → W → bool := socket_isConnected.
Definition TlsSocket_cancelSocket : M st unit :=
  SocketBase_cancelSocket;;
  conn ← gets (λ s : st, TlsSocket_isConnected s.1 s.2);
  if (conn : bool) then modify (on_stream cancel) else mret tt.
Definition TlsSocket_destroy : M st unit := TlsSocket_cancelSocket;; TlsSocket_closeSocket.

Definition TcpSocket (fuel : nat) : DualSocket socket W := {|
  dynamic_class := λ _, TcpSocketClass;
  getId := s_id;
  SocketBase.isConnected := socket_isConnected;
  closeSocket := TcpSocket_closeSocket;
  cancelSocket := socket_cancelSocket;
  destroySocket := TcpSocket_destroy;
  writeAll := socket_writeAll;
  readSome := socket_readSome;
  readExact := socket_readExact;
  readUntil := socket_readUntil fuel
|}.

Definition TlsSocket (fuel : nat) : DualSocket socket W := {|
  dynamic_class := λ _, TlsSocketClass;
  getId := s_id;
  SocketBase.isConnected := TlsSocket_isConnected;
  closeSocket := TlsSocket_closeSocket;
  cancelSocket := TlsSocket_cancelSocket;
  destroySocket := TlsSocket_destroy;
  writeAll := TlsSocket_writeAll;
  readSome := TlsSocket_readSome;
  readExact := TlsSocket_readExact;
  readUntil := TlsSocket_readUntil fuel
|}.

(** A virtual call goes to the class of the socket. *)
Definition dispatched (fuel : nat) (c : socket_class) : DualSocket socket W :=
  match c with TlsSocketClass => TlsSocket fuel | _ => TcpSocket fuel end.

Lemma virtual_calls fuel (s : st) :
  let D := dispatched fuel (s_class s.1) in
  socket_closeSocket s = @closeSocket _ _ D s ∧ socket_cancelSocket s = @cancelSocket _ _ D s ∧
  socket_destroy s = @destroySocket _ _ D s ∧
  ∀ md b d t, socket_writeAll md b t s = @writeAll _ _ D md b t s ∧
    socket_readSome md b t s = @readSome _ _ D md b t s ∧
    socket_readExact md b t s = @readExact _ _ D md b t s ∧
    socket_readUntil fuel md b d t s = @readUntil _ _ D md b d t s.
Proof.
  destruct s as [[i c h b] w].
  assert (Hcancel : socket_cancelSocket (Socket i c h b, w) =
    (Done tt, (Socket i c h b, (socket_cancelSocket (Socket i c h b, w)).2.2))).
  { unfold socket_cancelSocket, SocketBase_cancelSocket, mbind, M_bind, modify, gets. simpl.
    by destruct (connected _). }
  simpl. split_and!; [by destruct c|by destruct c| |by destruct c].
  unfold socket_destroy, socket_closeSocket. destruct c; simpl;
    unfold TlsSocket_destroy, TcpSocket_destroy, mbind, M_bind;
    (change TlsSocket_cancelSocket with socket_cancelSocket || idtac); by rewrite Hcancel.
Qed.
End socket.
Arguments socket W {A}.
Arguments st W {A}.

(** ** Lemmas *)

Section socket_lemmas.
Context {W : Type} `{SP : AsioSpec W}.
Implicit Types (s : st W) (out : bytes).

(** The bytes still to come from the network for this socket. *)
Definition inc s : bytes := incoming (s_stream s.1) s.2.
Definition outg s : bytes := outgoing (s_stream s.1) s.2.
Definition ok s : Prop := healthy (s_stream s.1) s.2.

(** An operation keeps the identity of the socket, and reading also keeps it
    open and leaves what was sent. *)
Definition same_id s s' : Prop :=
  s_id s'.1 = s_id s.1 ∧ s_class s'.1 = s_class s.1 ∧ s_stream s'.1 = s_stream s.1.
Definition same_socket s s' : Prop :=
  same_id s s' ∧ connected s' = connected s ∧ outg s' = outg s.

#[export] Instance same_socket_preorder : PreOrder same_socket.
Proof.
  split.
  - by intros s.
  - intros s1 s2 s3 ((?&?&?)&?&?) ((?&?&?)&?&?). repeat split; congruence.
Qed.

Lemma move_data_spec buffer out max_len :
  let '(n, (out', buffer')) := move_data buffer out max_len in
  buffer = take n out' ++ buffer' ∧ length out' = length out ∧
  drop n out' = drop n out ∧ (n ≤ length out)%nat ∧ (n ≤ length buffer)%nat.
Proof.
  unfold move_data.
  set (n := match max_len with Some _ => _ | None => _ end).
  assert ((n ≤ length out)%nat ∧ (n ≤ length buffer)%nat) as [H1 H2].
  { subst n. destruct max_len; lia. }
  assert (length (take n buffer) = n) as Hn by (rewrite length_take; lia).
  split_and!; [| | |done|done].
  - rewrite take_app_le by lia. rewrite (take_ge (take n buffer)) by lia.
    by rewrite take_drop.
  - rewrite length_app, Hn, length_drop. lia.
  - rewrite drop_app_ge by lia. by rewrite Hn, Nat.sub_diag, drop_0.
Qed.

Lemma move_data_all buffer out :
  (length out ≤ length buffer)%nat →
  move_data buffer out None =
    (length out, (take (length out) buffer, drop (length out) buffer)).
Proof.
  intros H. unfold move_data. rewrite Nat.min_r by done.
  by rewrite drop_all, app_nil_r.
Qed.

Ltac healthy_case Hh :=
  intros Hok Hn Hne; by destruct (Hh Hok Hn Hne) as (? & ? & ?).

(** Getting more bytes: either they are appended to the buffer and taken from
    the network, or the operation fails and the buffer is left with the [n]
    prepared bytes that were never received. *)
Lemma read_more_spec n t s :
  wp (read_more n t) (λ r s',
    same_socket s s' ∧
    (ok s → (0 < n)%nat → inc s ≠ [] → ok s' ∧ has_value r = true) ∧
    match r with
    | Ok got => ∃ data,
        length data = got ∧ (0 < got ≤ n)%nat ∧
        read_buffer s' = read_buffer s ++ data ∧ inc s = data ++ inc s'
    | Unexpected e =>
        ((0 < n)%nat → e = asio_error eof → inc s = []) ∧
        ∃ junk, length junk = n ∧ read_buffer s' = read_buffer s ++ junk ∧ inc s' = inc s
    end) s.
Proof.
  destruct s as [k w]. unfold read_more. wp_steps.
  destruct (dyn_prepare_spec (s_buf k) n) as (fresh & Hlen & Hprep).
  unfold wp, asyncReadWithTimeout; simpl.
  destruct (async_read_some (s_stream k) n t w) as [c w'] eqn:Hread.
  pose proof (read_bounded _ _ _ _ _ _ Hread) as Hb.
  pose proof (read_failed_nothing _ _ _ _ _ _ Hread) as Hf.
  destruct (read_in_order _ _ _ _ _ _ Hread) as (Hin & Hout & Hopen).
  assert (Hh := λ H1 H2 H3, healthy_read (s_stream k) n t w c w' H1 H2 H3 Hread).
  assert (Hw : write_at (length (s_buf k)) (rc_data c) (dyn_prepare (s_buf k) n) =
               s_buf k ++ rc_data c ++ drop (length (rc_data c)) fresh).
  { unfold write_at. rewrite Hprep, take_app_length. f_equal. f_equal.
    by rewrite drop_app_ge, Nat.add_comm, Nat.add_sub by lia. }
  unfold read_buffer; simpl. rewrite Hw.
  destruct (ec_bool (rc_ec c)) eqn:Hec.
  - specialize (Hf eq_refl).
    destruct (_ && _); simpl; (split_and!; [done|healthy_case Hh| |]);
      try (exists fresh; unfold inc; simpl; by rewrite Hin, Hf).
    + intros _ He. by destruct (asio_error_ne_network eof CONNECTION_TIMEOUT).
    + intros Hn He. apply (read_ended _ _ _ _ _ _ Hn Hread). by left.
  - case_bool_decide as Hz; simpl.
    + apply nil_length_inv in Hz.
      split_and!; [done|healthy_case Hh| |].
      * intros Hn _. apply (read_ended _ _ _ _ _ _ Hn Hread). by right.
      * exists fresh; unfold inc; simpl; by rewrite Hin, Hz.
    + split_and!; [done|healthy_case Hh|].
      exists (rc_data c). split_and!; [done|lia|lia| |done].
      rewrite dyn_commit_spec by (rewrite !length_app; lia).
      rewrite !length_app, length_drop.
      rewrite Nat.min_l by lia.
      rewrite (take_app_ge (s_buf k)) by lia.
      rewrite (Nat.add_comm (length (s_buf k))), Nat.add_sub.
      by rewrite take_app_length.
Qed.

(** What the reader of the socket will still get: the buffer, then the network. *)
Definition rxs s : bytes := read_buffer s ++ inc s.

Lemma ok_connected s : ok s → connected s = true ∧ executor_runs (s_stream s.1) s.2 = true.
Proof. apply healthy_open. Qed.

Lemma move_out_spec out max_len s :
  wp (move_out out max_len) (λ ro s',
    same_socket s s' ∧ inc s' = inc s ∧ s'.2 = s.2 ∧ length ro.2 = length out ∧
    ∃ n, ro.1 = Ok n ∧
      n = (match max_len with
           | Some m => m `min` (length (read_buffer s) `min` length out)
           | None => length (read_buffer s) `min` length out
           end)%nat ∧
      read_buffer s = take n ro.2 ++ read_buffer s' ∧ drop n ro.2 = drop n out) s.
Proof.
  unfold move_out. wp_steps.
  pose proof (move_data_spec (read_buffer s) out max_len) as Hm.
  destruct (move_data _ _ _) as [n [out' buffer']] eqn:E.
  wp_steps. destruct Hm as (H1 & H2 & H3 & H4 & H5).
  split_and!; [done|done|done|done|]. exists n. split_and!; [done| |done|done].
  unfold move_data in E. by injection E as <- _.
Qed.

Lemma read_exact_loop_spec fuel len t s :
  (len - length (read_buffer s) ≤ fuel)%nat →
  wp (read_exact_loop fuel len t) (λ r s',
    same_socket s s' ∧
    (ok s → (len ≤ length (rxs s))%nat → ok s' ∧ has_value r = true) ∧
    (has_value r = true → rxs s' = rxs s ∧ (len ≤ length (read_buffer s'))%nat)) s.
Proof.
  revert s. induction fuel as [|fuel IH]; intros s Hf; simpl; wp_steps.
  - rewrite bool_decide_false by lia. wp_steps. by split_and!; [|auto|intros; split; [|lia]].
  - case_bool_decide as Hlt; wp_steps; [|by split_and!; [|auto|intros; split; [|lia]]].
    eapply wp_mono; [apply read_more_spec|]. simpl.
    intros [got|e] s1 (Hsame & Hh & Hr).
    + destruct Hr as (data & Hgot & Hpos & Hbuf & Hinc).
      assert (rxs s1 = rxs s) as Hrx.
      { unfold rxs. by rewrite Hbuf, Hinc, <- app_assoc. }
      eapply wp_mono; [apply IH; rewrite Hbuf, length_app; lia|]. simpl.
      intros r s2 (Hsame2 & Hok2 & Hval2). rewrite Hrx in *.
      split_and!; [by etrans| |done].
      intros Hok Hlen. apply Hok2; [|done].
      apply Hh; [done|lia|]. intros Hnil. unfold rxs in Hlen.
      rewrite Hnil, app_nil_r in Hlen. lia.
    + split_and!; [done| |done]. intros Hok Hlen.
      destruct Hh as [_ Hh]; [done|lia| |done]. intros Hnil. unfold rxs in Hlen.
      rewrite Hnil, app_nil_r in Hlen. lia.
Qed.

Lemma asyncReadExactCommon_spec out t s :
  wp (asyncReadExactCommon out t) (λ ro s',
    same_socket s s' ∧ length ro.2 = length out ∧
    (ok s → (length out ≤ length (rxs s))%nat → ok s' ∧ has_value ro.1 = true) ∧
    ∀ n, ro.1 = Ok n → n = length out ∧ rxs s = ro.2 ++ rxs s') s.
Proof.
  unfold asyncReadExactCommon. wp_steps.
  destruct (connected s) eqn:Hc; simpl; wp_steps.
  - assert (length (zeros (length out)) = length out) as Hz.
    { by unfold zeros; rewrite length_replicate. }
    rewrite Hz.
    eapply wp_mono; [apply read_exact_loop_spec; lia|]. simpl.
    intros [[]|e] s1 (Hsame & Hok & Hval); wp_steps; [|by split_and!].
    destruct Hval as [Hrx Hlen]; [done|].
    eapply wp_mono; [apply move_out_spec|]. simpl.
    intros ro s2 (Hs2 & Hinc & Hw & Hl & n & Hro & Hn & Hb & _).
    rewrite Hz in *. rewrite Nat.min_r in Hn by lia. subst n.
    split_and!; [by etrans|done| |].
    + intros H1 H2. destruct (Hok H1 H2) as [Hok1 _]. rewrite Hro. split; [|done].
      unfold ok in *. by rewrite Hw; destruct Hs2 as ((_ & _ & ->) & _ & _).
    + intros n. rewrite Hro. intros [= <-]. split; [done|].
      rewrite take_ge in Hb by lia. rewrite <- Hrx. unfold rxs.
      by rewrite Hb, Hinc, <- app_assoc.
  - split_and!; [done|done| |done]. intros Hok _. apply ok_connected in Hok as [? _]. congruence.
Qed.

(** A read on an unconnected socket touches nothing, not even the out span; on
    a connected one the out span is zero-filled first. *)
Lemma asyncReadSomeCommon_spec out t s :
  wp (asyncReadSomeCommon out t) (λ ro s',
    same_socket s s' ∧ length ro.2 = length out ∧
    match ro.1 with
    | Ok n =>
        connected s = true ∧ (n ≤ length out)%nat ∧ (out ≠ [] → 0 < n)%nat ∧
        rxs s = take n ro.2 ++ rxs s' ∧ drop n ro.2 = zeros (length out - n)
    | Unexpected e =>
        connected s = false ∧ e = asio_error not_connected ∧ s' = s ∧ ro.2 = out ∨
        connected s = true ∧ read_buffer s = [] ∧ out ≠ [] ∧
        length (read_buffer s') = length out ∧ inc s' = inc s ∧
        (e = asio_error eof → inc s = []) ∧ ro.2 = zeros (length out)
    end) s.
Proof.
  unfold asyncReadSomeCommon. wp_steps.
  destruct (connected s) eqn:Hc; simpl; wp_steps; [|split_and!; [done|done|by left]].
  assert (length (zeros (length out)) = length out) as Hz.
  { by unfold zeros; rewrite length_replicate. }
  rewrite Hz.
  assert (Hnil : zeros (length out) = [] ↔ out = []) by (by destruct out as [|b o]; split; intros [=]).
  case_bool_decide as Ho; wp_steps.
  - apply Hnil in Ho as ->. simpl. split_and!; try done; lia.
  - assert (Hmove : ∀ s1, same_socket s s1 → rxs s1 = rxs s → read_buffer s1 ≠ [] →
      wp (move_out (zeros (length out)) None) (λ ro s',
        same_socket s s' ∧ length ro.2 = length out ∧
        ∃ n, ro.1 = Ok n ∧ (n ≤ length out)%nat ∧ (0 < n)%nat ∧
          rxs s = take n ro.2 ++ rxs s' ∧ drop n ro.2 = zeros (length out - n)) s1).
    { intros s1 Hsame Hrx Hne. eapply wp_mono; [apply move_out_spec|]. simpl.
      intros ro s2 (Hs2 & Hinc & Hw & Hl & n & Hro & Hn & Hb & Hd). rewrite Hz in *.
      split_and!; [by etrans|done|]. exists n. split_and!; [done|lia| | |].
      - destruct (read_buffer s1); [done|]. destruct out as [|b0 o]; [by destruct Ho|]. simpl in *. lia.
      - rewrite <- Hrx. unfold rxs. by rewrite Hb, Hinc, <- app_assoc.
      - rewrite Hd. unfold zeros. by rewrite drop_replicate. }
    assert (Hout : out ≠ []) by (by intros H%Hnil).
    case_bool_decide as Hb; wp_steps.
    + eapply wp_mono; [apply read_more_spec|]. simpl.
      intros [got|e] s1 (Hsame & _ & Hr); wp_steps.
      * destruct Hr as (data & Hgot & Hpos & Hbuf & Hinc).
        eapply wp_mono; [apply (Hmove s1 Hsame)| ].
        -- unfold rxs. by rewrite Hbuf, Hinc, <- app_assoc.
        -- rewrite Hbuf, Hb. destruct data; simpl in *; [lia|done].
        -- intros ro s2 (H1 & H2 & n & -> & H3 & H4 & H5 & H6). by split_and!.
      * destruct Hr as (Heof & junk & Hlen & Hbuf & Hinc).
        split_and!; [done|done|]. right. rewrite Hbuf, Hb. split_and!; try done.
        apply Heof. destruct out; [done|simpl; lia].
    + eapply wp_mono; [by apply (Hmove s)|].
      intros ro s2 (H1 & H2 & n & -> & H3 & H4 & H5 & H6). by split_and!.
Qed.

(** What a delimiter search of a non-empty delimiter gives. [i] is the place of
    the first occurrence in the bytes of the socket; the number of bytes moved
    is [i + 2], whatever the length of the delimiter, cut at the size of the out
    span and of the part [b] of the bytes that has been received. *)
Definition read_until_post delim out s (ro : result nat * bytes) s' : Prop :=
  same_socket s s' ∧ length ro.2 = length out ∧
  (∀ i, ok s → out ≠ [] → search delim (rxs s) = Some i →
     ok s' ∧ if decide (i < length out)%nat then has_value ro.1 = true
             else ro.1 = Unexpected (make_error_code PROTOCOL_ERROR)) ∧
  (∀ n, ro.1 = Ok n → ∃ i b,
     search delim (rxs s) = Some i ∧ (i < length out)%nat ∧
     (i + length delim ≤ b ≤ length (rxs s))%nat ∧
     n = ((i + 2) `min` (b `min` length out))%nat ∧
     rxs s = take n ro.2 ++ rxs s').

Lemma read_until_loop_spec fuel delim out t s :
  delim ≠ [] → (length (inc s) < fuel)%nat →
  wp (read_until_loop fuel delim out t) (read_until_post delim out s) s.
Proof.
  intros Hd. revert s. induction fuel as [|fuel IH]; intros s Hf; [lia|]. simpl. wp_steps.
  destruct (search delim (read_buffer s)) as [i|] eqn:Hs; simpl.
  - assert (i + length delim ≤ length (read_buffer s))%nat as Hi.
    { apply search_Some in Hs. tauto. }
    assert (0 < length delim)%nat by (destruct delim; [done|simpl; lia]).
    assert (search delim (rxs s) = Some i) as Hrx by by apply search_app.
    rewrite bool_decide_true by lia.
    case_bool_decide as Ho; wp_steps.
    + split_and!; [done|done| |done]. intros i' Hok _ Hi'. split; [done|].
      rewrite decide_False; [done|]. assert (i' = i) as -> by congruence. lia.
    + eapply wp_mono; [apply move_out_spec|]. simpl.
      intros ro s' (Hsame & Hinc & Hw & Hl & n & Hro & Hn & Hb & _).
      split_and!; [done|done| |].
      * intros i' Hok _ Hi'. assert (i' = i) as -> by congruence.
        rewrite decide_True, Hro by lia. split; [|done]. unfold ok in *.
        by rewrite Hw; destruct Hsame as ((_ & _ & ->) & _ & _).
      * intros n'. rewrite Hro. intros [= <-]. exists i, (length (read_buffer s)).
        assert (rxs s = take n ro.2 ++ rxs s').
        { unfold rxs. by rewrite Hb, Hinc, <- app_assoc. }
        split_and!; [done|lia|done| |lia|done]. unfold rxs. rewrite length_app. lia.
  - rewrite bool_decide_false by (intros H; by apply H). wp_steps.
    eapply wp_mono; [apply read_more_spec|]. simpl.
    intros [got|e] s1 (Hsame & Hh & Hr); wp_steps.
    + destruct Hr as (data & Hgot & Hpos & Hbuf & Hinc).
      assert (rxs s1 = rxs s) as Hrx.
      { unfold rxs. by rewrite Hbuf, Hinc, <- app_assoc. }
      eapply wp_mono.
      * apply IH. rewrite Hinc, length_app in Hf. lia.
      * intros ro s2. unfold read_until_post. rewrite Hrx.
        intros (H1 & H2 & H3 & H4). split_and!; [by etrans|done| |done].
        intros i Hok Ho Hi. apply (H3 i); [|done|done]. apply Hh; [done|lia|].
        intros Hnil. unfold rxs in Hi. rewrite Hnil, app_nil_r in Hi. congruence.
    + split_and!; [done|done| |done]. intros i Hok Ho Hi.
      destruct Hh as [_ Hh]; [done|destruct out; [done|simpl; lia]| |done].
      intros Hnil. unfold rxs in Hi. rewrite Hnil, app_nil_r in Hi. congruence.
Qed.

Lemma asyncReadUntilCommon_spec fuel delim out t s :
  delim ≠ [] → (length (inc s) < fuel)%nat →
  wp (asyncReadUntilCommon fuel out delim t) (read_until_post delim out s) s.
Proof.
  intros Hd Hf. unfold asyncReadUntilCommon. wp_steps.
  destruct (connected s) eqn:Hc; simpl; wp_steps; [by apply read_until_loop_spec|].
  split_and!; [done|done| |done]. intros i Hok _ _. apply ok_connected in Hok as [? _].
  congruence.
Qed.

Lemma asyncWriteAllCommon_spec b t s :
  wp (asyncWriteAllCommon b t) (λ r s',
    same_id s s' ∧ read_buffer s' = read_buffer s ∧
    (ok s → ok s' ∧ has_value r = true ∧ ∃ more, rxs s' = rxs s ++ more) ∧
    ∀ n, r = Ok n → n = length b ∧ outg s' = outg s ++ b) s.
Proof.
  unfold asyncWriteAllCommon. wp_steps.
  destruct (connected s) eqn:Hc; simpl; wp_steps.
  - destruct s as [k w]. unfold wp; simpl.
    destruct (async_write (s_stream k) b (default hours24 t) w) as [c w'] eqn:Hw.
    pose proof (write_complete _ _ _ _ _ _ Hw) as Hwc.
    assert (Hh := λ H, healthy_write _ _ _ _ _ _ H Hw).
    destruct (ec_bool (wc_ec c)) eqn:Hec.
    + destruct (_ && _); simpl; (split_and!; [done|done| |done]);
        intros Hok; by destruct (Hh Hok) as (? & ? & ?).
    + simpl. split_and!; [done|done| |].
      * intros Hok. destruct (Hh Hok) as (? & ? & more & Hmore). split_and!; [done|done|].
        exists more. unfold rxs, inc; simpl. by rewrite Hmore, app_assoc.
      * intros n [= <-]. by apply Hwc.
  - split_and!; [done|done| |done]. intros Hok. apply ok_connected in Hok as [? _].
    congruence.
Qed.

(** The blocking wrapper runs the coroutine to its end, or the executor is gone
    and it reports the failure. *)
Lemma block_on_wp {B} (failed : B) (m : M (st W) B) (Q : B → st W → Prop) s :
  (executor_runs (s_stream s.1) s.2 = false → Q failed s) → wp m Q s →
  wp (block_on failed m) Q s.
Proof.
  unfold wp, block_on. destruct (executor_runs _ _); [|by auto].
  by destruct (m s) as [[b|x| |] s'].
Qed.

Lemma not_running_not_ok s : executor_runs (s_stream s.1) s.2 = false → ¬ ok s.
Proof. intros He Hok. apply ok_connected in Hok as [_ Hr]. congruence. Qed.

Lemma socket_readExact_spec md out t s :
  wp (socket_readExact md out t) (λ ro s',
    same_socket s s' ∧ length ro.2 = length out ∧
    (ok s → (length out ≤ length (rxs s))%nat → ok s' ∧ has_value ro.1 = true) ∧
    ∀ n, ro.1 = Ok n → n = length out ∧ rxs s = ro.2 ++ rxs s') s.
Proof.
  destruct md; simpl; [|apply asyncReadExactCommon_spec].
  apply block_on_wp; [|apply asyncReadExactCommon_spec].
  intros He. split_and!; [done|done| |done]. by intros Hok%(not_running_not_ok _ He).
Qed.

Lemma socket_readUntil_spec fuel md delim out t s :
  delim ≠ [] → (length (inc s) < fuel)%nat →
  wp (socket_readUntil fuel md out delim t) (read_until_post delim out s) s.
Proof.
  intros Hd Hf. destruct md; simpl; [|by apply asyncReadUntilCommon_spec].
  apply block_on_wp; [|by apply asyncReadUntilCommon_spec].
  intros He. split_and!; [done|done| |done]. by intros i Hok%(not_running_not_ok _ He).
Qed.

Lemma socket_writeAll_spec md b t s :
  wp (socket_writeAll md b t) (λ r s',
    same_id s s' ∧ read_buffer s' = read_buffer s ∧
    (ok s → ok s' ∧ has_value r = true ∧ ∃ more, rxs s' = rxs s ++ more) ∧
    ∀ n, r = Ok n → n = length b ∧ outg s' = outg s ++ b) s.
Proof.
  destruct md; simpl; [|apply asyncWriteAllCommon_spec].
  apply block_on_wp; [|apply asyncWriteAllCommon_spec].
  intros He. split_and!; [done|done| |done]. by intros Hok%(not_running_not_ok _ He).
Qed.

(** Closing leaves a socket that is not connected, and the same socket. *)
Lemma socket_closeSocket_spec s :
  wp socket_closeSocket (λ _ s', connected s' = false ∧ same_id s s' ∧ outg s' = outg s) s.
Proof.
  unfold socket_closeSocket, TcpSocket_closeSocket, TlsSocket_closeSocket. wp_steps.
  destruct (close_sends_nothing (s_stream s.1) s.2) as [H1 H2].
  destruct (s_class s.1); wp_steps; destruct (connected s) eqn:Hc; wp_steps;
    try done; (split_and!; [apply close_closes|done|]); (exact H1 || exact H2).
Qed.

Lemma socket_cancelSocket_same s : wp socket_cancelSocket (λ _ s', same_id s s') s.
Proof.
  unfold socket_cancelSocket, SocketBase_cancelSocket. wp_steps.
  by destruct (connected _); wp_steps.
Qed.

Lemma steps_block_on {B} (R : st W → st W → Prop) `{PR : !PreOrder R} (f : B) (m : M (st W) B) :
  steps R m → steps R (block_on f m).
Proof.
  intros Hm s. unfold block_on. specialize (Hm s).
  destruct (executor_runs _ _); [|reflexivity]. by destruct (m s) as [[] ?].
Qed.

(** A relation that changing the read buffer and reading from the socket's own stream
    respect is respected by every read. *)
Lemma socket_read_steps (R : st W → st W → Prop) `{PR : !PreOrder R} fuel md out d t :
  (∀ b s, R s (set_buf b s)) →
  (∀ n t s, R s (set_world (async_read_some (s_stream s.1) n t s.2).2 s)) →
  steps R (socket_readSome md out t) ∧ steps R (socket_readExact md out t) ∧
  steps R (socket_readUntil fuel md out d t).
Proof.
  intros Hbuf Hread.
  assert (Htimeout : ∀ off n t, steps R (asyncReadWithTimeout off n t)).
  { clear t. intros off n t s. unfold asyncReadWithTimeout. specialize (Hread n t s).
    destruct (async_read_some _ _ _ _) as [c w']. simpl in Hread.
    assert (R s (set_world w' (set_buf (write_at off (rc_data c) (read_buffer s)) s)));
      [|by repeat case_match].
    etrans; [exact Hread|]. exact (Hbuf _ (set_world w' s)). }
  assert (Hmore : ∀ n t, steps R (read_more n t)).
  { clear t. intros n t. unfold read_more. steps; apply steps_modify; intros; apply Hbuf. }
  assert (Hout : ∀ out n, steps R (move_out out n)).
  { clear out. intros out n. unfold move_out. steps. apply steps_modify. intros; apply Hbuf. }
  assert (Hexact : ∀ n len t, steps R (read_exact_loop n len t)).
  { clear t. induction n as [|n IH]; intros len t; simpl; steps. }
  assert (Huntil : ∀ n delim out t, steps R (read_until_loop n delim out t)).
  { clear out t. induction n as [|n IH]; intros delim out t; simpl; steps. }
  assert (steps R (asyncReadSomeCommon out t)) by (unfold asyncReadSomeCommon; steps).
  assert (steps R (asyncReadExactCommon out t)) by (unfold asyncReadExactCommon; steps).
  assert (steps R (asyncReadUntilCommon fuel out d t)) by (unfold asyncReadUntilCommon; steps).
  destruct md; simpl; split_and!; (done || by apply steps_block_on).
Qed.

(** A relation that moreover writing, closing and cancelling respect is respected by every
    operation. *)
Lemma socket_call_steps (R : st W → st W → Prop) `{PR : !PreOrder R} fuel :
  (∀ b s, R s (set_buf b s)) →
  (∀ n t s, R s (set_world (async_read_some (s_stream s.1) n t s.2).2 s)) →
  (∀ b t s, R s (set_world (async_write (s_stream s.1) b t s.2).2 s)) →
  (∀ s, R s (on_stream shutdown_send s) ∧ R s (on_stream close s) ∧ R s (on_stream cancel s) ∧
    R s (on_stream emit_cancel_signal s)) →
  @SocketInvariant (socket W) W (socket_DualSocket fuel) R.
Proof.
  intros Hbuf Hread Hwrite Hstream. split; [done|].
  assert (Hshut : steps R (modify (on_stream shutdown_send))) by (apply steps_modify; apply Hstream).
  assert (Hclose : steps R (modify (on_stream close))) by (apply steps_modify; apply Hstream).
  assert (Hcancel : steps R (modify (on_stream cancel))) by (apply steps_modify; apply Hstream).
  assert (Hsignal : steps R (modify (on_stream emit_cancel_signal))) by (apply steps_modify; apply Hstream).
  intros B m []; simpl.
  - unfold socket_closeSocket, TcpSocket_closeSocket, TlsSocket_closeSocket. steps.
  - unfold socket_cancelSocket, SocketBase_cancelSocket. steps.
  - assert (steps R (asyncWriteAllCommon b t)).
    { unfold asyncWriteAllCommon. steps. intros s. specialize (Hwrite b (default hours24 t) s).
      destruct (async_write _ _ _ _) as [c w']. simpl in Hwrite. by repeat case_match. }
    destruct md; simpl; [by apply steps_block_on|done].
  - by apply (socket_read_steps R fuel md out [] t).
  - by apply (socket_read_steps R fuel md out [] t).
  - by apply (socket_read_steps R fuel md out d t).
Qed.

(** A socket keeps its stream. *)
#[export] Program Instance socket_SocketIdentity (fuel : nat) :
    @SocketIdentity (socket W) W (socket_DualSocket fuel) := {|
  identity := stream W;
  key := s_stream
|}.
Next Obligation.
  intros fuel. apply socket_call_steps; try done.
  split; [by intros s|]. intros s1 s2 s3 H1 H2. by rewrite H2.
Qed.

(** The sockets keep the contract of the interface. *)
#[export] Program Instance socket_DualSocketSpec (fuel : nat) :
    @DualSocketSpec (socket W) W (socket_DualSocket fuel) := {|
  rx := λ k w, rxs (k, w);
  sent := λ k w, outg (k, w);
  live := λ k w, ok (k, w)
|}.
Next Obligation.
  intros fuel md out t k w. apply wp_wlp.
  eapply wp_mono; [apply socket_readExact_spec|]. simpl.
  intros ro [k' w'] ((_ & _ & Hsent) & Hl & _ & Hro) n Hn.
  destruct (Hro n Hn) as [-> ->]. by split_and!.
Qed.
Next Obligation.
  intros fuel md out t k w Hok Hlen.
  eapply wp_mono; [apply socket_readExact_spec|]. simpl.
  intros [r out'] [k' w'] ((_ & _ & Hsent) & Hl & Hval & Hro). simpl in *.
  destruct (Hval Hok Hlen) as [Hok' Hr]. destruct r as [n|]; [|done].
  destruct (Hro n eq_refl) as [-> Hrx]. rewrite Hrx, <- Hl.
  by rewrite take_app_length, drop_app_length.
Qed.
Next Obligation.
  intros fuel md b t k w. apply wp_wlp.
  eapply wp_mono; [apply socket_writeAll_spec|]. simpl. by intros r [k' w'] (_ & _ & _ & H).
Qed.
Next Obligation.
  intros fuel md b t k w Hok.
  eapply wp_mono; [apply socket_writeAll_spec|]. simpl.
  intros r [k' w'] (_ & _ & H & Hr). destruct (H Hok) as (Hok' & Hv & Hmore).
  destruct r as [n|]; [|done]. by destruct (Hr n eq_refl) as [-> Hs].
Qed.
Next Obligation.
  intros fuel md b t k w. split; apply wp_wlp.
  - eapply wp_mono; [apply socket_readExact_spec|]. simpl. by intros ? [??] (((_ & H & _) & _) & _).
  - eapply wp_mono; [apply socket_writeAll_spec|]. simpl. by intros ? [??] ((_ & H & _) & _).
Qed.
Next Obligation. intros fuel k w Hok. by apply ok_connected in Hok as [? _]. Qed.
Next Obligation.
  intros fuel k w. eapply wp_mono; [apply socket_closeSocket_spec|]. simpl.
  intros _ [k' w'] (Hc & (_ & Hcl & _) & Ho). done.
Qed.
Next Obligation.
  intros fuel k w. simpl. unfold socket_destroy. wp_step.
  eapply wp_mono; [apply socket_cancelSocket_same|]. simpl. intros _ [k' w'] _.
  eapply wp_mono; [apply socket_closeSocket_spec|]. simpl. by intros _ [k'' w''] (Hc & _).
Qed.

Lemma readUntil_min i n b : (i + 2 ≤ b)%nat → ((i + 2) `min` (b `min` n) = (i + 2) `min` n)%nat.
Proof. lia. Qed.

Lemma socket_readSome_spec md out t s :
  out ≠ [] →
  wp (socket_readSome md out t) (λ ro s',
    same_socket s s' ∧ length ro.2 = length out ∧
    (∀ n, ro.1 = Ok n → (0 < n ≤ length out)%nat ∧ rxs s = take n ro.2 ++ rxs s') ∧
    (ro.1 = Unexpected (asio_error eof) → rxs s = [])) s.
Proof.
  intros Hne.
  assert (Ha : wp (asyncReadSomeCommon out t) (λ ro s',
    same_socket s s' ∧ length ro.2 = length out ∧
    (∀ n, ro.1 = Ok n → (0 < n ≤ length out)%nat ∧ rxs s = take n ro.2 ++ rxs s') ∧
    (ro.1 = Unexpected (asio_error eof) → rxs s = [])) s).
  { eapply wp_mono; [apply asyncReadSomeCommon_spec|]. simpl.
    intros [[n|e] out'] s' (Hs & Hl & Hr); simpl in *; (split_and!; [done|done| |]).
    - destruct Hr as (_ & Hn & H0 & Hrx & _). intros ? [= <-]. by split; [auto|].
    - done.
    - done.
    - intros [= ->]. destruct Hr as [(_ & He & _)|(_ & Hb & _ & _ & _ & He & _)].
      + by apply (inj asio_error) in He.
      + unfold rxs. by rewrite Hb, He. }
  destruct md; simpl; [|done]. apply block_on_wp; [|done].
  intros _. split_and!; [done|done|done|]. simpl. intros [= He]. unfold read_failed, makeReadError in He.
  symmetry in He.
  destruct (negb _); [by apply asio_error_ne_network in He|].
  destruct (isTimeout _); [by apply asio_error_ne_network in He|].
  destruct (isConnectionClosed _); [by apply asio_error_ne_network in He|].
  by destruct (ec_is _ _); apply asio_error_ne_network in He.
Qed.

(** On a healthy connection that has bytes for its reader the read succeeds. *)
Lemma socket_readSome_live md out t s :
  out ≠ [] → ok s → rxs s ≠ [] →
  wp (socket_readSome md out t) (λ ro s', has_value ro.1 = true ∧ ok s') s.
Proof.
  intros Hout Hok Hrx. destruct (ok_connected s Hok) as [Hc He].
  assert (Hmove : ∀ o s1, ok s1 → wp (move_out o None) (λ ro s', has_value ro.1 = true ∧ ok s') s1).
  { intros o s1 Hok1. eapply wp_mono; [apply move_out_spec|]. simpl.
    intros ro s2 (((_ & _ & Hst) & _) & _ & Hw & _ & n & -> & _). split; [done|].
    unfold ok. by rewrite Hw, Hst. }
  assert (Hz : length (zeros (length out)) = length out) by (by unfold zeros; rewrite length_replicate).
  assert (wp (asyncReadSomeCommon out t) (λ ro s', has_value ro.1 = true ∧ ok s') s) as Ha.
  { unfold asyncReadSomeCommon. wp_steps. rewrite Hc. simpl. rewrite bool_decide_false by by destruct out.
    wp_steps. case_bool_decide as Hb; wp_steps; [|by apply Hmove].
    eapply wp_mono; [apply read_more_spec|]. rewrite Hz. intros r s1 (_ & Hlive & _).
    unfold rxs in Hrx. rewrite Hb in Hrx.
    destruct (Hlive Hok) as [Hok1 Hv]; [destruct out; [done|simpl; lia]|done|].
    destruct r; [by apply Hmove|done]. }
  destruct md; simpl; [|done]. apply block_on_wp; [|done]. by intros Hn%(not_running_not_ok s).
Qed.

#[export] Program Instance socket_LineSocketSpec (fuel : nat) :
    @LineSocketSpec (socket W) W (socket_DualSocket fuel) (socket_DualSocketSpec fuel) AE := {|
  search_fuel := fuel
|}.
Next Obligation.
  intros fuel md out t k w Hf. simpl in *.
  eapply wp_mono.
  - apply (socket_readUntil_spec fuel md CRLF out t (k, w)); [done|].
    unfold rxs in Hf. rewrite length_app in Hf. lia.
  - intros ro [k' w'] ((_ & _ & Hsent) & Hl & Hlive & Hro). split_and!; [done|done| |].
    + intros n Hn. destruct (Hro n Hn) as (i & b & Hs & Hi & Hb & -> & Hrx).
      simpl length in Hb. rewrite readUntil_min in * by lia. exists i. by split_and!.
    + intros i Hok Hi Hlt.
      destruct (Hlive i Hok) as [Hok' Hv]; [by destruct out; simpl in Hlt; [lia|]|done|].
      by rewrite decide_True in Hv.
Qed.
Next Obligation.
  intros fuel md out t k w Hne. simpl.
  eapply wp_mono; [by apply (socket_readSome_spec md out t (k, w))|].
  intros ro [k' w'] ((_ & _ & Hsent) & Hl & Hn & He). by split_and!.
Qed.
End socket_lemmas.

(** ** An in-memory implementation of ASIO's interface

    One connection: the bytes still to be delivered, in pieces of at most [mtu] (or one)
    bytes, the bytes sent, whether the socket is open, and whether the peer stays
    silent (a read then ends with the timer) or has closed its side when nothing
    is left. It shows that the laws of [AsioSpec] can hold and lets the theorems
    be run on concrete connections. *)
Record mem_net := MemNet {
  mn_in : bytes;
  mn_out : bytes;
  mn_mtu : nat;
  mn_open : bool;
  mn_silent : bool
}.

Definition mem_read (_ : unit) (n : nat) (_ : Z) (w : mem_net) : read_completion * mem_net :=
  if bool_decide (mn_in w = []) then
    if mn_silent w then (ReadCompletion (linux_asio_error operation_aborted) [] true, w)
    else (ReadCompletion (linux_asio_error eof) [] false, w)
  else
    let k := (n `min` (1 `max` mn_mtu w))%nat in
    (ReadCompletion ec_none (take k (mn_in w)) false,
     MemNet (drop k (mn_in w)) (mn_out w) (mn_mtu w) (mn_open w) (mn_silent w)).

Definition mem_write (_ : unit) (b : bytes) (_ : Z) (w : mem_net) : write_completion * mem_net :=
  (WriteCompletion ec_none (length b) false,
   MemNet (mn_in w) (mn_out w ++ b) (mn_mtu w) (mn_open w) (mn_silent w)).

Definition mem_close (_ : unit) (w : mem_net) : mem_net :=
  MemNet (mn_in w) (mn_out w) (mn_mtu w) false (mn_silent w).

#[export] Instance mem_Asio : Asio mem_net := {|
  stream := unit;
  is_open := λ _ w, mn_open w;
  executor_runs := λ _ _, true;
  async_read_some := mem_read;
  async_write := mem_write;
  shutdown_send := λ _ w, w;
  close := mem_close;
  cancel := λ _ w, w;
  emit_cancel_signal := λ _ w, w;
  dyn_prepare := λ v n, v ++ replicate n Byte.x00;
  dyn_commit := λ v size k, take (size + k `min` (length v - size)) v
|}.

#[export] Program Instance mem_AsioSpec : AsioSpec mem_net := {|
  incoming := λ _ w, mn_in w;
  outgoing := λ _ w, mn_out w;
  healthy := λ _ w, mn_open w = true ∧ (0 < mn_mtu w)%nat
|}.
Next Obligation.
  simpl. intros h n t w c w'. unfold mem_read.
  case_bool_decide; [destruct (mn_silent w)|]; intros [= <- <-]; simpl; [lia..|].
  rewrite length_take. lia.
Qed.
Next Obligation.
  simpl. intros h n t w c w'. unfold mem_read.
  case_bool_decide; [destruct (mn_silent w)|]; by intros [= <- <-].
Qed.
Next Obligation.
  simpl. intros h n t w c w'. unfold mem_read.
  case_bool_decide; [destruct (mn_silent w)|]; intros [= <- <-]; simpl; [done..|].
  by rewrite take_drop.
Qed.
Next Obligation.
  simpl. intros h n t w c w' Hn. unfold mem_read. case_bool_decide as Hin; [done|].
  intros [= <- <-]; simpl. intros [[=]|[_ Hnil]].
  destruct (mn_in w); [done|]. by destruct n, (mn_mtu w); simpl in Hnil; try lia.
Qed.
Next Obligation. simpl. intros h b t w c w'. by intros [= <- <-]. Qed.
Next Obligation. simpl. by intros h w [Ho _]. Qed.
Next Obligation.
  simpl. intros h n t w c w' [Ho Hm] Hn Hin. unfold mem_read.
  rewrite bool_decide_false by done. intros [= <- <-]; simpl. split_and!; [done| |done|done].
  destruct (mn_in w); [done|]. destruct n, (mn_mtu w); simpl; lia || done.
Qed.
Next Obligation.
  simpl. intros h b t w c w' [Ho Hm]. intros [= <- <-]; simpl.
  split_and!; [done..|]. exists []. by rewrite app_nil_r.
Qed.
Next Obligation. done. Qed.
Next Obligation. done. Qed.
Next Obligation. simpl. intros v n. eexists. split; [|done]. by rewrite length_replicate. Qed.
Next Obligation. done. Qed.

Definition mem_socket (buf : bytes) (w : mem_net) : st mem_net :=
  (Socket 0 TcpSocketClass tt buf, w).

(** ** Correctness of the reads *)

(** C17: an exact read always comes to an end; when it succeeds it has filled the
    whole span with the next bytes of the connection, in order and with none lost
    or repeated, whatever the pieces the network delivers them in; and on a
    connection without faults that will deliver enough bytes it does succeed. *)
Theorem readExact_correct {W : Type} `{SP : AsioSpec W} md out t (s : st W) :
  wp (socket_readExact md out t) (λ ro s',
    (∀ n, ro.1 = Ok n →
       n = length out ∧ length ro.2 = n ∧ rxs s = ro.2 ++ rxs s' ∧ outg s' = outg s) ∧
    (ok s → (length out ≤ length (rxs s))%nat → ro.1 = Ok (length out) ∧ ok s')) s.
Proof.
  eapply wp_mono; [apply socket_readExact_spec|]. simpl.
  intros [r out'] s' ((_ & _ & Hsent) & Hl & Hval & Hro). simpl in *. split.
  - intros n Hn. destruct (Hro n Hn) as [-> ->]. by split_and!.
  - intros Hok Hlen. destruct (Hval Hok Hlen) as [Hok' Hr].
    destruct r as [n|]; [|done]. by destruct (Hro n eq_refl) as [-> _].
Qed.

(** C18: reading up to a two-byte delimiter such as CR LF (the only one the program
    uses) terminates once the peer has sent finitely many bytes; a success gives
    the bytes up to and including the first delimiter, in order, unless the out
    span is exactly one byte too small, when it holds all but the delimiter's last
    byte; and without faults it succeeds exactly when the first delimiter starts
    inside the span, and reports PROTOCOL_ERROR otherwise. *)
Theorem readUntil_correct {W : Type} `{SP : AsioSpec W} fuel md delim out t (s : st W) :
  length delim = 2%nat → (length (inc s) < fuel)%nat →
  wp (socket_readUntil fuel md out delim t) (λ ro s',
    (∀ n, ro.1 = Ok n → ∃ i,
       search delim (rxs s) = Some i ∧ (i < length out)%nat ∧
       n = ((i + 2) `min` length out)%nat ∧ rxs s = take n ro.2 ++ rxs s') ∧
    (∀ i, ok s → out ≠ [] → search delim (rxs s) = Some i →
       if decide (i < length out)%nat then has_value ro.1 = true
       else ro.1 = Unexpected (make_error_code PROTOCOL_ERROR))) s.
Proof.
  intros Hd Hf. eapply wp_mono; [apply socket_readUntil_spec; [by destruct delim|done]|].
  intros ro s' (_ & _ & Hlive & Hro). split.
  - intros n Hn. destruct (Hro n Hn) as (i & b & Hs & Hi & Hb & -> & Hrx).
    exists i. replace ((i + 2) `min` (b `min` length out))%nat
      with ((i + 2) `min` length out)%nat in * by lia. by split_and!.
  - intros i Hok Ho Hi. by destruct (Hlive i Hok Ho Hi).
Qed.

Lemma readUntil_correct_witness :
  let s := mem_socket (txt "220") (MemNet (txt " hi" ++ CRLF ++ txt "USER") [] 2 true true) in
  length CRLF = 2%nat ∧ (length (inc s) < 20)%nat ∧
  wp (socket_readUntil 20 Sync (zeros 16) CRLF None) (λ ro s',
    (∀ n, ro.1 = Ok n → ∃ i,
       search CRLF (rxs s) = Some i ∧ (i < length (zeros 16))%nat ∧
       n = ((i + 2) `min` length (zeros 16))%nat ∧ rxs s = take n ro.2 ++ rxs s') ∧
    (∀ i, ok s → zeros 16 ≠ [] → search CRLF (rxs s) = Some i →
       if decide (i < length (zeros 16))%nat then has_value ro.1 = true
       else ro.1 = Unexpected (make_error_code PROTOCOL_ERROR))) s.
Proof.
  intros s. assert (length (inc s) < 20)%nat as Hf by (vm_compute; lia).
  split_and!; [reflexivity|exact Hf|].
  exact (readUntil_correct 20 Sync CRLF (zeros 16) None s eq_refl Hf).
Defined.

(** The number of bytes that readUntil moves does not depend on the length of
    the delimiter: when a one-byte delimiter is already in the read buffer with
    another byte behind it, the read returns that byte too, one byte more than the
    "bytes received (including delimiter)" it documents. *)
Theorem readUntil_one_byte_overread {W : Type} `{SP : AsioSpec W} fuel d out t (s : st W) i :
  connected s = true → search [d] (read_buffer s) = Some i →
  (i + 2 ≤ length (read_buffer s))%nat → (i + 2 ≤ length out)%nat →
  ∃ out' s', asyncReadUntilCommon fuel out [d] t s = (Done (Ok (i + 2)%nat, out'), s') ∧
    take (i + 2) out' = take (i + 2) (read_buffer s) ∧
    read_buffer s' = drop (i + 2) (read_buffer s).
Proof.
  intros Hc Hs Hb Ho.
  unfold asyncReadUntilCommon, mbind, M_bind, gets; simpl. rewrite Hc; simpl.
  destruct fuel as [|fuel]; simpl; unfold mbind, M_bind, gets; simpl; rewrite Hs; simpl;
    rewrite bool_decide_true, bool_decide_false by lia;
    unfold move_out, mbind, M_bind, gets, move_data; simpl;
    rewrite !Nat.min_l by lia; rewrite <- !Nat.add_assoc;
    (eexists _, _; split_and!; [done| |done]);
    rewrite take_app_le by (rewrite length_take; lia); by rewrite take_take, Nat.min_id.
Qed.

Lemma readUntil_one_byte_overread_witness :
  let s := mem_socket (txt "ab;cd") (MemNet [] [] 1 true true) in
  connected s = true ∧
  ∃ out' s', asyncReadUntilCommon 3 (zeros 8) (txt ";") None s =
      (Done (Ok (2 + 2)%nat, out'), s') ∧
    take (2 + 2) out' = take (2 + 2) (read_buffer s) ∧
    read_buffer s' = drop (2 + 2) (read_buffer s).
Proof.
  intros s. split; [reflexivity|].
  apply (readUntil_one_byte_overread 3 Byte.x3b (zeros 8) None s 2);
    vm_compute; (reflexivity || lia).
Defined.

(** A read that fails (a time-out, for example) leaves in the read buffer the
    bytes that were only prepared for it: the next read of the still open socket
    returns at once, successfully, with bytes that no peer ever sent. *)
Theorem failed_read_invents_bytes {W : Type} `{SP : AsioSpec W} out t (s : st W) e out' s' :
  connected s = true →
  asyncReadSomeCommon out t s = (Done (Unexpected e, out'), s') →
  ∀ out2 t2, out2 ≠ [] →
  wp (asyncReadSomeCommon out2 t2) (λ ro s'',
    ro.1 = Ok (length out `min` length out2)%nat ∧ inc s'' = inc s ∧ s''.2 = s'.2) s'.
Proof.
  intros Hc Hrun out2 t2 Hne.
  pose proof (asyncReadSomeCommon_spec out t s) as Hspec.
  unfold wp in Hspec. rewrite Hrun in Hspec; simpl in Hspec.
  destruct Hspec as ((_ & Hc' & _) & Hl & [(Hno & _)|(_ & Hbuf & Hout & Hjunk & Hinc & _)]);
    [congruence|].
  unfold asyncReadSomeCommon. wp_steps. rewrite Hc', Hc; simpl. wp_steps.
  assert (length (zeros (length out2)) = length out2) as Hz.
  { by unfold zeros; rewrite length_replicate. }
  rewrite bool_decide_false by (by destruct out2). wp_steps.
  rewrite bool_decide_false by (intros H; rewrite H in Hjunk; by destruct out).
  wp_steps. eapply wp_mono; [apply move_out_spec|]. simpl.
  intros ro s'' (_ & Hi & Hw & _ & n & -> & -> & _). rewrite Hz, Hjunk, Hi, Hinc.
  by split_and!.
Qed.

Lemma failed_read_invents_bytes_witness :
  let s := mem_socket [] (MemNet [] [] 1 true true) in
  let s' := mem_socket (zeros 4) (MemNet [] [] 1 true true) in
  connected s = true ∧
  asyncReadSomeCommon (zeros 4) (Some 10) s =
    (Done (Unexpected makeTimeoutError, zeros 4), s') ∧
  wp (asyncReadSomeCommon (zeros 2) None) (λ ro s'',
    ro.1 = Ok (length (zeros 4) `min` length (zeros 2))%nat ∧ inc s'' = inc s ∧
    s''.2 = s'.2) s'.
Proof.
  intros s s'.
  assert (connected s = true) as Hc by reflexivity.
  assert (asyncReadSomeCommon (zeros 4) (Some 10) s =
    (Done (Unexpected makeTimeoutError, zeros 4), s')) as Hr by reflexivity.
  split_and!; [exact Hc|exact Hr|].
  apply (failed_read_invents_bytes _ _ s _ _ s' Hc Hr (zeros 2) None). discriminate.
Defined.

(** A read of up to the size of the span never hangs; on a connected socket a
    success gives at least one byte and the given bytes are the next ones of the
    connection, with the rest of the span zero-filled; on an unconnected one
    nothing, not even the span, is touched. *)
Theorem readSome_correct {W : Type} `{SP : AsioSpec W} out t (s : st W) :
  wp (asyncReadSomeCommon out t) (λ ro s',
    match ro.1 with
    | Ok n =>
        connected s = true ∧ (n ≤ length out)%nat ∧ (out ≠ [] → 0 < n)%nat ∧
        rxs s = take n ro.2 ++ rxs s' ∧ drop n ro.2 = zeros (length out - n)
    | Unexpected e =>
        outg s' = outg s ∧
        (connected s = false → e = asio_error not_connected ∧ s' = s ∧ ro.2 = out) ∧
        (connected s = true → ro.2 = zeros (length out))
    end) s.
Proof.
  eapply wp_mono; [apply asyncReadSomeCommon_spec|]. simpl.
  intros [[n|e] out'] s' ((_ & _ & Ho) & _ & Hr); simpl in *; [done|].
  split; [done|].
  destruct Hr as [(Hc & -> & -> & ->)|(Hc & _ & _ & _ & _ & _ & ->)]; rewrite Hc; by split.
Qed.

(** Writing gives the whole buffer to the connection or fails: a success means
    that exactly the bytes of the caller were appended to the outgoing stream, and
    without faults it always succeeds. *)
Theorem writeAll_correct {W : Type} `{SP : AsioSpec W} md b t (s : st W) :
  wp (socket_writeAll md b t) (λ r s',
    read_buffer s' = read_buffer s ∧
    (∀ n, r = Ok n → n = length b ∧ outg s' = outg s ++ b) ∧
    (ok s → r = Ok (length b) ∧ ok s')) s.
Proof.
  eapply wp_mono; [apply socket_writeAll_spec|]. simpl.
  intros r s' (_ & Hb & Hok & Hr). split_and!; [done|done|].
  intros H. destruct (Hok H) as (Hok' & Hv & _). destruct r as [n|]; [|done].
  by destruct (Hr n eq_refl) as [-> _].
Qed.
