(* ===== verification/Ticket.v ===== *)
(** The data of the ticket protocol (include/protocol/Ticket.h) and the
    serializer interface (include/protocol/TicketSerializer.h). *)

From S2P Require Import Prelude ErrorCodes.

Inductive TicketType := SHORT | LONG.

Inductive TicketStatus := PENDING | RUNNING | COMPLETED | FAILED | CANCELLED.

#[export] Instance TicketType_eq_dec : EqDecision TicketType.
Proof. solve_decision. Defined.

#[export] Instance TicketStatus_eq_dec : EqDecision TicketStatus.
Proof. solve_decision. Defined.

Definition ticket_type_to_string (type : TicketType) : bytes :=
  match type with
  | SHORT => txt "short"
  | LONG => txt "long"
  end.

Definition ticket_status_to_string (status : TicketStatus) : bytes :=
  match status with
  | PENDING => txt "pending"
  | RUNNING => txt "running"
  | COMPLETED => txt "completed"
  | FAILED => txt "failed"
  | CANCELLED => txt "cancelled"
  end.

(** [TicketInfo], with [TicketMetadata::data] inlined. Durations are in
    milliseconds. *)
Record TicketInfo := {
  ticket_id : bytes;
  type : TicketType;
  status : TicketStatus;
  command : bytes;
  metadata : gmap bytes bytes;
  timeout : Z;
  progress_percent : option Z;
  progress_msg : option bytes;
  payload : option bytes;
  ticket_result : option bytes;
  error : option bytes
}.

(** [TicketSerializer]. Serializing can throw. *)
Record TicketSerializer := {
  serialize : TicketInfo → outcome bytes;
  deserialize : bytes → result TicketInfo
}.

(** Two serializers fit when one reads back what the other writes, and a ticket is
    never written as nothing. [carries ser P] says it of the tickets in [P]. *)
Definition carries (ser : TicketSerializer) (P : TicketInfo → Prop) : Prop :=
  ∀ t, P t → ∃ b, serialize ser t = Done b ∧ b ≠ [] ∧ deserialize ser b = Ok t.

Lemma ticket_type_to_string_inj t1 t2 :
  ticket_type_to_string t1 = ticket_type_to_string t2 → t1 = t2.
Proof. by destruct t1, t2. Qed.

Lemma ticket_status_to_string_inj s1 s2 :
  ticket_status_to_string s1 = ticket_status_to_string s2 → s1 = s2.
Proof. by destruct s1, s2. Qed.
