(* ===== verification/TicketJson.v ===== *)
(** The JSON serializer of tickets (src/protocol/TicketJson.cpp) over the
    interface of nlohmann::json, and its round trip. *)

From S2P Require Import Prelude ErrorCodes Ticket.

(** ** nlohmann::json (interface)

    [None] stands for an exception derived from [nlohmann::json::exception].
    [json_get_*] is [j.get<T>()], [json_value_*] is [j.value(key, default)],
    [json_index] is [j[key]] of a constant object that contains the key. *)
Class Json := {
  json : Type;
  json_string : bytes → json;
  json_int : Z → json;
  json_map : gmap bytes bytes → json;
  json_object : list (bytes * json) → json;
  json_set : json → bytes → json → json;
  json_contains : json → bytes → bool;
  json_index : json → bytes → option json;
  json_get_string : json → option bytes;
  json_get_int : json → option Z;
  json_get_map : json → option (gmap bytes bytes);
  json_value_string : json → bytes → bytes → option bytes;
  json_value_int : json → bytes → Z → option Z;
  json_value_map : json → bytes → gmap bytes bytes → option (gmap bytes bytes);
  json_dump : json → option bytes;
  json_parse : bytes → option json
}.

(** Its documented behaviour. [json_find] is the content of an object ([None] for a
    value that is no object); [utf8] says that a text is valid UTF-8, which [dump]
    requires of every text of the value and [parse] of its input. [get<int>] converts
    to an int. *)
Class JsonSpec `{J : Json} := {
  json_find : json → option (gmap bytes json);
  utf8 : bytes → Prop;
  json_get_of_string s : json_get_string (json_string s) = Some s;
  json_get_of_int z : - 2 ^ 31 ≤ z < 2 ^ 31 → json_get_int (json_int z) = Some z;
  json_get_of_map m : json_get_map (json_map m) = Some m;
  json_find_object l : NoDup l.*1 → json_find (json_object l) = Some (list_to_map l);
  json_find_set j m k v :
    json_find j = Some m → json_find (json_set j k v) = Some (<[k := v]> m);
  json_contains_spec j m k :
    json_find j = Some m → json_contains j k = bool_decide (is_Some (m !! k));
  json_index_spec j m k : json_find j = Some m → json_index j k = m !! k;
  json_value_string_spec j m k d :
    json_find j = Some m →
    json_value_string j k d = match m !! k with Some v => json_get_string v | None => Some d end;
  json_value_int_spec j m k d :
    json_find j = Some m →
    json_value_int j k d = match m !! k with Some v => json_get_int v | None => Some d end;
  json_value_map_spec j m k d :
    json_find j = Some m →
    json_value_map j k d = match m !! k with Some v => json_get_map v | None => Some d end;
  json_value_string_not_object j k d : json_find j = None → json_value_string j k d = None;
  json_dumpable : json → Prop;
  json_dumpable_string s : json_dumpable (json_string s) ↔ utf8 s;
  json_dumpable_int z : json_dumpable (json_int z);
  json_dumpable_map m :
    json_dumpable (json_map m) ↔ ∀ k v, m !! k = Some v → utf8 k ∧ utf8 v;
  json_dumpable_object l :
    NoDup l.*1 →
    json_dumpable (json_object l) ↔ Forall (λ kv, utf8 kv.1 ∧ json_dumpable kv.2) l;
  json_dumpable_set j m k v :
    json_find j = Some m → m !! k = None →
    json_dumpable (json_set j k v) ↔ json_dumpable j ∧ utf8 k ∧ json_dumpable v;
  utf8_ascii s : Forall (λ b, byte_val b < 128) s → utf8 s;
  json_round_trip j :
    json_dumpable j → ∃ b, json_dump j = Some b ∧ b ≠ [] ∧ json_parse b = Some j;
  json_dump_strict j : ¬ json_dumpable j → json_dump j = None;
  json_get_int_range j z : json_get_int j = Some z → - 2 ^ 31 ≤ z < 2 ^ 31;
  json_parse_dumpable b j : json_parse b = Some j → json_dumpable j;
  json_dumpable_find j m k v :
    json_dumpable j → json_find j = Some m → m !! k = Some v → json_dumpable v;
  json_dumpable_get_string j s : json_dumpable j → json_get_string j = Some s → utf8 s;
  json_dumpable_get_map j m k v :
    json_dumpable j → json_get_map j = Some m → m !! k = Some v → utf8 k ∧ utf8 v
}.

(** ** TicketJson *)

Definition k_ticket_id := txt "ticket_id".
Definition k_type := txt "type".
Definition k_status := txt "status".
Definition k_command := txt "command".
Definition k_metadata := txt "metadata".
Definition k_timeout_ms := txt "timeout_ms".
Definition k_progress_percent := txt "progress_percent".
Definition k_progress_msg := txt "progress_msg".
Definition k_payload := txt "payload".
Definition k_result := txt "result".
Definition k_error := txt "error".

Section ticket_json.
Context `{J : Json}.

(** [if (opt.has_value()) j[key] = *opt;] *)
Definition set_optional {A} (f : A → json) (key : bytes) (o : option A) (j : json) : json :=
  match o with Some v => json_set j key (f v) | None => j end.

Definition to_json (ticket : TicketInfo) : json :=
  let j := json_object
    [ (k_ticket_id, json_string (ticket_id ticket));
      (k_type, json_string (ticket_type_to_string (type ticket)));
      (k_status, json_string (ticket_status_to_string (status ticket)));
      (k_command, json_string (command ticket));
      (k_metadata, json_map (metadata ticket));
      (k_timeout_ms, json_int (wrap_i32 (timeout ticket))) ] in
  let j := set_optional json_int k_progress_percent (progress_percent ticket) j in
  let j := set_optional json_string k_progress_msg (progress_msg ticket) j in
  let j := set_optional json_string k_payload (payload ticket) j in
  let j := set_optional json_string k_result (ticket_result ticket) j in
  set_optional json_string k_error (error ticket) j.

Definition type_of_string (typeStr : bytes) : TicketType :=
  if bool_decide (typeStr = txt "long") then LONG else SHORT.

Definition status_of_string (statusStr : bytes) : TicketStatus :=
  if bool_decide (statusStr = txt "running") then RUNNING
  else if bool_decide (statusStr = txt "completed") then COMPLETED
  else if bool_decide (statusStr = txt "failed") then FAILED
  else if bool_decide (statusStr = txt "cancelled") then CANCELLED
  else PENDING.

(** [if (j.contains(key)) field = j[key].get<T>();] on a field that is empty. *)
Definition get_optional {A} (get_as : json → option A) (j : json) (key : bytes)
    : option (option A) :=
  if json_contains j key then v ← json_index j key; Some <$> get_as v else Some None.

(** [None] when one of the accesses throws. *)
Definition from_json (j : json) : option TicketInfo :=
  id ← json_value_string j k_ticket_id (txt "");
  cmd ← json_value_string j k_command (txt "");
  data ← json_value_map j k_metadata ∅;
  ms ← json_value_int j k_timeout_ms 0;
  typeStr ← json_value_string j k_type (txt "short");
  statusStr ← json_value_string j k_status (txt "pending");
  percent ← get_optional json_get_int j k_progress_percent;
  msg ← get_optional json_get_string j k_progress_msg;
  pl ← get_optional json_get_string j k_payload;
  res ← get_optional json_get_string j k_result;
  err ← get_optional json_get_string j k_error;
  Some {| ticket_id := id; type := type_of_string typeStr;
          status := status_of_string statusStr; command := cmd; metadata := data;
          timeout := ms; progress_percent := percent; progress_msg := msg;
          payload := pl; ticket_result := res; error := err |}.

(** [TicketJson::serialize]: nothing catches the exception of [dump]. *)
Definition json_serialize (ticket : TicketInfo) : outcome bytes :=
  match json_dump (to_json ticket) with
  | Some str => Done str
  | None => Throw json_exception
  end.

(** [TicketJson::deserialize] *)
Definition json_deserialize (data : bytes) : result TicketInfo :=
  match (j ← json_parse data; from_json j) with
  | Some ticket => Ok ticket
  | None => Unexpected (std_make_error_code invalid_argument)
  end.

Definition TicketJson : TicketSerializer :=
  {| serialize := json_serialize; deserialize := json_deserialize |}.

(** [default_serializer] of the peer, the controller and the worker, and the
    choice [serializer ? serializer : default_serializer()]. *)
Definition default_serializer : TicketSerializer := TicketJson.
Definition serializer_or_default (s : option TicketSerializer) : TicketSerializer :=
  default default_serializer s.
End ticket_json.

(** ** Lemmas *)

(** All the texts of a ticket that its JSON holds, beside the literals. *)
Definition ticket_texts (t : TicketInfo) : list bytes :=
  [ticket_id t; command t] ++
  (map_to_list (metadata t) ≫= λ kv, [kv.1; kv.2]) ++
  option_list (progress_msg t) ++ option_list (payload t) ++
  option_list (ticket_result t) ++ option_list (error t).

Definition with_timeout (ms : Z) (t : TicketInfo) : TicketInfo :=
  {| ticket_id := ticket_id t; type := type t; status := status t; command := command t;
     metadata := metadata t; timeout := ms; progress_percent := progress_percent t;
     progress_msg := progress_msg t; payload := payload t;
     ticket_result := ticket_result t; error := error t |}.

(** Inserting an optional field in a map. *)
Definition insert_optional {K A B} `{Countable K} (f : A → B) (k : K) (o : option A)
    (m : gmap K B) : gmap K B :=
  match o with Some v => <[k := f v]> m | None => m end.

Lemma lookup_insert_optional {K A B} `{Countable K} (f : A → B) k o (m : gmap K B) :
  m !! k = None → insert_optional f k o m !! k = f <$> o.
Proof. destruct o; simpl; [|done]. by rewrite lookup_insert_eq. Qed.

Lemma lookup_insert_optional_ne {K A B} `{Countable K} (f : A → B) k k' o (m : gmap K B) :
  k ≠ k' → insert_optional f k o m !! k' = m !! k'.
Proof. destruct o; simpl; [|done]. intros. by rewrite lookup_insert_ne. Qed.

Lemma type_of_ticket_type t : type_of_string (ticket_type_to_string t) = t.
Proof. by destruct t. Qed.

Lemma status_of_ticket_status s : status_of_string (ticket_status_to_string s) = s.
Proof. by destruct s. Qed.

(** Looks a literal key up in a chain of insertions of other literal keys. *)
Ltac lookup_fields :=
  repeat first
    [ rewrite lookup_insert_eq
    | rewrite lookup_insert_ne by discriminate
    | rewrite lookup_insert_optional_ne by discriminate
    | rewrite lookup_insert_optional by lookup_fields
    | rewrite lookup_empty ]; try done.

Section ticket_json_lemmas.
Context `{JS : JsonSpec}.

(** The object that [to_json] builds. *)
Definition ticket_fields (t : TicketInfo) : gmap bytes json :=
  let m := <[k_ticket_id := json_string (ticket_id t)]>
    (<[k_type := json_string (ticket_type_to_string (type t))]>
    (<[k_status := json_string (ticket_status_to_string (status t))]>
    (<[k_command := json_string (command t)]>
    (<[k_metadata := json_map (metadata t)]>
    (<[k_timeout_ms := json_int (wrap_i32 (timeout t))]> (∅ : gmap bytes json)))))) in
  insert_optional json_string k_error (error t)
    (insert_optional json_string k_result (ticket_result t)
    (insert_optional json_string k_payload (payload t)
    (insert_optional json_string k_progress_msg (progress_msg t)
    (insert_optional json_int k_progress_percent (progress_percent t) m)))).

Lemma set_optional_find {A} (f : A → json) k o j m :
  json_find j = Some m →
  json_find (set_optional f k o j) = Some (insert_optional f k o m).
Proof. destruct o; simpl; [|done]. apply json_find_set. Qed.

Lemma to_json_find t : json_find (to_json t) = Some (ticket_fields t).
Proof.
  unfold to_json. do 5 apply set_optional_find. rewrite json_find_object; [done|].
  apply (bool_decide_unpack _). by vm_compute.
Qed.

Lemma get_optional_spec {A} (get_as : json → option A) j m k :
  json_find j = Some m →
  get_optional get_as j k =
    match m !! k with Some v => Some <$> get_as v | None => Some None end.
Proof.
  intros Hj. unfold get_optional.
  rewrite (json_contains_spec _ _ _ Hj), (json_index_spec _ _ _ Hj).
  by destruct (m !! k).
Qed.

(** Reading back the fields that were written. *)
Lemma from_to_json t :
  (∀ p, progress_percent t = Some p → - 2 ^ 31 ≤ p < 2 ^ 31) →
  from_json (to_json t) = Some (with_timeout (wrap_i32 (timeout t)) t).
Proof.
  intros Hp. pose proof (to_json_find t) as Hf. unfold from_json.
  rewrite !(json_value_string_spec _ _ _ _ Hf), (json_value_map_spec _ _ _ _ Hf),
    (json_value_int_spec _ _ _ _ Hf), !(get_optional_spec _ _ _ _ Hf).
  unfold ticket_fields. lookup_fields. simpl.
  rewrite !json_get_of_string, json_get_of_map, json_get_of_int by apply wrap_i32_range.
  simpl. rewrite type_of_ticket_type, status_of_ticket_status.
  unfold with_timeout. destruct t as [id ty sta cmd me tmo p pm pl r e]; simpl in *.
  destruct p as [p|]; simpl; [rewrite json_get_of_int by auto|];
    destruct pm, pl, r, e; simpl; by rewrite ?json_get_of_string.
Qed.

Lemma set_optional_dumpable {A} (f : A → json) k o j m :
  json_find j = Some m → m !! k = None → utf8 k →
  json_dumpable (set_optional f k o j) ↔
  json_dumpable j ∧ ∀ v, o = Some v → json_dumpable (f v).
Proof.
  intros Hj Hk Hu. destruct o as [v|]; simpl; [|by split; [|intros []]].
  rewrite (json_dumpable_set _ _ _ _ Hj Hk).
  split; [by intros (H1 & _ & H2); split; [|intros ? [= <-]]|].
  intros [H1 H2]. by auto.
Qed.

Lemma literal_utf8 (s : String.string) :
  bool_decide (Forall (λ b, byte_val b < 128) (txt s)) = true → utf8 (txt s).
Proof. intros H%bool_decide_eq_true. by apply utf8_ascii. Qed.

Lemma option_list_forall {A} (P : A → Prop) o :
  (∀ v, o = Some v → P v) ↔ Forall P (option_list o).
Proof.
  destruct o; simpl; [|by split].
  rewrite Forall_singleton. split; [by auto|by intros H v [= <-]].
Qed.

(** [dump] accepts the JSON of a ticket exactly when all its texts are UTF-8. *)
Lemma to_json_dumpable t : json_dumpable (to_json t) ↔ Forall utf8 (ticket_texts t).
Proof.
  unfold to_json, ticket_texts. rewrite !Forall_app, <- !option_list_forall.
  do 5 (erewrite set_optional_dumpable;
    [|repeat apply set_optional_find; apply json_find_object, (bool_decide_unpack _);
      by vm_compute
     |lookup_fields|by apply literal_utf8]).
  rewrite json_dumpable_object by (apply (bool_decide_unpack _); by vm_compute).
  rewrite !Forall_cons; simpl. rewrite !json_dumpable_string, json_dumpable_map.
  setoid_rewrite json_dumpable_string.
  assert (utf8 k_ticket_id ∧ utf8 k_type ∧ utf8 k_status ∧ utf8 k_command ∧
          utf8 k_metadata ∧ utf8 k_timeout_ms ∧
          utf8 (ticket_type_to_string (type t)) ∧
          utf8 (ticket_status_to_string (status t))) as Hlit.
  { split_and!; try by apply literal_utf8.
    - destruct (type t); by apply literal_utf8.
    - destruct (status t); by apply literal_utf8. }
  assert ((∀ k v, metadata t !! k = Some v → utf8 k ∧ utf8 v) ↔
          Forall utf8 (map_to_list (metadata t) ≫= λ kv, [kv.1; kv.2])) as Hmap.
  { rewrite Forall_bind, Forall_forall. split.
    - intros Hm [k v] Hkv%elem_of_map_to_list. simpl. destruct (Hm _ _ Hkv). by repeat constructor.
    - intros Hm k v Hkv. specialize (Hm (k, v)). rewrite elem_of_map_to_list in Hm.
      specialize (Hm Hkv). simpl in Hm.
      by rewrite Forall_cons, Forall_singleton in Hm. }
  rewrite !Forall_nil, Hmap.
  assert ((∀ p, progress_percent t = Some p → json_dumpable (json_int p)) ↔ True) as ->.
  { split; [done|]. intros _ p _. apply json_dumpable_int. }
  pose proof (json_dumpable_int (wrap_i32 (timeout t))). tauto.
Qed.
End ticket_json_lemmas.

(** ** A JSON library

    An implementation of the interface that shows that its laws can hold: a value
    is a tree whose leaves are texts and integers and whose inner nodes are
    objects, the key before its value; its text is the bits of stdpp's encoding
    of the tree. UTF-8 is the real one (RFC 3629). *)
Definition tree := gen_tree (bytes + Z).

Definition utf8_tail (lo hi : Z) (b : byte) : bool :=
  bool_decide (lo ≤ byte_val b ≤ hi).

Fixpoint utf8_valid (s : bytes) : bool :=
  match s with
  | [] => true
  | b :: r =>
      let v := byte_val b in
      let t := utf8_tail 128 191 in
      if bool_decide (v < 128) then utf8_valid r
      else match r with
      | [] => false
      | c :: r =>
          if bool_decide (194 ≤ v ≤ 223) then t c && utf8_valid r
          else match r with
          | [] => false
          | d :: r =>
              if bool_decide (224 ≤ v ≤ 239) then
                utf8_tail (if bool_decide (v = 224) then 160 else 128)
                          (if bool_decide (v = 237) then 159 else 191) c &&
                t d && utf8_valid r
              else match r with
              | [] => false
              | e :: r =>
                  bool_decide (240 ≤ v ≤ 244) &&
                  utf8_tail (if bool_decide (v = 240) then 144 else 128)
                            (if bool_decide (v = 244) then 143 else 191) c &&
                  t d && t e && utf8_valid r
              end
          end
      end
  end.

Fixpoint tree_valid (j : tree) : bool :=
  match j with
  | GenLeaf (inl s) => utf8_valid s
  | GenLeaf (inr _) => true
  | GenNode _ l => forallb tree_valid l
  end.

Fixpoint tree_pairs (l : list tree) : list (bytes * tree) :=
  match l with
  | GenLeaf (inl k) :: v :: l' => (k, v) :: tree_pairs l'
  | _ => []
  end.

Definition tree_find (j : tree) : option (gmap bytes tree) :=
  match j with GenNode _ l => Some (list_to_map (tree_pairs l)) | _ => None end.

Definition tree_object (l : list (bytes * tree)) : tree :=
  GenNode 0 (l ≫= λ kv, [GenLeaf (inl kv.1); kv.2]).

Definition tree_set (j : tree) (k : bytes) (v : tree) : tree :=
  match j with GenNode n l => GenNode n (GenLeaf (inl k) :: v :: l) | _ => j end.

Definition tree_string (s : bytes) : tree := GenLeaf (inl s).
Definition tree_get_string (j : tree) : option bytes :=
  match j with GenLeaf (inl s) => Some s | _ => None end.
Definition tree_get_int (j : tree) : option Z :=
  match j with GenLeaf (inr z) => Some (wrap_i32 z) | _ => None end.
Definition tree_map (m : gmap bytes bytes) : tree :=
  tree_object (map_to_list (tree_string <$> m)).
Definition tree_get_map (j : tree) : option (gmap bytes bytes) :=
  match tree_find j with Some m => Some (omap tree_get_string m) | None => None end.

Definition tree_lookup (j : tree) (k : bytes) : option tree :=
  match tree_find j with Some m => m !! k | None => None end.

Definition tree_value {A} (get_as : tree → option A) (j : tree) (k : bytes) (d : A) : option A :=
  match tree_find j with
  | Some m => match m !! k with Some v => get_as v | None => Some d end
  | None => None
  end.

(** The bits of a positive number, and back. *)
Fixpoint bits (p : positive) : bytes :=
  match p with
  | xH => [Byte.x01]
  | xO p => Byte.x00 :: bits p
  | xI p => Byte.x01 :: bits p
  end.

Fixpoint of_bits (l : bytes) : option positive :=
  match l with
  | [] => None
  | [_] => Some xH
  | b :: l => (if bool_decide (b = Byte.x00) then xO else xI) <$> of_bits l
  end.

#[export] Instance tree_Json : Json := {|
  json := tree;
  json_string := tree_string;
  json_int z := GenLeaf (inr z);
  json_map := tree_map;
  json_object := tree_object;
  json_set := tree_set;
  json_contains j k := bool_decide (is_Some (tree_lookup j k));
  json_index := tree_lookup;
  json_get_string := tree_get_string;
  json_get_int := tree_get_int;
  json_get_map := tree_get_map;
  json_value_string := tree_value tree_get_string;
  json_value_int := tree_value tree_get_int;
  json_value_map := tree_value tree_get_map;
  json_dump j := if tree_valid j then Some (bits (encode j)) else None;
  json_parse b :=
    p ← of_bits b; j ← decode p; if tree_valid j then Some j else None
|}.

Lemma bits_of_bits p : of_bits (bits p) = Some p ∧ bits p ≠ [].
Proof.
  induction p as [p [IH Hp]|p [IH Hp]|]; simpl; [| |done];
    (split; [|done]); destruct (bits p) eqn:E; try done; by rewrite IH.
Qed.

Lemma tree_find_object l : tree_find (tree_object l) = Some (list_to_map l).
Proof.
  unfold tree_object; simpl. do 2 f_equal.
  induction l as [|[k v] l IH]; simpl; [done|]. by f_equal.
Qed.

Lemma tree_valid_object l :
  tree_valid (tree_object l) = true ↔
  Forall (λ kv, utf8_valid kv.1 = true ∧ tree_valid kv.2 = true) l.
Proof.
  unfold tree_object; simpl. induction l as [|[k v] l IH]; simpl; [done|].
  rewrite !andb_true_iff, IH, Forall_cons. simpl. tauto.
Qed.

Lemma utf8_valid_ascii s : Forall (λ b, byte_val b < 128) s → utf8_valid s = true.
Proof. induction 1; simpl; [done|]. by rewrite bool_decide_true. Qed.

(** What a valid object holds is valid. *)
Lemma tree_valid_find j m k v :
  tree_valid j = true → tree_find j = Some m → m !! k = Some v →
  utf8_valid k = true ∧ tree_valid v = true.
Proof.
  destruct j as [x|n l]; [done|]. simpl. intros Hl [= <-] Hk%elem_of_list_to_map_2.
  revert Hl Hk. cut (∀ i (l : list tree), (length l ≤ i)%nat → forallb tree_valid l = true →
    (k, v) ∈ tree_pairs l → utf8_valid k = true ∧ tree_valid v = true).
  { intros Hcut. by apply (Hcut (length l)). }
  clear l. induction i as [|i IH]; intros [|[[x|z]|n' l'] [|u l]] Hi; simpl in *;
    try lia; intros Hl Hk; try by apply elem_of_nil in Hk.
  apply andb_true_iff in Hl as [Hx [Hu Hl]%andb_true_iff].
  apply elem_of_cons in Hk as [[= -> ->]|Hk]; [done|]. apply (IH l); [lia|done..].
Qed.

#[export] Program Instance tree_JsonSpec : JsonSpec := {|
  json_find := tree_find;
  utf8 s := utf8_valid s = true;
  json_dumpable j := tree_valid j = true
|}.
Next Obligation. done. Qed.
Next Obligation. intros z Hz. simpl. f_equal. by apply wrap_i32_small. Qed.
Next Obligation.
  intros m. simpl. unfold tree_get_map, tree_map. rewrite tree_find_object. f_equal. apply map_eq. intros k. rewrite lookup_omap.
  rewrite list_to_map_to_list, lookup_fmap. by destruct (m !! k).
Qed.
Next Obligation. intros l _. apply tree_find_object. Qed.
Next Obligation. intros [] m k v; simpl; [done|]. by intros [= <-]. Qed.
Next Obligation. simpl. unfold tree_lookup. by intros j m k ->. Qed.
Next Obligation. simpl. unfold tree_lookup. by intros j m k ->. Qed.
Next Obligation. simpl. unfold tree_value. by intros j m k d ->. Qed.
Next Obligation. simpl. unfold tree_value. by intros j m k d ->. Qed.
Next Obligation. simpl. unfold tree_value. by intros j m k d ->. Qed.
Next Obligation. simpl. unfold tree_value. by intros j k d ->. Qed.
Next Obligation. done. Qed.
Next Obligation. done. Qed.
Next Obligation.
  intros m.
  change (tree_valid (tree_object (map_to_list (tree_string <$> m))) = true ↔
    ∀ k v, m !! k = Some v → utf8_valid k = true ∧ utf8_valid v = true).
  rewrite tree_valid_object, Forall_forall. split.
  - intros Hm k v Hkv. apply (Hm (k, tree_string v)), elem_of_map_to_list.
    by rewrite lookup_fmap, Hkv.
  - intros Hm [k v] Hkv%elem_of_map_to_list.
    apply lookup_fmap_Some in Hkv as (v' & <- & Hkv). by apply Hm.
Qed.
Next Obligation. intros l _. apply tree_valid_object. Qed.
Next Obligation.
  intros [] m k v; simpl; [done|]. intros _ _. rewrite !andb_true_iff. tauto.
Qed.
Next Obligation. apply utf8_valid_ascii. Qed.
Next Obligation.
  cbn [json json_dump json_parse tree_Json]. intros j Hj.
  destruct (bits_of_bits (encode j)) as [Hb Hne]. rewrite Hj.
  exists (bits (encode j)). split_and!; [done|done|].
  rewrite Hb. cbn [mbind option_bind].
  rewrite decode_encode. cbn [mbind option_bind]. by rewrite Hj.
Qed.
Next Obligation. simpl. intros j Hj. by destruct (tree_valid j). Qed.
Next Obligation.
  intros [[x|x]|n l] z; simpl; try done. intros [= <-]. apply wrap_i32_range.
Qed.
Next Obligation.
  simpl. intros b j. destruct (of_bits b) as [p|]; simpl; [|done].
  destruct (decode p) as [i|]; simpl; [|done]. destruct (tree_valid i) eqn:Hi; [|done].
  by intros [= <-].
Qed.
Next Obligation. simpl. intros j m k v Hj Hm Hk. by apply (tree_valid_find j m k v). Qed.
Next Obligation. intros [[x|x]|n l] s; simpl; try done. by intros ? [= <-]. Qed.
Next Obligation.
  simpl. intros j m k v Hj. unfold tree_get_map. destruct (tree_find j) as [m'|] eqn:Hm; [|done].
  intros [= <-] (u & Hu & Hk)%lookup_omap_Some.
  destruct (tree_valid_find j m' k u Hj Hm Hk) as [H1 H2]. split; [done|].
  by destruct u as [[]|]; simplify_eq/=.
Qed.

(** ** The round trip *)

(** A ticket that the JSON codec can carry: its texts are UTF-8 and its progress
    fits an int. *)
Definition encodable `{JS : JsonSpec} (t : TicketInfo) : Prop :=
  Forall utf8 (ticket_texts t) ∧
  ∀ p, progress_percent t = Some p → - 2 ^ 31 ≤ p < 2 ^ 31.

Lemma json_serialize_encodable `{JS : JsonSpec} t :
  encodable t → ∃ b, json_serialize t = Done b ∧ b ≠ [] ∧
    json_deserialize b = Ok (with_timeout (wrap_i32 (timeout t)) t).
Proof.
  intros [Hu Hp]. apply to_json_dumpable, json_round_trip in Hu as (b & Hd & Hne & Hparse).
  exists b. unfold json_serialize, json_deserialize. rewrite Hd, Hparse. simpl.
  by rewrite from_to_json.
Qed.

(** So a peer with this codec reads what the other one writes. *)
Lemma TicketJson_carries `{JS : JsonSpec} :
  carries TicketJson (λ t, encodable t ∧ - 2 ^ 31 ≤ timeout t < 2 ^ 31).
Proof.
  intros t [He Ht]. destruct (json_serialize_encodable t He) as (b & H1 & H2 & H3).
  exists b. split_and!; [done|done|]. simpl. rewrite H3, wrap_i32_small by done.
  by destruct t.
Qed.

Definition sample_ticket : TicketInfo :=
  {| ticket_id := txt "id"; type := LONG; status := RUNNING; command := txt "copy";
     metadata := {[ txt "metadata" := txt "m" ]}; timeout := 2 ^ 32 + 30;
     progress_percent := Some 50; progress_msg := None; payload := Some (txt "p");
     ticket_result := None; error := Some [] |}.

(** C33: serializing a ticket whose texts are UTF-8 and deserializing the bytes
    gives the ticket back with every field, the absent optional ones included,
    except that the timeout has gone through a 32-bit int: the round trip is the
    identity exactly when the timeout fits 32 bits. *)
Theorem ticket_json_round_trip `{JS : JsonSpec} t :
  encodable t →
  ∃ b, json_serialize t = Done b ∧
    json_deserialize b = Ok (with_timeout (wrap_i32 (timeout t)) t) ∧
    (json_deserialize b = Ok t ↔ - 2 ^ 31 ≤ timeout t < 2 ^ 31).
Proof.
  intros He. destruct (json_serialize_encodable t He) as (b & Hs & _ & Hd).
  exists b. rewrite Hs, Hd. split_and!; [done|done|]. split.
  - intros [= Ht]. apply (f_equal timeout) in Ht. simpl in Ht. rewrite <- Ht.
    apply wrap_i32_range.
  - intros Ht. rewrite wrap_i32_small by done. by destruct t.
Qed.

Lemma ticket_json_round_trip_witness :
  encodable sample_ticket ∧
  ∃ b, json_serialize sample_ticket = Done b ∧
    json_deserialize b =
      Ok (with_timeout (wrap_i32 (timeout sample_ticket)) sample_ticket) ∧
    (json_deserialize b = Ok sample_ticket ↔ - 2 ^ 31 ≤ timeout sample_ticket < 2 ^ 31).
Proof.
  assert (encodable sample_ticket) as H.
  { split; [|by intros p [= <-]].
    change (Forall (λ s, utf8_valid s = true) (ticket_texts sample_ticket)).
    apply (bool_decide_unpack _). by vm_compute. }
  split; [exact H|]. exact (ticket_json_round_trip sample_ticket H).
Defined.

(** What a field of a parsed object gives. *)
Lemma value_string_utf8 `{JS : JsonSpec} j m k d s :
  json_dumpable j → json_find j = Some m → utf8 d → json_value_string j k d = Some s → utf8 s.
Proof.
  intros Hj Hm Hd. rewrite (json_value_string_spec _ _ _ _ Hm).
  destruct (m !! k) as [v|] eqn:Hk; [|by intros [= <-]].
  apply json_dumpable_get_string. by eapply json_dumpable_find.
Qed.

Lemma optional_string_utf8 `{JS : JsonSpec} j m k o :
  json_dumpable j → json_find j = Some m → get_optional json_get_string j k = Some o →
  Forall utf8 (option_list o).
Proof.
  intros Hj Hm. rewrite (get_optional_spec _ _ _ _ Hm).
  destruct (m !! k) as [v|] eqn:Hk; [|by intros [= <-]; constructor].
  intros (s & Hs & ->)%fmap_Some. constructor; [|by constructor].
  eapply json_dumpable_get_string; [|done]. by eapply json_dumpable_find.
Qed.

(** What [from_json] reads from a parsed object is encodable, with a 32-bit timeout. *)
Lemma from_json_encodable `{JS : JsonSpec} j t :
  json_dumpable j → from_json j = Some t → encodable t ∧ - 2 ^ 31 ≤ timeout t < 2 ^ 31.
Proof.
  intros Hj Ht. unfold from_json in Ht.
  destruct (json_find j) as [m|] eqn:Hm.
  2: { rewrite (json_value_string_not_object _ k_ticket_id _ Hm) in Ht. simpl in Ht. discriminate. }
  repeat match type of Ht with
  | (?o ≫= _) = Some _ => destruct o as [?|] eqn:?; simpl in Ht; [|done]
  end.
  injection Ht as <-. unfold encodable, ticket_texts. simpl. split; [split|].
  - assert (utf8 (txt "")) as Hempty by by apply literal_utf8.
    constructor; [by eapply (value_string_utf8 j)|].
    constructor; [by eapply (value_string_utf8 j)|].
    rewrite !Forall_app. split_and!; try by eapply (optional_string_utf8 j).
    rewrite Forall_forall. intros x ([k v] & Hx & Hkv)%list_elem_of_bind.
    apply elem_of_map_to_list in Hkv.
    match goal with H : json_value_map _ _ _ = Some _ |- _ => rename H into Hmap end.
    rewrite (json_value_map_spec _ _ _ _ Hm) in Hmap.
    destruct (m !! k_metadata) as [u|] eqn:Hu; [|by injection Hmap as <-].
    destruct (json_dumpable_get_map u _ k v (json_dumpable_find _ _ _ _ Hj Hm Hu) Hmap Hkv).
    simpl in Hx. by apply elem_of_cons in Hx as [->|[->|[]%elem_of_nil]%elem_of_cons].
  - intros p ->.
    match goal with H : get_optional json_get_int _ _ = Some _ |- _ => rename H into Hp end.
    rewrite (get_optional_spec _ _ _ _ Hm) in Hp. destruct (m !! k_progress_percent); [|done].
    apply fmap_Some in Hp as (i & Hi & [= ->]). by eapply json_get_int_range.
  - match goal with H : json_value_int _ _ _ = Some _ |- _ => rename H into Hms end.
    rewrite (json_value_int_spec _ _ _ _ Hm) in Hms. destruct (m !! k_timeout_ms).
    + revert Hms. apply json_get_int_range.
    + injection Hms as <-. lia.
Qed.

(** C34: whatever bytes arrive, a ticket that is deserialized from them is well formed:
    its texts are UTF-8 and its timeout and progress are 32-bit integers. So it can be
    passed on: it serializes without an exception, and comes back as the same ticket. *)
Theorem received_ticket_well_formed `{JS : JsonSpec} b t :
  json_deserialize b = Ok t →
  encodable t ∧ - 2 ^ 31 ≤ timeout t < 2 ^ 31 ∧
  ∃ b', json_serialize t = Done b' ∧ json_deserialize b' = Ok t.
Proof.
  intros Hd. assert (encodable t ∧ - 2 ^ 31 ≤ timeout t < 2 ^ 31) as [He Ht].
  { unfold json_deserialize in Hd. destruct (json_parse b) as [j|] eqn:Hp; [|done]. simpl in Hd.
    destruct (from_json j) as [t'|] eqn:Hj; [|done]. injection Hd as ->.
    eapply from_json_encodable; [|done]. by eapply json_parse_dumpable. }
  split_and!; [done|apply Ht..|]. destruct (json_serialize_encodable t He) as (b' & Hs & _ & Hd').
  exists b'. split; [done|]. rewrite Hd', wrap_i32_small by done. by destruct t.
Qed.

Definition received_text : bytes := default [] (json_dump (to_json sample_ticket)).

Lemma received_ticket_well_formed_witness :
  let t := with_timeout 30 sample_ticket in
  json_deserialize received_text = Ok t ∧
  encodable t ∧ - 2 ^ 31 ≤ timeout t < 2 ^ 31 ∧
  ∃ b', json_serialize t = Done b' ∧ json_deserialize b' = Ok t.
Proof.
  intros t. assert (json_deserialize received_text = Ok t) as H by (vm_compute; reflexivity).
  split; [exact H|]. exact (received_ticket_well_formed received_text t H).
Defined.

(** Serializing throws, and nothing catches it, exactly for the tickets with
    a text that is not UTF-8. *)
Theorem json_serialize_throws `{JS : JsonSpec} t :
  json_serialize t = Throw json_exception ↔ ¬ Forall utf8 (ticket_texts t).
Proof.
  unfold json_serialize. rewrite <- to_json_dumpable. split.
  - intros H Hd. apply json_round_trip in Hd as (b & Hd & _). by rewrite Hd in H.
  - intros H. by rewrite (json_dump_strict _ H).
Qed.

Definition known_keys : list bytes :=
  [ k_ticket_id; k_type; k_status; k_command; k_metadata; k_timeout_ms;
    k_progress_percent; k_progress_msg; k_payload; k_result; k_error ].

(** Deserializing is lenient about content and strict about shape: a text
    that is no JSON, or whose JSON is no object, is invalid_argument; an object
    with none of the known keys is a short pending ticket with empty fields. *)
Theorem json_deserialize_shapes `{JS : JsonSpec} b :
  match json_parse b with
  | None => json_deserialize b = Unexpected (std_make_error_code invalid_argument)
  | Some j =>
      match json_find j with
      | None => json_deserialize b = Unexpected (std_make_error_code invalid_argument)
      | Some m =>
          Forall (λ k, m !! k = None) known_keys →
          json_deserialize b =
            Ok {| ticket_id := []; type := SHORT; status := PENDING; command := [];
                  metadata := ∅; timeout := 0; progress_percent := None;
                  progress_msg := None; payload := None; ticket_result := None;
                  error := None |}
      end
  end.
Proof.
  unfold json_deserialize. destruct (json_parse b) as [j|]; simpl; [|done].
  unfold from_json. destruct (json_find j) as [m|] eqn:Hf.
  - intros Hno. rewrite !(json_value_string_spec _ _ _ _ Hf),
      (json_value_map_spec _ _ _ _ Hf), (json_value_int_spec _ _ _ _ Hf),
      !(get_optional_spec _ _ _ _ Hf).
    unfold known_keys in Hno. rewrite !Forall_cons in Hno.
    destruct_and! Hno. by simplify_option_eq.
  - by rewrite (json_value_string_not_object _ k_ticket_id _ Hf).
Qed.
