(* ===== verification/TicketFrame.v ===== *)
(** Length-prefixed frames (src/protocol/TicketFrame.cpp): a frame is sent as its
    length, four bytes in network order, followed by its bytes. *)

From S2P Require Import Prelude ErrorCodes SocketBase Socket.

(** ** Operations *)

Definition length_prefix_size : nat := 4.

(** The default argument of every operation: 30000 ms. *)
Definition frame_timeout : Z := 30000.

(** [length = (length << 8) | static_cast<std::uint32_t>(buf[i])] over the bytes. *)
Definition prefix_length (buf : bytes) : Z :=
  foldl (λ len b, Z.lor (wrap_u32 (Z.shiftl len 8)) (byte_val b)) 0
    (take length_prefix_size buf).
Arguments prefix_length : simpl never.

Definition makeLengthPrefix (net_length : Z) : bytes :=
  (λ i : nat,
     byte_of (Z.land (Z.shiftr net_length (8 * (Z.of_nat length_prefix_size - 1 - Z.of_nat i))) 255))
    <$> seq 0 length_prefix_size.
Arguments makeLengthPrefix : simpl never.

Section frame.
Context {K W : Type} `{DS : DualSocket K W}.

(** [dynamic_cast<TcpSocket*>] and [dynamic_cast<TlsSocket*>]: whether one of the
    two succeeds. *)
Definition tcp_or_tls (c : socket_class) : bool :=
  match c with TcpSocketClass | TlsSocketClass => true | OtherSocketClass => false end.

(** The two [readLengthPrefix] functions: a zero-filled vector of the length that
    the prefix announces. The array the prefix is read into is not initialised, but
    is only used after [readExact] has filled it. *)
Definition readLengthPrefix (md : mode) (timeout : Z) : M (K * W) (result bytes) :=
  c ← gets (λ s, dynamic_class s.1);
  if tcp_or_tls c then
    r ← readExact md (replicate length_prefix_size Byte.x00) (Some timeout);
    match r with
    | (Unexpected e, _) => mret (Unexpected e)
    | (Ok _, buf) => mret (Ok (replicate (Z.to_nat (prefix_length buf)) Byte.x00))
    end
  else mret (Unexpected (std_make_error_code invalid_argument)).

Definition readLengthPrefixSync := readLengthPrefix Sync.
Definition readLengthPrefixAsync := readLengthPrefix Async.

Definition read_frame (md : mode) (timeout : Z) : M (K * W) (result bytes) :=
  lenBuf ←? readLengthPrefix md timeout;
  r ← readExact md lenBuf (Some timeout);
  match r with
  | (Unexpected e, _) => mret (Unexpected e)
  | (Ok _, lenBuf) => mret (Ok lenBuf)
  end.

Definition readFrame := read_frame Sync.
Definition asyncReadFrame := read_frame Async.

Definition write_frame (md : mode) (frame : bytes) (timeout : Z) : M (K * W) (result nat) :=
  let prefix := makeLengthPrefix (wrap_u32 (Z.of_nat (length frame))) in
  prefixResult ←? writeAll md prefix (Some timeout);
  result ←? writeAll md frame (Some timeout);
  mret (Ok (prefixResult + result)%nat).

Definition writeFrame := write_frame Sync.
Definition asyncWriteFrame := write_frame Async.
End frame.

(** ** Lemmas *)

(** A frame is read and written by operations on the socket. *)
Section frame_keeps.
Context {K W : Type} `{SI : SocketInvariant K W R}.

Lemma read_frame_keeps md t : steps R (read_frame md t).
Proof.
  assert (∀ out, steps R (readExact md out (Some t))) by (intros; apply socket_keeps; constructor).
  unfold read_frame, readLengthPrefix. steps.
Qed.

Lemma write_frame_keeps md f t : steps R (write_frame md f t).
Proof.
  assert (∀ b, steps R (writeAll md b (Some t))) by (intros; apply socket_keeps; constructor).
  unfold write_frame. steps.
Qed.
End frame_keeps.

(** What a frame is on the wire. *)
Definition frame_bytes (frame : bytes) : bytes :=
  makeLengthPrefix (wrap_u32 (Z.of_nat (length frame))) ++ frame.
Arguments frame_bytes : simpl never.

Lemma length_makeLengthPrefix n : length (makeLengthPrefix n) = 4%nat.
Proof. done. Qed.

Lemma prefix_byte n k : 0 ≤ k → byte_of (Z.land (Z.shiftr n k) 255) = byte_of (n / 2 ^ k).
Proof.
  intros Hk. change 255 with (Z.ones 8). rewrite Z.land_ones, Z.shiftr_div_pow2 by lia.
  apply byte_of_mod.
Qed.

Lemma prefix_step x b :
  0 ≤ x < 2 ^ 24 → Z.lor (wrap_u32 (Z.shiftl x 8)) (byte_val b) = x * 256 + byte_val b.
Proof.
  intros Hx. unfold wrap_u32.
  rewrite Z.mod_small by (rewrite Z.shiftl_mul_pow2; lia).
  apply lor_shift8, byte_val_range.
Qed.

Lemma prefix_length_4 a b c d :
  prefix_length [a; b; c; d] =
    byte_val a * 256 ^ 3 + byte_val b * 256 ^ 2 + byte_val c * 256 + byte_val d.
Proof.
  unfold prefix_length. simpl.
  pose proof (byte_val_range a). pose proof (byte_val_range b).
  pose proof (byte_val_range c). pose proof (byte_val_range d).
  rewrite (prefix_step 0 a) by lia. do 3 (rewrite (prefix_step (_ + _)) by lia). lia.
Qed.

Lemma makeLengthPrefix_bytes n :
  makeLengthPrefix n =
    [byte_of (n / 256 ^ 3); byte_of (n / 256 ^ 2); byte_of (n / 256); byte_of n].
Proof.
  change (makeLengthPrefix n) with ((λ k, byte_of (Z.land (Z.shiftr n k) 255)) <$> [24; 16; 8; 0]).
  simpl. rewrite !prefix_byte by lia. by rewrite Z.div_1_r.
Qed.

Lemma byte_val_of_mod n : byte_val (byte_of n) = n `mod` 256.
Proof. rewrite <- byte_of_mod. by apply byte_val_of, Z.mod_pos_bound. Qed.

(** Network order: the four bytes are the digits of the length to the base 256. *)
Lemma prefix_length_makeLengthPrefix n :
  0 ≤ n < 2 ^ 32 → prefix_length (makeLengthPrefix n) = n.
Proof.
  intros Hn. rewrite makeLengthPrefix_bytes, prefix_length_4, !byte_val_of_mod.
  replace (n / 256 ^ 3) with (n / 256 / 256 / 256) by (rewrite !Z.div_div by lia; done).
  replace (n / 256 ^ 2) with (n / 256 / 256) by (rewrite !Z.div_div by lia; done).
  div_lia.
Qed.

Lemma byte_of_eq n b : n `mod` 256 = byte_val b → byte_of n = b.
Proof. intros H. by rewrite <- byte_of_mod, H, byte_of_val. Qed.

Lemma makeLengthPrefix_prefix_length p :
  length p = 4%nat → makeLengthPrefix (prefix_length p) = p.
Proof.
  intros Hp. destruct p as [|a [|b [|c [|d [|]]]]]; try discriminate.
  rewrite prefix_length_4, makeLengthPrefix_bytes.
  pose proof (byte_val_range a). pose proof (byte_val_range b).
  pose proof (byte_val_range c). pose proof (byte_val_range d).
  f_equal; [|f_equal; [|f_equal; [|f_equal]]]; apply byte_of_eq; div_lia.
Qed.

Section frame_lemmas.
Context {K W : Type} `{SP : DualSocketSpec K W}.
Implicit Types (k : K) (w : W) (f p rest : bytes).

(** The state after a read that left [rest] to be read. *)
Definition after_read rest k w (kw : K * W) : Prop :=
  rx kw.1 kw.2 = rest ∧ sent kw.1 kw.2 = sent k w ∧ live kw.1 kw.2 ∧
  dynamic_class kw.1 = dynamic_class k.

Lemma readExact_live_class md out t k w :
  live k w → (length out ≤ length (rx k w))%nat →
  wp (readExact md out t) (λ ro kw,
    ro = (Ok (length out), take (length out) (rx k w)) ∧
    after_read (drop (length out) (rx k w)) k w kw) (k, w).
Proof.
  intros Hl Hlen. eapply wp_mono.
  { apply wp_conj; [by apply readExact_live|apply (dynamic_class_stable md out t k w)]. }
  simpl. unfold after_read. tauto.
Qed.

Lemma readExact_sound_class md out t k w :
  wlp (readExact md out t) (λ ro kw,
    (∀ n, ro.1 = Ok n → length ro.2 = length out ∧
      rx k w = ro.2 ++ rx kw.1 kw.2 ∧ sent kw.1 kw.2 = sent k w) ∧
    dynamic_class kw.1 = dynamic_class k) (k, w).
Proof.
  pose proof (readExact_sound md out t k w) as H1.
  destruct (dynamic_class_stable md out t k w) as [H2 _]. unfold wlp in *.
  destruct (readExact md out t (k, w)) as [[[r o]| | |] [k' w']]; try done.
  split; [|done]. intros n Hn. by destruct (H1 n Hn) as (_ & ? & ? & ?).
Qed.

Lemma read_frame_live md t k w p rest :
  tcp_or_tls (dynamic_class k) = true → live k w → length p = 4%nat →
  rx k w = p ++ rest → (Z.to_nat (prefix_length p) ≤ length rest)%nat →
  wp (read_frame md t) (λ r kw,
    r = Ok (take (Z.to_nat (prefix_length p)) rest) ∧
    after_read (drop (Z.to_nat (prefix_length p)) rest) k w kw) (k, w).
Proof.
  intros Hc Hl Hp Hrx Hlen. unfold read_frame, readLengthPrefix. wp_steps.
  simpl. rewrite Hc. wp_steps.
  eapply wp_mono; [apply readExact_live_class; [done|]|].
  { rewrite Hrx, length_app, Hp. simpl. lia. }
  intros ? [k1 w1] [-> (Hrx1 & Hs1 & Hl1 & Hc1)]. simpl length in *. cbn [fst snd] in *.
  rewrite Hrx, drop_app_length' in Hrx1 by done. rewrite Hrx, take_app_length' by done. wp_steps.
  eapply wp_mono; [apply readExact_live_class; [done|]|].
  { by rewrite length_replicate, Hrx1. }
  simpl. intros ? [k2 w2] [-> (Hrx2 & Hs2 & Hl2 & Hc2)]. simpl in *. wp_steps.
  rewrite length_replicate, Hrx1 in *. split; [done|].
  split_and!; simpl; [done|by rewrite Hs2|done|by rewrite Hc2].
Qed.

Lemma prefix_length_range p : length p = 4%nat → 0 ≤ prefix_length p < 2 ^ 32.
Proof.
  destruct p as [|a [|b [|c [|d [|]]]]]; try discriminate. intros _.
  rewrite prefix_length_4. pose proof (byte_val_range a). pose proof (byte_val_range b).
  pose proof (byte_val_range c). pose proof (byte_val_range d). lia.
Qed.

Lemma frame_bytes_of p f :
  length p = 4%nat → length f = Z.to_nat (prefix_length p) → p ++ f = frame_bytes f.
Proof.
  intros Hp Hf. pose proof (prefix_length_range p Hp). unfold frame_bytes, wrap_u32.
  rewrite Hf, Z2Nat.id, Z.mod_small by lia.
  by rewrite makeLengthPrefix_prefix_length.
Qed.

Lemma read_frame_sound md t k w :
  wlp (read_frame md t) (λ r kw,
    (∀ f, r = Ok f → rx k w = frame_bytes f ++ rx kw.1 kw.2 ∧
       Z.of_nat (length f) < 2 ^ 32 ∧ sent kw.1 kw.2 = sent k w) ∧
    dynamic_class kw.1 = dynamic_class k) (k, w).
Proof.
  unfold read_frame, readLengthPrefix. wp_steps. simpl.
  destruct (tcp_or_tls (dynamic_class k)); wp_steps; [|done].
  eapply wlp_mono; [apply readExact_sound_class|]. simpl.
  intros [[n|e] p] [k1 w1]; simpl; intros [H1 Hc1]; wp_steps; [|done].
  destruct (H1 n eq_refl) as (Hp & Hrx & Hs).
  eapply wlp_mono; [apply readExact_sound_class|]. simpl.
  intros [[m|e] f] [k2 w2]; simpl; intros [H2 Hc2]; wp_steps; (split; [|by etrans]); [|done].
  intros f' [= <-].
  destruct (H2 m eq_refl) as (Hf & Hrx2 & Hs2). rewrite length_replicate in *.
  pose proof (prefix_length_range p Hp). split_and!; [|lia|by etrans].
  simpl. by rewrite Hrx, Hrx2, app_assoc, (frame_bytes_of p f Hp Hf).
Qed.

Lemma writeAll_live_class md b t k w :
  live k w →
  wp (writeAll md b t) (λ r kw,
    r = Ok (length b) ∧ sent kw.1 kw.2 = sent k w ++ b ∧ live kw.1 kw.2 ∧
    (∃ more, rx kw.1 kw.2 = rx k w ++ more) ∧ dynamic_class kw.1 = dynamic_class k) (k, w).
Proof.
  intros Hl. eapply wp_mono.
  { apply wp_conj; [by apply writeAll_live|apply (dynamic_class_stable md b t k w)]. }
  simpl. tauto.
Qed.

Lemma writeAll_sound_class md b t k w :
  wlp (writeAll md b t) (λ r kw,
    (∀ n, r = Ok n → n = length b ∧ sent kw.1 kw.2 = sent k w ++ b) ∧
    dynamic_class kw.1 = dynamic_class k) (k, w).
Proof.
  pose proof (writeAll_sound md b t k w) as H1.
  destruct (dynamic_class_stable md b t k w) as [_ H2]. unfold wlp in *.
  by destruct (writeAll md b t (k, w)) as [[r| | |] [k' w']].
Qed.

Lemma write_frame_live md f t k w :
  live k w →
  wp (write_frame md f t) (λ r kw,
    r = Ok (4 + length f)%nat ∧ sent kw.1 kw.2 = sent k w ++ frame_bytes f ∧
    live kw.1 kw.2 ∧ (∃ more, rx kw.1 kw.2 = rx k w ++ more) ∧
    dynamic_class kw.1 = dynamic_class k) (k, w).
Proof.
  intros Hl. unfold write_frame. wp_steps.
  eapply wp_mono; [by apply writeAll_live_class|]. simpl.
  intros ? [k1 w1] (-> & Hs1 & Hl1 & (m1 & Hm1) & Hc1). simpl in *. wp_steps.
  eapply wp_mono; [by apply writeAll_live_class|]. simpl.
  intros ? [k2 w2] (-> & Hs2 & Hl2 & (m2 & Hm2) & Hc2). simpl in *. wp_steps. simpl.
  split_and!; [done| |done| |by etrans].
  - unfold frame_bytes. by rewrite Hs2, Hs1, app_assoc.
  - exists (m1 ++ m2). by rewrite Hm2, Hm1, app_assoc.
Qed.

Lemma write_frame_sound md f t k w :
  wlp (write_frame md f t) (λ r kw,
    (∀ n, r = Ok n → n = (4 + length f)%nat ∧
       sent kw.1 kw.2 = sent k w ++ frame_bytes f) ∧
    dynamic_class kw.1 = dynamic_class k) (k, w).
Proof.
  unfold write_frame. wp_steps.
  eapply wlp_mono; [apply writeAll_sound_class|]. simpl.
  intros [n|e] [k1 w1] [H1 Hc1]; simpl in *; wp_steps; [|done].
  destruct (H1 n eq_refl) as [-> Hs1].
  eapply wlp_mono; [apply writeAll_sound_class|]. simpl.
  intros [m|e] [k2 w2] [H2 Hc2]; simpl in *; wp_steps; (split; [|by etrans]); [|done].
  destruct (H2 m eq_refl) as [-> Hs2]. intros ? [= <-].
  split; [done|]. simpl. unfold frame_bytes. by rewrite Hs2, Hs1, app_assoc.
Qed.
End frame_lemmas.

(** ** Correctness of frames *)

(** The four bytes of a frame's prefix are the length in network byte order:
    encoding and decoding are inverse to each other on all 32-bit lengths and all
    four-byte prefixes. *)
Theorem length_prefix_bijective :
  (∀ n, 0 ≤ n < 2 ^ 32 → length (makeLengthPrefix n) = 4%nat ∧
     prefix_length (makeLengthPrefix n) = n) ∧
  (∀ p, length p = 4%nat → 0 ≤ prefix_length p < 2 ^ 32 ∧
     makeLengthPrefix (prefix_length p) = p).
Proof.
  split; intros x Hx; split; [done| | |].
  - by apply prefix_length_makeLengthPrefix.
  - by apply prefix_length_range.
  - by apply makeLengthPrefix_prefix_length.
Qed.

(** A successful frame read has consumed exactly one encoded frame, the next
    bytes of the connection, and gives its content; it sends nothing. *)
Theorem read_frame_correct {K W : Type} `{SP : DualSocketSpec K W} md t (k : K) (w : W) :
  wlp (read_frame md t) (λ r kw,
    ∀ f, r = Ok f → rx k w = frame_bytes f ++ rx kw.1 kw.2 ∧
      Z.of_nat (length f) < 2 ^ 32 ∧ sent kw.1 kw.2 = sent k w) (k, w).
Proof. eapply wlp_mono; [apply read_frame_sound|]. by intros r kw [? _]. Qed.

(** A frame write that succeeds has sent the frame's encoding and nothing
    else, and reports four bytes more than the frame; on a connection without
    faults it succeeds. *)
Theorem write_frame_correct {K W : Type} `{SP : DualSocketSpec K W} md f t (k : K) (w : W) :
  wlp (write_frame md f t) (λ r kw,
    ∀ n, r = Ok n → n = (4 + length f)%nat ∧
      sent kw.1 kw.2 = sent k w ++ frame_bytes f) (k, w) ∧
  (live k w → wp (write_frame md f t) (λ r kw, has_value r = true ∧ live kw.1 kw.2) (k, w)).
Proof.
  split.
  - eapply wlp_mono; [apply write_frame_sound|]. by intros r kw [? _].
  - intros Hl. eapply wp_mono; [by apply write_frame_live|].
    by intros r kw (-> & _ & ? & _).
Qed.

(** Reading a frame that was written gives its first bytes, as many as its length
    modulo 2^32. *)
Lemma read_written_frame {K W : Type} `{SP : DualSocketSpec K W} md t (k : K) (w : W) f rest :
  tcp_or_tls (dynamic_class k) = true → live k w → rx k w = frame_bytes f ++ rest →
  wp (read_frame md t) (λ r kw,
    let n := Z.to_nat (wrap_u32 (Z.of_nat (length f))) in
    r = Ok (take n f) ∧ after_read (drop n f ++ rest) k w kw) (k, w).
Proof.
  intros Hc Hl Hrx. set (n := Z.to_nat (wrap_u32 (Z.of_nat (length f)))).
  assert (n ≤ length f)%nat.
  { pose proof (Z.mod_le (Z.of_nat (length f)) (2 ^ 32)). subst n. unfold wrap_u32. lia. }
  assert (Z.to_nat (prefix_length (makeLengthPrefix (wrap_u32 (Z.of_nat (length f))))) = n) as Hn.
  { rewrite prefix_length_makeLengthPrefix; [done|]. by apply Z.mod_pos_bound. }
  eapply wp_mono.
  { eapply read_frame_live; [done|done| |unfold frame_bytes in Hrx; by rewrite <- app_assoc in Hrx|].
    - done.
    - rewrite Hn, length_app. lia. }
  rewrite Hn, take_app_le, drop_app_le by done. done.
Qed.

(** Cutting the length of a frame leaves it whole when it fits 32 bits, and only then. *)
Lemma take_mod_whole (f : bytes) :
  (Ok (take (Z.to_nat (wrap_u32 (Z.of_nat (length f)))) f) = (Ok f : result bytes)) ↔
  Z.of_nat (length f) < 2 ^ 32.
Proof.
  unfold wrap_u32. split.
  - intros [= Hf]. apply (f_equal length) in Hf. rewrite length_take in Hf.
    pose proof (Z.mod_pos_bound (Z.of_nat (length f)) (2 ^ 32)). lia.
  - intros Hlt. rewrite Z.mod_small, Nat2Z.id, take_ge by lia. done.
Qed.

(** C35: what one side writes as a frame, the other side reads back: a write that succeeds
    has sent some bytes, and a reader to whom they come in, followed by anything, gets
    the whole frame, and then what followed, exactly when the frame is shorter than 2^32
    bytes. The length of a longer frame is cut to 32 bits without an error: the reader
    then gets only its first bytes and takes the rest for the next frame. On a healthy
    connection the write succeeds, and so does the read. *)
Theorem frame_round_trip {K W K' W' : Type} `{SW : DualSocketSpec K W} `{SR : DualSocketSpec K' W'}
    md t (k : K) (w : W) md' t' (k' : K') (w' : W') f rest :
  tcp_or_tls (dynamic_class k') = true → live k' w' →
  wlp (write_frame md f t) (λ r s,
    ∀ n, r = Ok n → ∃ x, sent s.1 s.2 = sent k w ++ x ∧ n = length x ∧
      (rx k' w' = x ++ rest →
       wp (read_frame md' t') (λ r' s',
         let n := Z.to_nat (Z.of_nat (length f) `mod` 2 ^ 32) in
         r' = Ok (take n f) ∧ rx s'.1 s'.2 = drop n f ++ rest ∧
         (r' = Ok f ↔ Z.of_nat (length f) < 2 ^ 32)) (k', w'))) (k, w) ∧
  (live k w → wp (write_frame md f t) (λ r _, has_value r = true) (k, w)).
Proof.
  intros Hc Hl. split.
  - eapply wlp_mono; [apply write_frame_sound|]. intros r s [Hr _] n Hn. exists (frame_bytes f).
    destruct (Hr n Hn) as [-> Hs]. split_and!; [exact Hs|done|]. intros Hrx.
    eapply wp_mono; [by apply read_written_frame|].
    intros r' s' [-> (Hrx' & _)]. simpl. split_and!; [done|done|]. by rewrite take_mod_whole.
  - intros Hlw. eapply wp_mono; [by apply write_frame_live|]. by intros r s (-> & _).
Qed.

(** A writer on one memory network, and a reader on another one that got what was
    written, and then something else. *)
Lemma frame_round_trip_witness :
  let k : socket mem_net := Socket 0 TlsSocketClass tt [] in
  let w := MemNet [] [] 3 true true in
  let sock := socket_DualSocket 0 (W := mem_net) in
  let x := mn_out (write_frame (DS := sock) Sync (txt "hello") frame_timeout (k, w)).2.2 in
  let w' := MemNet (x ++ txt "next") [] 3 true true in
  (write_frame (DS := sock) Sync (txt "hello") frame_timeout (k, w)).1 = Done (Ok 9%nat) ∧
  tcp_or_tls (dynamic_class (DualSocket := sock) k) = true ∧
  live (DualSocketSpec := socket_DualSocketSpec 0) k w' ∧
  wlp (write_frame (DS := sock) Sync (txt "hello") frame_timeout) (λ r s,
    ∀ n, r = Ok n → ∃ x, sent (DualSocketSpec := socket_DualSocketSpec 0) s.1 s.2 = [] ++ x ∧ n = length x ∧
      (rx (DualSocketSpec := socket_DualSocketSpec 0) k w' = x ++ txt "next" →
       wp (read_frame (DS := sock) Sync frame_timeout) (λ r' s',
         let n := Z.to_nat (Z.of_nat (length (txt "hello")) `mod` 2 ^ 32) in
         r' = Ok (take n (txt "hello")) ∧
         rx (DualSocketSpec := socket_DualSocketSpec 0) s'.1 s'.2 = drop n (txt "hello") ++ txt "next" ∧
         (r' = Ok (txt "hello") ↔ Z.of_nat (length (txt "hello")) < 2 ^ 32)) (k, w'))) (k, w).
Proof.
  intros k w sock x w'.
  assert (tcp_or_tls (dynamic_class (DualSocket := sock) k) = true) as Hc by reflexivity.
  assert (live (DualSocketSpec := socket_DualSocketSpec 0) k w') as Hl by (split; [done|vm_compute; lia]).
  split; [vm_compute; reflexivity|]. split_and!; [exact Hc|exact Hl|].
  exact (proj1 (frame_round_trip (SW := socket_DualSocketSpec 0) (SR := socket_DualSocketSpec 0)
    Sync frame_timeout k w Sync frame_timeout k w' (txt "hello") (txt "next") Hc Hl)).
Defined.
