(* ===== verification/TicketPeer.v ===== *)
(** The ticket peer (src/protocol/TicketPeer.cpp): tickets over a socket, in
    frames, and the ownership of the socket across moves and destruction. *)

From S2P Require Import Prelude ErrorCodes SocketBase Socket Ticket TicketJson TicketFrame.

(** ** State *)

(** A [TicketPeer]: the owned socket (null after a move), the shared serializer
    (null after a move) and [_closed]. *)
Record peer (K : Type) := Peer {
  p_socket : option K;
  p_serializer : option TicketSerializer;
  p_closed : bool
}.
Arguments Peer {K} _ _ _.
Arguments p_socket {K} _.
Arguments p_serializer {K} _.
Arguments p_closed {K} _.

Section peer_ops.
Context {K W : Type} `{DS : DualSocket K W} `{J : Json}.

Definition peer_st : Type := peer K * W.

Definition set_socket (k : option K) (p : peer K) : peer K :=
  Peer k (p_serializer p) (p_closed p).
Definition set_closed (p : peer K) : peer K := Peer (p_socket p) (p_serializer p) true.

(** A call through [_socket->]: undefined when the pointer is null. *)
Definition on_socket {A} (m : M (K * W) A) : M peer_st A :=
  λ s, match p_socket s.1 with
       | None => (Undef, s)
       | Some k =>
           let '(o, (k', w')) := m (k, s.2) in (o, (set_socket (Some k') s.1, w'))
       end.

(** ** Operations *)

Definition TicketPeer_new (socket : option K) (serializer : option TicketSerializer) : peer K :=
  Peer socket (Some (serializer_or_default serializer)) false.

(** The move constructor: the new peer and what is left of the other. *)
Definition TicketPeer_move (other : peer K) : peer K * peer K :=
  (Peer (p_socket other) (p_serializer other) (p_closed other), Peer None None true).

(** Whether [dynamic_cast] finds a TcpSocket or a TlsSocket: not for null. *)
Definition peer_tcp_or_tls (p : peer K) : bool :=
  match p_socket p with Some k => tcp_or_tls (dynamic_class k) | None => false end.

Definition peer_sendFrame (md : mode) (ticket : TicketInfo) : M peer_st (result nat) :=
  ser ← gets (λ s : peer_st, p_serializer s.1);
  match ser with
  | None => undef
  | Some ser =>
      serialized ← lift (serialize ser ticket);
      if bool_decide (serialized = []) then
        mret (Unexpected (std_make_error_code invalid_argument))
      else
        castable ← gets (λ s : peer_st, peer_tcp_or_tls s.1);
        if (castable : bool) then on_socket (write_frame md serialized frame_timeout)
        else mret (Unexpected (std_make_error_code invalid_argument))
  end.

Definition sendFrame := peer_sendFrame Sync.
Definition sendFrameAsync := peer_sendFrame Async.

Definition peer_receiveFrame (md : mode) : M peer_st (result TicketInfo) :=
  castable ← gets (λ s : peer_st, peer_tcp_or_tls s.1);
  if (castable : bool) then
    frame ←? on_socket (read_frame md frame_timeout);
    ser ← gets (λ s : peer_st, p_serializer s.1);
    match ser with
    | None => undef
    | Some ser => mret (deserialize ser frame)
    end
  else mret (Unexpected (std_make_error_code invalid_argument)).

Definition receiveFrame := peer_receiveFrame Sync.
Definition receiveFrameAsync := peer_receiveFrame Async.

Definition peer_handshake (md : mode) (request : TicketInfo) : M peer_st (result TicketInfo) :=
  _ ←? peer_sendFrame md request;
  peer_receiveFrame md.

Definition handshake := peer_handshake Sync.
Definition handshakeAsync := peer_handshake Async.

Definition peer_isConnected : M peer_st bool :=
  on_socket (gets (λ s, isConnected s.1 s.2)).

(** [goodbye] and [goodbyeAsync]: nothing is sent. *)
Definition goodbye : M peer_st (result unit) :=
  modify (λ s : peer_st, (set_closed s.1, s.2));;
  conn ← peer_isConnected;
  (if (conn : bool) then on_socket closeSocket else mret tt);;
  mret (Ok tt).
Definition goodbyeAsync := goodbye.

Definition getSocket : M peer_st K := on_socket (gets fst).

(** Destroying a [std::unique_ptr] to a socket. *)
Definition drop_socket (k : option K) (w : W) : outcome unit * W :=
  match k with
  | None => (Done tt, w)
  | Some k => let '(o, (_, w')) := destroySocket (k, w) in (o, w')
  end.

(** [~TicketPeer], then its members. *)
Definition TicketPeer_destroy (p : peer K) (w : W) : outcome unit * W :=
  if p_closed p then drop_socket (p_socket p) w
  else
    match goodbye (p, w) with
    | (Done _, (p', w')) => drop_socket (p_socket p') w'
    | (Throw x, (_, w')) => (Throw x, w')
    | (Undef, (_, w')) => (Undef, w')
    | (NoFuel, (_, w')) => (NoFuel, w')
    end.

(** Move assignment between two objects: the socket that the target owned is
    destroyed, without [goodbye]. *)
Definition TicketPeer_assign (this other : peer K) (w : W) :
    outcome (peer K * peer K) * W :=
  match drop_socket (p_socket this) w with
  | (Done _, w') =>
      (Done (Peer (p_socket other) (p_serializer other) (p_closed other), Peer None None true), w')
  | (Throw x, w') => (Throw x, w')
  | (Undef, w') => (Undef, w')
  | (NoFuel, w') => (NoFuel, w')
  end.
End peer_ops.
Arguments peer_st K W : clear implicits.

(** ** What the member functions keep *)

(** The member functions that change a peer. *)
Inductive peer_call {K W : Type} `{DS : DualSocket K W} `{J : Json} : ∀ A, M (peer_st K W) A → Prop :=
| call_sendFrame md t : peer_call _ (peer_sendFrame md t)
| call_receiveFrame md : peer_call _ (peer_receiveFrame md)
| call_handshake md t : peer_call _ (peer_handshake md t)
| call_goodbye : peer_call _ goodbye.

(** A relation on sockets, between peers: a null pointer stays null, any other one keeps
    pointing to a socket, the serializer stays and a closed peer stays closed. *)
Definition peer_keeps {K W : Type} (R : K * W → K * W → Prop) (s s' : peer_st K W) : Prop :=
  p_serializer s'.1 = p_serializer s.1 ∧ (p_closed s.1 = true → p_closed s'.1 = true) ∧
  match p_socket s.1, p_socket s'.1 with
  | Some k, Some k' => R (k, s.2) (k', s'.2)
  | None, None => s'.2 = s.2
  | _, _ => False
  end.

#[export] Instance peer_keeps_preorder {K W : Type} (R : K * W → K * W → Prop) `{!PreOrder R} :
  PreOrder (peer_keeps R).
Proof.
  split.
  - intros [p w]. split_and!; [done|done|]. simpl. by destruct (p_socket p).
  - intros [p1 w1] [p2 w2] [p3 w3] (H1 & H2 & H3) (H4 & H5 & H6). simpl in *.
    split_and!; [simpl; congruence|by auto|]. simpl.
    destruct (p_socket p1), (p_socket p2), (p_socket p3); try done; [by etrans|congruence].
Qed.

Section peer_keeps.
Context {K W : Type} `{SI : SocketInvariant K W R} `{J : Json}.

Lemma keeps_on_socket {A} (m : M (K * W) A) : steps R m → steps (peer_keeps R) (on_socket m).
Proof.
  intros Hm [p w]. unfold on_socket; simpl. destruct (p_socket p) as [k|] eqn:E; [|reflexivity].
  specialize (Hm (k, w)). destruct (m (k, w)) as [o1 [k1 w1]]. unfold peer_keeps. simpl. by rewrite E.
Qed.

Lemma keeps_sendFrame md t : steps (peer_keeps R) (peer_sendFrame md t).
Proof.
  pose proof (λ f, keeps_on_socket _ (write_frame_keeps md f frame_timeout)).
  unfold peer_sendFrame. steps.
Qed.

Lemma keeps_receiveFrame md : steps (peer_keeps R) (peer_receiveFrame md).
Proof.
  pose proof (keeps_on_socket _ (read_frame_keeps md frame_timeout)).
  unfold peer_receiveFrame. steps.
Qed.

Lemma keeps_handshake md t : steps (peer_keeps R) (peer_handshake md t).
Proof.
  pose proof keeps_sendFrame. pose proof keeps_receiveFrame. unfold peer_handshake. steps.
Qed.

Lemma keeps_goodbye : steps (peer_keeps R) goodbye.
Proof.
  assert (steps (peer_keeps R) (on_socket closeSocket)).
  { apply keeps_on_socket, socket_keeps. constructor. }
  assert (steps (peer_keeps R) peer_isConnected).
  { apply keeps_on_socket. by apply steps_here; [apply _|]. }
  unfold goodbye. steps. apply steps_modify. intros [p w]. split_and!; [done|done|]. simpl.
  by destruct (p_socket p).
Qed.

Lemma keeps_call A c : peer_call A c → steps (peer_keeps R) c.
Proof.
  intros []; [apply keeps_sendFrame|apply keeps_receiveFrame|apply keeps_handshake|apply keeps_goodbye].
Qed.
End peer_keeps.

(** A peer that has not been closed owns a socket and a serializer. *)
Definition peer_ok {K : Type} (p : peer K) : Prop :=
  p_closed p = false → is_Some (p_socket p) ∧ is_Some (p_serializer p).

(** Every use keeps that. *)
Lemma peer_ok_keeps {K W : Type} R (s s' : peer_st K W) : peer_keeps R s s' → peer_ok s.1 → peer_ok s'.1.
Proof.
  intros (H1 & H2 & H3) Hok Hc. rewrite H1. destruct (p_closed s.1) eqn:E.
  { rewrite H2 in Hc; done. }
  destruct Hok as [[k Hk] ?]; [done|]. rewrite Hk in H3. by destruct (p_socket s'.1).
Qed.

Section peer_lemmas.
Context {K W : Type} `{SP : DualSocketSpec K W} `{J : Json}.

Lemma drop_socket_total k w : ∃ w', drop_socket k w = (Done tt, w').
Proof.
  destruct k as [k|]; simpl; [|by eauto].
  destruct (proj1 (wp_run _ _ _) (destroySocket_closes k w)) as ([] & [k' w'] & -> & _).
  by eauto.
Qed.

Lemma wp_on_socket {A} (m : M (K * W) A) (Q : A → peer_st K W → Prop) p w k :
  p_socket p = Some k →
  wp m (λ a kw, Q a (set_socket (Some kw.1) p, kw.2)) (k, w) → wp (on_socket m) Q (p, w).
Proof.
  intros Hk. unfold wp, on_socket; simpl. rewrite Hk.
  by destruct (m (k, w)) as [[a| | |] [k' w']].
Qed.

Lemma wlp_on_socket {A} (m : M (K * W) A) (Q : A → peer_st K W → Prop) p w :
  (∀ k, p_socket p = Some k →
     wlp m (λ a kw, Q a (set_socket (Some kw.1) p, kw.2)) (k, w)) →
  wlp (on_socket m) Q (p, w).
Proof.
  intros Hm. unfold wlp, on_socket in *; simpl. destruct (p_socket p) as [k|]; [|done].
  specialize (Hm k eq_refl). by destruct (m (k, w)) as [[a| | |] [k' w']].
Qed.

(** Saying goodbye closes the peer and its socket and sends nothing. *)
Lemma goodbye_spec p w k :
  p_socket p = Some k →
  wp goodbye (λ r s, r = Ok tt ∧ p_closed s.1 = true ∧ p_serializer s.1 = p_serializer p ∧
    ∃ k', p_socket s.1 = Some k' ∧ isConnected k' s.2 = false ∧
      sent k' s.2 = sent k w) (p, w).
Proof.
  intros Hk. unfold goodbye, peer_isConnected. wp_steps.
  eapply wp_on_socket; [done|]. wp_steps. simpl.
  destruct (isConnected k w) eqn:Hc.
  - eapply wp_on_socket; [done|]. eapply wp_mono; [apply closeSocket_closes|].
    simpl. intros _ [k' w'] (H1 & _ & H2). wp_steps. split_and!; eauto.
  - wp_steps. split_and!; eauto.
Qed.

(** Destroying a peer that owns what it should always comes to an end. *)
Lemma TicketPeer_destroy_total p w :
  peer_ok p → ∃ w', TicketPeer_destroy p w = (Done tt, w').
Proof.
  intros Hp. unfold TicketPeer_destroy. destruct (p_closed p) eqn:Hc; [apply drop_socket_total|].
  destruct Hp as [[k Hk] _]; [done|].
  destruct (proj1 (wp_run _ _ _) (goodbye_spec p w k Hk)) as (r & [p' w'] & -> & _).
  apply drop_socket_total.
Qed.

(** ** What a message exchange does *)

Lemma sendFrame_sound md t p w k ser :
  p_socket p = Some k → p_serializer p = Some ser →
  wlp (peer_sendFrame md t) (λ r s,
    (∀ n, r = Ok n → ∃ b k', serialize ser t = Done b ∧ b ≠ [] ∧ n = (4 + length b)%nat ∧
       p_socket s.1 = Some k' ∧ sent k' s.2 = sent k w ++ frame_bytes b) ∧
    ∃ k', s.1 = set_socket (Some k') p ∧ dynamic_class k' = dynamic_class k) (p, w).
Proof.
  intros Hk Hs. unfold peer_sendFrame. wp_steps. simpl. rewrite Hs. wp_steps.
  unfold lift, wlp at 1. destruct (serialize ser t) as [b| | |] eqn:Hb; [|done..].
  assert (Hsame : p = set_socket (Some k) p) by (rewrite <- Hk; by destruct p).
  case_bool_decide as Hne; wp_steps; simpl; [by split; [|exists k]|].
  destruct (peer_tcp_or_tls p); wp_steps; simpl; [|by split; [|exists k]].
  apply wlp_on_socket. intros k0. rewrite Hk. intros [= <-].
  eapply wlp_mono; [apply write_frame_sound|]. simpl. intros r [k' w'] [H1 H2]. simpl in *.
  split; [|by exists k']. intros n Hn. destruct (H1 n Hn) as [-> Hsent].
  by exists b, k'.
Qed.

Lemma sendFrame_live md t p w k ser b :
  p_socket p = Some k → p_serializer p = Some ser → serialize ser t = Done b → b ≠ [] →
  tcp_or_tls (dynamic_class k) = true → live k w →
  wp (peer_sendFrame md t) (λ r s,
    r = Ok (4 + length b)%nat ∧ ∃ k', s.1 = set_socket (Some k') p ∧
      sent k' s.2 = sent k w ++ frame_bytes b ∧ live k' s.2 ∧
      (∃ more, rx k' s.2 = rx k w ++ more) ∧ dynamic_class k' = dynamic_class k) (p, w).
Proof.
  intros Hk Hs Hb Hne Hc Hl. unfold peer_sendFrame. wp_steps. simpl. rewrite Hs. wp_steps.
  unfold lift, wp at 1. rewrite Hb. rewrite bool_decide_false by done. wp_steps.
  unfold peer_tcp_or_tls. simpl. rewrite Hk, Hc. eapply wp_on_socket; [done|].
  eapply wp_mono; [by apply write_frame_live|]. simpl.
  intros r [k' w'] (-> & H1 & H2 & H3 & H4). split; [done|]. by exists k'.
Qed.

Lemma receiveFrame_sound md p w k ser :
  p_socket p = Some k → p_serializer p = Some ser →
  wlp (peer_receiveFrame md) (λ r s,
    (∀ t, r = Ok t → ∃ f k', deserialize ser f = Ok t ∧ p_socket s.1 = Some k' ∧
       rx k w = frame_bytes f ++ rx k' s.2 ∧ sent k' s.2 = sent k w) ∧
    ∃ k', s.1 = set_socket (Some k') p ∧ dynamic_class k' = dynamic_class k) (p, w).
Proof.
  intros Hk Hs. unfold peer_receiveFrame. wp_steps. simpl.
  assert (Hsame : p = set_socket (Some k) p) by (rewrite <- Hk; by destruct p).
  destruct (peer_tcp_or_tls p); wp_steps; simpl; [|by split; [|exists k]].
  apply wlp_on_socket. intros k0. rewrite Hk. intros [= <-].
  eapply wlp_mono; [apply read_frame_sound|]. simpl.
  intros [f|e] [k' w'] [H1 H2]; simpl in *; [|by split; [|exists k']].
  wp_steps. simpl. rewrite Hs. wp_steps. simpl. split; [|by exists k'].
  intros t Ht. destruct (H1 f eq_refl) as (Hrx & _ & Hsent). by exists f, k'.
Qed.

Lemma receiveFrame_live md p w k ser b rest :
  p_socket p = Some k → p_serializer p = Some ser →
  tcp_or_tls (dynamic_class k) = true → live k w →
  rx k w = frame_bytes b ++ rest → Z.of_nat (length b) < 2 ^ 32 →
  wp (peer_receiveFrame md) (λ r s,
    r = deserialize ser b ∧ ∃ k', s.1 = set_socket (Some k') p ∧
      after_read rest k w (k', s.2)) (p, w).
Proof.
  intros Hk Hs Hc Hl Hrx Hlen. unfold peer_receiveFrame. wp_steps. simpl.
  unfold peer_tcp_or_tls. rewrite Hk, Hc. wp_steps. eapply wp_on_socket; [done|].
  eapply wp_mono; [by apply read_written_frame|]. simpl.
  unfold wrap_u32. rewrite Z.mod_small, Nat2Z.id, take_ge, drop_ge by lia.
  intros r [k' w'] [-> Ha]. wp_steps. simpl. rewrite Hs. wp_steps. split; [done|].
  by exists k'.
Qed.

(** A peer on a working connection that has sent [out] so far and will first
    receive [rest]. *)
Definition ready (ser : TicketSerializer) (pw : peer_st K W) (rest out : bytes) : Prop :=
  ∃ k, p_socket pw.1 = Some k ∧ p_serializer pw.1 = Some ser ∧
    tcp_or_tls (dynamic_class k) = true ∧ live k pw.2 ∧
    (∃ more, rx k pw.2 = rest ++ more) ∧ sent k pw.2 = out.

Lemma sendFrame_ready md t pw ser b rest out :
  ready ser pw rest out → serialize ser t = Done b → b ≠ [] →
  wp (peer_sendFrame md t) (λ r pw',
    r = Ok (4 + length b)%nat ∧ ready ser pw' rest (out ++ frame_bytes b)) pw.
Proof.
  destruct pw as [p w]. intros (k & Hk & Hs & Hc & Hl & [more Hrx] & <-) Hb Hne. simpl in *.
  eapply wp_mono; [by apply (sendFrame_live md t p w k ser b)|]. simpl.
  intros r [p' w'] (-> & k' & Hp' & Hsent & Hl' & [more' Hrx'] & Hc'). simpl in *. subst p'.
  split; [done|]. exists k'. rewrite Hc'. split_and!; try done.
  exists (more ++ more'). simpl. by rewrite Hrx', Hrx, app_assoc.
Qed.

Lemma receiveFrame_ready md pw ser rb rest out :
  ready ser pw (frame_bytes rb ++ rest) out → Z.of_nat (length rb) < 2 ^ 32 →
  wp (peer_receiveFrame md) (λ r pw',
    r = deserialize ser rb ∧ ready ser pw' rest out) pw.
Proof.
  destruct pw as [p w]. intros (k & Hk & Hs & Hc & Hl & [more Hrx] & <-) Hlen. simpl in *.
  rewrite <- app_assoc in Hrx.
  eapply wp_mono; [by apply (receiveFrame_live md p w k ser rb (rest ++ more))|]. simpl.
  intros r [p' w'] (-> & k' & Hp' & Hrx' & Hsent & Hl' & Hc'). simpl in *. subst p'.
  split; [done|]. exists k'. rewrite Hc'. split_and!; eauto.
Qed.

(** A handshake on such a connection sends the request and gives what the next
    frame holds. *)
Lemma handshake_ready md t pw ser b rb rest out :
  ready ser pw (frame_bytes rb ++ rest) out → serialize ser t = Done b → b ≠ [] →
  Z.of_nat (length rb) < 2 ^ 32 →
  wp (peer_handshake md t) (λ r pw',
    r = deserialize ser rb ∧ ready ser pw' rest (out ++ frame_bytes b)) pw.
Proof.
  intros Hr Hb Hne Hlen. unfold peer_handshake. wp_steps.
  eapply wp_mono; [by apply (sendFrame_ready md t pw ser b (frame_bytes rb ++ rest) out)|].
  intros ? pw1 [-> Hr1]. by apply (receiveFrame_ready md pw1 ser rb rest).
Qed.
End peer_lemmas.

(** ** Correctness of peers *)

Definition mem_peer (k : socket mem_net) : peer (socket mem_net) :=
  TicketPeer_new (Some k) None.

(** A peer that was moved from may be destroyed, but not used: receiving
    reports invalid_argument, while sending, a handshake, goodbye and isConnected
    follow a null pointer. *)
Theorem moved_from_peer {K W : Type} `{DS : DualSocket K W} `{J : Json} (p : peer K) (w : W) :
  let other := (TicketPeer_move p).2 in
  (TicketPeer_move p).1 = p ∧ TicketPeer_destroy other w = (Done tt, w) ∧
  ∀ md t,
    peer_receiveFrame md (other, w) =
      (Done (Unexpected (std_make_error_code invalid_argument)), (other, w)) ∧
    (peer_sendFrame md t (other, w)).1 = Undef ∧
    (peer_handshake md t (other, w)).1 = Undef ∧
    (goodbye (other, w)).1 = Undef ∧ (peer_isConnected (other, w)).1 = Undef.
Proof. destruct p. by split_and!. Qed.

(** Goodbye closes the peer and its connection, for good and without sending
    anything: afterwards the socket is not connected and the destructor of the peer
    does not say goodbye again. *)
Theorem goodbye_correct {K W : Type} `{SP : DualSocketSpec K W} `{J : Json} (p : peer K) w k :
  p_socket p = Some k →
  wp goodbye (λ r s, r = Ok tt ∧ p_closed s.1 = true ∧ ∃ k', p_socket s.1 = Some k' ∧
    isConnected k' s.2 = false ∧ sent k' s.2 = sent k w ∧
    TicketPeer_destroy s.1 s.2 = drop_socket (Some k') s.2) (p, w).
Proof.
  intros Hk. eapply wp_mono; [by apply goodbye_spec|]. simpl.
  intros r [p' w'] (-> & Hc & _ & k' & Hk' & H1 & H2). simpl in *.
  split_and!; [done|done|]. exists k'. split_and!; [done|done|done|].
  unfold TicketPeer_destroy. by rewrite Hc, Hk'.
Qed.

Lemma goodbye_correct_witness :
  let k : socket mem_net := Socket 0 TcpSocketClass tt [] in
  let w := MemNet [] (txt "x") 1 true true in
  p_socket (mem_peer k) = Some k ∧
  wp (goodbye (DS := socket_DualSocket 0)) (λ r s,
    r = Ok tt ∧ p_closed s.1 = true ∧ ∃ k', p_socket s.1 = Some k' ∧
    isConnected (DualSocket := socket_DualSocket 0) k' s.2 = false ∧
    sent (DualSocketSpec := socket_DualSocketSpec 0) k' s.2 =
      sent (DualSocketSpec := socket_DualSocketSpec 0) k w ∧
    TicketPeer_destroy (DS := socket_DualSocket 0) s.1 s.2 =
      drop_socket (DS := socket_DualSocket 0) (Some k') s.2) (mem_peer k, w).
Proof.
  intros k w. split; [reflexivity|].
  exact (goodbye_correct (SP := socket_DualSocketSpec 0) (mem_peer k) w k eq_refl).
Defined.

(** A handshake that succeeds has sent exactly one frame, the serialized
    request, and the response is the content of exactly one received frame. *)
Theorem handshake_correct {K W : Type} `{SP : DualSocketSpec K W} md t p (w : W) (k : K) ser :
  p_socket p = Some k → p_serializer p = Some ser →
  wlp (peer_handshake md t) (λ r s, ∀ response, r = Ok response →
    ∃ request_bytes response_bytes k',
      serialize ser t = Done request_bytes ∧ deserialize ser response_bytes = Ok response ∧
      p_socket s.1 = Some k' ∧ sent k' s.2 = sent k w ++ frame_bytes request_bytes) (p, w).
Proof.
  intros Hk Hs. unfold peer_handshake. wp_steps.
  eapply wlp_mono; [by apply (sendFrame_sound md t p w k ser)|]. simpl.
  intros [n|e] [p1 w1]; simpl; intros (H1 & k0 & -> & _); [|done].
  destruct (H1 n eq_refl) as (b & k1 & Hb & _ & _ & Hk1 & Hsent). simpl in Hk1.
  injection Hk1 as ->.
  eapply wlp_mono; [by apply (receiveFrame_sound md _ w1 k1 ser)|]. simpl.
  intros r [p2 w2] [H2 _] response Hr. destruct (H2 _ Hr) as (f & k2 & Hf & Hk2 & _ & Hsent2).
  exists b, f, k2. split_and!; [done|done|done|]. simpl in *. by rewrite Hsent2, Hsent.
Qed.

Lemma handshake_correct_witness :
  let k : socket mem_net := Socket 0 TcpSocketClass tt [] in
  let w := MemNet [] [] 1 true true in
  let ser := TicketJson in
  p_socket (mem_peer k) = Some k ∧ p_serializer (mem_peer k) = Some ser ∧
  wlp (peer_handshake (DS := socket_DualSocket 0) Sync sample_ticket) (λ r s,
    ∀ response, r = Ok response →
    ∃ request_bytes response_bytes k',
      serialize ser sample_ticket = Done request_bytes ∧
      deserialize ser response_bytes = Ok response ∧
      p_socket s.1 = Some k' ∧
      sent (DualSocketSpec := socket_DualSocketSpec 0) k' s.2 =
        sent (DualSocketSpec := socket_DualSocketSpec 0) k w ++ frame_bytes request_bytes)
    (mem_peer k, w).
Proof.
  intros k w ser. split_and!; [reflexivity|reflexivity|].
  exact (handshake_correct (SP := socket_DualSocketSpec 0) Sync sample_ticket (mem_peer k) w k ser
    eq_refl eq_refl).
Defined.

(** A ticket sent by a peer on a working connection arrives at the peer that
    reads the sent bytes as the same ticket, and what follows it on the connection
    is left for the next frame, for every pair of serializers that fit. *)
Theorem ticket_round_trip {K W : Type} `{SP : DualSocketSpec K W} md t p (w : W) (k : K) ser P b :
  carries ser P → P t → serialize ser t = Done b → Z.of_nat (length b) < 2 ^ 32 →
  p_socket p = Some k → p_serializer p = Some ser →
  tcp_or_tls (dynamic_class k) = true → live k w →
  wp (peer_sendFrame md t) (λ r s, has_value r = true ∧ ∃ k' x,
    p_socket s.1 = Some k' ∧ sent k' s.2 = sent k w ++ x ∧
    ∀ md2 p2 w2 k2 rest,
      p_socket p2 = Some k2 → p_serializer p2 = Some ser →
      tcp_or_tls (dynamic_class k2) = true → live k2 w2 → rx k2 w2 = x ++ rest →
      wp (peer_receiveFrame md2) (λ r2 s2, r2 = Ok t ∧
        ∃ k2', p_socket s2.1 = Some k2' ∧ rx k2' s2.2 = rest) (p2, w2)) (p, w).
Proof.
  intros Hcar HP Hb Hlen Hk Hs Hc Hl.
  destruct (Hcar t HP) as (b' & Hb' & Hne & Hd). assert (b' = b) as -> by congruence.
  eapply wp_mono; [by apply (sendFrame_live md t p w k ser b)|]. simpl.
  intros r [p' w'] (-> & k' & Hp' & Hsent & _). split; [done|].
  exists k', (frame_bytes b). simpl in *. subst p'. split_and!; [done|done|].
  intros md2 p2 w2 k2 rest H1 H2 H3 H4 H5.
  eapply wp_mono; [by apply (receiveFrame_live md2 p2 w2 k2 ser b rest)|]. simpl.
  intros r2 [p2' w2'] (-> & k2' & Hp2 & Ha & _). split; [done|]. simpl in *. subst p2'.
  by exists k2'.
Qed.

Lemma ticket_round_trip_witness :
  let k : socket mem_net := Socket 0 TlsSocketClass tt [] in
  let w := MemNet [] [] 7 true true in
  let t := with_timeout 30 sample_ticket in
  let P := λ t, encodable t ∧ - 2 ^ 31 ≤ timeout t < 2 ^ 31 in
  let b := match json_serialize t with Done b => b | _ => [] end in
  carries TicketJson P ∧ P t ∧
  wp (peer_sendFrame (DS := socket_DualSocket 0) Async t) (λ r s, has_value r = true ∧ ∃ k' x,
    p_socket s.1 = Some k' ∧
    sent (DualSocketSpec := socket_DualSocketSpec 0) k' s.2 =
      sent (DualSocketSpec := socket_DualSocketSpec 0) k w ++ x ∧
    ∀ md2 p2 w2 k2 rest,
      p_socket p2 = Some k2 → p_serializer p2 = Some TicketJson →
      tcp_or_tls (dynamic_class (DualSocket := socket_DualSocket 0) k2) = true →
      live (DualSocketSpec := socket_DualSocketSpec 0) k2 w2 →
      rx (DualSocketSpec := socket_DualSocketSpec 0) k2 w2 = x ++ rest →
      wp (peer_receiveFrame (DS := socket_DualSocket 0) md2) (λ r2 s2, r2 = Ok t ∧
        ∃ k2', p_socket s2.1 = Some k2' ∧
          rx (DualSocketSpec := socket_DualSocketSpec 0) k2' s2.2 = rest) (p2, w2))
    (mem_peer k, w).
Proof.
  intros k w t P b.
  assert (P t) as HP.
  { split; [split; [|by intros p [= <-]]|vm_compute; by split].
    change (Forall (λ s, utf8_valid s = true) (ticket_texts t)).
    apply (bool_decide_unpack _). by vm_compute. }
  assert (json_serialize t = Done b) as Hb by by vm_compute.
  assert (Z.of_nat (length b) < 2 ^ 32) as Hlen by by vm_compute.
  assert (live (DualSocketSpec := socket_DualSocketSpec 0) k w) as Hl
    by (split; [reflexivity|vm_compute; lia]).
  split_and!; [exact TicketJson_carries|exact HP|].
  exact (ticket_round_trip (SP := socket_DualSocketSpec 0) Async t (mem_peer k) w k TicketJson P b
    TicketJson_carries HP Hb Hlen eq_refl eq_refl eq_refl Hl).
Defined.
