(* ===== verification/TicketController.v ===== *)
(** The ticket controller (src/protocol/TicketController.cpp): ticket identifiers,
    the requests send, sendLong, poll and cancel, blocking and as coroutines. *)

From S2P Require Import Prelude ErrorCodes SocketBase Socket Ticket TicketJson TicketFrame.
From S2P Require Import TicketPeer.

(** ** Identifiers *)

(** [std::mt19937] with [std::uniform_int_distribution<>(lo, hi)]: a draw is in the
    range of the distribution. *)
Class Rng (G : Type) := {
  draw : Z → Z → G → Z * G;
  draw_range lo hi g : lo ≤ hi → lo ≤ (draw lo hi g).1 ≤ hi
}.

Section uuid.
Context {G : Type} `{R : Rng G}.

Definition hex : bytes := txt "0123456789abcdef".

(** [hex[dist(gen)]]: undefined outside the array. *)
Definition hex_draw (lo hi : Z) : M G byte :=
  λ g, let '(i, g') := draw lo hi g in
       match hex !! Z.to_nat i with Some c => (Done c, g') | None => (Undef, g') end.

Definition uuid_char (i : nat) : M G byte :=
  if bool_decide (i ∈ [8; 13; 18; 23]%nat) then mret Byte.x2d
  else if bool_decide (i = 12%nat) then mret Byte.x34
  else if bool_decide (i = 16%nat) then hex_draw 8 11
  else hex_draw 0 15.

(** The body of the [for] loop for the remaining positions. *)
Fixpoint uuid_loop (positions : list nat) (uuid : bytes) : M G bytes :=
  match positions with
  | [] => mret uuid
  | i :: positions => c ← uuid_char i; uuid_loop positions (uuid ++ [c])
  end.

Definition generate_uuid : M G bytes := uuid_loop (seq 0 36) [].
End uuid.

(** ** The controller *)

Record controller (K : Type) := Controller {
  c_peer : peer K;
  c_ticketCounter : Z;
  c_socketId : bytes
}.
Arguments Controller {K} _ _ _.
Arguments c_peer {K} _.
Arguments c_ticketCounter {K} _.
Arguments c_socketId {K} _.

(** A controller with the world of its socket, the random generator of its thread
    and whatever the callbacks of the caller change. *)
Record ctl_st (K W G X : Type) := CtlSt {
  s_ctl : controller K;
  s_rng : G;
  s_world : W;
  s_client : X
}.
Arguments CtlSt {K W G X} _ _ _ _.
Arguments s_ctl {K W G X} _.
Arguments s_rng {K W G X} _.
Arguments s_world {K W G X} _.
Arguments s_client {K W G X} _.

Section controller_ops.
Context {K W G X : Type} `{DS : DualSocket K W} `{J : Json} `{R : Rng G}.

Abbreviation S := (ctl_st K W G X).

Definition on_peer {A} (m : M (peer_st K W) A) : M S A :=
  zoom (λ s : S, (c_peer (s_ctl s), s_world s))
       (λ pw s, CtlSt (Controller pw.1 (c_ticketCounter (s_ctl s)) (c_socketId (s_ctl s)))
                      (s_rng s) pw.2 (s_client s)) m.

Definition on_rng {A} (m : M G A) : M S A :=
  zoom s_rng (λ g s, CtlSt (s_ctl s) g (s_world s) (s_client s)) m.

(** [_ticketCounter++] on an [uint64_t]. *)
Definition next_counter (s : S) : S :=
  CtlSt (Controller (c_peer (s_ctl s)) (wrap_u64 (c_ticketCounter (s_ctl s) + 1))
                    (c_socketId (s_ctl s))) (s_rng s) (s_world s) (s_client s).

(** The constructor: undefined for a null socket. *)
Definition TicketController_new (socket : option K) (serializer : option TicketSerializer)
    : option (controller K) :=
  let p := TicketPeer_new socket (Some (serializer_or_default serializer)) in
  match p_socket p with
  | Some k => Some (Controller p 0 (to_string (getId k)))
  | None => None
  end.

Definition generateTicketId : M S bytes :=
  uuid ← on_rng generate_uuid;
  c ← gets s_ctl;
  modify next_counter;;
  mret (uuid ++ txt "/" ++ c_socketId c ++ txt "#" ++ to_string (c_ticketCounter c)).

(** The ticket that [send] and [sendLong] build. *)
Definition request_ticket (id : bytes) (ty : TicketType) (command payload metadata : bytes)
    (timeout : Z) : TicketInfo :=
  {| ticket_id := id; type := ty; status := PENDING; command := command;
     metadata := if bool_decide (metadata = []) then ∅ else {[ txt "metadata" := metadata ]};
     timeout := timeout; progress_percent := None; progress_msg := None;
     payload := Some payload; ticket_result := None; error := None |}.

Definition control_ticket (id : bytes) (st : TicketStatus) (command : bytes) (timeout : Z)
    : TicketInfo :=
  {| ticket_id := id; type := SHORT; status := st; command := command; metadata := ∅;
     timeout := timeout; progress_percent := None; progress_msg := None;
     payload := None; ticket_result := None; error := None |}.

Definition poll_ticket (id : bytes) (timeout : Z) : TicketInfo :=
  control_ticket id PENDING (txt "poll") timeout.
Definition cancel_ticket (id : bytes) (timeout : Z) : TicketInfo :=
  control_ticket id CANCELLED (txt "cancel") timeout.

(** What [send] makes of the response. *)
Definition send_reply (response : TicketInfo) : result bytes :=
  if bool_decide (status response = FAILED) then Unexpected (std_make_error_code io_error)
  else match ticket_result response with
       | None => Unexpected (std_make_error_code protocol_error)
       | Some r => Ok r
       end.

Definition controller_send (md : mode) (command payload metadata : bytes) (timeout : Z)
    : M S (result bytes) :=
  id ← generateTicketId;
  response ←? on_peer (peer_handshake md (request_ticket id SHORT command payload metadata timeout));
  mret (send_reply response).

Definition send := controller_send Sync.
Definition sendAsync := controller_send Async.

Definition controller_poll (md : mode) (ticketId : bytes) (timeout : Z) : M S (result TicketInfo) :=
  response ←? on_peer (peer_handshake md (poll_ticket ticketId timeout));
  if bool_decide (status response = FAILED) then
    mret (Unexpected (std_make_error_code io_error))
  else mret (Ok response).

Definition poll := controller_poll Sync.
Definition pollAsync := controller_poll Async.

Definition controller_cancel (ticketId : bytes) (timeout : Z) : M S (result unit) :=
  response ←? on_peer (peer_handshake Sync (cancel_ticket ticketId timeout));
  if bool_decide (status response ≠ CANCELLED) then
    mret (Unexpected (std_make_error_code io_error))
  else mret (Ok tt).

(** [while (response->status == TicketStatus::RUNNING)]: the number of iterations
    is up to the worker, so the fuel is a parameter. The callback may be empty and
    may do anything with the state. *)
Fixpoint running_loop (fuel : nat) (md : mode) (onProgress : option (TicketInfo → M S unit))
    (timeout : Z) (response : TicketInfo) : M S (result TicketInfo) :=
  if bool_decide (status response = RUNNING) then
    match fuel with
    | O => out_of_fuel
    | Datatypes.S fuel' =>
        match onProgress with Some f => f response | None => mret tt end;;
        pollResult ←? controller_poll md (ticket_id response) timeout;
        running_loop fuel' md onProgress timeout pollResult
    end
  else mret (Ok response).

Definition controller_sendLong (fuel : nat) (md : mode) (command payload : bytes)
    (onProgress : option (TicketInfo → M S unit)) (metadata : bytes) (timeout : Z)
    : M S (result TicketInfo) :=
  id ← generateTicketId;
  response ←? on_peer (peer_handshake md (request_ticket id LONG command payload metadata timeout));
  if bool_decide (status response = FAILED) then
    mret (Unexpected (std_make_error_code io_error))
  else if bool_decide (status response = COMPLETED) then mret (Ok response)
  else if bool_decide (status response = CANCELLED) then mret (Ok response)
  else
    response ←? running_loop fuel md onProgress timeout response;
    if bool_decide (status response = COMPLETED) then mret (Ok response)
    else if bool_decide (status response = CANCELLED) then mret (Ok response)
    else if bool_decide (status response = FAILED) then
      mret (Unexpected (std_make_error_code io_error))
    else mret (Unexpected (std_make_error_code protocol_error)).

Definition sendLong (fuel : nat) := controller_sendLong fuel Sync.
Definition sendLongAsync (fuel : nat) := controller_sendLong fuel Async.
End controller_ops.

(** ** Lemmas *)

#[local] Opaque frame_bytes.

(** What [generate_uuid] writes at each position. *)
Definition uuid_shape (i : nat) (c : byte) : Prop :=
  if decide (i ∈ [8; 13; 18; 23]%nat) then c = Byte.x2d
  else if decide (i = 12%nat) then c = Byte.x34
  else if decide (i = 16%nat) then c ∈ txt "89ab"
  else c ∈ hex.

Definition is_uuid (u : bytes) : Prop :=
  length u = 36%nat ∧ ∀ i c, u !! i = Some c → uuid_shape i c.

Lemma is_uuid_ascii u : is_uuid u → Forall (λ c, byte_val c < 128) u.
Proof.
  intros [_ Hu]. apply Forall_lookup. intros i c Hc. apply Hu in Hc. unfold uuid_shape in Hc.
  assert (Hascii : ∀ l, bool_decide (Forall (λ c, byte_val c < 128) l) = true → c ∈ l →
    byte_val c < 128).
  { intros l Hl%bool_decide_eq_true. rewrite Forall_forall in Hl. apply Hl. }
  repeat case_decide; subst; [by vm_compute..| |];
    (eapply Hascii; [|exact Hc]; by vm_compute).
Qed.

Section uuid_lemmas.
Context {G : Type} `{R : Rng G}.

Lemma hex_draw_spec lo hi (g : G) :
  0 ≤ lo → lo ≤ hi → hi ≤ 15 →
  wp (hex_draw lo hi) (λ c _, ∃ i, lo ≤ i ≤ hi ∧ hex !! Z.to_nat i = Some c) g.
Proof.
  intros H1 H2 H3. unfold wp, hex_draw. pose proof (draw_range lo hi g H2) as Hr.
  destruct (draw lo hi g) as [i g']; simpl in Hr.
  destruct (hex !! Z.to_nat i) as [c|] eqn:E; [by exists i|].
  apply lookup_ge_None in E. change (length hex) with 16%nat in E. lia.
Qed.

Lemma uuid_char_spec i (g : G) : wp (uuid_char i) (λ c _, uuid_shape i c) g.
Proof.
  unfold uuid_char, uuid_shape. unfold bool_decide.
  repeat (case_decide; [by wp_steps|]) || idtac.
  all: repeat case_decide; wp_steps; try done.
  all: eapply wp_mono; [by apply hex_draw_spec|]; intros c g' (z & Hz & Hc).
  - assert (z = 8 ∨ z = 9 ∨ z = 10 ∨ z = 11) as [-> | [-> | [-> | ->]]] by lia;
      injection Hc as <-;
      apply (bool_decide_unpack _); by vm_compute.
  - by eapply list_elem_of_lookup_2.
Qed.

Lemma uuid_loop_spec k n u (g : G) :
  length u = k → (∀ i c, u !! i = Some c → uuid_shape i c) →
  wp (uuid_loop (seq k n) u) (λ u' _,
    length u' = (k + n)%nat ∧ ∀ i c, u' !! i = Some c → uuid_shape i c) g.
Proof.
  revert k u g. induction n as [|n IH]; intros k u g Hk Hu; simpl; wp_steps.
  { by rewrite Nat.add_0_r. }
  eapply wp_mono; [apply uuid_char_spec|]. intros c g' Hc.
  rewrite Nat.add_succ_r. apply (IH (Datatypes.S k)).
  - rewrite length_app, Hk. simpl. lia.
  - intros i c' [Hi|[Hi1 Hi2]]%lookup_app_Some; [by apply Hu|].
    apply list_lookup_singleton_Some in Hi2 as [Hz <-].
    by replace i with k by lia.
Qed.

Lemma generate_uuid_spec (g : G) : wp generate_uuid (λ u _, is_uuid u) g.
Proof. by apply (uuid_loop_spec 0 36 [] g). Qed.
End uuid_lemmas.

Section controller_lemmas.
Context {K W G X : Type} `{SP : DualSocketSpec K W} `{J : Json} `{R : Rng G}.
Implicit Types s : ctl_st K W G X.

Definition counter s : Z := c_ticketCounter (s_ctl s).

Lemma wp_on_peer {A} (m : M (peer_st K W) A) (Q : A → ctl_st K W G X → Prop) s :
  wp (on_peer m) Q s ↔
  wp m (λ a pw, Q a (CtlSt (Controller pw.1 (c_ticketCounter (s_ctl s)) (c_socketId (s_ctl s)))
                      (s_rng s) pw.2 (s_client s))) (c_peer (s_ctl s), s_world s).
Proof. unfold on_peer. by rewrite wp_zoom. Qed.

(** An identifier is a UUID-shaped text, the socket's number and the counter; only
    the counter and the generator change. *)
Lemma generateTicketId_spec s :
  wp generateTicketId (λ id s', ∃ u g', is_uuid u ∧
    id = u ++ txt "/" ++ c_socketId (s_ctl s) ++ txt "#" ++ to_string (counter s) ∧
    s' = next_counter (CtlSt (s_ctl s) g' (s_world s) (s_client s))) s.
Proof.
  unfold generateTicketId, on_rng. wp_steps.
  eapply wp_mono; [apply generate_uuid_spec|]. intros u g' Hu. wp_steps.
  exists u, g'. by split_and!.
Qed.

(** A controller on a working connection. *)
Definition ctl_ready (ser : TicketSerializer) s (rest out : bytes) : Prop :=
  ready ser (c_peer (s_ctl s), s_world s) rest out.

Definition serializable (ser : TicketSerializer) (t : TicketInfo) : Prop :=
  ∃ b, serialize ser t = Done b ∧ b ≠ [].

(** [ctl_step ser s s' rest out]: [s'] is [s] after an exchange. *)
Definition ctl_step ser s s' rest out : Prop :=
  ctl_ready ser s' rest out ∧ counter s' = counter s ∧
  c_socketId (s_ctl s') = c_socketId (s_ctl s) ∧ s_client s' = s_client s.

Lemma on_peer_handshake md t s ser b rb rest out :
  ctl_ready ser s (frame_bytes rb ++ rest) out → serialize ser t = Done b → b ≠ [] →
  Z.of_nat (length rb) < 2 ^ 32 →
  wp (on_peer (peer_handshake md t)) (λ r s',
    r = deserialize ser rb ∧ ctl_step ser s s' rest (out ++ frame_bytes b)) s.
Proof.
  intros Hr Hb Hne Hlen. apply wp_on_peer.
  eapply wp_mono; [by eapply (handshake_ready md t)|]. simpl.
  intros r [p' w'] [-> Hr']. by split_and!.
Qed.

Lemma poll_ready md id timeout s ser b rb response rest out :
  ctl_ready ser s (frame_bytes rb ++ rest) out →
  serialize ser (poll_ticket id timeout) = Done b → b ≠ [] →
  Z.of_nat (length rb) < 2 ^ 32 → deserialize ser rb = Ok response →
  wp (controller_poll md id timeout) (λ r s',
    r = (if decide (status response = FAILED)
         then Unexpected (std_make_error_code io_error) else Ok response) ∧
    ctl_step ser s s' rest (out ++ frame_bytes b)) s.
Proof.
  intros Hr Hb Hne Hlen Hd. unfold controller_poll. wp_steps.
  eapply wp_mono; [by eapply on_peer_handshake|]. intros r s' [-> Hs].
  rewrite Hd. case_bool_decide; wp_steps; [by rewrite decide_True|by rewrite decide_False].
Qed.

(** [n] identifiers in a row. *)
Fixpoint generate_ids (n : nat) : M (ctl_st K W G X) (list bytes) :=
  match n with
  | O => mret []
  | Datatypes.S n => id ← generateTicketId; ids ← generate_ids n; mret (id :: ids)
  end.

Definition id_of s (i : nat) (id : bytes) : Prop :=
  ∃ u, length u = 36%nat ∧
    id = u ++ txt "/" ++ c_socketId (s_ctl s) ++ txt "#" ++
         to_string (wrap_u64 (counter s + Z.of_nat i)).

Lemma generate_ids_spec n s :
  0 ≤ counter s < 2 ^ 64 →
  wp (generate_ids n) (λ ids _,
    length ids = n ∧ ∀ i id, ids !! i = Some id → id_of s i id) s.
Proof.
  revert s. induction n as [|n IH]; intros s Hs; simpl; wp_steps; [done|].
  eapply wp_mono; [apply generateTicketId_spec|].
  intros id s1 (u & g' & [Hu _] & -> & ->). wp_steps.
  eapply wp_mono; [apply IH; by apply Z.mod_pos_bound|].
  intros ids s2 [Hl Hids]. wp_steps. split; [by simpl; rewrite Hl|].
  intros [|i] id Hid; simpl in Hid.
  - injection Hid as <-. exists u. split; [done|]. unfold wrap_u64.
    by rewrite Z.add_0_r, Z.mod_small.
  - destruct (Hids i id Hid) as (u' & Hu' & ->). exists u'. split; [done|].
    unfold counter, wrap_u64; simpl. unfold wrap_u64. rewrite Z.add_mod_idemp_l by lia.
    do 6 f_equal. lia.
Qed.

Lemma id_of_inj s i j id :
  id_of s i id → id_of s j id → (Z.of_nat i < 2 ^ 64) → (Z.of_nat j < 2 ^ 64) → i = j.
Proof.
  intros (u & Hu & ->) (u' & Hu' & Heq) Hi Hj.
  apply app_inj_1 in Heq as [_ Heq]; [|by rewrite Hu, Hu'].
  do 3 apply app_inv_head in Heq. apply (inj to_string) in Heq. unfold wrap_u64 in Heq.
  cut (Z.of_nat i = Z.of_nat j); [lia|].
  pose proof (Z.div_mod (counter s + Z.of_nat i) (2 ^ 64)).
  pose proof (Z.div_mod (counter s + Z.of_nat j) (2 ^ 64)).
  nia.
Qed.

(** The identifier that the next request gets, for the drawn text [u]. *)
Definition next_id s (u : bytes) : bytes :=
  u ++ txt "/" ++ c_socketId (s_ctl s) ++ txt "#" ++ to_string (counter s).

(** The outcome of a long request by the final status of the ticket. *)
Definition long_reply (final : TicketInfo) : result TicketInfo :=
  match status final with
  | COMPLETED | CANCELLED => Ok final
  | FAILED => Unexpected (std_make_error_code io_error)
  | PENDING | RUNNING => Unexpected (std_make_error_code protocol_error)
  end.

(** Frames that hold these responses, for a deserializer. *)
Definition responses_in (ser : TicketSerializer) (rbs : list bytes) (rs : list TicketInfo) : Prop :=
  Forall2 (λ rb r, deserialize ser rb = Ok r ∧ Z.of_nat (length rb) < 2 ^ 32) rbs rs.

Definition frames (bs : list bytes) : bytes := concat (frame_bytes <$> bs).

(** What the polling loop does with the responses [running] that are still running
    and the one, [final], that is not; a ticket that failed is reported by [poll]
    itself. *)
Lemma running_loop_spec ser f timeout (log : TicketInfo → X → X) final fuel md :
  f = (λ r, modify (λ s, CtlSt (s_ctl s) (s_rng s) (s_world s) (log r (s_client s)))) →
  status final ≠ RUNNING →
  ∀ running r0 s rbs rest out,
    (length running < fuel)%nat → Forall (λ r, status r = RUNNING) (r0 :: running) →
    Forall (λ r, serializable ser (poll_ticket (ticket_id r) timeout)) (r0 :: running) →
    responses_in ser rbs (running ++ [final]) →
    ctl_ready ser s (frames rbs ++ rest) out →
    wp (running_loop fuel md (Some f) timeout r0) (λ r s',
      r = (if decide (status final = FAILED)
           then Unexpected (std_make_error_code io_error) else Ok final) ∧
      counter s' = counter s ∧
      s_client s' = foldl (λ x r, log r x) (s_client s) (r0 :: running) ∧
      ∃ bs, Forall2 (λ r b, serialize ser (poll_ticket (ticket_id r) timeout) = Done b)
              (r0 :: running) bs ∧
        ctl_ready ser s' rest (out ++ frames bs)) s.
Proof.
  intros Hf Hfin. induction fuel as [|fuel IH]; intros running r0 s rbs rest out Hfuel Hrun Hser Hin Hr;
    [lia|]. simpl.
  apply Forall_cons in Hrun as [H0 Hrun]. apply Forall_cons in Hser as [(b & Hb & Hne) Hser].
  rewrite bool_decide_true by done. wp_steps. rewrite Hf. wp_steps.
  set (s1 := CtlSt _ _ _ _).
  assert (∃ r1 rs1, running ++ [final] = r1 :: rs1) as (r1 & rs1 & Hrs)
    by (destruct running; by eexists _, _).
  unfold responses_in in Hin. rewrite Hrs in Hin.
  apply Forall2_cons_inv_r in Hin as (rb & rbs1 & [Hd Hlen] & Hin & ->).
  unfold frames in Hr; simpl in Hr. rewrite <- app_assoc in Hr.
  eapply wp_mono; [by apply (poll_ready md (ticket_id r0) timeout s1 ser b rb r1 (frames rbs1 ++ rest) out)|].
  simpl. intros r s2 [-> (Hr2 & Hc2 & _ & Hcl2)].
  destruct running as [|r1' running]; simpl in Hrs; injection Hrs as <- <-.
  - apply Forall2_nil_inv_r in Hin as ->. simpl in Hr2.
    assert (∃ bs, Forall2 (λ r b, serialize ser (poll_ticket (ticket_id r) timeout) = Done b)
      [r0] bs ∧ ctl_ready ser s2 rest (out ++ frames bs)) as Hbs.
    { exists [b]. unfold frames; simpl. rewrite app_nil_r. split; [by repeat constructor|done]. }
    case_decide; simpl.
    + by split_and!.
    + destruct fuel; simpl; rewrite bool_decide_false by done; wp_steps; by split_and!.
  - rewrite decide_False by (apply Forall_cons in Hrun as [-> _]; done).
    subst f. eapply wp_mono; [by eapply (IH running r1' s2 rbs1 rest); [simpl in *; lia|..]|].
    simpl. intros r s3 (-> & Hc3 & Hcl3 & bs & Hbs & Hr3).
    split_and!; [done|by rewrite Hc3, Hc2|by rewrite Hcl3, Hcl2|].
    exists (b :: bs). unfold frames in *; simpl. rewrite app_assoc. by split; [constructor|].
Qed.
End controller_lemmas.

(** ** Correctness of the controller *)

(** C16: the identifiers of one controller are pairwise different, whatever the
    random generator gives, up to 2^64 of them; only then the counter comes round. *)
Theorem ticket_ids_distinct {K W G X : Type} `{R : Rng G} n (s : ctl_st K W G X) :
  0 ≤ counter s < 2 ^ 64 → Z.of_nat n ≤ 2 ^ 64 →
  wp (generate_ids n) (λ ids _, length ids = n ∧ NoDup ids) s.
Proof.
  intros Hs Hn. eapply wp_mono; [by apply generate_ids_spec|].
  intros ids s' [Hl Hids]. split; [done|]. apply NoDup_alt. intros i j id Hi Hj.
  pose proof (lookup_lt_Some _ _ _ Hi). pose proof (lookup_lt_Some _ _ _ Hj).
  apply (id_of_inj s i j id); [by apply Hids|by apply Hids|lia|lia].
Qed.

(** A generator that always draws the least number. *)
#[export] Program Instance low_rng : Rng unit := {| draw lo _ g := (lo, g) |}.
Next Obligation. simpl. lia. Qed.

Definition mem_ctl (w : mem_net) : ctl_st (socket mem_net) mem_net unit (list TicketInfo) :=
  CtlSt (Controller (mem_peer (Socket 7 TcpSocketClass tt [])) 0 (to_string 7)) tt w [].

Lemma ticket_ids_distinct_witness :
  let s := mem_ctl (MemNet [] [] 1 true true) in
  0 ≤ counter s < 2 ^ 64 ∧ Z.of_nat 3 ≤ 2 ^ 64 ∧
  wp (generate_ids 3) (λ ids _, length ids = 3%nat ∧ NoDup ids) s.
Proof.
  intros s. assert (0 ≤ counter s < 2 ^ 64) as H1 by (vm_compute; split; congruence).
  assert (Z.of_nat 3 ≤ 2 ^ 64) as H2 by (vm_compute; congruence).
  split; [exact H1|split; [exact H2|]]. exact (ticket_ids_distinct 3 s H1 H2).
Defined.

(** The generated text has the length and the dashes of a UUID, but the
    version digit 4 is its character 12 and the variant digit its character 16:
    the loop counts the dashes, while the version and the variant of a UUID are
    its characters 14 and 19, which are random here. *)
Theorem uuid_layout :
  (∀ (G : Type) (R : Rng G) (g : G), wp generate_uuid (λ u _,
     length u = 36%nat ∧ u !! 12%nat = Some Byte.x34 ∧
     (∀ i, i ∈ [8; 13; 18; 23]%nat → u !! i = Some Byte.x2d) ∧
     (∀ c, u !! 16%nat = Some c → c ∈ txt "89ab") ∧
     (∀ i c, i ∉ [8; 12; 13; 16; 18; 23]%nat → u !! i = Some c → c ∈ hex)) g) ∧
  (generate_uuid tt).1 = Done (txt "00000000-0004-0080-0000-000000000000").
Proof.
  split; [|by vm_compute].
  intros G R g. eapply wp_mono; [apply generate_uuid_spec|].
  intros u g' [Hl Hu].
  assert (Hat : ∀ i, (i < 36)%nat → ∃ c, u !! i = Some c ∧ uuid_shape i c).
  { intros i Hi. destruct (lookup_lt_is_Some_2 u i) as [c Hc]; [lia|].
    exists c. split; [done|]. by apply Hu. }
  split_and!; [done| | | |].
  - destruct (Hat 12%nat) as (c & -> & Hc); [lia|]. by rewrite <- Hc.
  - intros i Hi. destruct (Hat i) as (c & -> & Hc); [set_unfold in Hi; lia|].
    unfold uuid_shape in Hc. rewrite decide_True in Hc by done. by subst.
  - intros c Hc. apply Hu in Hc. exact Hc.
  - intros i c Hi Hc. apply Hu in Hc. unfold uuid_shape in Hc.
    rewrite !decide_False in Hc by (set_unfold in Hi; set_unfold; lia). exact Hc.
Qed.

(** On a working connection whose next frame holds a response, send transmits
    one serialized request under a new identifier, and gives the response's result;
    a failed ticket is io_error and a response without result protocol_error. The
    response is not checked to belong to the request, nor to be completed. *)
Theorem send_correct {K W G X : Type} `{SP : DualSocketSpec K W} `{J : Json} `{R : Rng G}
    md command payload metadata timeout ser (s : ctl_st K W G X) rb response rest out :
  ctl_ready ser s (frame_bytes rb ++ rest) out →
  deserialize ser rb = Ok response → Z.of_nat (length rb) < 2 ^ 32 →
  (∀ u, is_uuid u →
     serializable ser (request_ticket (next_id s u) SHORT command payload metadata timeout)) →
  wp (controller_send md command payload metadata timeout) (λ r s',
    match status response, ticket_result response with
    | FAILED, _ => r = Unexpected (std_make_error_code io_error)
    | _, None => r = Unexpected (std_make_error_code protocol_error)
    | _, Some x => r = Ok x
    end ∧
    counter s' = wrap_u64 (counter s + 1) ∧
    ∃ u b, is_uuid u ∧
      serialize ser (request_ticket (next_id s u) SHORT command payload metadata timeout) = Done b ∧
      ctl_ready ser s' rest (out ++ frame_bytes b)) s.
Proof.
  intros Hr Hd Hlen Hser. unfold controller_send. wp_steps.
  eapply wp_mono; [apply generateTicketId_spec|].
  intros id s1 (u & g' & Hu & -> & ->). wp_steps.
  destruct (Hser u Hu) as (b & Hb & Hne).
  eapply wp_mono; [by eapply on_peer_handshake|]. intros r s2 [-> (Hr2 & Hc2 & _)].
  rewrite Hd. wp_steps. unfold send_reply. split_and!; [|done|by exists u, b].
  destruct (status response); simpl; by destruct (ticket_result response).
Qed.

Lemma encodable_serializable `{JS : JsonSpec} t : encodable t → serializable TicketJson t.
Proof. intros (b & Hb & Hne & _)%json_serialize_encodable. by exists b. Qed.

(** The short request of a JSON controller whose texts are UTF-8. *)
Lemma request_serializable s u ty command payload timeout :
  c_socketId (s_ctl s) = txt "7" → counter s = 0 → is_uuid u →
  utf8_valid command = true → utf8_valid payload = true →
  serializable TicketJson
    (request_ticket (next_id (s : ctl_st (socket mem_net) mem_net unit (list TicketInfo)) u)
       ty command payload [] timeout).
Proof.
  intros Hid Hc Hu H1 H2. unfold next_id. rewrite Hid, Hc.
  apply encodable_serializable. split; [|done]. unfold ticket_texts; simpl. rewrite !Forall_cons, map_to_list_empty. simpl.
  split_and!; [|done|by constructor]. apply utf8_valid_ascii, Forall_app. split; [by apply is_uuid_ascii|].
  apply (bool_decide_unpack _). by vm_compute.
Qed.

Definition reply (st : TicketStatus) (res : option bytes) : TicketInfo :=
  {| ticket_id := txt "other"; type := SHORT; status := st; command := txt "echo";
     metadata := ∅; timeout := 0; progress_percent := None; progress_msg := None;
     payload := None; ticket_result := res; error := None |}.

Definition reply_bytes (t : TicketInfo) : bytes :=
  match json_serialize t with Done b => b | _ => [] end.

Lemma mem_ctl_ready input :
  ctl_ready (SP := socket_DualSocketSpec 0) TicketJson (mem_ctl (MemNet input [] 9 true true))
    input [].
Proof.
  eexists. split_and!; [done|done|done|split; [done|simpl; lia]| |done].
  exists []. by rewrite app_nil_r.
Qed.

Lemma send_correct_witness :
  let rb := reply_bytes (reply COMPLETED (Some (txt "pong"))) in
  let s := mem_ctl (MemNet (frame_bytes rb ++ txt "rest") [] 9 true true) in
  ctl_ready (SP := socket_DualSocketSpec 0) TicketJson s (frame_bytes rb ++ txt "rest") [] ∧
  wp (controller_send (DS := socket_DualSocket 0) Sync (txt "echo") (txt "ping") [] 0)
    (λ r s', r = Ok (txt "pong") ∧ counter s' = wrap_u64 (counter s + 1) ∧
      ∃ u b, is_uuid u ∧
        serialize TicketJson
          (request_ticket (next_id s u) SHORT (txt "echo") (txt "ping") [] 0) = Done b ∧
        ctl_ready (SP := socket_DualSocketSpec 0) TicketJson s' (txt "rest")
          ([] ++ frame_bytes b)) s.
Proof.
  intros rb s. split; [apply mem_ctl_ready|].
  apply (send_correct (SP := socket_DualSocketSpec 0) Sync (txt "echo") (txt "ping") [] 0
    TicketJson s rb (reply COMPLETED (Some (txt "pong"))) (txt "rest") []).
  - apply mem_ctl_ready.
  - by vm_compute.
  - by vm_compute.
  - intros u Hu. by apply request_serializable.
Defined.

(** C7: on a working connection that will deliver responses to a long request, the
    first ones with status running and the last with another one, sendLong comes to
    an end and returns what the last one says; the progress callback is called once
    for each running response, in order, and one poll for the identifier of each is
    sent. Fuel larger than the number of running responses is enough. *)
Theorem sendLong_correct {K W G X : Type} `{SP : DualSocketSpec K W} `{J : Json} `{R : Rng G}
    fuel md command payload metadata timeout ser (log : TicketInfo → X → X)
    (s : ctl_st K W G X) running final rbs rest out :
  (length running ≤ fuel)%nat →
  Forall (λ r, status r = RUNNING) running → status final ≠ RUNNING →
  responses_in ser rbs (running ++ [final]) →
  ctl_ready ser s (frames rbs ++ rest) out →
  (∀ u, is_uuid u →
     serializable ser (request_ticket (next_id s u) LONG command payload metadata timeout)) →
  Forall (λ r, serializable ser (poll_ticket (ticket_id r) timeout)) running →
  wp (controller_sendLong fuel md command payload
        (Some (λ r, modify (λ s, CtlSt (s_ctl s) (s_rng s) (s_world s) (log r (s_client s)))))
        metadata timeout) (λ r s',
    r = long_reply final ∧
    s_client s' = foldl (λ x t, log t x) (s_client s) running ∧
    ∃ u b bs, is_uuid u ∧
      serialize ser (request_ticket (next_id s u) LONG command payload metadata timeout) = Done b ∧
      Forall2 (λ t b, serialize ser (poll_ticket (ticket_id t) timeout) = Done b) running bs ∧
      ctl_ready ser s' rest (out ++ frame_bytes b ++ frames bs)) s.
Proof.
  intros Hfuel Hrun Hfin Hin Hr Hser Hpoll. unfold controller_sendLong. wp_steps.
  eapply wp_mono; [apply generateTicketId_spec|].
  intros id s1 (u & g' & Hu & -> & ->). wp_steps.
  destruct (Hser u Hu) as (b & Hb & Hne).
  assert (∃ r1 rs1, running ++ [final] = r1 :: rs1) as (r1 & rs1 & Hrs)
    by (destruct running; by eexists _, _).
  unfold responses_in in Hin. rewrite Hrs in Hin.
  apply Forall2_cons_inv_r in Hin as (rb & rbs1 & [Hd Hlen] & Hin & ->).
  unfold frames in Hr; simpl in Hr. rewrite <- app_assoc in Hr.
  eapply wp_mono.
  { by apply (on_peer_handshake md _ _ ser b rb (frames rbs1 ++ rest) out). }
  simpl. intros r s2 [-> (Hr2 & Hc2 & _ & Hcl2)]. simpl in *. rewrite Hd.
  destruct running as [|r1' running]; simpl in Hrs; injection Hrs as <- <-.
  - apply Forall2_nil_inv_r in Hin as ->. simpl in Hr2.
    assert (∃ u b0 bs, is_uuid u ∧
      serialize ser (request_ticket (next_id s u) LONG command payload metadata timeout) = Done b0 ∧
      Forall2 (λ t b, serialize ser (poll_ticket (ticket_id t) timeout) = Done b) [] bs ∧
      ctl_ready ser s2 rest (out ++ frame_bytes b0 ++ frames bs)) as Hsent.
    { exists u, b, []. unfold frames; simpl. rewrite app_nil_r. by split_and!. }
    unfold long_reply. destruct fuel, (status final) eqn:E; simpl; rewrite ?E; simpl; wp_steps;
      by rewrite ?E.
  - apply Forall_cons in Hrun as [H1 Hrun]. rewrite !bool_decide_false by (by rewrite H1).
    wp_steps. eapply wp_mono.
    { apply (running_loop_spec ser _ timeout log final fuel md eq_refl Hfin running r1' s2
        rbs1 rest (out ++ frame_bytes b)); [simpl in *; lia|by constructor|done..]. }
    simpl. intros r s3 (-> & _ & Hcl3 & bs & Hbs & Hr3).
    rewrite Hcl2 in Hcl3. rewrite <- app_assoc in Hr3.
    unfold long_reply. case_decide as Hf; wp_steps.
    + rewrite Hf. split_and!; [done|done|]. by exists u, b, bs.
    + destruct (status final) eqn:E; simpl; wp_steps; (split_and!; [done|done|]);
        by exists u, b, bs.
Qed.

Lemma sendLong_correct_witness :
  let r1 := reply RUNNING None in
  let r2 := reply COMPLETED (Some (txt "done")) in
  let rbs := [reply_bytes r1; reply_bytes r1; reply_bytes r2] in
  let s := mem_ctl (MemNet (frames rbs) [] 9 true true) in
  let log := λ (r : TicketInfo) (l : list TicketInfo), l ++ [r] in
  (length [r1; r1] ≤ 2)%nat ∧ Forall (λ r, status r = RUNNING) [r1; r1] ∧
  responses_in TicketJson rbs ([r1; r1] ++ [r2]) ∧
  wp (controller_sendLong (DS := socket_DualSocket 0) 2 Async (txt "copy") (txt "p")
        (Some (λ r, modify (λ s, CtlSt (s_ctl s) (s_rng s) (s_world s) (log r (s_client s)))))
        [] 0) (λ r s', r = Ok r2 ∧ s_client s' = [r1; r1] ∧
    ∃ u b bs, is_uuid u ∧
      serialize TicketJson
        (request_ticket (next_id s u) LONG (txt "copy") (txt "p") [] 0) = Done b ∧
      Forall2 (λ t b, serialize TicketJson (poll_ticket (ticket_id t) 0) = Done b) [r1; r1] bs ∧
      ctl_ready (SP := socket_DualSocketSpec 0) TicketJson s' []
        ([] ++ frame_bytes b ++ frames bs)) s.
Proof.
  intros r1 r2 rbs s log.
  assert (Forall (λ r, status r = RUNNING) [r1; r1]) as Hrun by by repeat constructor.
  assert (responses_in TicketJson rbs ([r1; r1] ++ [r2])) as Hin.
  { do 3 (constructor; [by vm_compute|]). constructor. }
  split_and!; [reflexivity|exact Hrun|exact Hin|].
  apply (sendLong_correct (SP := socket_DualSocketSpec 0) 2 Async (txt "copy") (txt "p") [] 0
    TicketJson log s [r1; r1] r2 rbs [] []); [reflexivity|exact Hrun|done|exact Hin| | |].
  - rewrite app_nil_r. apply mem_ctl_ready.
  - intros u Hu. by apply request_serializable.
  - assert (serializable TicketJson (poll_ticket (txt "other") 0)) as H; [|by constructor; [|constructor]].
    exists (reply_bytes (poll_ticket (txt "other") 0)). by split; vm_compute.
Defined.

(** Poll gives the response as it is, unless its status is failed, which is
    io_error; cancel sends a ticket with status cancelled and succeeds exactly when
    the response has that status too. Both address the identifier they are given,
    and draw no new one. *)
Theorem poll_cancel_correct {K W G X : Type} `{SP : DualSocketSpec K W} `{J : Json}
    md id timeout ser (s : ctl_st K W G X) rb response rest out bp bc :
  ctl_ready ser s (frame_bytes rb ++ rest) out →
  deserialize ser rb = Ok response → Z.of_nat (length rb) < 2 ^ 32 →
  serialize ser (poll_ticket id timeout) = Done bp → bp ≠ [] →
  serialize ser (cancel_ticket id timeout) = Done bc → bc ≠ [] →
  wp (controller_poll md id timeout) (λ r s',
    (if decide (status response = FAILED) then r = Unexpected (std_make_error_code io_error)
     else r = Ok response) ∧
    counter s' = counter s ∧ ctl_ready ser s' rest (out ++ frame_bytes bp)) s ∧
  wp (controller_cancel id timeout) (λ r s',
    (has_value r = true ↔ status response = CANCELLED) ∧
    counter s' = counter s ∧ ctl_ready ser s' rest (out ++ frame_bytes bc)) s.
Proof.
  intros Hr Hd Hlen Hbp Hnp Hbc Hnc. split.
  - eapply wp_mono; [by eapply poll_ready|]. intros r s' [-> (? & ? & _)].
    by case_decide.
  - unfold controller_cancel. wp_steps.
    eapply wp_mono; [by eapply on_peer_handshake|]. intros r s' [-> (? & ? & _)].
    rewrite Hd. case_bool_decide; wp_steps; by split_and!.
Qed.

Lemma poll_cancel_correct_witness :
  let response := reply CANCELLED None in
  let rb := reply_bytes response in
  let s := mem_ctl (MemNet (frame_bytes rb) [] 9 true true) in
  let bp := reply_bytes (poll_ticket (txt "other") 5) in
  let bc := reply_bytes (cancel_ticket (txt "other") 5) in
  ctl_ready (SP := socket_DualSocketSpec 0) TicketJson s (frame_bytes rb ++ []) [] ∧
  wp (controller_poll (DS := socket_DualSocket 0) Sync (txt "other") 5) (λ r s',
    r = Ok response ∧ counter s' = counter s ∧
    ctl_ready (SP := socket_DualSocketSpec 0) TicketJson s' [] ([] ++ frame_bytes bp)) s ∧
  wp (controller_cancel (DS := socket_DualSocket 0) (txt "other") 5) (λ r s',
    (has_value r = true ↔ status response = CANCELLED) ∧ counter s' = counter s ∧
    ctl_ready (SP := socket_DualSocketSpec 0) TicketJson s' [] ([] ++ frame_bytes bc)) s.
Proof.
  intros response rb s bp bc.
  assert (ctl_ready (SP := socket_DualSocketSpec 0) TicketJson s (frame_bytes rb ++ []) []) as Hr.
  { rewrite app_nil_r. apply mem_ctl_ready. }
  split; [exact Hr|].
  apply (poll_cancel_correct (SP := socket_DualSocketSpec 0) Sync (txt "other") 5 TicketJson s rb
    response [] [] bp bc Hr); (by vm_compute) || done.
Defined.
