(* ===== verification/TicketWorker.v ===== *)
(** The ticket worker (src/protocol/TicketWorker.cpp): handlers by command, and the
    response to each ticket. *)

From S2P Require Import Prelude ErrorCodes SocketBase Socket Ticket TicketJson TicketFrame.
From S2P Require Import TicketPeer.

(** ** Data *)

(** The messages of the categories that are not the program's own. *)
Class ErrorMessages := { foreign_message : error_code → bytes }.

(** [std::error_code::message]. *)
Definition ec_message `{ErrorMessages} (ec : error_code) : bytes :=
  if bool_decide (ec_category ec = cat_network) then message (ec_value ec)
  else foreign_message ec.

(** [TicketContext]; [X] is the state that the handlers of the program share. *)
Record TicketContext (X : Type) := {
  ctx_ticket_id : bytes;
  ctx_type : TicketType;
  ctx_command : bytes;
  ctx_payload : bytes;
  ctx_metadata : gmap bytes bytes;
  ctx_timeout : Z;
  ctx_progress : Z → bytes → M X unit
}.
Arguments ctx_payload {X} _.

Definition TicketHandler (X : Type) : Type := TicketContext X → M X (result bytes).

(** A long handler also gets a function to push progress. *)
Definition TicketLongHandler (X : Type) : Type :=
  TicketContext X → (Z → bytes → M X unit) → M X (result TicketInfo).

(** [handlers.find(command)]. *)
Definition find_handler {H : Type} (handlers : gmap bytes H) (command : bytes) : option H :=
  handlers !! command.

Record worker (K X : Type) := Worker {
  k_peer : peer K;
  k_handlers : gmap bytes (TicketHandler X);
  k_longHandlers : gmap bytes (TicketLongHandler X)
}.
Arguments Worker {K X} _ _ _.
Arguments k_peer {K X} _.
Arguments k_handlers {K X} _.
Arguments k_longHandlers {K X} _.

(** A worker with the world of its socket and the state of its handlers. *)
Record wrk_st (K W X : Type) := WrkSt {
  s_worker : worker K X;
  s_wworld : W;
  s_shared : X
}.
Arguments WrkSt {K W X} _ _ _.
Arguments s_worker {K W X} _.
Arguments s_wworld {K W X} _.
Arguments s_shared {K W X} _.

(** ** Operations *)

Section worker_ops.
Context {K W X : Type} `{DS : DualSocket K W} `{J : Json} `{EM : ErrorMessages}.

Abbreviation S := (wrk_st K W X).

Definition TicketWorker_new (socket : option K) (serializer : option TicketSerializer)
    : worker K X :=
  Worker (TicketPeer_new socket (Some (serializer_or_default serializer))) ∅ ∅.

Definition registerHandler (command : bytes) (handler : TicketHandler X) (k : worker K X)
    : worker K X :=
  Worker (k_peer k) (<[command := handler]> (k_handlers k)) (k_longHandlers k).

Definition registerLongHandler (command : bytes) (handler : TicketLongHandler X)
    (k : worker K X) : worker K X :=
  Worker (k_peer k) (k_handlers k) (<[command := handler]> (k_longHandlers k)).

Definition on_wpeer {A} (m : M (peer_st K W) A) : M S A :=
  zoom (λ s : S, (k_peer (s_worker s), s_wworld s))
       (λ pw s, WrkSt (Worker pw.1 (k_handlers (s_worker s)) (k_longHandlers (s_worker s)))
                      pw.2 (s_shared s)) m.

Definition on_shared {A} (m : M X A) : M S A :=
  zoom s_shared (λ x s, WrkSt (s_worker s) (s_wworld s) x) m.

Definition worker_sendResponse (md : mode) (response : TicketInfo) : M S (result nat) :=
  on_wpeer (peer_sendFrame md response).

Definition sendResponse := worker_sendResponse Sync.
Definition sendResponseAsync := worker_sendResponse Async.

(** The response that [sendErrorResponse] builds. *)
Definition error_response (ticketId err : bytes) (ty : TicketType) (command : bytes)
    (timeout : Z) : TicketInfo :=
  {| ticket_id := ticketId; type := ty; status := FAILED; command := command;
     metadata := ∅; timeout := timeout; progress_percent := None; progress_msg := None;
     payload := None; ticket_result := None; error := Some err |}.

(** Its result is dropped; there is no coroutine version. *)
Definition sendErrorResponse (ticketId err : bytes) (ty : TicketType) (command : bytes)
    (timeout : Z) : M S unit :=
  sendResponse (error_response ticketId err ty command timeout);; mret tt.

Definition context_of (ticket : TicketInfo) : TicketContext X :=
  {| ctx_ticket_id := ticket_id ticket; ctx_type := type ticket;
     ctx_command := command ticket; ctx_payload := default [] (payload ticket);
     ctx_metadata := metadata ticket; ctx_timeout := timeout ticket;
     ctx_progress := λ _ _, mret tt |}.

Definition completed_response (ticket : TicketInfo) (res : bytes) : TicketInfo :=
  {| ticket_id := ticket_id ticket; type := type ticket; status := COMPLETED;
     command := command ticket; metadata := ∅; timeout := timeout ticket;
     progress_percent := None; progress_msg := None; payload := None;
     ticket_result := Some res; error := None |}.

Definition worker_processTicket (md : mode) (ticket : TicketInfo) : M S unit :=
  k ← gets s_worker;
  match find_handler (k_longHandlers k) (command ticket) with
  | Some _ =>
      sendErrorResponse (ticket_id ticket) (txt "long handlers not implemented")
        (type ticket) (command ticket) (timeout ticket)
  | None =>
      match find_handler (k_handlers k) (command ticket) with
      | None =>
          sendErrorResponse (ticket_id ticket) (txt "unknown command")
            (type ticket) (command ticket) (timeout ticket)
      | Some handler =>
          r ← on_shared (handler (context_of ticket));
          match r with
          | Unexpected e =>
              sendErrorResponse (ticket_id ticket) (ec_message e)
                (type ticket) (command ticket) (timeout ticket)
          | Ok res => worker_sendResponse md (completed_response ticket res);; mret tt
          end
      end
  end.

Definition processTicket := worker_processTicket Sync.
Definition processTicketAsync := worker_processTicket Async.

Definition worker_handleNext (md : mode) : M S (result unit) :=
  ticket ←? on_wpeer (peer_receiveFrame md);
  worker_processTicket md ticket;;
  mret (Ok tt).

Definition handleNext := worker_handleNext Sync.
Definition handleNextAsync := worker_handleNext Async.
End worker_ops.

(** ** Specification: which response answers a ticket

    [answers k t x response x']: the worker [k] answers [t] with [response], and the
    handlers take their state from [x] to [x']. *)
Inductive answers {K X : Type} `{ErrorMessages} (k : worker K X) (t : TicketInfo) (x : X) :
    TicketInfo → X → Prop :=
| answers_long (h : TicketLongHandler X) :
    find_handler (k_longHandlers k) (command t) = Some h →
    answers k t x (error_response (ticket_id t) (txt "long handlers not implemented")
                     (type t) (command t) (timeout t)) x
| answers_unknown :
    find_handler (k_longHandlers k) (command t) = None → find_handler (k_handlers k) (command t) = None →
    answers k t x (error_response (ticket_id t) (txt "unknown command")
                     (type t) (command t) (timeout t)) x
| answers_failed (h : TicketHandler X) e x' :
    find_handler (k_longHandlers k) (command t) = None → find_handler (k_handlers k) (command t) = Some h →
    h (context_of t) x = (Done (Unexpected e), x') →
    answers k t x (error_response (ticket_id t) (ec_message e)
                     (type t) (command t) (timeout t)) x'
| answers_completed (h : TicketHandler X) res x' :
    find_handler (k_longHandlers k) (command t) = None → find_handler (k_handlers k) (command t) = Some h →
    h (context_of t) x = (Done (Ok res), x') →
    answers k t x (completed_response t res) x'.

Section worker_lemmas.
Context {K W X : Type} `{SP : DualSocketSpec K W} `{J : Json} `{EM : ErrorMessages}.
Implicit Types s : wrk_st K W X.

Lemma answers_functional (k : worker K X) t x r1 x1 r2 x2 :
  answers k t x r1 x1 → answers k t x r2 x2 → r1 = r2 ∧ x1 = x2.
Proof.
  destruct 1; destruct 1; simplify_map_eq; try done;
    repeat match goal with E : ?a = (Done _, _), E' : ?a = (Done _, _) |- _ => rewrite E in E' end;
    by simplify_eq.
Qed.

(** The answer does not depend on the peer. *)
Lemma answers_worker (p : peer K) (k : worker K X) t x r x' :
  answers k t x r x' → answers (Worker p (k_handlers k) (k_longHandlers k)) t x r x'.
Proof. destruct 1; by econstructor. Qed.

(** A worker on a working connection. *)
Definition wrk_ready (ser : TicketSerializer) s (rest out : bytes) : Prop :=
  ready ser (k_peer (s_worker s), s_wworld s) rest out.

(** The state after the peer has been used. *)
Definition with_peer s (pw : peer_st K W) : wrk_st K W X :=
  WrkSt (Worker pw.1 (k_handlers (s_worker s)) (k_longHandlers (s_worker s)))
        pw.2 (s_shared s).

Lemma wp_on_wpeer {A} (m : M (peer_st K W) A) (Q : A → wrk_st K W X → Prop) s :
  wp (on_wpeer m) Q s ↔
  wp m (λ a pw, Q a (with_peer s pw)) (k_peer (s_worker s), s_wworld s).
Proof. unfold on_wpeer. by rewrite wp_zoom. Qed.

Lemma sendResponse_ready md response s ser b rest out :
  wrk_ready ser s rest out → serialize ser response = Done b → b ≠ [] →
  wp (worker_sendResponse md response) (λ _ s',
    wrk_ready ser s' rest (out ++ frame_bytes b) ∧ s_shared s' = s_shared s) s.
Proof.
  intros Hr Hb Hne. apply wp_on_wpeer.
  eapply wp_mono; [by eapply (sendFrame_ready md)|]. by intros r [p' w'] [_ Hr'].
Qed.

(** Processing a ticket sends the answer, and only that. *)
Lemma processTicket_answers md t s ser b response x' rest out :
  answers (s_worker s) t (s_shared s) response x' →
  wrk_ready ser s rest out → serialize ser response = Done b → b ≠ [] →
  wp (worker_processTicket md t) (λ _ s',
    wrk_ready ser s' rest (out ++ frame_bytes b) ∧ s_shared s' = x') s.
Proof.
  intros Ha Hr Hb Hne. unfold worker_processTicket, sendErrorResponse. wp_steps.
  destruct Ha as [h Hl|Hl Hh|h e x' Hl Hh Hx|h res x' Hl Hh Hx]; rewrite Hl, ?Hh.
  - wp_steps. by eapply wp_mono; [eapply sendResponse_ready|].
  - wp_steps. by eapply wp_mono; [eapply sendResponse_ready|].
  - unfold on_shared. wp_steps. unfold wp. rewrite Hx.
    change (wp (sendResponse (error_response (ticket_id t) (ec_message e) (type t) (command t)
        (timeout t));; mret tt)
      (λ _ s', wrk_ready ser s' rest (out ++ frame_bytes b) ∧ s_shared s' = x')
      (WrkSt (s_worker s) (s_wworld s) x')).
    wp_steps. by eapply wp_mono; [eapply (sendResponse_ready Sync)|].
  - unfold on_shared. wp_steps. unfold wp. rewrite Hx.
    change (wp (worker_sendResponse md (completed_response t res);; mret tt)
      (λ _ s', wrk_ready ser s' rest (out ++ frame_bytes b) ∧ s_shared s' = x')
      (WrkSt (s_worker s) (s_wworld s) x')).
    wp_steps. by eapply wp_mono; [eapply sendResponse_ready|].
Qed.

Lemma handleNext_ready md s ser tb t response x' b rest out :
  wrk_ready ser s (frame_bytes tb ++ rest) out → Z.of_nat (length tb) < 2 ^ 32 →
  deserialize ser tb = Ok t → answers (s_worker s) t (s_shared s) response x' →
  serialize ser response = Done b → b ≠ [] →
  wp (worker_handleNext md) (λ r s',
    r = Ok tt ∧ s_shared s' = x' ∧ wrk_ready ser s' rest (out ++ frame_bytes b)) s.
Proof.
  intros Hr Hlen Hd Ha Hb Hne. unfold worker_handleNext. wp_steps. apply wp_on_wpeer.
  eapply wp_mono; [by eapply (receiveFrame_ready md)|].
  intros r [p' w'] [-> Hr']. rewrite Hd. wp_steps.
  apply (answers_worker p') in Ha.
  eapply wp_mono; [by eapply (processTicket_answers md t (with_peer s (p', w')))|].
  intros [] s' [? ?]. by wp_steps.
Qed.
End worker_lemmas.

(** ** Correctness of the worker *)

(** A worker on a working connection whose next frame holds a ticket sends
    exactly one response, the one that the specification [answers] gives, runs
    the ticket's handler at most once, and reports success. *)
Theorem handleNext_answers {K W X : Type} `{SP : DualSocketSpec K W} `{J : Json}
    `{EM : ErrorMessages} md (s : wrk_st K W X) ser tb t response x' b rest out :
  wrk_ready ser s (frame_bytes tb ++ rest) out → Z.of_nat (length tb) < 2 ^ 32 →
  deserialize ser tb = Ok t → answers (s_worker s) t (s_shared s) response x' →
  serialize ser response = Done b → b ≠ [] →
  wp (worker_handleNext md) (λ r s',
    r = Ok tt ∧ s_shared s' = x' ∧ wrk_ready ser s' rest (out ++ frame_bytes b)) s.
Proof. apply handleNext_ready. Qed.

(** A handler that counts its calls and echoes the payload, or refuses it. *)
Definition echo_handler (ctx : TicketContext nat) : M nat (result bytes) :=
  modify S;;
  if bool_decide (ctx_payload ctx = txt "bad") then
    mret (Unexpected (make_error_code PROTOCOL_ERROR))
  else mret (Ok (ctx_payload ctx)).

#[export] Instance no_messages : ErrorMessages := {| foreign_message _ := txt "error" |}.

Definition mem_worker (w : mem_net) : wrk_st (socket mem_net) mem_net nat :=
  WrkSt (registerHandler (txt "echo") echo_handler
           (TicketWorker_new (Some (Socket 3 TcpSocketClass tt [])) None)) w 0%nat.

Lemma mem_worker_ready input :
  wrk_ready (SP := socket_DualSocketSpec 0) TicketJson (mem_worker (MemNet input [] 9 true true))
    input [].
Proof.
  eexists. split_and!; [done|done|done|split; [done|simpl; lia]| |done].
  exists []. by rewrite app_nil_r.
Qed.

Definition echo_ticket (p : bytes) : TicketInfo :=
  {| ticket_id := txt "t1"; type := SHORT; status := PENDING; command := txt "echo";
     metadata := ∅; timeout := 9; progress_percent := None; progress_msg := None;
     payload := Some p; ticket_result := None; error := None |}.

Definition json_bytes (t : TicketInfo) : bytes :=
  match json_serialize t with Done b => b | _ => [] end.

Lemma handleNext_answers_witness :
  let t := echo_ticket (txt "hi") in
  let tb := json_bytes t in
  let s := mem_worker (MemNet (frame_bytes tb ++ txt "z") [] 9 true true) in
  let response := completed_response t (txt "hi") in
  answers (s_worker s) t (s_shared s) response 1%nat ∧
  wp (worker_handleNext (DS := socket_DualSocket 0) Async) (λ r s',
    r = Ok tt ∧ s_shared s' = 1%nat ∧
    wrk_ready (SP := socket_DualSocketSpec 0) TicketJson s' (txt "z")
      ([] ++ frame_bytes (json_bytes response))) s.
Proof.
  intros t tb s response.
  assert (answers (s_worker s) t (s_shared s) response 1%nat) as Ha.
  { by apply (answers_completed _ _ _ echo_handler). }
  split; [exact Ha|].
  apply (handleNext_answers (SP := socket_DualSocketSpec 0) Async s TicketJson tb t response 1%nat
    (json_bytes response) (txt "z") []); [apply mem_worker_ready|by vm_compute|by vm_compute
    |exact Ha|by vm_compute|done].
Defined.

(** A ticket has exactly one answer once its handler, if it has one, returns.
    The answer carries the identifier, type, command and timeout of the ticket and
    is either completed with a result or failed with an error text; a command that
    has a long handler always fails, and only a short handler's run changes the
    shared state. *)
Theorem answer_unique {K X : Type} `{EM : ErrorMessages} (k : worker K X) t x :
  (∀ h, find_handler (k_handlers k) (command t) = Some h →
     ∃ r x', h (context_of t) x = (Done r, x')) →
  ∃ response x', answers k t x response x' ∧
    (∀ response2 x2, answers k t x response2 x2 → response2 = response ∧ x2 = x') ∧
    ticket_id response = ticket_id t ∧ type response = type t ∧
    command response = command t ∧ timeout response = timeout t ∧
    (status response = COMPLETED ∧ is_Some (ticket_result response) ∧ error response = None ∨
     status response = FAILED ∧ ticket_result response = None ∧ is_Some (error response)) ∧
    (is_Some (find_handler (k_longHandlers k) (command t)) →
       status response = FAILED ∧ x' = x).
Proof.
  intros Hh.
  assert (∃ response x', answers k t x response x') as (response & x' & Ha).
  { destruct (find_handler (k_longHandlers k) (command t)) as [h|] eqn:El.
    { eexists _, _. by eapply answers_long. }
    destruct (find_handler (k_handlers k) (command t)) as [h|] eqn:Es.
    - destruct (Hh h eq_refl) as ([res|e] & x' & Hx); eexists _, _;
        [by eapply answers_completed|by eapply answers_failed].
    - eexists _, _. by apply answers_unknown. }
  exists response, x'. split; [done|]. split.
  { intros r2 x2 H2. by eapply answers_functional. }
  destruct Ha as [h Hl|Hl Hs|h e x' Hl Hs Hx|h res x' Hl Hs Hx]; simpl;
    (split_and!; [done|done|done|done|eauto 6|]); rewrite ?Hl; naive_solver.
Qed.

Lemma answer_unique_witness :
  let k := s_worker (mem_worker (MemNet [] [] 1 true true)) in
  let t := echo_ticket (txt "bad") in
  ∃ response x', answers k t 0%nat response x' ∧
    (∀ response2 x2, answers k t 0%nat response2 x2 → response2 = response ∧ x2 = x') ∧
    ticket_id response = ticket_id t ∧ type response = type t ∧
    command response = command t ∧ timeout response = timeout t ∧
    (status response = COMPLETED ∧ is_Some (ticket_result response) ∧ error response = None ∨
     status response = FAILED ∧ ticket_result response = None ∧ is_Some (error response)) ∧
    (is_Some (find_handler (k_longHandlers k) (command t)) →
       status response = FAILED ∧ x' = 0%nat).
Proof.
  intros k t. apply (answer_unique k t 0%nat).
  intros h Hh. change (Some (echo_handler : TicketHandler nat) = Some h) in Hh.
  injection Hh as <-.
  eexists _, _. reflexivity.
Defined.

(** HandleNext reports an error only when receiving the ticket failed, and
    then no handler has run. A response that cannot be sent is not reported. *)
Theorem handleNext_error {K W X : Type} `{DS : DualSocket K W} `{J : Json}
    `{EM : ErrorMessages} md (s : wrk_st K W X) :
  wlp (worker_handleNext md) (λ r s', ∀ e, r = Unexpected e →
    s_shared s' = s_shared s ∧
    peer_receiveFrame md (k_peer (s_worker s), s_wworld s) =
      (Done (Unexpected e), (k_peer (s_worker s'), s_wworld s'))) s.
Proof.
  unfold worker_handleNext. wp_steps. unfold on_wpeer. wp_steps.
  unfold wlp at 1. destruct (peer_receiveFrame md _) as [[[t|e]| | |] [p' w']]; try done.
  - wp_steps. apply wlp_run. intros [] s' _. by wp_steps.
  - by intros e' [= <-].
Qed.
