(* ===== verification/TicketLifetimes.v ===== *)
(** The objects of the ticket protocol and their lifetimes: TicketPeer, TicketController
    and TicketWorker are constructed around a socket that they own, moved, assigned, used
    and destroyed (the special members of include/protocol/TicketController.h and
    TicketWorker.h, which delegate to those of the peer). *)

From S2P Require Import Prelude ErrorCodes SocketBase Socket Ticket TicketJson TicketFrame.
From S2P Require Import TicketPeer TicketController TicketWorker.

(** ** Special members

    They are all defaulted: member by member. What is left of a string or a map that was
    moved from is not specified, so it is an argument. *)

Definition outcome_map {A B} (f : A → B) (o : outcome A) : outcome B :=
  match o with Done a => Done (f a) | Throw x => Throw x | Undef => Undef | NoFuel => NoFuel end.

Section special_members.
Context {K W X : Type} `{DS : DualSocket K W}.

Definition TicketController_move (other : controller K) (rest : bytes) : controller K * controller K :=
  let '(p, p') := TicketPeer_move (c_peer other) in
  (Controller p (c_ticketCounter other) (c_socketId other),
   Controller p' (c_ticketCounter other) rest).

Definition TicketController_assign (this other : controller K) (rest : bytes) (w : W)
    : outcome (controller K * controller K) * W :=
  let '(o, w') := TicketPeer_assign (c_peer this) (c_peer other) w in
  (outcome_map (λ pp, (Controller pp.1 (c_ticketCounter other) (c_socketId other),
                       Controller pp.2 (c_ticketCounter other) rest)) o, w').

Definition TicketController_destroy (c : controller K) (w : W) : outcome unit * W :=
  TicketPeer_destroy (c_peer c) w.

Definition TicketWorker_move (other : worker K X) (hs : gmap bytes (TicketHandler X))
    (ls : gmap bytes (TicketLongHandler X)) : worker K X * worker K X :=
  let '(p, p') := TicketPeer_move (k_peer other) in
  (Worker p (k_handlers other) (k_longHandlers other), Worker p' hs ls).

Definition TicketWorker_assign (this other : worker K X) (hs : gmap bytes (TicketHandler X))
    (ls : gmap bytes (TicketLongHandler X)) (w : W) : outcome (worker K X * worker K X) * W :=
  let '(o, w') := TicketPeer_assign (k_peer this) (k_peer other) w in
  (outcome_map (λ pp, (Worker pp.1 (k_handlers other) (k_longHandlers other), Worker pp.2 hs ls)) o,
   w').

Definition TicketWorker_destroy (k : worker K X) (w : W) : outcome unit * W :=
  TicketPeer_destroy (k_peer k) w.
End special_members.

(** ** What using them keeps *)

Section uses.
Context {K W G X : Type} `{DS : DualSocket K W} `{J : Json} `{R : Rng G} `{EM : ErrorMessages}.

(** A callback of the caller, which does not touch the controller. *)
Definition on_client {A} (m : M X A) : M (ctl_st K W G X) A :=
  zoom s_client (λ x s, CtlSt (s_ctl s) (s_rng s) (s_world s) x) m.

Inductive controller_call : ∀ A, M (ctl_st K W G X) A → Prop :=
| call_send md command payload metadata t :
    controller_call _ (controller_send md command payload metadata t)
| call_sendLong fuel md command payload (onProgress : option (TicketInfo → M X unit)) metadata t :
    controller_call _ (controller_sendLong fuel md command payload
      ((λ f ticket, on_client (f ticket)) <$> onProgress) metadata t)
| call_poll md id t : controller_call _ (controller_poll md id t)
| call_cancel id t : controller_call _ (controller_cancel id t).

Inductive worker_call : ∀ A, M (wrk_st K W X) A → Prop :=
| call_handleNext md : worker_call _ (worker_handleNext md)
| call_processTicket md t : worker_call _ (worker_processTicket md t)
| call_sendResponse md t : worker_call _ (worker_sendResponse md t).
End uses.

Definition ctl_keeps {K W G X : Type} (R : K * W → K * W → Prop) (s s' : ctl_st K W G X) : Prop :=
  peer_keeps R (c_peer (s_ctl s), s_world s) (c_peer (s_ctl s'), s_world s').
Definition wrk_keeps {K W X : Type} (R : K * W → K * W → Prop) (s s' : wrk_st K W X) : Prop :=
  peer_keeps R (k_peer (s_worker s), s_wworld s) (k_peer (s_worker s'), s_wworld s').

#[export] Instance ctl_keeps_preorder {K W G X : Type} (R : K * W → K * W → Prop) `{!PreOrder R} :
  PreOrder (ctl_keeps (G := G) (X := X) R).
Proof. split; [intros s; by red|]. intros s1 s2 s3 H1 H2. red. by etrans. Qed.
#[export] Instance wrk_keeps_preorder {K W X : Type} (R : K * W → K * W → Prop) `{!PreOrder R} :
  PreOrder (wrk_keeps (X := X) R).
Proof. split; [intros s; by red|]. intros s1 s2 s3 H1 H2. red. by etrans. Qed.

Section keeps.
Context {K W G X : Type} `{SI : SocketInvariant K W R} `{J : Json} `{Rn : Rng G} `{EM : ErrorMessages}.
Abbreviation ctl_keeps := (ctl_keeps (K := K) (W := W) (G := G) (X := X) R).
Abbreviation wrk_keeps := (wrk_keeps (K := K) (W := W) (X := X) R).

Lemma keeps_on_peer {A} (m : M (peer_st K W) A) : steps (peer_keeps R) m → steps ctl_keeps (on_peer m).
Proof. apply steps_zoom. by intros s [p w]. Qed.
Lemma keeps_on_wpeer {A} (m : M (peer_st K W) A) : steps (peer_keeps R) m → steps wrk_keeps (on_wpeer m).
Proof. apply steps_zoom. by intros s [p w]. Qed.

(** What does not touch the peer. *)
Lemma keeps_beside_peer {T A} (g : ctl_st K W G X → T) p (m : M T A) :
  (∀ s t, c_peer (s_ctl (p t s)) = c_peer (s_ctl s) ∧ s_world (p t s) = s_world s) →
  steps ctl_keeps (zoom g p m).
Proof.
  intros Hp. apply (steps_zoom _ (λ _ _, True)); [|done]. intros s t _. red.
  destruct (Hp s t) as [-> ->]. reflexivity.
Qed.

Lemma keeps_generateTicketId : steps ctl_keeps generateTicketId.
Proof.
  assert (steps ctl_keeps (on_rng generate_uuid)) by by apply keeps_beside_peer.
  unfold generateTicketId. steps. apply steps_modify. intros s. red. reflexivity.
Qed.

Lemma keeps_poll md id t : steps ctl_keeps (controller_poll md id t).
Proof.
  pose proof (λ t, keeps_on_peer _ (keeps_handshake md t)). unfold controller_poll. steps.
Qed.

Lemma keeps_running_loop n md (f : option (TicketInfo → M X unit)) t r :
  steps ctl_keeps (running_loop n md ((λ f ticket, on_client (f ticket)) <$> f) t r).
Proof.
  pose proof keeps_poll. revert r. induction n as [|n IH]; intros r; simpl; [steps|].
  case_bool_decide; [|steps]. apply steps_bind; [apply _| |intros []; steps].
  destruct f as [f|]; simpl; [by apply keeps_beside_peer|by apply steps_here; [apply _|]].
Qed.

Lemma keeps_controller_call A m : controller_call A m → steps ctl_keeps m.
Proof.
  pose proof keeps_generateTicketId. pose proof keeps_poll. pose proof keeps_running_loop.
  pose proof (λ md t, keeps_on_peer _ (keeps_handshake md t)).
  intros []; unfold controller_send, controller_sendLong, controller_cancel; steps; auto.
Qed.

Lemma keeps_sendResponse md t : steps wrk_keeps (worker_sendResponse md t).
Proof. apply keeps_on_wpeer, keeps_sendFrame. Qed.

Lemma keeps_processTicket md t : steps wrk_keeps (worker_processTicket md t).
Proof.
  pose proof keeps_sendResponse.
  assert (∀ A (m : M X A), steps wrk_keeps (on_shared m)).
  { intros A m. apply (steps_zoom _ (λ _ _, True)); [|done]. intros s x _. red. reflexivity. }
  unfold worker_processTicket, sendErrorResponse, sendResponse. steps.
Qed.

Lemma keeps_worker_call A m : worker_call A m → steps wrk_keeps m.
Proof.
  pose proof keeps_sendResponse. pose proof keeps_processTicket.
  pose proof (λ md, keeps_on_wpeer _ (keeps_receiveFrame md)).
  intros []; unfold worker_handleNext; steps.
Qed.
End keeps.

(** ** Programs that own such objects

    The objects of a program by address, with the world their sockets live in. A step
    constructs, uses, moves, assigns or destroys one of them; a use is a step when it
    returns or throws. *)

Inductive object (K X : Type) :=
| PeerObject (p : peer K)
| ControllerObject (c : controller K)
| WorkerObject (k : worker K X).
Arguments PeerObject {K X} p.
Arguments ControllerObject {K X} c.
Arguments WorkerObject {K X} k.

(** The peer itself, or what [getPeer] of the other two refers to. *)
Definition object_peer {K X} (o : object K X) : peer K :=
  match o with
  | PeerObject p => p
  | ControllerObject c => c_peer c
  | WorkerObject k => k_peer k
  end.

Definition object_with_peer {K X} (p : peer K) (o : object K X) : object K X :=
  match o with
  | PeerObject _ => PeerObject p
  | ControllerObject c => ControllerObject (Controller p (c_ticketCounter c) (c_socketId c))
  | WorkerObject k => WorkerObject (Worker p (k_handlers k) (k_longHandlers k))
  end.

Lemma object_peer_with {K X} (p : peer K) (o : object K X) : object_peer (object_with_peer p o) = p.
Proof. by destruct o. Qed.

Definition destroy_object {K W X} `{DualSocket K W} (o : object K X) (w : W) : outcome unit * W :=
  match o with
  | PeerObject p => TicketPeer_destroy p w
  | ControllerObject c => TicketController_destroy c w
  | WorkerObject k => TicketWorker_destroy k w
  end.

Section programs.
Context {K W G X : Type} `{SP : DualSocketSpec K W} `{ID : !SocketIdentity K W}.
Context `{J : Json} `{Rn : Rng G} `{EM : ErrorMessages}.

(** The three constructors, with a socket. *)
Inductive constructed (k : K) : object K X → Prop :=
| new_peer ser : constructed k (PeerObject (TicketPeer_new (Some k) ser))
| new_controller ser c :
    TicketController_new (Some k) ser = Some c → constructed k (ControllerObject c)
| new_worker ser : constructed k (WorkerObject (TicketWorker_new (Some k) ser)).

(** The three move constructors: the object moved from, the new one, what is left. *)
Inductive moved : object K X → object K X → object K X → Prop :=
| moved_peer p : moved (PeerObject p) (PeerObject (TicketPeer_move p).1) (PeerObject (TicketPeer_move p).2)
| moved_controller c rest :
    moved (ControllerObject c) (ControllerObject (TicketController_move c rest).1)
      (ControllerObject (TicketController_move c rest).2)
| moved_worker k hs ls :
    moved (WorkerObject k) (WorkerObject (TicketWorker_move k hs ls).1)
      (WorkerObject (TicketWorker_move k hs ls).2).

(** The three move assignments, between two objects: the target and the source before,
    and after. *)
Inductive assigned (w : W) : object K X → object K X → object K X → object K X → W → Prop :=
| assigned_peer p q p' q' w' :
    TicketPeer_assign p q w = (Done (p', q'), w') →
    assigned w (PeerObject p) (PeerObject q) (PeerObject p') (PeerObject q') w'
| assigned_controller c d rest c' d' w' :
    TicketController_assign c d rest w = (Done (c', d'), w') →
    assigned w (ControllerObject c) (ControllerObject d) (ControllerObject c') (ControllerObject d') w'
| assigned_worker k l hs ls k' l' w' :
    TicketWorker_assign k l hs ls w = (Done (k', l'), w') →
    assigned w (WorkerObject k) (WorkerObject l) (WorkerObject k') (WorkerObject l') w'.

(** An object assigned to itself: the peer notices, the other members need not. *)
Inductive self_assigned : object K X → object K X → Prop :=
| self_peer p : self_assigned (PeerObject p) (PeerObject p)
| self_controller c rest :
    self_assigned (ControllerObject c) (ControllerObject (Controller (c_peer c) (c_ticketCounter c) rest))
| self_worker k hs ls : self_assigned (WorkerObject k) (WorkerObject (Worker (k_peer k) hs ls)).

(** What a program may call: the members of the class, those of its peer through
    [getPeer], and the operations of the socket through [getSocket]. *)
Inductive used (w : W) : object K X → object K X → W → Prop :=
| use_peer o A (m : M (peer_st K W) A) r p' w' :
    peer_call A m → m (object_peer o, w) = (r, (p', w')) → returns_or_throws r = true →
    used w o (object_with_peer p' o) w'
| use_socket o A (m : M (K * W) A) r p' w' :
    socket_call A m → on_socket m (object_peer o, w) = (r, (p', w')) → returns_or_throws r = true →
    used w o (object_with_peer p' o) w'
| use_controller c A (m : M (ctl_st K W G X) A) r s s' :
    controller_call A m → s_ctl s = c → s_world s = w → m s = (r, s') → returns_or_throws r = true →
    used w (ControllerObject c) (ControllerObject (s_ctl s')) (s_world s')
| use_worker k A (m : M (wrk_st K W X) A) r s s' :
    worker_call A m → s_worker s = k → s_wworld s = w → m s = (r, s') → returns_or_throws r = true →
    used w (WorkerObject k) (WorkerObject (s_worker s')) (s_wworld s')
| use_registerHandler k cmd h : used w (WorkerObject k) (WorkerObject (registerHandler cmd h k)) w
| use_registerLongHandler k cmd h :
    used w (WorkerObject k) (WorkerObject (registerLongHandler cmd h k)) w.

(** The socket that an object owns. *)
Definition owned (o : object K X) : option identity := key <$> p_socket (object_peer o).

Definition heap : Type := gmap nat (object K X) * W.

(** The socket given to a constructor is one that no object owns yet: the caller had the
    only pointer to it. *)
Inductive object_step : heap → heap → Prop :=
| step_new m w i k o :
    m !! i = None → constructed k o → map_Forall (λ _ o', owned o' ≠ Some (key k)) m →
    object_step (m, w) (<[i := o]> m, w)
| step_use m w i o o' w' :
    m !! i = Some o → used w o o' w' → object_step (m, w) (<[i := o']> m, w')
| step_move m w i j o o' rest :
    m !! i = Some o → m !! j = None → moved o o' rest →
    object_step (m, w) (<[j := o']> (<[i := rest]> m), w)
| step_take_peer m w i j o :
    m !! i = Some o → m !! j = None →
    object_step (m, w) (<[j := PeerObject (TicketPeer_move (object_peer o)).1]>
      (<[i := object_with_peer (TicketPeer_move (object_peer o)).2 o]> m), w)
| step_assign m w i j this other this' other' w' :
    i ≠ j → m !! i = Some this → m !! j = Some other → assigned w this other this' other' w' →
    object_step (m, w) (<[i := this']> (<[j := other']> m), w')
| step_assign_peer m w i j this other p' q' w' :
    i ≠ j → m !! i = Some this → m !! j = Some other →
    TicketPeer_assign (object_peer this) (object_peer other) w = (Done (p', q'), w') →
    object_step (m, w) (<[i := object_with_peer p' this]> (<[j := object_with_peer q' other]> m), w')
| step_self_assign m w i o o' :
    m !! i = Some o → self_assigned o o' → object_step (m, w) (<[i := o']> m, w)
| step_destroy m w i o w' :
    m !! i = Some o → destroy_object o w = (Done tt, w') → object_step (m, w) (delete i m, w').

(** ** The invariant *)

(** Every object can be destroyed, and no two own the same socket. *)
Definition objects_ok (m : gmap nat (object K X)) : Prop :=
  map_Forall (λ _ o, peer_ok (object_peer o)) m ∧
  ∀ i j o o' x, m !! i = Some o → m !! j = Some o' → owned o = Some x → owned o' = Some x → i = j.

(** An object may be replaced by one that owns no more than it did ... *)
Lemma objects_ok_replace m i o o' :
  objects_ok m → m !! i = Some o → peer_ok (object_peer o') →
  (∀ x, owned o' = Some x → owned o = Some x) → objects_ok (<[i := o']> m).
Proof.
  intros [Hok Huniq] Hi Ho' Hown. split; [by apply map_Forall_insert_2|].
  intros a b oa ob x [[<- <-]|[Ha Hoa]]%lookup_insert_Some [[<- <-]|[Hb Hob]]%lookup_insert_Some Hx Hx';
    try done; naive_solver.
Qed.

(** ... an object that owns what no other one does may be added ... *)
Lemma objects_ok_add m i o :
  objects_ok m → m !! i = None → peer_ok (object_peer o) →
  (∀ j o' x, m !! j = Some o' → owned o = Some x → owned o' ≠ Some x) → objects_ok (<[i := o]> m).
Proof.
  intros [Hok Huniq] Hi Ho Hown. split; [by apply map_Forall_insert_2|].
  intros a b oa ob x [[<- <-]|[Ha Hoa]]%lookup_insert_Some [[<- <-]|[Hb Hob]]%lookup_insert_Some Hx Hx';
    try done; naive_solver.
Qed.

(** ... and one may be removed. *)
Lemma objects_ok_delete m i : objects_ok m → objects_ok (delete i m).
Proof.
  intros [Hok Huniq]. split; [by apply map_Forall_delete|].
  intros a b oa ob x [_ Ha]%lookup_delete_Some [_ Hb]%lookup_delete_Some. by eapply Huniq.
Qed.

(** A socket passes from one object to another, which has lost its own. *)
Lemma objects_ok_transfer m i j o1 o2 o1' o2' :
  i ≠ j → objects_ok m → m !! i = Some o1 → m !! j = Some o2 →
  object_peer o1' = object_peer o2 → object_peer o2' = Peer None None true →
  objects_ok (<[i := o1']> (<[j := o2']> m)).
Proof.
  intros Hne [Hok Huniq] Hi Hj H1 H2. split.
  - apply map_Forall_insert_2; [rewrite H1; exact (Hok j o2 Hj)|].
    apply map_Forall_insert_2; [by rewrite H2|done].
  - assert (∀ x, owned o1' = Some x → owned o2 = Some x) as Ho1 by (unfold owned; by rewrite H1).
    assert (∀ x, owned o2' ≠ Some x) as Ho2 by (unfold owned; by rewrite H2).
    intros a b oa ob x [[<- <-]|[Ha Hoa]]%lookup_insert_Some [[<- <-]|[Hb Hob]]%lookup_insert_Some Hx Hx';
      try done; repeat match goal with
        | H : <[_ := _]> _ !! _ = Some _ |- _ => apply lookup_insert_Some in H as [[<- <-]|[? ?]] end;
      try (by exfalso; eapply Ho2); naive_solver.
Qed.

Abbreviation same_key := (λ s s' : K * W, key s'.1 = key s.1).

Lemma constructed_owns k o : constructed k o → owned o = Some (key k) ∧ peer_ok (object_peer o).
Proof.
  destruct 1 as [|ser c Hc|]; [by repeat split| |by repeat split].
  unfold TicketController_new in Hc. simpl in Hc. injection Hc as <-. by repeat split.
Qed.

(** The uses keep the socket that is owned. *)
Lemma kept_object (s s' : peer_st K W) (o o' : object K X) :
  peer_keeps same_key s s' → s.1 = object_peer o → s'.1 = object_peer o' → peer_ok (object_peer o) →
  owned o' = owned o ∧ peer_ok (object_peer o').
Proof.
  intros Hk E E' Hok. rewrite <- E in Hok. unfold owned. rewrite <- E, <- E'.
  split; [|by eapply peer_ok_keeps]. destruct Hk as (_ & _ & Hk).
  destruct (p_socket s.1), (p_socket s'.1); simpl; try done. by f_equal.
Qed.

Lemma used_keeps w o o' w' :
  used w o o' w' → peer_ok (object_peer o) → owned o' = owned o ∧ peer_ok (object_peer o').
Proof.
  assert (Hpeer : ∀ A (m : M (peer_st K W) A) p r p' w', steps (peer_keeps same_key) m →
    m (p, w) = (r, (p', w')) → peer_keeps same_key (p, w) (p', w')).
  { intros A m p r p' w1 Hm E. specialize (Hm (p, w)). by rewrite E in Hm. }
  destruct 1 as [o A m r p' w' Hc E _|o A m r p' w' Hc E _|c A m r s s' Hc <- <- E _
                |k A m r s s' Hc <- <- E _|k cmd h|k cmd h]; intros Hok; [| | | |done|done].
  - assert (peer_keeps same_key (object_peer o, w) (p', w')) as Hk.
    { eapply Hpeer; [apply keeps_call, Hc|exact E]. }
    eapply kept_object; [exact Hk|done|by rewrite object_peer_with|done].
  - assert (peer_keeps same_key (object_peer o, w) (p', w')) as Hk.
    { eapply Hpeer; [|exact E]. by apply keeps_on_socket, socket_keeps. }
    eapply kept_object; [exact Hk|done|by rewrite object_peer_with|done].
  - pose proof (keeps_controller_call (R := same_key) _ m Hc s) as Hk. rewrite E in Hk.
    by eapply kept_object; [exact Hk|..].
  - pose proof (keeps_worker_call (R := same_key) _ m Hc s) as Hk. rewrite E in Hk.
    by eapply kept_object; [exact Hk|..].
Qed.

Lemma moved_owns o o' rest :
  moved o o' rest → object_peer o' = object_peer o ∧ object_peer rest = Peer None None true.
Proof. by destruct 1 as [[]|[[]]|[[]]]. Qed.

Lemma TicketPeer_assign_moves (p q p' q' : peer K) (w w' : W) :
  TicketPeer_assign p q w = (Done (p', q'), w') → p' = q ∧ q' = Peer None None true.
Proof. unfold TicketPeer_assign. destruct q. by destruct (drop_socket _ _) as [[?| | |] ?]; intros [=]. Qed.

Lemma assigned_moves w this other this' other' w' :
  assigned w this other this' other' w' →
  object_peer this' = object_peer other ∧ object_peer other' = Peer None None true.
Proof.
  destruct 1 as [p q p' q' w' E|c d rest c' d' w' E|k l hs ls k' l' w' E].
  - by apply TicketPeer_assign_moves in E.
  - unfold TicketController_assign in E.
    destruct (TicketPeer_assign _ _ _) as [[[p q]| | |] w1] eqn:Ep; simplify_eq/=.
    by apply TicketPeer_assign_moves in Ep.
  - unfold TicketWorker_assign in E.
    destruct (TicketPeer_assign _ _ _) as [[[p q]| | |] w1] eqn:Ep; simplify_eq/=.
    by apply TicketPeer_assign_moves in Ep.
Qed.

(** A move is a transfer to an object that is constructed first, without a socket. *)
Lemma objects_ok_move m i j o o' rest :
  objects_ok m → m !! i = Some o → m !! j = None →
  object_peer o' = object_peer o → object_peer rest = Peer None None true →
  objects_ok (<[j := o']> (<[i := rest]> m)).
Proof.
  intros Hok Hi Hj H1 H2. assert (j ≠ i) as Hne by congruence.
  rewrite <- (insert_insert_eq (<[i := rest]> m) j o' rest).
  rewrite (insert_insert_ne m j i) by done.
  apply (objects_ok_transfer _ _ _ rest o); try done.
  - apply objects_ok_add; [done|done|by rewrite H2|]. unfold owned. by rewrite H2.
  - by rewrite lookup_insert_eq.
  - by rewrite lookup_insert_ne.
Qed.

Lemma objects_ok_step h h' : object_step h h' → objects_ok h.1 → objects_ok h'.1.
Proof.
  destruct 1 as [m w i k o Hi Hc Hf|m w i o o' w' Hi Hu|m w i j o o' rest Hi Hj Hm|m w i j o Hi Hj
    |m w i j this other this' other' w' Hne Hi Hj Ha|m w i j this other p' q' w' Hne Hi Hj Ha
    |m w i o o' Hi Hs|m w i o w' Hi Hd]; simpl; intros Hok.
  - apply constructed_owns in Hc as [Hk Ho]. apply objects_ok_add; try done.
    intros j o' x Hj. rewrite Hk. intros [= <-]. by apply (Hf j o').
  - pose proof (proj1 Hok i o Hi) as Hp. apply used_keeps in Hu as [Hk Ho]; [|done].
    by eapply objects_ok_replace; [..|intros x; rewrite Hk].
  - apply moved_owns in Hm as [H1 H2]. by eapply objects_ok_move.
  - eapply objects_ok_move; [done|done|done|by destruct (object_peer o)|by rewrite object_peer_with].
  - apply assigned_moves in Ha as [H1 H2]. by eapply objects_ok_transfer.
  - apply TicketPeer_assign_moves in Ha as [-> ->].
    eapply objects_ok_transfer; [done|done|done|done|by rewrite object_peer_with..].
  - pose proof (proj1 Hok i o Hi) as Hp.
    eapply objects_ok_replace; [done|done|by destruct Hs|by destruct Hs].
  - by apply objects_ok_delete.
Qed.

Lemma objects_ok_reachable w0 h : rtc object_step (∅, w0) h → objects_ok h.1.
Proof.
  intros Hr. remember (∅, w0) as h0 eqn:E.
  assert (objects_ok h0.1) as H0 by (by subst; split; [apply map_Forall_empty|]).
  clear E. induction Hr; [done|]. eauto using objects_ok_step.
Qed.
End programs.

(** ** Correctness *)

(** C40: whatever a program does with peers, controllers and workers (constructing them
    around sockets it owns, using them and the peers and sockets they give access to,
    moving and assigning them or their peers, destroying some), destroying any of them
    is defined, even after it was moved from; and no socket ever has two owners, so none
    is destroyed twice. *)
Theorem destructor_defined {K W G X : Type} `{SP : DualSocketSpec K W} `{ID : !SocketIdentity K W}
    `{J : Json} `{Rn : Rng G} `{EM : ErrorMessages} (w0 w : W) (m : gmap nat (object K X)) i o :
  rtc (object_step (G := G)) (∅, w0) (m, w) → m !! i = Some o →
  (∃ w', destroy_object o w = (Done tt, w')) ∧
  ∀ j o' x, m !! j = Some o' → owned o = Some x → owned o' = Some x → i = j.
Proof.
  intros Hr Hi. apply objects_ok_reachable in Hr as [Hok Huniq]. split.
  - specialize (Hok i o Hi). by destruct o; apply TicketPeer_destroy_total.
  - intros j o' x Hj. by apply (Huniq i j).
Qed.

(** A controller that is moved, and the one that is left. *)
Lemma destructor_defined_witness :
  let k : socket mem_net := Socket 7 TcpSocketClass tt [] in
  let w := MemNet [] [] 1 true true in
  let c := Controller (mem_peer k) 0 (to_string 7) in
  let o : object (socket mem_net) nat := ControllerObject (TicketController_move c (txt "x")).1 in
  let rest : object (socket mem_net) nat := ControllerObject (TicketController_move c (txt "x")).2 in
  let m := <[1%nat := o]> {[ 0%nat := rest ]} in
  rtc (object_step (H := socket_DualSocket 0) (G := unit)) (∅, w) (m, w) ∧
  (∃ w', destroy_object (H := socket_DualSocket 0) rest w = (Done tt, w')) ∧
  ∀ j o' x, m !! j = Some o' → owned (ID := socket_SocketIdentity 0) rest = Some x →
    owned (ID := socket_SocketIdentity 0) o' = Some x → 0%nat = j.
Proof.
  intros k w c o rest m.
  assert (rtc (object_step (H := socket_DualSocket 0) (G := unit)) (∅, w) (m, w)) as Hr.
  { eapply rtc_l.
    { apply (step_new (G := unit) (H := socket_DualSocket 0) ∅ w 0%nat k (ControllerObject c)); [done| |done].
      by apply (new_controller k None). }
    eapply rtc_l; [|apply rtc_refl].
    assert (m = <[1%nat := o]> (<[0%nat := rest]> {[ 0%nat := ControllerObject c ]})) as ->.
    { unfold m. by rewrite insert_singleton_eq. }
    apply (step_move (G := unit) (H := socket_DualSocket 0) _ w 0%nat 1%nat (ControllerObject c));
      [done|done|apply moved_controller]. }
  split; [exact Hr|].
  exact (destructor_defined (SP := socket_DualSocketSpec 0) (ID := socket_SocketIdentity 0)
    w w m 0%nat rest Hr eq_refl).
Defined.
