(* ===== verification/TicketProtocol.v ===== *)
(** The ticket protocol end to end: a controller and a worker whose connections
    deliver to each what the other one sends. *)

From S2P Require Import Prelude ErrorCodes SocketBase Socket Ticket TicketJson TicketFrame.
From S2P Require Import TicketPeer TicketController TicketWorker.

#[local] Opaque frame_bytes.

(** A message of a peer: a ticket and its bytes, which fit a frame. *)
Definition message_of (ser : TicketSerializer) (t : TicketInfo) (b : bytes) : Prop :=
  serialize ser t = Done b ∧ b ≠ [] ∧ deserialize ser b = Ok t ∧ Z.of_nat (length b) < 2 ^ 32.

(** ** A worker that serves a sequence of tickets *)

Section serve.
Context {K W X : Type} `{SP : DualSocketSpec K W} `{J : Json} `{EM : ErrorMessages}.
Implicit Types s : wrk_st K W X.

(** The loop of a server: [handleNext] [n] times, until it reports an error. *)
Fixpoint serve (md : mode) (n : nat) : M (wrk_st K W X) (result unit) :=
  match n with
  | O => mret (Ok tt)
  | S n => _ ←? worker_handleNext md; serve md n
  end.

(** The answers to a sequence of tickets, the shared state passed along. *)
Inductive all_answers (k : worker K X) : list TicketInfo → X → list TicketInfo → X → Prop :=
| all_nil x : all_answers k [] x [] x
| all_cons t ts x r x1 rs x2 :
    answers k t x r x1 → all_answers k ts x1 rs x2 →
    all_answers k (t :: ts) x (r :: rs) x2.

Lemma all_answers_worker (p : peer K) k ts x rs x' :
  all_answers k ts x rs x' →
  all_answers (Worker p (k_handlers k) (k_longHandlers k)) ts x rs x'.
Proof. induction 1; [constructor|]. econstructor; [by apply answers_worker|done]. Qed.

Lemma handleNext_keeps_handlers md s :
  wlp (worker_handleNext md) (λ _ s', ∃ p,
    s_worker s' = Worker p (k_handlers (s_worker s)) (k_longHandlers (s_worker s))) s.
Proof.
  assert (Hp : ∀ A (m : M (peer_st K W) A) s, wlp (on_wpeer m) (λ _ s', ∃ p,
    s_worker s' = Worker p (k_handlers (s_worker s)) (k_longHandlers (s_worker s))) s).
  { intros A m s0. unfold on_wpeer. wp_steps. unfold wlp. destruct (m _) as [[a| | |] [p w]]; eauto. }
  unfold worker_handleNext. wp_steps.
  eapply wlp_mono; [apply Hp|]. simpl. intros [t|e] s1 [p1 E1]; [|by exists p1].
  unfold worker_processTicket, sendErrorResponse. wp_steps.
  assert (Hs : ∀ md r, wlp (worker_sendResponse md r) (λ _ s', ∃ p,
    s_worker s' = Worker p (k_handlers (s_worker s)) (k_longHandlers (s_worker s))) s1).
  { intros md' r. eapply wlp_mono; [apply Hp|]. simpl. rewrite E1. eauto. }
  destruct (find_handler _ _) as [h|]; [|destruct (find_handler _ _) as [h|]].
  - wp_steps. eapply wlp_mono; [apply (Hs Sync)|]. intros; by wp_steps.
  - unfold on_shared. wp_steps. unfold wlp at 1.
    destruct (h _ _) as [[[res|e]| | |] x']; try done; wp_steps;
      (eapply wlp_mono; [apply Hp|]); simpl; rewrite E1; intros; by wp_steps.
  - wp_steps. eapply wlp_mono; [apply (Hs Sync)|]. intros; by wp_steps.
Qed.
End serve.

Section serve_lemmas.
Context {K W X : Type} `{SP : DualSocketSpec K W} `{J : Json} `{EM : ErrorMessages}.

Lemma serve_spec md ser ts : ∀ (s : wrk_st K W X) tbs rs x' bs rest out,
  responses_in ser tbs ts → all_answers (s_worker s) ts (s_shared s) rs x' →
  Forall2 (λ r b, serialize ser r = Done b ∧ b ≠ []) rs bs →
  wrk_ready ser s (frames tbs ++ rest) out →
  wp (serve md (length ts)) (λ r s',
    r = Ok tt ∧ s_shared s' = x' ∧ wrk_ready ser s' rest (out ++ frames bs)) s.
Proof.
  induction ts as [|t ts IH]; intros s tbs rs x' bs rest out Hin Ha Hbs Hr; simpl.
  - apply Forall2_nil_inv_r in Hin as ->. inversion Ha; subst.
    apply Forall2_nil_inv_l in Hbs as ->. wp_steps. unfold frames in *; simpl in *.
    by rewrite app_nil_r.
  - apply Forall2_cons_inv_r in Hin as (tb & tbs1 & [Hd Hlen] & Hin & ->).
    inversion Ha as [|t' ts' x0 r x1 rs1 x2 Ha1 Ha2]; subst.
    apply Forall2_cons_inv_l in Hbs as (b & bs1 & [Hb Hne] & Hbs & ->).
    unfold frames in Hr; simpl in Hr. rewrite <- app_assoc in Hr. wp_steps.
    eapply wp_mono.
    { apply wp_conj; [by apply (handleNext_ready md s ser tb t r x1 b (frames tbs1 ++ rest) out)|].
      apply handleNext_keeps_handlers. }
    simpl. intros ? s1 [(-> & <- & Hr1) [p Hw]].
    apply (all_answers_worker p) in Ha2. rewrite <- Hw in Ha2.
    eapply wp_mono; [by eapply (IH s1 tbs1 rs1 x' bs1 rest)|].
    intros r' s2 (-> & -> & Hr2). split_and!; [done|done|].
    unfold frames in *; simpl. by rewrite app_assoc.
Qed.
End serve_lemmas.

(** A worker that serves the tickets arriving on its connection answers all of
    them, in the order of arrival and with one response each, whatever the mixture
    of known commands, unknown ones and failing handlers; the handlers see the
    shared state as their predecessors left it. *)
Theorem serve_answers_all {K W X : Type} `{SP : DualSocketSpec K W} `{J : Json}
    `{EM : ErrorMessages} md ser ts (s : wrk_st K W X) tbs rs x' bs rest out :
  responses_in ser tbs ts → all_answers (s_worker s) ts (s_shared s) rs x' →
  Forall2 (λ r b, serialize ser r = Done b ∧ b ≠ []) rs bs →
  wrk_ready ser s (frames tbs ++ rest) out →
  wp (serve md (length ts)) (λ r s', r = Ok tt ∧ length rs = length ts ∧ s_shared s' = x' ∧
    wrk_ready ser s' rest (out ++ frames bs)) s.
Proof.
  intros Hin Ha Hbs Hr. assert (length rs = length ts) as Hl.
  { clear -Ha. induction Ha; simpl; congruence. }
  eapply wp_mono; [by eapply serve_spec|]. by intros r s' (? & ? & ?).
Qed.

Lemma serve_answers_all_witness :
  let ts := [echo_ticket (txt "a"); echo_ticket (txt "bad")] in
  let rs := [completed_response (echo_ticket (txt "a")) (txt "a");
             error_response (txt "t1") (message 10) SHORT (txt "echo") 9] in
  let s := mem_worker (MemNet (frames (json_bytes <$> ts)) [] 9 true true) in
  responses_in TicketJson (json_bytes <$> ts) ts ∧
  all_answers (s_worker s) ts (s_shared s) rs 2%nat ∧
  wp (serve (H := socket_DualSocket 0) Sync (length ts)) (λ r s',
    r = Ok tt ∧ length rs = length ts ∧ s_shared s' = 2%nat ∧
    wrk_ready (SP := socket_DualSocketSpec 0) TicketJson s' []
      ([] ++ frames (json_bytes <$> rs))) s.
Proof.
  intros ts rs s.
  assert (responses_in TicketJson (json_bytes <$> ts) ts) as Hin.
  { do 2 (constructor; [by vm_compute|]). constructor. }
  assert (all_answers (s_worker s) ts (s_shared s) rs 2%nat) as Ha.
  { econstructor; [by apply (answers_completed _ _ _ echo_handler)|].
    econstructor; [|constructor].
    exact (answers_failed (s_worker s) (echo_ticket (txt "bad")) 1%nat echo_handler
      (make_error_code PROTOCOL_ERROR) 2%nat eq_refl eq_refl eq_refl). }
  split_and!; [exact Hin|exact Ha|].
  apply (serve_answers_all (SP := socket_DualSocketSpec 0) Sync TicketJson ts s (json_bytes <$> ts) rs
    2%nat (json_bytes <$> rs) [] [] Hin Ha).
  - do 2 (constructor; [by vm_compute|]). constructor.
  - rewrite app_nil_r. apply mem_worker_ready.
Defined.

(** ** Controller and worker together *)

(** The controller's next request, when the generator gives the text [u]. *)
Lemma generateTicketId_run {K W G X : Type} `{R : Rng G} (s : ctl_st K W G X) u g' :
  generate_uuid (s_rng s) = (Done u, g') →
  generateTicketId s =
    (Done (next_id s u), next_counter (CtlSt (s_ctl s) g' (s_world s) (s_client s))).
Proof. intros Hu. unfold generateTicketId, on_rng, zoom, mbind, M_bind. by rewrite Hu. Qed.

Section protocol.
Context {K W G X : Type} `{SP : DualSocketSpec K W} `{J : Json} `{R : Rng G}.
Context {K' W' X' : Type} {DS' : DualSocket K' W'} {SP' : DualSocketSpec K' W'} `{EM : ErrorMessages}.

(** A controller [s] and a worker [k], possibly over different kinds of sockets,
    at the moment the controller starts a request of type [ty], for which the
    generator gives [u]: the worker's connection will deliver the frame of the
    request, [answers] gives the worker's response, and the controller's connection
    will deliver the frame of the response. *)
Record exchange (ser : TicketSerializer) (ty : TicketType) (command payload metadata : bytes)
    (timeout : Z) (s : ctl_st K W G X) (k : wrk_st K' W' X') (u : bytes) (g' : G)
    (response : TicketInfo) (x' : X') (b rb rest out wrest wout : bytes) : Prop := {
  ex_uuid : generate_uuid (s_rng s) = (Done u, g');
  ex_request : message_of ser
    (request_ticket (next_id s u) ty command payload metadata timeout) b;
  ex_answer : answers (s_worker k)
    (request_ticket (next_id s u) ty command payload metadata timeout) (s_shared k) response x';
  ex_response : message_of ser response rb;
  ex_controller : ctl_ready ser s (frame_bytes rb ++ rest) out;
  ex_worker : wrk_ready ser k (frame_bytes b ++ wrest) wout
}.

(** An answer is completed with a result or failed without one. *)
Lemma answers_status (k : worker K' X') t x response x' :
  answers k t x response x' →
  (status response = COMPLETED ∧ ∃ res, ticket_result response = Some res) ∨
  (status response = FAILED ∧ ticket_result response = None).
Proof. destruct 1; eauto. Qed.

Lemma exchange_worker md ser ty command payload metadata timeout (s : ctl_st K W G X)
    (k : wrk_st K' W' X') u g' response x' b rb rest out wrest wout :
  exchange ser ty command payload metadata timeout s k u g' response x' b rb rest out wrest wout →
  wp (worker_handleNext md) (λ r k', r = Ok tt ∧ s_shared k' = x' ∧
    wrk_ready ser k' wrest (wout ++ frame_bytes rb)) k.
Proof.
  intros [_ (_ & _ & Hd & Hlen) Ha (Hs & Hne & _ & _) _ Hw].
  by eapply handleNext_ready.
Qed.

Lemma exchange_handshake md ser ty command payload metadata timeout (s : ctl_st K W G X)
    (k : wrk_st K' W' X') u g' response x' b rb rest out wrest wout :
  exchange ser ty command payload metadata timeout s k u g' response x' b rb rest out wrest wout →
  wp (id ← generateTicketId;
      on_peer (peer_handshake md (request_ticket id ty command payload metadata timeout)))
    (λ r s', r = Ok response ∧ ctl_ready ser s' rest (out ++ frame_bytes b) ∧
       s_client s' = s_client s) s.
Proof.
  intros [Hu (Hs & Hne & _ & _) _ (_ & _ & Hd & Hlen) Hc _]. wp_steps.
  unfold wp at 1. rewrite (generateTicketId_run s u g' Hu).
  eapply wp_mono; [by eapply on_peer_handshake|]. intros r s' [-> (? & _ & _ & ?)].
  by rewrite Hd.
Qed.

(** The controller's side of a short request. *)
Lemma exchange_send md ser command payload metadata timeout (s : ctl_st K W G X)
    (k : wrk_st K' W' X') u g' response x' b rb rest out wrest wout :
  exchange ser SHORT command payload metadata timeout s k u g' response x' b rb rest out wrest wout →
  wp (controller_send md command payload metadata timeout) (λ r s',
    r = match ticket_result response with
        | Some res => Ok res
        | None => Unexpected (std_make_error_code io_error)
        end ∧ ctl_ready ser s' rest (out ++ frame_bytes b)) s.
Proof.
  intros Hex. pose proof (exchange_handshake md _ _ _ _ _ _ _ _ _ _ _ _ _ _ _ _ _ _ Hex) as Hh.
  rewrite wp_bind in Hh. unfold controller_send. wp_steps.
  eapply wp_mono; [exact Hh|]. intros id s1 Hs1. wp_steps.
  eapply wp_mono; [exact Hs1|]. intros r s2 (-> & Hr & _). wp_steps. split; [|done].
  unfold send_reply. destruct (answers_status _ _ _ _ _ (ex_answer _ _ _ _ _ _ _ _ _ _ _ _ _ _ _ _ _ _ Hex))
    as [[-> [res ->]]|[-> ->]]; done.
Qed.
End protocol.

(** Two ends of an in-memory connection, for a request of each type. *)
Definition sample_u : bytes := txt "00000000-0004-0080-0000-000000000000".
Definition sample_request (ty : TicketType) : TicketInfo :=
  request_ticket (sample_u ++ txt "/7#0") ty (txt "echo") (txt "hi") [] 5.
Definition sample_response (ty : TicketType) : TicketInfo :=
  completed_response (sample_request ty) (txt "hi").
Definition sample_ctl (ty : TicketType) : ctl_st (socket mem_net) mem_net unit (list TicketInfo) :=
  mem_ctl (MemNet (frame_bytes (json_bytes (sample_response ty))) [] 9 true true).
Definition sample_wrk (ty : TicketType) : wrk_st (socket mem_net) mem_net nat :=
  mem_worker (MemNet (frame_bytes (json_bytes (sample_request ty))) [] 9 true true).

Lemma sample_exchange ty :
  exchange (SP := socket_DualSocketSpec 0) (SP' := socket_DualSocketSpec 0) TicketJson ty
    (txt "echo") (txt "hi") [] 5 (sample_ctl ty) (sample_wrk ty) sample_u tt (sample_response ty) 1%nat
    (json_bytes (sample_request ty)) (json_bytes (sample_response ty)) [] [] [] [].
Proof.
  split.
  - by vm_compute.
  - destruct ty; (split_and!; [by vm_compute|by vm_compute|by vm_compute|by vm_compute]).
  - by apply (answers_completed _ _ _ echo_handler).
  - destruct ty; (split_and!; [by vm_compute|by vm_compute|by vm_compute|by vm_compute]).
  - rewrite app_nil_r. apply mem_ctl_ready.
  - rewrite app_nil_r. apply mem_worker_ready.
Qed.

(** A short request to a worker returns what the worker's handler returned for
    it, and io_error when the handler failed or the command has no handler: the
    controller sends one frame, the worker reads it, runs the handler once and
    sends one frame back. *)
Theorem controller_worker_send {K W G X K' W' X' : Type} `{SP : DualSocketSpec K W} `{J : Json}
    `{R : Rng G} {DS' : DualSocket K' W'} {SP' : DualSocketSpec K' W'} `{EM : ErrorMessages}
    md md' ser command payload metadata timeout (s : ctl_st K W G X) (k : wrk_st K' W' X')
    u g' response x' b rb rest out wrest wout :
  exchange ser SHORT command payload metadata timeout s k u g' response x' b rb rest out wrest wout →
  wp (controller_send md command payload metadata timeout) (λ r s',
    r = match ticket_result response with
        | Some res => Ok res
        | None => Unexpected (std_make_error_code io_error)
        end ∧ ctl_ready ser s' rest (out ++ frame_bytes b)) s ∧
  wp (worker_handleNext md') (λ r k', r = Ok tt ∧ s_shared k' = x' ∧
    wrk_ready ser k' wrest (wout ++ frame_bytes rb)) k.
Proof.
  intros Hex.
  exact (conj (exchange_send md _ _ _ _ _ _ _ _ _ _ _ _ _ _ _ _ _ Hex)
    (exchange_worker md' _ _ _ _ _ _ _ _ _ _ _ _ _ _ _ _ _ _ Hex)).
Qed.

Lemma controller_worker_send_witness :
  wp (controller_send (DS := socket_DualSocket 0) Sync (txt "echo") (txt "hi") [] 5) (λ r s',
    r = Ok (txt "hi") ∧
    ctl_ready (SP := socket_DualSocketSpec 0) TicketJson s' []
      ([] ++ frame_bytes (json_bytes (sample_request SHORT)))) (sample_ctl SHORT) ∧
  wp (worker_handleNext (DS := socket_DualSocket 0) Sync) (λ r k', r = Ok tt ∧ s_shared k' = 1%nat ∧
    wrk_ready (SP := socket_DualSocketSpec 0) TicketJson k' []
      ([] ++ frame_bytes (json_bytes (sample_response SHORT)))) (sample_wrk SHORT).
Proof.
  exact (controller_worker_send (SP := socket_DualSocketSpec 0) (SP' := socket_DualSocketSpec 0)
    Sync Sync _ _ _ _ _ _ _ _ _ _ _ _ _ _ _ _ _ (sample_exchange SHORT)).
Defined.

(** C8: a long request to a worker is answered at once, with the completed ticket
    or with io_error: no worker of the program ever answers with a running ticket,
    so the progress callback is never called, nothing is polled and no fuel is
    needed; and a command with a long handler always ends in io_error. *)
Theorem controller_worker_sendLong {K W G X K' W' X' : Type} `{SP : DualSocketSpec K W}
    `{J : Json} `{R : Rng G} {DS' : DualSocket K' W'} {SP' : DualSocketSpec K' W'}
    `{EM : ErrorMessages} fuel md md' onProgress ser command payload metadata timeout
    (s : ctl_st K W G X) (k : wrk_st K' W' X') u g' response x' b rb rest out wrest wout :
  exchange ser LONG command payload metadata timeout s k u g' response x' b rb rest out wrest wout →
  wp (controller_sendLong fuel md command payload onProgress metadata timeout) (λ r s',
    r = match ticket_result response with
        | Some _ => Ok response
        | None => Unexpected (std_make_error_code io_error)
        end ∧
    (is_Some (find_handler (k_longHandlers (s_worker k)) command) → has_value r = false) ∧
    s_client s' = s_client s ∧ ctl_ready ser s' rest (out ++ frame_bytes b)) s ∧
  wp (worker_handleNext md') (λ r k', r = Ok tt ∧ s_shared k' = x' ∧
    wrk_ready ser k' wrest (wout ++ frame_bytes rb)) k.
Proof.
  intros Hex.
  split; [|exact (exchange_worker md' _ _ _ _ _ _ _ _ _ _ _ _ _ _ _ _ _ _ Hex)].
  pose proof (exchange_handshake md _ _ _ _ _ _ _ _ _ _ _ _ _ _ _ _ _ _ Hex) as Hh.
  rewrite wp_bind in Hh. unfold controller_sendLong. wp_steps.
  eapply wp_mono; [exact Hh|]. intros id s1 Hs1. wp_steps.
  eapply wp_mono; [exact Hs1|]. intros r s2 (-> & Hr & Hcl).
  pose proof (ex_answer _ _ _ _ _ _ _ _ _ _ _ _ _ _ _ _ _ _ Hex) as Ha.
  destruct (answers_status _ _ _ _ _ Ha) as [[E [res Er]]|[E Er]]; rewrite E, Er; simpl; wp_steps;
    (split_and!; [done| |done|done]); [|done].
  intros [h Hl]. inversion Ha; subst; simpl in *; congruence.
Qed.

Lemma controller_worker_sendLong_witness :
  wp (controller_sendLong (DS := socket_DualSocket 0) 0 Sync (txt "echo") (txt "hi") None [] 5)
    (λ r s', r = Ok (sample_response LONG) ∧
      (is_Some (find_handler (k_longHandlers (s_worker (sample_wrk LONG))) (txt "echo")) →
         has_value r = false) ∧
      s_client s' = [] ∧
      ctl_ready (SP := socket_DualSocketSpec 0) TicketJson s' []
        ([] ++ frame_bytes (json_bytes (sample_request LONG)))) (sample_ctl LONG) ∧
  wp (worker_handleNext (DS := socket_DualSocket 0) Async) (λ r k', r = Ok tt ∧ s_shared k' = 1%nat ∧
    wrk_ready (SP := socket_DualSocketSpec 0) TicketJson k' []
      ([] ++ frame_bytes (json_bytes (sample_response LONG)))) (sample_wrk LONG).
Proof.
  exact (controller_worker_sendLong (SP := socket_DualSocketSpec 0) (SP' := socket_DualSocketSpec 0)
    0 Sync Async None _ _ _ _ _ _ _ _ _ _ _ _ _ _ _ _ _ (sample_exchange LONG)).
Defined.
