(* ===== verification/FileTree.v ===== *)
(** Trees of files, for concrete servers: what a path has, of which only what lies in
    directories counts. *)

From S2P Require Import Prelude.

(** What can lie at a path. *)
Inductive entry := Directory | File (content : bytes).

#[export] Instance entry_eq_dec : EqDecision entry.
Proof. solve_decision. Defined.

Definition is_dir (e : entry) : bool := match e with Directory => true | File _ => false end.
Definition file_content (e : entry) : option bytes :=
  match e with Directory => None | File c => Some c end.

(** Of something or nothing: the kind, a directory ([Some true]) or a file ([Some false]),
    and the content of a file. *)
Abbreviation kind_of e := (is_dir <$> e).
Abbreviation content_of e := (e ≫= file_content).

Lemma kind_directory (e : option entry) : kind_of e = Some true ↔ e = Some Directory.
Proof. destruct e as [[]|]; simpl; split; congruence. Qed.
Lemma kind_nothing (e : option entry) : kind_of e = None ↔ e = None.
Proof. destruct e as [[]|]; simpl; split; congruence. Qed.
Lemma content_file (e : option entry) c : content_of e = Some c ↔ e = Some (File c).
Proof. destruct e as [[]|]; simpl; split; congruence. Qed.
Lemma content_kind (e : option entry) : is_Some (content_of e) ↔ kind_of e = Some false.
Proof. destruct e as [[]|]; simpl; split; try done; try (by intros []); by eexists. Qed.

Abbreviation file_tree := (gmap (list bytes) entry).

Fixpoint tree_entry_rev (t : file_tree) (rev_names : list bytes) : option entry :=
  match rev_names with
  | [] => Some Directory
  | _ :: parent =>
      if bool_decide (tree_entry_rev t parent = Some Directory) then t !! reverse rev_names else None
  end.

(** What lies at a list of names from the root. *)
Definition tree_entry (t : file_tree) (names : list bytes) : option entry :=
  tree_entry_rev t (reverse names).

(** The tree with something else at [l], and nothing below it. *)
Definition tree_set (l : list bytes) (k : option entry) (t : file_tree) : file_tree :=
  partial_alter (λ _, k) l (filter (λ e, ¬ l `prefix_of` e.1) t).

(** Whether nothing lies directly below [l]. *)
Definition tree_empty (l : list bytes) (t : file_tree) : bool :=
  bool_decide (map_Forall (λ l' _, l `prefix_of` l' → length l' = S (length l) →
    tree_entry t l' = None) t).

Lemma tree_entry_snoc t l x :
  tree_entry t (l ++ [x]) = if bool_decide (tree_entry t l = Some Directory) then t !! (l ++ [x]) else None.
Proof.
  unfold tree_entry. rewrite reverse_app. change (reverse [x]) with [x]. simpl.
  by rewrite reverse_cons, reverse_involutive.
Qed.

Lemma tree_entry_parent t l x : tree_entry t (l ++ [x]) ≠ None → tree_entry t l = Some Directory.
Proof. rewrite tree_entry_snoc. by case_bool_decide. Qed.

Lemma tree_entry_prefix t l x l' :
  tree_entry t (l ++ x :: l') ≠ None → tree_entry t (l ++ [x]) ≠ None.
Proof.
  induction l' as [|y l' IH] using rev_ind; [done|]. intros Hk. apply IH.
  rewrite (tree_entry_parent t _ y); [done|]. by rewrite <- app_assoc.
Qed.

Lemma tree_empty_spec l t :
  tree_empty l t = true ↔ ∀ x, tree_entry t (l ++ [x]) = None.
Proof.
  unfold tree_empty. rewrite bool_decide_eq_true. split.
  - intros Ht x. destruct (tree_entry t (l ++ [x])) as [k|] eqn:Hk; [|done].
    pose proof Hk as Hk'. rewrite tree_entry_snoc in Hk'. case_bool_decide; [|done].
    rewrite <- Hk. apply (Ht _ _ Hk'); [by exists [x]|]. rewrite length_app. simpl. lia.
  - intros Hx l' k _ [z ->] Hl. rewrite length_app in Hl.
    destruct z as [|x [|]]; simpl in Hl; [lia|apply Hx|lia].
Qed.

Lemma tree_not_empty l t :
  tree_empty l t = false → ∃ x, tree_entry t (l ++ [x]) ≠ None.
Proof.
  unfold tree_empty. rewrite bool_decide_eq_false. intros He.
  apply map_not_Forall in He as (l' & k & _ & Hl); [|apply _].
  destruct (decide (l `prefix_of` l')) as [[z ->]|Hp]; [|by destruct Hl].
  destruct (decide (length (l ++ z) = S (length l))) as [Hz|Hz]; [|by destruct Hl].
  rewrite length_app in Hz. destruct z as [|x [|]]; simpl in Hz; [lia| |lia].
  exists x. intros E. by destruct Hl.
Qed.

Lemma tree_set_lookup l k t l' :
  tree_set l k t !! l' = if bool_decide (l' = l) then k
                         else if bool_decide (l `prefix_of` l') then None else t !! l'.
Proof.
  unfold tree_set. rewrite lookup_partial_alter.
  case_decide as H1; [by rewrite bool_decide_true|]. rewrite bool_decide_false by congruence.
  rewrite map_lookup_filter. simpl. destruct (t !! l'); simpl; case_bool_decide; try done; by case_guard.
Qed.

(** Setting what lies at a name of a directory, with nothing below it. *)
Lemma tree_set_entry t l x k :
  tree_entry t l = Some Directory → tree_empty (l ++ [x]) t = true →
  ∀ l', tree_entry (tree_set (l ++ [x]) k t) l' =
    if bool_decide (l' = l ++ [x]) then k else tree_entry t l'.
Proof.
  intros Hl Hc l'. rewrite tree_empty_spec in Hc. induction l' as [|y l' IH] using rev_ind.
  { rewrite bool_decide_false by (intros E; by destruct l). done. }
  rewrite tree_entry_snoc, IH, tree_set_lookup.
  destruct (decide (l' ++ [y] = l ++ [x])) as [E|E].
  { rewrite !(bool_decide_true (l' ++ [y] = l ++ [x])) by done. apply app_inj_tail in E as [-> _].
    rewrite (bool_decide_false (l = l ++ [x])); [by rewrite bool_decide_true|].
    intros E. apply (f_equal length) in E. rewrite length_app in E. simpl in E. lia. }
  rewrite !(bool_decide_false (l' ++ [y] = l ++ [x])) by done.
  destruct (decide (l ++ [x] `prefix_of` l' ++ [y])) as [Hp|Hp].
  - rewrite (bool_decide_true (_ `prefix_of` _)) by done.
    assert (tree_entry t (l' ++ [y]) = None) as ->; [|by destruct (bool_decide (_ = Some Directory))].
    destruct Hp as [[|z zs] Hz]; [by rewrite app_nil_r in Hz|].
    destruct (tree_entry t (l' ++ [y])) eqn:Hk; [|done]. rewrite Hz in Hk.
    destruct (tree_entry_prefix t (l ++ [x]) z zs); [by rewrite Hk|apply Hc].
  - rewrite (bool_decide_false (_ `prefix_of` _)) by done.
    rewrite (bool_decide_false (l' = l ++ [x])); [by rewrite tree_entry_snoc|].
    intros ->. apply Hp. by exists [y].
Qed.

(** The directories /pub and /pub/docs and the file /pub/readme. *)
Definition sample_tree : file_tree :=
  <[[txt "pub"] := Directory]> (<[[txt "pub"; txt "docs"] := Directory]>
    (<[[txt "pub"; txt "readme"] := File (txt "read this")]> ∅)).
