(* ===== verification/FsPath.v ===== *)
(** [std::filesystem::path] on a POSIX system, as far as the FTP client uses it,
    and the character classes of the C locale. *)

From S2P Require Import Prelude.

(** ** Characters *)

Definition slash : byte := Byte.x2f.

Definition isspace (b : byte) : bool :=
  bool_decide (byte_val b = 32) || bool_decide (9 ≤ byte_val b ≤ 13).
Definition isdigit (b : byte) : bool := bool_decide (48 ≤ byte_val b ≤ 57).
Definition isalpha (b : byte) : bool :=
  bool_decide (65 ≤ byte_val b ≤ 90) || bool_decide (97 ≤ byte_val b ≤ 122).

(** The parts of a text between the occurrences of a separator; at least one. *)
Fixpoint split_on (sep : byte) (s : bytes) : list bytes :=
  match s with
  | [] => [[]]
  | c :: s' =>
      if bool_decide (c = sep) then [] :: split_on sep s'
      else match split_on sep s' with
           | [] => [[c]]
           | p :: ps => (c :: p) :: ps
           end
  end.

Fixpoint join (sep : bytes) (parts : list bytes) : bytes :=
  match parts with
  | [] => []
  | [p] => p
  | p :: ps => p ++ sep ++ join sep ps
  end.

Definition nonempty (s : bytes) : bool := match s with [] => false | _ => true end.

(** ** Paths

    A root directory or none, the names, and whether a separator follows the last
    name. Repeated separators, which the standard treats as one, are not kept. *)
Record path := Path { p_root : bool; p_names : list bytes; p_trailing : bool }.

#[export] Instance path_eq_dec : EqDecision path.
Proof. solve_decision. Defined.

Definition empty_path : path := Path false [] false.

(** The constructor from a text. *)
Definition path_of_string (s : bytes) : path :=
  let names := List.filter nonempty (split_on slash s) in
  Path (bool_decide (head s = Some slash)) names
       (bool_decide (last s = Some slash) && bool_decide (names ≠ [])).

(** [string()] and [generic_string()]. *)
Definition path_string (p : path) : bytes :=
  (if p_root p then [slash] else []) ++ join [slash] (p_names p) ++
  (if p_trailing p then [slash] else []).

(** [empty()] *)
Definition path_empty (p : path) : bool := bool_decide (p = empty_path).

(** What [begin()] to [end()] iterates over: after a trailing separator comes an
    empty element. *)
Definition elements (p : path) : list bytes :=
  (if p_root p then [[slash]] else []) ++ p_names p ++ (if p_trailing p then [[]] else []).

Definition relative_path (p : path) : path := Path false (p_names p) (p_trailing p).

Definition filename (p : path) : bytes :=
  if p_trailing p then [] else default [] (last (p_names p)).

Definition parent_path (p : path) : path :=
  match p_names p with
  | [] => p
  | _ => if p_trailing p then Path (p_root p) (p_names p) false
         else Path (p_root p) (removelast (p_names p)) false
  end.

Definition dot : bytes := txt ".".
Definition dotdot : bytes := txt "..".

(** One name of [lexically_normal]: the names kept so far, last one first, and
    whether what was read ends with a separator. *)
Definition normal_step (root : bool) (acc : list bytes * bool) (n : bytes) : list bytes * bool :=
  let '(kept, _) := acc in
  if bool_decide (n = dot) then (kept, true)
  else if bool_decide (n = dotdot) then
    match kept with
    | [] => if root then ([], true) else ([dotdot], false)
    | k :: kept' => if bool_decide (k = dotdot) then (dotdot :: kept, false) else (kept', true)
    end
  else (n :: kept, false).

(** [lexically_normal()]: names [.] go, a name followed by [..] goes with it, [..]
    after the root goes, no separator stays behind a last [..], and the empty
    result is [.]. *)
Definition lexically_normal (p : path) : path :=
  if path_empty p then p
  else
    let '(kept, tr) := foldl (normal_step (p_root p)) ([], false) (p_names p) in
    match kept with
    | [] => if p_root p then Path true [] false else Path false [dot] false
    | k :: _ => Path (p_root p) (rev kept) ((tr || p_trailing p) && negb (bool_decide (k = dotdot)))
    end.

(** ** Lemmas *)

(** A name that a path can have, that stands for itself and that fits in a line of a
    command: the path itself may hold CR and LF, see [path_injects_commands]. *)
Definition plain_name (n : bytes) : Prop :=
  n ≠ [] ∧ n ≠ dot ∧ n ≠ dotdot ∧ (slash ∉ n) ∧ (CR ∉ n) ∧ LF ∉ n.

Lemma normal_fold_plain root names kept :
  Forall plain_name names →
  names ≠ [] →
  foldl (normal_step root) kept names = (rev names ++ kept.1, false).
Proof.
  revert kept. induction names as [|n names IH]; intros [kept tr] Hn Hne; [done|].
  apply Forall_cons in Hn as [(H1 & H2 & H3 & _) Hn]. simpl.
  rewrite !bool_decide_false by done.
  destruct names as [|n' names]; [done|]. rewrite IH by done.
  simpl. by rewrite <- !app_assoc.
Qed.

(** A path of plain names is its own normal form. *)
Lemma lexically_normal_plain root names trailing :
  Forall plain_name names → (names = [] → root = true ∧ trailing = false) →
  lexically_normal (Path root names trailing) = Path root names trailing.
Proof.
  intros Hn Hroot. unfold lexically_normal, path_empty. simpl.
  destruct names as [|n names].
  { by destruct Hroot as [-> ->]. }
  rewrite bool_decide_false by done. rewrite normal_fold_plain by done. simpl fst.
  rewrite app_nil_r. destruct (rev (n :: names)) as [|k kept] eqn:E.
  { apply (f_equal length) in E. rewrite length_rev in E. done. }
  rewrite <- E, rev_involutive. f_equal. simpl.
  assert (plain_name k) as (_ & _ & Hk & _).
  { rewrite Forall_forall in Hn. apply Hn, list_elem_of_In, in_rev. rewrite E. by left. }
  by rewrite bool_decide_false, andb_true_r.
Qed.

Example normal_1 : lexically_normal (path_of_string (txt "/a/./b//../c/")) = path_of_string (txt "/a/c/").
Proof. reflexivity. Qed.
Example normal_2 : lexically_normal (path_of_string (txt "a/..")) = path_of_string (txt ".").
Proof. reflexivity. Qed.
Example normal_3 : lexically_normal (path_of_string (txt "../x/../..")) = path_of_string (txt "../..").
Proof. reflexivity. Qed.
Example normal_4 : lexically_normal (path_of_string (txt "a/b/..")) = path_of_string (txt "a/").
Proof. reflexivity. Qed.
