(* ===== verification/Options.v ===== *)
(** The options of sockets and of TLS (include/socket/TcpOptions.h,
    include/socket/TlsOptions.h). Times are in milliseconds. *)

From S2P Require Import Prelude FsPath.

Record TcpOptions := {
  reuse_addr : bool;
  reuse_port : bool;
  nodelay : bool;
  keepalive_idle : option Z;
  keepalive_interval : option Z;
  keepalive_count : option Z;
  send_buf_size : option Z;
  recv_buf_size : option Z;
  linger_timeout : option Z
}.

Definition default_tcp_options : TcpOptions :=
  {| reuse_addr := true; reuse_port := false; nodelay := true; keepalive_idle := None;
     keepalive_interval := None; keepalive_count := None; send_buf_size := None;
     recv_buf_size := None; linger_timeout := None |}.

Inductive TlsVersion := Auto | TLS1_2 | TLS1_3.

#[export] Instance TlsVersion_eq_dec : EqDecision TlsVersion.
Proof. solve_decision. Defined.

Record TlsOptions := {
  min_version : TlsVersion;
  max_version : TlsVersion;
  cipher_suites : list bytes;
  ecdh_curves : list bytes;
  enable_session_tickets : bool;
  ticket_lifetime : option Z;
  restrict_cipher_on_resume : bool;
  verify_peer : bool;
  verify_depth : Z;
  handshake_timeout_ms : option Z
}.

Definition default_tls_options : TlsOptions :=
  {| min_version := TLS1_2; max_version := TLS1_3; cipher_suites := [];
     ecdh_curves := [txt "x25519"; txt "secp256r1"]; enable_session_tickets := true;
     ticket_lifetime := Some 86400000; restrict_cipher_on_resume := true; verify_peer := false;
     verify_depth := 5; handshake_timeout_ms := None |}.

Record TlsServerOptions := {
  cert_chain_path : path;
  private_key_path : path
}.

(** [c_str()]: what a C function sees of a text. *)
Fixpoint c_str (s : bytes) : bytes :=
  match s with
  | [] => []
  | c :: s' => if bool_decide (c = Byte.x00) then [] else c :: c_str s'
  end.

(** The loops that put a list together with colons. *)
Definition colon_list (names : list bytes) : bytes := join (txt ":") names.
