(* ===== verification/TlsContext.v ===== *)
(** The TLS context (src/core/TlsContextWrapper.cpp): how the options configure an
    OpenSSL context, which options of a server are refused, and what [shutdown]
    does. OpenSSL and [asio::ssl::context] are an interface. The macro
    OPENSSL_API_3 is defined nowhere in the repository, so the branches without it
    are the program. *)

From S2P Require Import Prelude ErrorCodes FsPath Options.

(** ** OpenSSL (interface) *)

(** The methods and option flags the program uses. *)
Inductive ssl_method := tlsv12_client | tlsv12_server | tlsv13_client | tlsv13_server.

Inductive ssl_op :=
| SSL_OP_NO_SSLv2 | SSL_OP_NO_SSLv3 | SSL_OP_NO_COMPRESSION | SSL_OP_NO_TLSv1
| SSL_OP_NO_TLSv1_1 | SSL_OP_NO_TLSv1_2 | SSL_OP_NO_TLSv1_3 | SSL_OP_NO_TICKET.

#[export] Instance ssl_op_eq_dec : EqDecision ssl_op.
Proof. solve_decision. Defined.

(** The protocol versions a context can speak. *)
Inductive tls_protocol := SSLv3 | TLSv1 | TLSv1_1 | TLSv1_2 | TLSv1_3.

#[export] Instance tls_protocol_eq_dec : EqDecision tls_protocol.
Proof. solve_decision. Defined.

(** A method for one version. *)
Definition protocol_of (m : ssl_method) : tls_protocol :=
  match m with
  | tlsv12_client | tlsv12_server => TLSv1_2
  | tlsv13_client | tlsv13_server => TLSv1_3
  end.

(** The flag that takes a version away. *)
Definition no_op (v : tls_protocol) : ssl_op :=
  match v with
  | SSLv3 => SSL_OP_NO_SSLv3
  | TLSv1 => SSL_OP_NO_TLSv1
  | TLSv1_1 => SSL_OP_NO_TLSv1_1
  | TLSv1_2 => SSL_OP_NO_TLSv1_2
  | TLSv1_3 => SSL_OP_NO_TLSv1_3
  end.

(** [asio::ssl::verify_mode] *)
Inductive verify_flag := ssl_verify_none | ssl_verify_peer | ssl_verify_fail_if_no_peer_cert.

Class OpenSsl (W : Type) := {
  ssl_ctx : Type;
  context_new : ssl_method → W → ssl_ctx * W;
  context_set_options : ssl_ctx → list ssl_op → W → W;
  SSL_CTX_set_cipher_list : ssl_ctx → bytes → W → Z * W;
  SSL_CTX_set1_curves_list : ssl_ctx → bytes → W → Z * W;
  SSL_CTX_set_timeout : ssl_ctx → Z → W → W;
  context_set_verify_mode : ssl_ctx → list verify_flag → W → error_code * W;
  context_set_verify_depth : ssl_ctx → Z → W → W;
  context_set_default_verify_paths : ssl_ctx → W → error_code * W;
  use_certificate_chain_file : ssl_ctx → bytes → W → error_code * W;
  use_private_key_file : ssl_ctx → bytes → W → error_code * W;
  (** the references to the context's memory *)
  ctx_references : ssl_ctx → W → nat;
  SSL_CTX_free : ssl_ctx → W → W;
  file_exists : bytes → W → bool
}.
Arguments ssl_ctx W {_}.

(** What is documented of it: [speaks] are the versions that are enabled in a context. A
    method for one version enables that version, a flag takes its version away, and
    nothing else the program calls changes them. [SSL_CTX_free] drops one reference, a
    new context has one. *)
Class OpenSslSpec (W : Type) `{OpenSsl W} := {
  speaks : ssl_ctx W → W → tls_protocol → Prop;
  new_speaks m w c w' v :
    context_new m w = (c, w') → (speaks c w' v ↔ v = protocol_of m);
  options_speak c ops w v :
    speaks c (context_set_options c ops w) v ↔ speaks c w v ∧ no_op v ∉ ops;
  cipher_speaks c s w v : speaks c (SSL_CTX_set_cipher_list c s w).2 v ↔ speaks c w v;
  curves_speaks c s w v : speaks c (SSL_CTX_set1_curves_list c s w).2 v ↔ speaks c w v;
  timeout_speaks c t w v : speaks c (SSL_CTX_set_timeout c t w) v ↔ speaks c w v;
  verify_speaks c m w v : speaks c (context_set_verify_mode c m w).2 v ↔ speaks c w v;
  depth_speaks c d w v : speaks c (context_set_verify_depth c d w) v ↔ speaks c w v;
  paths_speaks c w v : speaks c (context_set_default_verify_paths c w).2 v ↔ speaks c w v;
  cert_speaks c f w v : speaks c (use_certificate_chain_file c f w).2 v ↔ speaks c w v;
  key_speaks c f w v : speaks c (use_private_key_file c f w).2 v ↔ speaks c w v;
  free_references c w :
    ctx_references c (SSL_CTX_free c w) = (ctx_references c w - 1)%nat
}.

(** The operations on contexts, as steps of the world. *)
Inductive ctx_step {W : Type} `{OpenSsl W} : W → W → Prop :=
| step_new m w : ctx_step w (context_new m w).2
| step_options c ops w : ctx_step w (context_set_options c ops w)
| step_ciphers c s w : ctx_step w (SSL_CTX_set_cipher_list c s w).2
| step_curves c s w : ctx_step w (SSL_CTX_set1_curves_list c s w).2
| step_timeout c t w : ctx_step w (SSL_CTX_set_timeout c t w)
| step_verify c m w : ctx_step w (context_set_verify_mode c m w).2
| step_depth c d w : ctx_step w (context_set_verify_depth c d w)
| step_paths c w : ctx_step w (context_set_default_verify_paths c w).2
| step_cert c f w : ctx_step w (use_certificate_chain_file c f w).2
| step_key c f w : ctx_step w (use_private_key_file c f w).2.

Section tls_context.
Context {W : Type} `{OpenSsl W}.

(** ** Construction *)

Definition context_method (cfg : TlsOptions) (server : bool) : ssl_method :=
  match min_version cfg with
  | TLS1_2 => if server then tlsv12_server else tlsv12_client
  | TLS1_3 => if server then tlsv13_server else tlsv13_client
  | Auto => if server then tlsv12_server else tlsv12_client
  end.

Definition context_flags (cfg : TlsOptions) : list ssl_op :=
  [SSL_OP_NO_SSLv2; SSL_OP_NO_SSLv3; SSL_OP_NO_COMPRESSION] ++
  match min_version cfg with
  | TLS1_2 => [SSL_OP_NO_TLSv1; SSL_OP_NO_TLSv1_1]
  | TLS1_3 => [SSL_OP_NO_TLSv1; SSL_OP_NO_TLSv1_1; SSL_OP_NO_TLSv1_2]
  | Auto => []
  end ++
  match max_version cfg with
  | TLS1_2 => [SSL_OP_NO_TLSv1_3]
  | _ => []
  end.

(** An operation whose result is only logged, or ignored. *)
Definition ignore {A} (f : W → A * W) : M W unit := λ w, (Done tt, (f w).2).
Definition effect (f : W → W) : M W unit := modify f.

(** [static_cast<long>(count() / 1000)] *)
Definition ticket_seconds (cfg : TlsOptions) : Z :=
  match ticket_lifetime cfg with Some ms => Z.quot ms 1000 | None => 86400 end.

(** The part of the constructor behind the versions. *)
Definition configure (c : ssl_ctx W) (cfg : TlsOptions) (server_opts : option TlsServerOptions)
    : M W unit :=
  (if bool_decide (cipher_suites cfg = []) then mret tt
   else ignore (SSL_CTX_set_cipher_list c (c_str (colon_list (cipher_suites cfg)))));;
  (if bool_decide (ecdh_curves cfg = []) then mret tt
   else ignore (SSL_CTX_set1_curves_list c (c_str (colon_list (ecdh_curves cfg)))));;
  effect (SSL_CTX_set_timeout c (ticket_seconds cfg));;
  match server_opts with
  | None =>
      ignore (context_set_verify_mode c [ssl_verify_peer]);;
      (if bool_decide (0 < verify_depth cfg)
       then effect (context_set_verify_depth c (verify_depth cfg)) else mret tt);;
      ignore (context_set_default_verify_paths c)
  | Some o =>
      (if path_empty (cert_chain_path o) then mret tt
       else ignore (use_certificate_chain_file c (path_string (cert_chain_path o))));;
      (if path_empty (private_key_path o) then mret tt
       else ignore (use_private_key_file c (path_string (private_key_path o))))
  end.

(** [TlsContextWrapper::Private::Private] *)
Definition Private_new (cfg : TlsOptions) (server_opts : option TlsServerOptions) : M W (ssl_ctx W) :=
  c ← (λ w, let '(c, w') := context_new (context_method cfg (bool_decide (is_Some server_opts))) w in
            (Done c, w'));
  effect (context_set_options c (context_flags cfg));;
  configure c cfg server_opts;;
  mret c.

(** [!path.empty() && !exists(path)] *)
Definition path_missing (p : path) (w : W) : bool :=
  negb (path_empty p) && negb (file_exists (path_string p) w).

(** A [TlsContextWrapper] shares its context; the pointer to it may have been reset. *)
Definition createTlsContextWrapper (cfg : TlsOptions) (server_opts : option TlsServerOptions)
    : M W (result (ssl_ctx W)) :=
  match server_opts with
  | None => c ← Private_new cfg None; mret (Ok c)
  | Some o =>
      cert_missing ← gets (path_missing (cert_chain_path o));
      if (cert_missing : bool) then mret (Unexpected (make_error_code TLS_CERT_LOAD_FAILURE))
      else
        key_missing ← gets (path_missing (private_key_path o));
        if (key_missing : bool) then mret (Unexpected (make_error_code TLS_CERT_LOAD_FAILURE))
        else c ← Private_new cfg (Some o); mret (Ok c)
  end.

(** ** Shutdown *)

(** [SSL_CTX_free] on memory without references is undefined behaviour. *)
Definition free_ctx (c : ssl_ctx W) : M W unit := λ w,
  if bool_decide (ctx_references c w = 0%nat) then (Undef, w) else (Done tt, SSL_CTX_free c w).

(** [shutdown], for a wrapper that is the last owner of the [asio::ssl::context]:
    [context_.reset()] runs its destructor, which frees the native handle. *)
Definition TlsContextWrapper_shutdown (context : option (ssl_ctx W)) : M W (option (ssl_ctx W)) :=
  match context with
  | None => mret None
  | Some c =>
      free_ctx c;;
      free_ctx c;;
      mret None
  end.
End tls_context.

(** ** Lemmas *)

Section ctx_lemmas.
Context {W : Type} `{OpenSsl W}.

(** A piece of code that only works on contexts. *)
Definition ctx_only {A} (m : M W A) : Prop := ∀ w, wp m (λ _ w', rtc ctx_step w w') w.

Lemma ctx_only_bind {A B} (m : M W A) (k : A → M W B) :
  ctx_only m → (∀ a, ctx_only (k a)) → ctx_only (m ≫= k).
Proof.
  intros Hm Hk w. wp_step. eapply wp_mono; [apply Hm|]. simpl. intros a w1 H1.
  eapply wp_mono; [apply Hk|]. simpl. intros _ w2 H2. by etrans.
Qed.

Lemma ctx_only_if {A} (b : bool) (m1 m2 : M W A) :
  ctx_only m1 → ctx_only m2 → ctx_only (if b then m1 else m2).
Proof. by destruct b. Qed.

Lemma ctx_only_ret {A} (a : A) : ctx_only (mret a).
Proof. intros w. by wp_steps. Qed.

Lemma ctx_only_ignore {A} (f : W → A * W) : (∀ w, ctx_step w (f w).2) → ctx_only (ignore f).
Proof. intros Hf w. by apply rtc_once. Qed.

Lemma ctx_only_effect (f : W → W) : (∀ w, ctx_step w (f w)) → ctx_only (effect f).
Proof. intros Hf w. by apply rtc_once. Qed.

Ltac ctx_only :=
  repeat match goal with
         | |- ctx_only (_ ≫= _) => apply ctx_only_bind; [|intros ?]
         | |- ctx_only (if _ then _ else _) => apply ctx_only_if
         | |- ctx_only (mret _) => apply ctx_only_ret
         | |- ctx_only (ignore _) => apply ctx_only_ignore; intros ?; constructor
         | |- ctx_only (effect _) => apply ctx_only_effect; intros ?; constructor
         end.

Lemma Private_new_ctx_only cfg so : ctx_only (Private_new cfg so).
Proof.
  unfold Private_new, configure. apply ctx_only_bind.
  - intros w. unfold wp. pose proof (step_new (context_method cfg (bool_decide (is_Some so))) w) as Hs.
    destruct (context_new _ w) as [c w']. by apply rtc_once.
  - intros c. destruct so; ctx_only.
Qed.
End ctx_lemmas.

Section tls_lemmas.
Context {W : Type} `{SS : OpenSslSpec W}.

(** A piece of code that leaves the versions of [c] alone. *)
Definition same_versions (c : ssl_ctx W) (m : M W unit) : Prop :=
  ∀ w, wp m (λ _ w', ∀ v, speaks c w' v ↔ speaks c w v) w.

Lemma same_versions_bind c (m1 m2 : M W unit) :
  same_versions c m1 → same_versions c m2 → same_versions c (m1;; m2).
Proof.
  intros H1 H2 w. wp_step. eapply wp_mono; [apply H1|]. simpl. intros _ w1 Hw1.
  eapply wp_mono; [apply H2|]. simpl. intros _ w2 Hw2 v. by rewrite Hw2.
Qed.

Lemma same_versions_if c (b : bool) (m1 m2 : M W unit) :
  same_versions c m1 → same_versions c m2 → same_versions c (if b then m1 else m2).
Proof. by destruct b. Qed.

Lemma same_versions_ret c : same_versions c (mret tt).
Proof. intros w. by wp_steps. Qed.

Lemma same_versions_ignore {A} c (f : W → A * W) :
  (∀ w v, speaks c (f w).2 v ↔ speaks c w v) → same_versions c (ignore f).
Proof. intros Hf w. unfold wp, ignore. auto. Qed.

Lemma same_versions_effect c (f : W → W) :
  (∀ w v, speaks c (f w) v ↔ speaks c w v) → same_versions c (effect f).
Proof. intros Hf w. unfold effect. wp_steps. auto. Qed.
End tls_lemmas.

#[export] Hint Resolve cipher_speaks curves_speaks timeout_speaks verify_speaks depth_speaks
  paths_speaks cert_speaks key_speaks : netlib.

(** Walks through a sequence of settings. *)
Ltac same_versions :=
  repeat match goal with
         | |- same_versions _ (_ ≫= _) => apply same_versions_bind
         | |- same_versions _ (if _ then _ else _) => apply same_versions_if
         | |- same_versions _ (mret _) => apply same_versions_ret
         | |- same_versions _ (ignore _) => apply same_versions_ignore; intros ? ?
         | |- same_versions _ (effect _) => apply same_versions_effect; intros ? ?
         end;
  eauto with netlib.

(** The version that the minimum of the options names; [Auto] is TLS 1.2. *)
Definition minimum (cfg : TlsOptions) : tls_protocol :=
  match min_version cfg with TLS1_3 => TLSv1_3 | _ => TLSv1_2 end.

(** Options whose minimum is above their maximum. *)
Definition contradictory (cfg : TlsOptions) : Prop := min_version cfg = TLS1_3 ∧ max_version cfg = TLS1_2.

Section tls_version.
Context {W : Type} `{SS : OpenSslSpec W}.

Lemma configure_versions c cfg so : same_versions c (configure c cfg so).
Proof. unfold configure. destruct so; same_versions. Qed.

(** The flags take the method's version away only from contradictory options. *)
Lemma flags_minimum cfg : no_op (minimum cfg) ∈ context_flags cfg ↔ contradictory cfg.
Proof.
  unfold minimum, context_flags, contradictory.
  destruct (min_version cfg), (max_version cfg); simpl; split; try (by intros []); try done;
    try (intros _; apply (bool_decide_eq_true_1 _); by vm_compute);
    intros Hin; exfalso; revert Hin; apply (bool_decide_eq_false_1 _); by vm_compute.
Qed.

Lemma Private_new_speaks cfg so w :
  wp (Private_new cfg so) (λ c w', ∀ v, speaks c w' v ↔ v = minimum cfg ∧ ¬ contradictory cfg) w.
Proof.
  unfold Private_new. wp_step. unfold wp at 1.
  destruct (context_new _ w) as [c w1] eqn:Hnew. unfold effect. wp_steps.
  eapply wp_mono; [apply configure_versions|]. simpl. intros _ w2 Hw2. wp_steps.
  intros v. rewrite Hw2, options_speak, (new_speaks _ _ _ _ _ Hnew).
  assert (protocol_of (context_method cfg (bool_decide (is_Some so))) = minimum cfg) as ->.
  { unfold context_method, minimum. by destruct (min_version cfg), so. }
  split; intros [-> Hn]; (split; [done|]); by rewrite flags_minimum in *.
Qed.
End tls_version.

(** ** Correctness *)

(** C38: creating a TLS context always ends, and is refused exactly when a file that
    the options of a server name does not exist, before anything is made. A context that
    is created has exactly one protocol version enabled, that of the minimum, whatever
    the maximum, so TLS 1.3 is enabled only as the minimum; when the minimum is TLS 1.3
    and the maximum TLS 1.2 it is created all the same, with no version enabled. *)
Theorem createTlsContextWrapper_correct {W : Type} `{SS : OpenSslSpec W} cfg so w :
  wp (createTlsContextWrapper cfg so) (λ r w',
    match r with
    | Ok c => ∀ v, speaks c w' v ↔ v = minimum cfg ∧ ¬ contradictory cfg
    | Unexpected e => e = make_error_code TLS_CERT_LOAD_FAILURE ∧ w' = w
    end ∧
    (has_value r = false ↔ ∃ o, so = Some o ∧
       (path_missing (cert_chain_path o) w = true ∨ path_missing (private_key_path o) w = true))) w.
Proof.
  unfold createTlsContextWrapper. destruct so as [o|]; wp_steps.
  - destruct (path_missing (cert_chain_path o) w) eqn:H1; wp_steps.
    { split; [done|]. split; [|done]. intros _. exists o. by auto. }
    destruct (path_missing (private_key_path o) w) eqn:H2; wp_steps.
    { split; [done|]. split; [|done]. intros _. exists o. by auto. }
    eapply wp_mono; [apply Private_new_speaks|]. simpl. intros c w' Hc. wp_steps.
    split; [done|]. split; [done|]. intros (o' & [= <-] & Ho). by destruct Ho; congruence.
  - eapply wp_mono; [apply Private_new_speaks|]. simpl. intros c w' Hc. wp_steps.
    split; [done|]. split; [done|]. by intros (o' & ? & _).
Qed.

(** [shutdown] of the last owner of a context that no connection uses frees its
    memory twice, which is undefined behaviour. *)
Theorem shutdown_frees_twice {W : Type} `{SS : OpenSslSpec W} c w :
  ctx_references c w = 1%nat →
  ∃ w', TlsContextWrapper_shutdown (Some c) w = (Undef, w').
Proof.
  intros Hc. unfold TlsContextWrapper_shutdown, mbind, M_bind, free_ctx. rewrite Hc. simpl.
  rewrite free_references, Hc. simpl. by eexists.
Qed.

(** ** A concrete OpenSSL

    One context: its method, its flags, the references to it, and the files that
    exist. *)
Record sample_ssl := SampleSsl {
  ss_method : ssl_method; ss_flags : list ssl_op; ss_refs : nat; ss_files : list bytes
}.

#[export] Instance sample_OpenSsl : OpenSsl sample_ssl := {|
  ssl_ctx := unit;
  context_new m w := (tt, SampleSsl m [] 1 (ss_files w));
  context_set_options _ ops w := SampleSsl (ss_method w) (ops ++ ss_flags w) (ss_refs w) (ss_files w);
  SSL_CTX_set_cipher_list _ _ w := (1, w);
  SSL_CTX_set1_curves_list _ _ w := (1, w);
  SSL_CTX_set_timeout _ _ w := w;
  context_set_verify_mode _ _ w := (ec_none, w);
  context_set_verify_depth _ _ w := w;
  context_set_default_verify_paths _ w := (ec_none, w);
  use_certificate_chain_file _ _ w := (ec_none, w);
  use_private_key_file _ _ w := (ec_none, w);
  ctx_references _ w := ss_refs w;
  SSL_CTX_free _ w := SampleSsl (ss_method w) (ss_flags w) (ss_refs w - 1) (ss_files w);
  file_exists f w := bool_decide (f ∈ ss_files w)
|}.

#[export] Program Instance sample_OpenSslSpec : OpenSslSpec sample_ssl := {|
  speaks _ w v := v = protocol_of (ss_method w) ∧ no_op v ∉ ss_flags w
|}.
Next Obligation. simpl. intros m w c w' v [= <- <-]. simpl. set_solver. Qed.
Next Obligation. simpl. intros c ops w v. rewrite not_elem_of_app. tauto. Qed.
Solve All Obligations with done.

Lemma shutdown_frees_twice_witness :
  let w := SampleSsl tlsv12_client [] 1 [] in
  ctx_references (W := sample_ssl) tt w = 1%nat ∧
  ∃ w', TlsContextWrapper_shutdown (W := sample_ssl) (Some tt) w = (Undef, w').
Proof.
  intros w. assert (ctx_references (W := sample_ssl) tt w = 1%nat) as Hw by reflexivity.
  split; [exact Hw|]. exact (shutdown_frees_twice (W := sample_ssl) tt w Hw).
Defined.
