(* ===== verification/Client.v ===== *)
(** Connecting (src/client/Client.cpp): resolving, connecting against a timer, the
    options of the socket, and the TLS handshake. *)

From S2P Require Import Prelude ErrorCodes ErrorTranslation FsPath Options TlsContext SocketBase Socket.

(** ** ASIO and OpenSSL (interface) *)

(** The options of [asio::ip::tcp::socket] that are set. *)
Inductive socket_option :=
| opt_no_delay (on : bool)
| opt_keep_alive (on : bool)
| opt_send_buffer_size (size : Z)
| opt_receive_buffer_size (size : Z)
| opt_linger (on : bool) (seconds : Z).

(** [connect_or_timer] is the parallel group of [async_connect] and the timer, which
    waits for one of them: the index of the one that completed first, and the code of
    the connecting operation. [destroy_stream] is the destructor of a socket that no
    object of the stack owns; [pool_runs] says whether the executor runs what is
    spawned on it; if not, it drops it, which breaks the future. *)
Class AsioConnect (W : Type) `{Asio W} := {
  endpoints : Type;
  pool_runs : W → bool;
  async_resolve : bytes → bytes → W → error_code * endpoints * W;
  new_tcp_socket : W → stream W * W;
  connect_or_timer : stream W → endpoints → Z → W → nat * error_code * W;
  set_option : stream W → socket_option → W → error_code * W;
  destroy_stream : stream W → W → W
}.

(** The part of the world that belongs to the program: the static [id_counter] of
    SocketBase. *)
Class SocketIds (W : Type) := {
  id_counter : W → Z;
  set_id_counter : Z → W → W
}.

(** [asio::ssl::stream] and the functions of OpenSSL on its native handle.
    [async_handshake] runs against a timer of the given milliseconds: its code, and
    whether the timer had fired. *)
Class AsioTls (W : Type) `{Asio W} `{OpenSsl W} := {
  ssl_stream_new : stream W → ssl_ctx W → W → stream W * W;
  native_handle : stream W → W → bool;
  SSL_set_cipher_list : stream W → bytes → W → Z * W;
  SSL_set1_curves_list : stream W → bytes → W → Z * W;
  stream_set_verify_mode : stream W → list verify_flag → W → W;
  stream_set_verify_depth : stream W → Z → W → W;
  SSL_set_options : stream W → list ssl_op → W → W;
  SSL_clear_options : stream W → list ssl_op → W → W;
  async_handshake : stream W → Z → W → error_code * bool * W
}.

(** ** The client *)

(** [ClientBase]: [_host] and [_port]. *)
Record client := { host : bytes; port : Z }.

(** The constructors of [ClientBase] and [Client]. *)
Definition ClientBase_new (h : bytes) (p : Z) : client := {| host := h; port := p |}.
Definition Client_new (h : bytes) (p : Z) : client := ClientBase_new h p.

Section client.
Context {W : Type} `{AE : AsioErrors} `{A : !Asio W} `{AC : !AsioConnect W} `{SI : !SocketIds W}.

Definition run {B} (f : W → B * W) : M W B := λ w, let '(b, w') := f w in (Done b, w').

(** One option: a failure returns from the function that sets it. *)
Definition set_socket_option (sock : stream W) (o : socket_option) : M W (result unit) :=
  ec ← run (set_option sock o);
  if ec_bool ec then mret (Unexpected (makeOptionError ec)) else mret (Ok tt).

Definition when (b : bool) (m : M W (result unit)) : M W (result unit) :=
  if b then m else mret (Ok tt).

(** [Ok] stands for the code without an error that is returned at the end.
    [static_cast<int>] wraps, [duration_cast] drops the fraction of a second. *)
Definition applyPreConnectTcpOptions (sock : stream W) (opts : TcpOptions) : M W (result unit) :=
  _ ←? when (nodelay opts) (set_socket_option sock (opt_no_delay true));
  _ ←? when (bool_decide (is_Some (keepalive_idle opts)) ||
             bool_decide (is_Some (keepalive_interval opts)) ||
             bool_decide (is_Some (keepalive_count opts)))
            (set_socket_option sock (opt_keep_alive true));
  _ ←? match send_buf_size opts with
       | Some n => set_socket_option sock (opt_send_buffer_size (wrap_i32 n))
       | None => mret (Ok tt)
       end;
  _ ←? match recv_buf_size opts with
       | Some n => set_socket_option sock (opt_receive_buffer_size (wrap_i32 n))
       | None => mret (Ok tt)
       end;
  match linger_timeout opts with
  | Some t => set_socket_option sock (opt_linger true (wrap_i32 (Z.quot t 1000)))
  | None => mret (Ok tt)
  end.

(** A local socket is destroyed when the function returns an error. *)
Definition or_destroy {B} (sock : stream W) (m : M W (result B)) : M W (result B) :=
  r ← m;
  match r with
  | Ok b => mret (Ok b)
  | Unexpected e => modify (destroy_stream sock);; mret (Unexpected e)
  end.

(** [std::make_unique<TcpSocket>] and [TlsSocket]: an object with the next identifier. *)
Definition make_socket (c : socket_class) (sock : stream W) : M W (socket W) :=
  n ← gets id_counter;
  let '(k, n') := SocketBase_new n c sock in
  modify (set_id_counter n');; mret k.

Definition resolve (c : client) : M W (result endpoints) :=
  '(ec, eps) ← run (async_resolve (host c) (to_string (port c)));
  if ec_bool ec then mret (Unexpected (makeDnsError ec)) else mret (Ok eps).

(** The parallel group, and what is made of its result. *)
Definition connect_within (sock : stream W) (eps : endpoints) (timeout : Z) : M W (result unit) :=
  '(first, ec) ← run (connect_or_timer sock eps timeout);
  if bool_decide (first = 1%nat) then mret (Unexpected makeTimeoutError)
  else if ec_bool ec then mret (Unexpected (makeConnectionError ec))
  else mret (Ok tt).

Definition asyncConnect (c : client) (timeout : Z) (tcp_opts : TcpOptions) : M W (result (socket W)) :=
  eps ←? resolve c;
  sock ← run new_tcp_socket;
  or_destroy sock (
    _ ←? connect_within sock eps timeout;
    _ ←? applyPreConnectTcpOptions sock tcp_opts;
    k ← make_socket TcpSocketClass sock;
    mret (Ok k)).

(** [co_spawn] with [use_future] and [future.get()] in a [try]. *)
Definition blocking {B} (m : M W (result B)) : M W (result B) := λ w,
  let canceled := Unexpected (makeReadError (std_make_error_code operation_canceled)) in
  if pool_runs w then
    match m w with
    | (Throw _, w') => (Done canceled, w')
    | r => r
    end
  else (Done canceled, w).

Definition connect (c : client) (timeout : Z) (tcp_opts : TcpOptions) : M W (result (socket W)) :=
  blocking (asyncConnect c timeout tcp_opts).
End client.

(** ** TLS *)

Section client_tls.
Context {W : Type} `{AE : AsioErrors} `{A : !Asio W} `{AC : !AsioConnect W} `{SI : !SocketIds W}.
Context `{OS : !OpenSsl W} `{AT : !AsioTls W}.

(** [ec = makeOptionError(...)] when OpenSSL returns zero; the function goes on. *)
Definition set_list (f : bytes → W → Z * W) (names : list bytes) (ec : error_code) : M W error_code :=
  if bool_decide (names = []) then mret ec
  else
    ret ← run (f (c_str (colon_list names)));
    if bool_decide (ret = 0) then mret (makeOptionError (make_error_code OPTION_ERROR)) else mret ec.

Definition applyPreConnectTlsOptions (stream_ : stream W) (opts : TlsOptions) : M W error_code :=
  ssl ← gets (native_handle stream_);
  if negb ssl then mret (makeOptionError (make_error_code OPTION_ERROR))
  else
    ec ← set_list (SSL_set_cipher_list stream_) (cipher_suites opts) ec_none;
    ec ← set_list (SSL_set1_curves_list stream_) (ecdh_curves opts) ec;
    modify (stream_set_verify_mode stream_
      (if verify_peer opts then [ssl_verify_peer; ssl_verify_fail_if_no_peer_cert]
       else [ssl_verify_none]));;
    modify (stream_set_verify_depth stream_ (verify_depth opts));;
    (if negb (enable_session_tickets opts)
     then modify (SSL_clear_options stream_ [SSL_OP_NO_TICKET])
     else modify (SSL_set_options stream_ [SSL_OP_NO_TICKET]);;
          modify (SSL_clear_options stream_ [SSL_OP_NO_TICKET]));;
    mret ec.

(** The handshake against its own timer, a day by default. *)
Definition handshake_within (stream_ : stream W) (tls_opts : TlsOptions) : M W (result unit) :=
  '(hs_ec, hs_timed_out) ←
    run (async_handshake stream_ (default hours24 (handshake_timeout_ms tls_opts)));
  if bool_decide (hs_ec = asio_error operation_aborted) && hs_timed_out
  then mret (Unexpected makeTimeoutError)
  else if ec_bool hs_ec then mret (Unexpected (makeTlsError hs_ec))
  else mret (Ok tt).

Definition asyncConnectTls (c : client) (timeout : Z) (tcp_opts : TcpOptions) (tls_opts : TlsOptions)
    : M W (result (socket W)) :=
  eps ←? resolve c;
  sock ← run new_tcp_socket;
  ctx ←? or_destroy sock (
    _ ←? connect_within sock eps timeout;
    _ ←? applyPreConnectTcpOptions sock tcp_opts;
    createTlsContextWrapper tls_opts None);
  ssl_stream ← run (ssl_stream_new sock ctx);
  or_destroy ssl_stream (
    tls_ec ← applyPreConnectTlsOptions ssl_stream tls_opts;
    if ec_bool tls_ec then mret (Unexpected tls_ec)
    else
      _ ←? handshake_within ssl_stream tls_opts;
      k ← make_socket TlsSocketClass ssl_stream;
      mret (Ok k)).

Definition connectTls (c : client) (timeout : Z) (tcp_opts : TcpOptions) (tls_opts : TlsOptions)
    : M W (result (socket W)) :=
  blocking (asyncConnectTls c timeout tcp_opts tls_opts).
End client_tls.

(** ** The interfaces of a client *)

(** The abstract classes [ClientSync] and [ClientAsync]: [C] is the type of the objects,
    [K] of the sockets they connect, [W] the world. *)
Class ClientSync (C K W : Type) := {
  virtual_connect : C → Z → TcpOptions → M W (result K);
  virtual_connectTls : C → Z → TcpOptions → TlsOptions → M W (result K)
}.

Class ClientAsync (C K W : Type) := {
  virtual_asyncConnect : C → Z → TcpOptions → M W (result K);
  virtual_asyncConnectTls : C → Z → TcpOptions → TlsOptions → M W (result K)
}.

(** The default arguments of all of them: 500 ms and no options. *)
Definition default_connect_timeout : Z := 500.

Section client_interfaces.
Context {W : Type} `{AE : AsioErrors} `{A : !Asio W} `{AC : !AsioConnect W} `{SI : !SocketIds W}.
Context `{OS : !OpenSsl W} `{AT : !AsioTls W}.

(** The class [Client] implements both. *)
#[export] Instance Client_ClientSync : ClientSync client (socket W) W := {|
  virtual_connect := connect;
  virtual_connectTls := connectTls
|}.

#[export] Instance Client_ClientAsync : ClientAsync client (socket W) W := {|
  virtual_asyncConnect := asyncConnect;
  virtual_asyncConnectTls := asyncConnectTls
|}.

End client_interfaces.

(** ** The documented behaviour of ASIO

    Stated over which streams are open: a stream is opened only by connecting it, and
    the destructor of a socket closes it. *)
Section opens.
Context {W : Type} `{Asio W}.

(** Between [w] and [w'] no stream but [h] was opened. *)
Definition only_opens (h : option (stream W)) (w w' : W) : Prop :=
  ∀ x, is_open x w' = true → is_open x w = true ∨ h = Some x.

Lemma only_opens_refl h w : only_opens h w w.
Proof. by left. Qed.

Lemma only_opens_trans h w1 w2 w3 : only_opens h w1 w2 → only_opens h w2 w3 → only_opens h w1 w3.
Proof. intros H1 H2 x [Hx| ->]%H2; [by apply H1|by right]. Qed.

Lemma only_opens_weaken h w w' : only_opens None w w' → only_opens h w w'.
Proof. intros Hw x [?|?]%Hw; [by left|done]. Qed.
End opens.

Class AsioConnectSpec (W : Type) `{AE : AsioErrors} `{A : !Asio W} `{AC : !AsioConnect W}
    `{SI : !SocketIds W} := {
  resolve_opens h p w r w' : async_resolve h p w = (r, w') → only_opens None w w';
  new_socket_opens w h w' : new_tcp_socket w = (h, w') → only_opens None w w';
  connect_opens h eps t w first ec w' :
    connect_or_timer h eps t w = (first, ec, w') →
    only_opens (Some h) w w' ∧
    (first ≠ 1%nat → ec_bool ec = false → is_open h w' = true);
  option_opens h o w x : is_open x (set_option h o w).2 = is_open x w;
  destroy_opens h w x :
    is_open x (destroy_stream h w) = true → is_open x w = true ∧ x ≠ h;
  counter_opens n w x : is_open x (set_id_counter n w) = is_open x w
}.

Class AsioTlsSpec (W : Type) `{A : !Asio W} `{OS : !OpenSsl W} `{AT : !AsioTls W} := {
  ctx_opens w w' x : ctx_step w w' → is_open x w' = is_open x w;
  ssl_stream_opens h c w h' w' :
    ssl_stream_new h c w = (h', w') →
    is_open h' w' = is_open h w ∧ ∀ x, is_open x w' = true → x = h' ∨ is_open x w = true ∧ x ≠ h;
  ciphers_opens h s w x : is_open x (SSL_set_cipher_list h s w).2 = is_open x w;
  curves_opens h s w x : is_open x (SSL_set1_curves_list h s w).2 = is_open x w;
  mode_opens h m w x : is_open x (stream_set_verify_mode h m w) = is_open x w;
  depth_opens h d w x : is_open x (stream_set_verify_depth h d w) = is_open x w;
  set_opens h ops w x : is_open x (SSL_set_options h ops w) = is_open x w;
  clear_opens h ops w x : is_open x (SSL_clear_options h ops w) = is_open x w;
  (** clearing flags undoes setting them *)
  clear_set h ops w : SSL_clear_options h ops (SSL_set_options h ops w) = SSL_clear_options h ops w;
  (** a handshake opens nothing, and leaves the stream open when it succeeds *)
  handshake_opens h t w ec b w' :
    async_handshake h t w = (ec, b, w') →
    only_opens None w w' ∧ (ec_bool ec = false → is_open h w' = is_open h w)
}.

(** ** Specification *)

(** The errors of connecting. *)
Definition connect_errors : list error_code :=
  make_error_code <$> [DNS_RESOLUTION_FAILED; CONNECTION_TIMEOUT; CONNECTION_REFUSED;
    CONNECTION_LOST; CONNECTION_ESTABLISHMENT_FAILED; OPTION_ERROR; READ_FAILED].
Definition connect_tls_errors : list error_code :=
  make_error_code TLS_HANDSHAKE_FAILED :: connect_errors.

(** What connecting promises: a new, open socket with an empty read buffer, and nothing
    else that is open; or one of [errors], and nothing that was opened on the way is
    still open. *)
Definition connected_or_clean {W : Type} `{Asio W} (c : socket_class) (errors : list error_code)
    (w : W) (r : result (socket W)) (w' : W) : Prop :=
  match r with
  | Ok k => s_class k = c ∧ s_buf k = [] ∧ is_open (s_stream k) w' = true ∧
      only_opens (Some (s_stream k)) w w'
  | Unexpected e => e ∈ errors ∧ only_opens None w w'
  end.

(** The contract of the two interfaces. *)
Class ClientSpec (C W : Type) `{Asio W} `{CS : !ClientSync C (socket W) W}
    `{CA : !ClientAsync C (socket W) W} := {
  connect_spec c t o w :
    wp (virtual_connect c t o) (connected_or_clean TcpSocketClass connect_errors w) w;
  connectTls_spec c t o tls w :
    wp (virtual_connectTls c t o tls) (connected_or_clean TlsSocketClass connect_tls_errors w) w;
  asyncConnect_spec c t o w :
    wp (virtual_asyncConnect c t o) (connected_or_clean TcpSocketClass connect_errors w) w;
  asyncConnectTls_spec c t o tls w :
    wp (virtual_asyncConnectTls c t o tls) (connected_or_clean TlsSocketClass connect_tls_errors w) w
}.

(** What a socket is set to: per option the last value that was accepted for it. *)
Inductive option_name := NoDelay | KeepAlive | SendBuffer | ReceiveBuffer | Linger.

Definition option_of (o : socket_option) : option_name :=
  match o with
  | opt_no_delay _ => NoDelay
  | opt_keep_alive _ => KeepAlive
  | opt_send_buffer_size _ => SendBuffer
  | opt_receive_buffer_size _ => ReceiveBuffer
  | opt_linger _ _ => Linger
  end.

#[export] Instance option_name_eq_dec : EqDecision option_name.
Proof. solve_decision. Defined.

(** Setting an option sets that option of that socket, or, refused, nothing. *)
Class SocketSettings (W : Type) `{A : Asio W} `{AC : !AsioConnect W} := {
  setting : stream W → option_name → W → option socket_option;
  set_option_accepted h o w :
    ec_bool (set_option h o w).1 = false → setting h (option_of o) (set_option h o w).2 = Some o;
  set_option_refused h o w x n :
    ec_bool (set_option h o w).1 = true → setting x n (set_option h o w).2 = setting x n w;
  set_option_other h o w x n :
    x ≠ h ∨ n ≠ option_of o → setting x n (set_option h o w).2 = setting x n w
}.

(** The conversion of [z] to an int of 32 bits. *)
Definition int_of (z v : Z) : Prop := - 2 ^ 31 ≤ v < 2 ^ 31 ∧ v `mod` 2 ^ 32 = z `mod` 2 ^ 32.

(** What [opts] ask of a socket. *)
Inductive asks_for (opts : TcpOptions) : socket_option → Prop :=
| asks_no_delay : nodelay opts = true → asks_for opts (opt_no_delay true)
| asks_keep_alive t :
    Some t ∈ [keepalive_idle opts; keepalive_interval opts; keepalive_count opts] →
    asks_for opts (opt_keep_alive true)
| asks_send_buffer n v :
    send_buf_size opts = Some n → int_of n v → asks_for opts (opt_send_buffer_size v)
| asks_receive_buffer n v :
    recv_buf_size opts = Some n → int_of n v → asks_for opts (opt_receive_buffer_size v)
| asks_linger t v :
    linger_timeout opts = Some t → int_of (Z.quot t 1000) v → asks_for opts (opt_linger true v).

(** The requests as a list, in the order in which they are made. *)
Definition requested_options (opts : TcpOptions) : list socket_option :=
  (if nodelay opts then [opt_no_delay true] else []) ++
  (if bool_decide (is_Some (keepalive_idle opts) ∨ is_Some (keepalive_interval opts) ∨
                   is_Some (keepalive_count opts)) then [opt_keep_alive true] else []) ++
  match send_buf_size opts with Some n => [opt_send_buffer_size (wrap_i32 n)] | None => [] end ++
  match recv_buf_size opts with Some n => [opt_receive_buffer_size (wrap_i32 n)] | None => [] end ++
  match linger_timeout opts with Some t => [opt_linger true (wrap_i32 (Z.quot t 1000))] | None => [] end.

(** Sets options one after the other up to the first that fails. *)
Fixpoint set_options {W : Type} `{A : Asio W} `{AC : !AsioConnect W} (sock : stream W)
    (os : list socket_option) (w : W) : bool * W :=
  match os with
  | [] => (true, w)
  | o :: os =>
      let '(ec, w') := set_option sock o w in
      if ec_bool ec then (false, w') else set_options sock os w'
  end.

(** The system has refused to set an option of the socket, just before [w]. *)
Definition refused {W : Type} `{A : Asio W} `{AC : !AsioConnect W} (sock : stream W)
    (o : socket_option) (w : W) : Prop :=
  ∃ w0 ec, set_option sock o w0 = (ec, w) ∧ ec_bool ec = true.

(** The same options with session tickets enabled or not. *)
Definition with_session_tickets (b : bool) (opts : TlsOptions) : TlsOptions :=
  {| min_version := min_version opts; max_version := max_version opts;
     cipher_suites := cipher_suites opts; ecdh_curves := ecdh_curves opts;
     enable_session_tickets := b; ticket_lifetime := ticket_lifetime opts;
     restrict_cipher_on_resume := restrict_cipher_on_resume opts;
     verify_peer := verify_peer opts; verify_depth := verify_depth opts;
     handshake_timeout_ms := handshake_timeout_ms opts |}.

(** ** Lemmas *)

(** Which requests there are does not depend on their order. *)
Lemma int_of_wrap z v : int_of z v ↔ v = wrap_i32 z.
Proof.
  unfold int_of, wrap_i32. split.
  - intros [Hr Hm]. pose proof (Z.mod_pos_bound (z + 2 ^ 31) (2 ^ 32)).
    assert ((v + 2 ^ 31) `mod` 2 ^ 32 = (z + 2 ^ 31) `mod` 2 ^ 32) as E
      by by rewrite <- Zplus_mod_idemp_l, Hm, Zplus_mod_idemp_l.
    rewrite Z.mod_small in E by lia. lia.
  - intros ->. split; [pose proof (Z.mod_pos_bound (z + 2 ^ 31) (2 ^ 32)); lia|].
    by rewrite Zminus_mod_idemp_l, Z.add_simpl_r.
Qed.

Lemma requested_asked opts o : o ∈ requested_options opts ↔ asks_for opts o.
Proof.
  unfold requested_options. rewrite !elem_of_app. split.
  - intros [H|[H|[H|[H|H]]]].
    + destruct (nodelay opts) eqn:E; [|by apply not_elem_of_nil in H].
      apply list_elem_of_singleton in H as ->. by constructor.
    + case_bool_decide as E; [|by apply not_elem_of_nil in H].
      apply list_elem_of_singleton in H as ->. destruct E as [[t E]|[[t E]|[t E]]];
        apply (asks_keep_alive opts t); rewrite E; set_solver.
    + destruct (send_buf_size opts) as [n|] eqn:E; [|by apply not_elem_of_nil in H].
      apply list_elem_of_singleton in H as ->. econstructor; [exact E|by apply int_of_wrap].
    + destruct (recv_buf_size opts) as [n|] eqn:E; [|by apply not_elem_of_nil in H].
      apply list_elem_of_singleton in H as ->. econstructor; [exact E|by apply int_of_wrap].
    + destruct (linger_timeout opts) as [n|] eqn:E; [|by apply not_elem_of_nil in H].
      apply list_elem_of_singleton in H as ->. econstructor; [exact E|by apply int_of_wrap].
  - destruct 1 as [E|t E|n v E Hv%int_of_wrap|n v E Hv%int_of_wrap|n v E Hv%int_of_wrap];
      [rewrite E| |subst v; rewrite E..]; try set_solver.
    right. left. rewrite bool_decide_true; [set_solver|].
    rewrite !elem_of_cons, elem_of_nil in E. destruct E as [<-|[<-|[<-|[]]]]; naive_solver.
Qed.

Lemma requested_once opts : NoDup (option_of <$> requested_options opts).
Proof.
  unfold requested_options. case_bool_decide;
    destruct (nodelay opts), (send_buf_size opts), (recv_buf_size opts), (linger_timeout opts);
    simpl; apply (bool_decide_eq_true_1 _); reflexivity.
Qed.

(** Where every option is asked for once, it ends as it was asked for, or as it was. *)
Lemma set_options_settings {W : Type} `{SS : SocketSettings W} sock os w :
  NoDup (option_of <$> os) →
  let '(ok, w') := set_options sock os w in
  (∀ o, o ∈ os → setting sock (option_of o) w' = Some o ∨
     ok = false ∧ setting sock (option_of o) w' = setting sock (option_of o) w) ∧
  (∀ x n, x ≠ sock ∨ n ∉ option_of <$> os → setting x n w' = setting x n w).
Proof.
  revert w. induction os as [|o os IH]; intros w; simpl; [by split; [set_solver|]|].
  intros [Hnew Hrest]%NoDup_cons.
  pose proof (set_option_accepted sock o w) as Hacc. pose proof (set_option_refused sock o w) as Href.
  pose proof (set_option_other sock o w) as Hother.
  destruct (set_option sock o w) as [ec w1]. simpl in *. destruct (ec_bool ec).
  - split; [|by auto]. intros o' _. right. by rewrite Href.
  - specialize (IH w1 Hrest). destruct (set_options sock os w1) as [ok w2]. destruct IH as [H1 H2]. split.
    + intros o' [->|Ho']%elem_of_cons; [left; rewrite H2 by (by right); by apply Hacc|].
      assert (option_of o' ≠ option_of o) as Hne.
      { intros E. apply Hnew. rewrite <- E. by apply list_elem_of_fmap_2. }
      destruct (H1 o' Ho') as [?|[? E]]; [by left|right]. by rewrite E, Hother by (by right).
    + intros x n Hx. rewrite H2 by set_solver. apply Hother. set_solver.
Qed.

Lemma set_options_refused {W : Type} `{A : Asio W} `{AC : !AsioConnect W} sock os (w w' : W) :
  set_options sock os w = (false, w') → ∃ o, o ∈ os ∧ refused sock o w'.
Proof.
  revert w. induction os as [|o os IH]; intros w; simpl; [done|].
  destruct (set_option sock o w) as [ec w1] eqn:E. destruct (ec_bool ec) eqn:Hec.
  - intros [= <-]. exists o. split; [by left|]. by exists w, ec.
  - intros (o' & Ho' & Hr)%IH. exists o'. split; [by right|done].
Qed.

Section client_lemmas.
Context {W : Type} `{CS : AsioConnectSpec W}.
Implicit Types w : W.

(** Options as a list. *)
Definition apply_options (sock : stream W) (os : list socket_option) : M W (result unit) := λ w,
  let '(ok, w') := set_options sock os w in
  (Done (if ok then Ok tt else Unexpected (make_error_code OPTION_ERROR)), w').

Lemma set_options_app sock os1 os2 w :
  set_options sock (os1 ++ os2) w =
    let '(ok, w') := set_options sock os1 w in if ok then set_options sock os2 w' else (false, w').
Proof.
  revert w. induction os1 as [|o os1 IH]; intros w; simpl; [done|].
  destruct (set_option sock o w) as [ec w']. by destruct (ec_bool ec).
Qed.

(** Setting [os1] first, then running code that sets [os2]. *)
Lemma apply_options_app sock os1 os2 (m1 m2 : M W (result unit)) :
  (∀ w, m1 w = apply_options sock os1 w) → (∀ w, m2 w = apply_options sock os2 w) →
  ∀ w, bind_expected m1 (λ _, m2) w = apply_options sock (os1 ++ os2) w.
Proof.
  intros H1 H2 w. unfold bind_expected, mbind, M_bind. rewrite H1. unfold apply_options.
  rewrite set_options_app. destruct (set_options sock os1 w) as [[] w']; [|done].
  by rewrite H2.
Qed.

Lemma set_socket_option_list sock o w :
  set_socket_option sock o w = apply_options sock [o] w.
Proof.
  unfold set_socket_option, run, mbind, M_bind, apply_options; simpl.
  destruct (set_option sock o w) as [ec w']. by destruct (ec_bool ec).
Qed.

Lemma when_list sock b o w :
  when b (set_socket_option sock o) w = apply_options sock (if b then [o] else []) w.
Proof. destruct b; [apply set_socket_option_list|done]. Qed.

Lemma applyPreConnectTcpOptions_list sock opts w :
  applyPreConnectTcpOptions sock opts w = apply_options sock (requested_options opts) w.
Proof.
  unfold applyPreConnectTcpOptions, requested_options.
  apply apply_options_app; [intros ?; apply when_list|clear w].
  apply apply_options_app; [intros ?; rewrite when_list|].
  { do 2 f_equal. rewrite !bool_decide_or.
    by destruct (keepalive_idle opts), (keepalive_interval opts), (keepalive_count opts). }
  apply apply_options_app; [intros ?; destruct (send_buf_size opts); [apply set_socket_option_list|done]|].
  apply apply_options_app; [intros ?; destruct (recv_buf_size opts); [apply set_socket_option_list|done]|].
  intros ?. destruct (linger_timeout opts); [apply set_socket_option_list|done].
Qed.

Lemma set_options_opens sock os w x :
  is_open x (set_options sock os w).2 = is_open x w.
Proof.
  revert w. induction os as [|o os IH]; intros w; simpl; [done|].
  pose proof (option_opens sock o w x) as Ho. destruct (set_option sock o w) as [ec w']. simpl in Ho.
  destruct (ec_bool ec); simpl; [done|]. by rewrite IH.
Qed.

(** Code that leaves every stream as it is. *)
Definition same_opens (w w' : W) : Prop := ∀ x, is_open x w' = is_open x w.

Lemma same_only_opens h w w' : same_opens w w' → only_opens h w w'.
Proof. intros Hs x Hx. left. by rewrite <- Hs. Qed.

Lemma options_outcome sock opts w :
  wp (applyPreConnectTcpOptions sock opts) (λ r w', same_opens w w' ∧
    ∀ e, r = Unexpected e → e ∈ connect_errors) w.
Proof.
  unfold wp. rewrite applyPreConnectTcpOptions_list. unfold apply_options.
  pose proof (set_options_opens sock (requested_options opts) w) as Hs.
  destruct (set_options _ _ w) as [[] w']; split; try done.
  intros e [= <-]. unfold connect_errors. set_solver.
Qed.

Lemma resolve_outcome c w :
  wp (resolve c) (λ r w', only_opens None w w' ∧ ∀ e, r = Unexpected e → e ∈ connect_errors) w.
Proof.
  unfold resolve, run. wp_step. unfold wp at 1.
  destruct (async_resolve _ _ w) as [[ec eps] w'] eqn:Hr. apply resolve_opens in Hr.
  destruct (ec_bool ec) eqn:Hec; wp_steps; split; try done.
  intros e [= <-]. unfold makeDnsError. rewrite Hec. simpl.
  destruct (isDnsError ec); unfold connect_errors; set_solver.
Qed.

Lemma connect_within_outcome sock eps t w :
  wp (connect_within sock eps t) (λ r w', only_opens (Some sock) w w' ∧
    (r = Ok tt → is_open sock w' = true) ∧ ∀ e, r = Unexpected e → e ∈ connect_errors) w.
Proof.
  unfold connect_within, run. wp_step. unfold wp at 1.
  destruct (connect_or_timer _ _ _ w) as [[first ec] w'] eqn:Hr.
  apply connect_opens in Hr as [Ho Hok].
  case_bool_decide as Hf; wp_steps.
  { split_and!; try done. intros e [= <-]. unfold connect_errors. set_solver. }
  destruct (ec_bool ec) eqn:Hec; wp_steps; split_and!; try done.
  - intros e [= <-]. unfold makeConnectionError. rewrite Hec. simpl. unfold connect_errors.
    destruct (isTimeout ec); [set_solver|]. destruct (isConnectionRefused ec); [set_solver|].
    destruct (isConnectionClosed ec); set_solver.
  - intros _. by apply Hok.
Qed.

Lemma make_socket_outcome cls sock w :
  wp (make_socket cls sock) (λ k w', same_opens w w' ∧
    s_class k = cls ∧ s_buf k = [] ∧ s_stream k = sock) w.
Proof.
  unfold make_socket. wp_steps. split_and!; try done. intros x. apply counter_opens.
Qed.

(** The destructor of the local socket undoes what was opened. *)
Lemma or_destroy_outcome {B} sock (m : M W (result B)) (Q : result B → W → Prop) w w0 :
  only_opens None w0 w →
  wp m (λ r w', only_opens (Some sock) w w' ∧
    match r with
    | Ok _ => Q r w'
    | Unexpected _ => ∀ w'', only_opens None w0 w'' → Q r w''
    end) w →
  wp (or_destroy sock m) Q w.
Proof.
  intros Hw Hm. unfold or_destroy. wp_step. eapply wp_mono; [exact Hm|]. simpl.
  intros [b|e] w' [Ho HQ]; wp_steps; [done|]. apply HQ.
  intros x Hx. apply destroy_opens in Hx as [Hx Hne]. left.
  destruct (Ho x Hx) as [Hx'|[= ->]]; [|done]. by destruct (Hw x Hx').
Qed.

Lemma asyncConnect_outcome c t opts w :
  wp (asyncConnect c t opts) (connected_or_clean TcpSocketClass connect_errors w) w.
Proof.
  unfold asyncConnect. wp_step. eapply wp_mono; [apply resolve_outcome|]. simpl.
  intros [eps|e] w1 [Ho1 He1]; [|by split; [apply He1|]].
  wp_step. unfold wp at 1, run. destruct (new_tcp_socket w1) as [sock w2] eqn:Hn.
  apply new_socket_opens in Hn. assert (only_opens None w w2) as Ho2 by by eapply only_opens_trans.
  apply (or_destroy_outcome _ _ _ _ w); [done|]. wp_step.
  eapply wp_mono; [apply connect_within_outcome|]. simpl.
  intros [[]|e] w3 (Ho3 & Hopen & He3); [|by split; [|intros w'' Hw''; split; [apply He3|]]].
  wp_step. eapply wp_mono; [apply options_outcome|]. simpl.
  intros [[]|e] w4 [Hs4 He4].
  2: { split; [by eapply only_opens_trans; [exact Ho3|apply same_only_opens]|].
       intros w'' Hw''. split; [by apply He4|done]. }
  wp_step. eapply wp_mono; [apply make_socket_outcome|]. simpl.
  intros k w5 (Hs5 & Hcls & Hbuf & Hstr). wp_steps.
  assert (only_opens (Some sock) w2 w5) as Ho5.
  { eapply only_opens_trans; [exact Ho3|]. apply same_only_opens. intros x. by rewrite Hs5, Hs4. }
  split; [done|]. unfold connected_or_clean. rewrite Hstr. split_and!; [done|done| |].
  - rewrite Hs5, Hs4. by apply Hopen.
  - eapply only_opens_trans; [by apply only_opens_weaken|exact Ho5].
Qed.

(** The blocking wrapper adds one error, for an executor that drops the coroutine. *)
Lemma blocking_outcome cls errors (m : M W (result (socket W))) w :
  make_error_code READ_FAILED ∈ errors →
  wp m (connected_or_clean cls errors w) w → wp (blocking m) (connected_or_clean cls errors w) w.
Proof.
  intros Hin Hm. unfold wp, blocking in *. destruct (pool_runs w).
  - by destruct (m w) as [[] ?].
  - rewrite makeReadError_canceled. split; [done|apply only_opens_refl].
Qed.
End client_lemmas.

Section client_tls_lemmas.
Context {W : Type} `{CS : AsioConnectSpec W} `{OS : !OpenSsl W} `{AT : !AsioTls W}.
Context `{TS : !AsioTlsSpec W}.
Implicit Types w : W.

Lemma same_opens_trans w1 w2 w3 : same_opens w1 w2 → same_opens w2 w3 → same_opens w1 w3.
Proof. intros H1 H2 x. by rewrite H2. Qed.

Lemma create_context_outcome opts w :
  wp (createTlsContextWrapper opts None) (λ r w', same_opens w w' ∧ has_value r = true) w.
Proof.
  unfold createTlsContextWrapper. wp_step. eapply wp_mono; [apply Private_new_ctx_only|]. simpl.
  intros c w' Hs. wp_steps. split; [|done].
  induction Hs as [w|w1 w2 w3 Hstep _ IH]; [done|].
  eapply same_opens_trans; [|exact IH]. intros x. by apply ctx_opens.
Qed.

(** Setting a list of names touches no stream and yields the code so far or an option
    error. *)
Lemma set_list_outcome f names ec w :
  (∀ s w x, is_open x (f s w).2 = is_open x w) → ec = ec_none ∨ ec = make_error_code OPTION_ERROR →
  wp (set_list f names ec) (λ ec' w', same_opens w w' ∧
    (ec' = ec_none ∨ ec' = make_error_code OPTION_ERROR)) w.
Proof.
  intros Hf Hec. unfold set_list. case_bool_decide; wp_steps; [done|].
  unfold wp at 1, run. pose proof (Hf (c_str (colon_list names)) w) as Hs.
  destruct (f _ w) as [ret w']. simpl in Hs. case_bool_decide; wp_steps; by auto.
Qed.

Lemma tls_options_outcome h opts w :
  wp (applyPreConnectTlsOptions h opts) (λ ec w', same_opens w w' ∧
    (ec = ec_none ∨ ec = make_error_code OPTION_ERROR)) w.
Proof.
  unfold applyPreConnectTlsOptions. wp_steps.
  destruct (native_handle h w); cbn [negb]; wp_steps; [|by split; [intros x|right]].
  eapply wp_mono; [apply set_list_outcome; [intros; apply ciphers_opens|by left]|]. simpl.
  intros ec1 w1 [Hs1 Hec1]. wp_step.
  eapply wp_mono; [apply set_list_outcome; [intros; apply curves_opens|done]|]. simpl.
  intros ec2 w2 [Hs2 Hec2]. wp_steps.
  destruct (enable_session_tickets opts); cbn [negb]; wp_steps; (split; [|done]); intros x;
    by rewrite ?clear_opens, ?set_opens, depth_opens, mode_opens, Hs2, Hs1.
Qed.

Lemma handshake_outcome h opts w :
  wp (handshake_within h opts) (λ r w', only_opens None w w' ∧
    (r = Ok tt → is_open h w' = is_open h w) ∧ ∀ e, r = Unexpected e → e ∈ connect_tls_errors) w.
Proof.
  unfold handshake_within, run. wp_step. unfold wp at 1.
  destruct (async_handshake _ _ w) as [[ec b] w'] eqn:Hr. apply handshake_opens in Hr as [Ho Hok].
  destruct (_ && _); wp_steps.
  { split_and!; try done. intros e [= <-]. unfold connect_tls_errors, connect_errors. set_solver. }
  destruct (ec_bool ec) eqn:Hec; wp_steps; split_and!; try done.
  - intros e [= <-]. unfold makeTlsError. rewrite Hec. simpl. unfold connect_tls_errors. set_solver.
  - intros _. by apply Hok.
Qed.

Lemma connect_errors_tls e : e ∈ connect_errors → e ∈ connect_tls_errors.
Proof. intros He. by apply list_elem_of_further. Qed.

(** The second half: from the open stream to the TLS socket. *)
Lemma secure_outcome h opts w w0 :
  only_opens (Some h) w0 w → is_open h w = true →
  wp (or_destroy h (
    tls_ec ← applyPreConnectTlsOptions h opts;
    if ec_bool tls_ec then mret (Unexpected tls_ec)
    else _ ←? handshake_within h opts; k ← make_socket TlsSocketClass h; mret (Ok k)))
    (connected_or_clean TlsSocketClass connect_tls_errors w0) w.
Proof.
  intros Hw Hopen. unfold or_destroy. do 2 wp_step.
  assert (Hfail : ∀ e w', e ∈ connect_tls_errors → only_opens None w w' →
    wp (modify (destroy_stream h);; mret (Unexpected e))
      (connected_or_clean TlsSocketClass connect_tls_errors w0) w').
  { intros e w' He Ho. wp_steps. split; [done|]. intros x [Hx Hne]%destroy_opens.
    destruct (Ho x Hx) as [Hx'|]; [|done]. destruct (Hw x Hx') as [?|[= ->]]; [by left|done]. }
  eapply wp_mono; [apply tls_options_outcome|]. simpl. intros ec w1 [Hs1 Hec].
  destruct (ec_bool ec) eqn:Hb; wp_steps.
  { apply Hfail; [|by apply same_only_opens]. destruct Hec as [->| ->]; [done|].
    unfold connect_tls_errors, connect_errors. set_solver. }
  eapply wp_mono; [apply handshake_outcome|]. simpl. intros [[]|e] w2 (Ho2 & Hok2 & He2).
  2: { apply Hfail; [by apply He2|]. eapply only_opens_trans; [by apply same_only_opens|done]. }
  wp_step. eapply wp_mono; [apply make_socket_outcome|]. simpl.
  intros k w3 (Hs3 & Hcls & Hbuf & Hstr). wp_steps. unfold connected_or_clean. rewrite Hstr.
  split_and!; [done|done| |].
  - by rewrite Hs3, Hok2, Hs1.
  - eapply only_opens_trans; [exact Hw|]. eapply only_opens_trans; [by apply same_only_opens|].
    eapply only_opens_trans; [by apply only_opens_weaken|by apply same_only_opens].
Qed.

Lemma asyncConnectTls_outcome c t opts tls_opts w :
  wp (asyncConnectTls c t opts tls_opts) (connected_or_clean TlsSocketClass connect_tls_errors w) w.
Proof.
  unfold asyncConnectTls. wp_step. eapply wp_mono; [apply resolve_outcome|]. simpl.
  intros [eps|e] w1 [Ho1 He1]; [|by split; [apply connect_errors_tls, He1|]].
  wp_step. unfold wp at 1, run. destruct (new_tcp_socket w1) as [sock w2] eqn:Hn.
  apply new_socket_opens in Hn. assert (only_opens None w w2) as Ho2 by by eapply only_opens_trans.
  wp_step. apply (or_destroy_outcome _ _ _ _ w); [done|]. wp_step.
  eapply wp_mono; [apply connect_within_outcome|]. simpl.
  intros [[]|e] w3 (Ho3 & Hopen & He3).
  2: { split; [done|]. intros w'' Hw''. by split; [apply connect_errors_tls, He3|]. }
  wp_step. eapply wp_mono; [apply options_outcome|]. simpl.
  intros [[]|e] w4 [Hs4 He4].
  2: { split; [by eapply only_opens_trans; [exact Ho3|apply same_only_opens]|].
       intros w'' Hw''. split; [by apply connect_errors_tls, He4|done]. }
  eapply wp_mono; [apply create_context_outcome|]. simpl. intros [ctx|e] w5 [Hs5 Hv]; [|done].
  assert (only_opens (Some sock) w2 w5) as Ho5.
  { eapply only_opens_trans; [exact Ho3|]. apply same_only_opens. intros x. by rewrite Hs5, Hs4. }
  split; [done|]. wp_step. unfold wp at 1. destruct (ssl_stream_new sock ctx w5) as [h w6] eqn:Hssl.
  apply ssl_stream_opens in Hssl as [Hh Hx]. apply secure_outcome.
  - intros x [->|[Hx5 Hne]]%Hx; [by right|]. left.
    destruct (Ho5 x Hx5) as [Hx2|[= ->]]; [|done]. by destruct (Ho2 x Hx2).
  - rewrite Hh, Hs5, Hs4. by apply Hopen.
Qed.

#[export] Program Instance Client_ClientSpec : ClientSpec client W.
Next Obligation.
  intros. apply blocking_outcome; [unfold connect_errors; set_solver|apply asyncConnect_outcome].
Qed.
Next Obligation.
  intros. apply blocking_outcome; [|apply asyncConnectTls_outcome].
  unfold connect_tls_errors, connect_errors. set_solver.
Qed.
Next Obligation. intros. apply asyncConnect_outcome. Qed.
Next Obligation. intros. apply asyncConnectTls_outcome. Qed.
End client_tls_lemmas.

(** ** Correctness *)

(** C28: connecting always ends, blocking or as a coroutine: with a new socket that is
    open, has an empty read buffer and is the only thing that was opened, or with one
    of the documented errors, and then nothing that was opened on the way is left
    open, neither without TLS nor after a failed handshake. *)
Theorem connect_correct {W : Type} `{CS : AsioConnectSpec W} `{OS : !OpenSsl W} `{AT : !AsioTls W}
    `{TS : !AsioTlsSpec W} c timeout tcp_opts tls_opts (w : W) :
  wp (asyncConnect c timeout tcp_opts) (connected_or_clean TcpSocketClass connect_errors w) w ∧
  wp (connect c timeout tcp_opts) (connected_or_clean TcpSocketClass connect_errors w) w ∧
  wp (asyncConnectTls c timeout tcp_opts tls_opts)
    (connected_or_clean TlsSocketClass connect_tls_errors w) w ∧
  wp (connectTls c timeout tcp_opts tls_opts)
    (connected_or_clean TlsSocketClass connect_tls_errors w) w.
Proof.
  exact (conj (asyncConnect_spec c timeout tcp_opts w) (conj (connect_spec c timeout tcp_opts w)
    (conj (asyncConnectTls_spec c timeout tcp_opts tls_opts w)
      (connectTls_spec c timeout tcp_opts tls_opts w)))).
Qed.

(** C39: the options of a TCP socket, a client's or an accepted one: on success every
    option that is asked for is set to the value that was asked for, whatever the order,
    and every other option, and every other socket, is as it was; it fails only when the
    system has just refused one of these options, with OPTION_ERROR, and leaves each of
    them either as it was or as it was asked for. Asked for are the two buffer sizes and
    the linger time in whole seconds, converted to an int, no delay, and keepalive,
    which is switched on when any of its three values is given: the values themselves,
    and the reuse of address and port, have no effect on the socket. *)
Theorem tcp_options_correct {W : Type} `{A : Asio W} `{AC : !AsioConnect W} `{SS : !SocketSettings W}
    sock opts (w : W) :
  wp (applyPreConnectTcpOptions sock opts) (λ r w',
    match r with
    | Ok _ => ∀ o, asks_for opts o → setting sock (option_of o) w' = Some o
    | Unexpected e => e = make_error_code OPTION_ERROR ∧ (∃ o, asks_for opts o ∧ refused sock o w') ∧
        ∀ o, asks_for opts o → setting sock (option_of o) w' = Some o ∨
          setting sock (option_of o) w' = setting sock (option_of o) w
    end ∧
    ∀ x n, x ≠ sock ∨ (∀ o, asks_for opts o → option_of o ≠ n) → setting x n w' = setting x n w) w.
Proof.
  unfold wp. rewrite applyPreConnectTcpOptions_list. unfold apply_options.
  pose proof (set_options_settings sock (requested_options opts) w (requested_once opts)) as Hs.
  destruct (set_options _ _ w) as [ok w'] eqn:E. destruct Hs as [H1 H2]. split.
  - destruct ok; [|split_and!; [done| |]]; [intros o Ho%requested_asked| |intros o Ho%requested_asked].
    + by destruct (H1 o Ho) as [?|[? ?]].
    + apply set_options_refused in E as (o & Ho%requested_asked & Hr). by exists o.
    + destruct (H1 o Ho) as [?|[? ?]]; by auto.
  - intros x n [Hx|Hn]; apply H2; [by left|right]. intros (o & -> & Ho)%list_elem_of_fmap.
    apply requested_asked in Ho. by eapply Hn.
Qed.

(** The option for session tickets has no effect: whichever way it is set, the
    same calls take effect on the stream. *)
Theorem session_tickets_ignored {W : Type} `{CS : AsioConnectSpec W} `{OS : !OpenSsl W}
    `{AT : !AsioTls W} `{TS : !AsioTlsSpec W} h opts b (w : W) :
  applyPreConnectTlsOptions h (with_session_tickets b opts) w = applyPreConnectTlsOptions h opts w.
Proof.
  unfold applyPreConnectTlsOptions, with_session_tickets. cbn [cipher_suites ecdh_curves
    enable_session_tickets verify_peer verify_depth].
  unfold mbind, M_bind, gets. destruct (native_handle h w); simpl; [|done].
  destruct (set_list _ (cipher_suites opts) _ w) as [[ec1| | |] w1]; [|done..].
  destruct (set_list _ (ecdh_curves opts) _ w1) as [[ec2| | |] w2]; [|done..]. simpl.
  destruct b, (enable_session_tickets opts); simpl; unfold mbind, M_bind; simpl;
    by rewrite ?clear_set.
Qed.

(** ** A concrete network

    Streams are numbers, a set of which is open; the network reaches its endpoints or
    does not, and the peer speaks TLS or does not; one set of option flags stands for
    those of the OpenSSL objects; the options of the streams that were accepted are kept;
    the acceptor of a server is open or not; all streams share one line to the peer; and
    the program keeps a counter. It shows that the laws can hold. *)
Record dial_net := DialNet {
  dn_open : gset nat;
  dn_next : nat;
  dn_ids : Z;
  dn_reach : bool;
  dn_tls : bool;
  dn_flags : list ssl_op;
  dn_acceptor : bool;
  dn_line : mem_net;
  dn_app : nat;
  dn_options : list (nat * socket_option)
}.

Definition dn_set_open (X : gset nat) (w : dial_net) : dial_net :=
  DialNet X (dn_next w) (dn_ids w) (dn_reach w) (dn_tls w) (dn_flags w) (dn_acceptor w)
    (dn_line w) (dn_app w) (dn_options w).
Definition dn_set_flags (l : list ssl_op) (w : dial_net) : dial_net :=
  DialNet (dn_open w) (dn_next w) (dn_ids w) (dn_reach w) (dn_tls w) l (dn_acceptor w)
    (dn_line w) (dn_app w) (dn_options w).
Definition dn_set_line (l : mem_net) (w : dial_net) : dial_net :=
  DialNet (dn_open w) (dn_next w) (dn_ids w) (dn_reach w) (dn_tls w) (dn_flags w) (dn_acceptor w)
    l (dn_app w) (dn_options w).
Definition dn_set_option (h : nat) (o : socket_option) (w : dial_net) : dial_net :=
  DialNet (dn_open w) (dn_next w) (dn_ids w) (dn_reach w) (dn_tls w) (dn_flags w) (dn_acceptor w)
    (dn_line w) (dn_app w) ((h, o) :: dn_options w).

#[export] Instance dial_Asio : Asio dial_net := {|
  stream := nat;
  is_open := λ h w, bool_decide (h ∈ dn_open w);
  executor_runs := λ _ _, true;
  async_read_some := λ _ n t w, let '(c, l) := mem_read tt n t (dn_line w) in (c, dn_set_line l w);
  async_write := λ _ b t w, let '(c, l) := mem_write tt b t (dn_line w) in (c, dn_set_line l w);
  shutdown_send := λ _ w, w;
  close := λ h w, dn_set_open (dn_open w ∖ {[h]}) w;
  cancel := λ _ w, w;
  emit_cancel_signal := λ _ w, w;
  dyn_prepare := λ v n, v ++ replicate n Byte.x00;
  dyn_commit := λ v size k, take (size + k `min` (length v - size)) v
|}.

(** The system refuses buffers of a negative size. *)
Definition negative_size (o : socket_option) : bool :=
  match o with
  | opt_send_buffer_size n | opt_receive_buffer_size n => bool_decide (n < 0)
  | _ => false
  end.

#[export] Instance dial_AsioConnect : AsioConnect dial_net := {|
  endpoints := unit;
  pool_runs := λ _, true;
  async_resolve := λ _ _ w, (ec_none, tt, w);
  new_tcp_socket := λ w,
    (dn_next w, DialNet (dn_open w) (S (dn_next w)) (dn_ids w) (dn_reach w) (dn_tls w) (dn_flags w)
    (dn_acceptor w) (dn_line w) (dn_app w) (dn_options w));
  connect_or_timer := λ h _ _ w,
    if dn_reach w then (0%nat, ec_none, dn_set_open ({[h]} ∪ dn_open w) w)
    else (1%nat, linux_asio_error operation_aborted, w);
  set_option := λ h o w,
    if negative_size o then (ErrorCode 22 cat_system, w) else (ec_none, dn_set_option h o w);
  destroy_stream := λ h w, dn_set_open (dn_open w ∖ {[h]}) w
|}.

#[export] Instance dial_SocketIds : SocketIds dial_net := {|
  id_counter := dn_ids;
  set_id_counter := λ n w,
    DialNet (dn_open w) (dn_next w) n (dn_reach w) (dn_tls w) (dn_flags w) (dn_acceptor w)
    (dn_line w) (dn_app w) (dn_options w)
|}.

#[export] Instance dial_OpenSsl : OpenSsl dial_net := {|
  ssl_ctx := unit;
  context_new := λ _ w, (tt, w);
  context_set_options := λ _ _ w, w;
  SSL_CTX_set_cipher_list := λ _ _ w, (1, w);
  SSL_CTX_set1_curves_list := λ _ _ w, (1, w);
  SSL_CTX_set_timeout := λ _ _ w, w;
  context_set_verify_mode := λ _ _ w, (ec_none, w);
  context_set_verify_depth := λ _ _ w, w;
  context_set_default_verify_paths := λ _ w, (ec_none, w);
  use_certificate_chain_file := λ _ _ w, (ec_none, w);
  use_private_key_file := λ _ _ w, (ec_none, w);
  ctx_references := λ _ _, 1%nat;
  SSL_CTX_free := λ _ w, w;
  file_exists := λ _ _, true
|}.

#[export] Instance dial_AsioTls : AsioTls dial_net := {|
  ssl_stream_new := λ h _ w, (h, w);
  native_handle := λ _ _, true;
  SSL_set_cipher_list := λ _ _ w, (1, w);
  SSL_set1_curves_list := λ _ _ w, (1, w);
  stream_set_verify_mode := λ _ _ w, w;
  stream_set_verify_depth := λ _ _ w, w;
  SSL_set_options := λ _ ops w, dn_set_flags (ops ++ dn_flags w) w;
  SSL_clear_options := λ _ ops w, dn_set_flags (filter (.∉ ops) (dn_flags w)) w;
  async_handshake := λ _ _ w,
    if dn_tls w then (ec_none, false, w) else (linux_asio_error operation_aborted, true, w)
|}.

#[export] Program Instance dial_AsioConnectSpec : AsioConnectSpec dial_net.
Next Obligation. intros h p w r w'. simpl. intros [= <- <-]. apply only_opens_refl. Qed.
Next Obligation. intros w h w'. simpl. intros [= <- <-]. by left. Qed.
Next Obligation.
  intros h eps t w first ec w'. simpl. destruct (dn_reach w); intros [= <- <- <-].
  - split; [|intros _ _; simpl; apply bool_decide_true; set_solver].
    intros x Hx%bool_decide_eq_true. simpl in Hx. apply elem_of_union in Hx as [Hx|Hx].
    + right. by apply elem_of_singleton in Hx as ->.
    + left. by apply bool_decide_true.
  - split; [apply only_opens_refl|done].
Qed.
Next Obligation. intros h o w x. simpl. by destruct (negative_size o). Qed.
Next Obligation.
  intros h w x. simpl. intros Hx%bool_decide_eq_true. rewrite bool_decide_eq_true. set_solver.
Qed.
Next Obligation. done. Qed.

(** What a socket is set to is what was set last. *)
Fixpoint last_option (h : nat) (n : option_name) (l : list (nat * socket_option)) : option socket_option :=
  match l with
  | [] => None
  | (h', o) :: l => if bool_decide (h' = h ∧ option_of o = n) then Some o else last_option h n l
  end.

#[export] Program Instance dial_SocketSettings : SocketSettings dial_net := {|
  setting := λ h n w, last_option h n (dn_options w)
|}.
Next Obligation. intros h o w. simpl. destruct (negative_size o); [done|]. simpl. by rewrite bool_decide_true. Qed.
Next Obligation. intros h o w x n. simpl. by destruct (negative_size o). Qed.
Next Obligation.
  intros h o w x n Hx. simpl. destruct (negative_size o); [done|]. simpl.
  rewrite bool_decide_false; [done|]. naive_solver.
Qed.

#[export] Program Instance dial_AsioTlsSpec : AsioTlsSpec dial_net.
Next Obligation. intros w w' x Hs. by destruct Hs. Qed.
Next Obligation.
  intros h c w h' w'. simpl. intros [= <- <-]. split; [done|]. intros x Hx.
  destruct (decide (x = h)); by auto.
Qed.
Next Obligation. done. Qed.
Next Obligation. done. Qed.
Next Obligation. done. Qed.
Next Obligation. done. Qed.
Next Obligation. done. Qed.
Next Obligation. done. Qed.
Next Obligation.
  intros h ops w. simpl. unfold dn_set_flags. simpl. f_equal. rewrite filter_app.
  assert (∀ l, l ⊆ ops → filter (.∉ ops) l = []) as Hnil; [|by rewrite Hnil].
  induction l as [|o l IH]; intros Hl; [done|].
  rewrite filter_cons_False by set_solver. apply IH. set_solver.
Qed.
Next Obligation.
  intros h t w ec b w'. simpl. destruct (dn_tls w); intros [= <- <- <-];
    split; try done; apply only_opens_refl.
Qed.

#[export] Program Instance dial_AsioSpec : AsioSpec dial_net := {|
  incoming := λ _ w, mn_in (dn_line w);
  outgoing := λ _ w, mn_out (dn_line w);
  healthy := λ h w, h ∈ dn_open w ∧ (0 < mn_mtu (dn_line w))%nat
|}.
Next Obligation.
  simpl. intros h n t w c w'. destruct (mem_read _ _ _ _) as [c' l] eqn:E. intros [= <- <-].
  exact (read_bounded (A := mem_Asio) tt n t (dn_line w) c' l E).
Qed.
Next Obligation.
  simpl. intros h n t w c w'. destruct (mem_read _ _ _ _) as [c' l] eqn:E. intros [= <- <-].
  exact (read_failed_nothing (A := mem_Asio) tt n t (dn_line w) c' l E).
Qed.
Next Obligation.
  simpl. intros h n t w c w'. destruct (mem_read _ _ _ _) as [c' l] eqn:E. intros [= <- <-].
  by destruct (read_in_order (A := mem_Asio) tt n t (dn_line w) c' l E) as (? & ? & _).
Qed.
Next Obligation.
  simpl. intros h n t w c w' Hn. destruct (mem_read _ _ _ _) as [c' l] eqn:E. intros [= <- <-].
  exact (read_ended (A := mem_Asio) tt n t (dn_line w) c' l Hn E).
Qed.
Next Obligation. simpl. intros h b t w c w'. by intros [= <- <-]. Qed.
Next Obligation. simpl. intros h w [Ho _]. by rewrite bool_decide_true. Qed.
Next Obligation.
  simpl. intros h n t w c w' [Ho Hm] Hn Hin. unfold mem_read.
  rewrite bool_decide_false by done. intros [= <- <-]; simpl. split_and!; [done| |done|done].
  destruct (mn_in (dn_line w)); [done|]. destruct n, (mn_mtu (dn_line w)); simpl; lia || done.
Qed.
Next Obligation.
  simpl. intros h b t w c w' [Ho Hm]. intros [= <- <-]; simpl.
  split_and!; [done..|]. exists []. by rewrite app_nil_r.
Qed.
Next Obligation. simpl. intros h w. apply bool_decide_false. set_solver. Qed.
Next Obligation. done. Qed.
Next Obligation. simpl. intros v n. eexists. split; [|done]. by rewrite length_replicate. Qed.
Next Obligation. done. Qed.

(** A network that reaches a peer that speaks TLS, and one whose peer does not. *)
Definition sample_dial (tls : bool) : dial_net := DialNet ∅ 0 0 true tls [SSL_OP_NO_TICKET] false
  (MemNet [] [] 1 true false) 0 [].
Definition sample_client : client := {| host := txt "localhost"; port := 990 |}.

Lemma connect_correct_witness :
  (connectTls sample_client 1000 default_tcp_options default_tls_options (sample_dial true)).1 =
    Done (Ok (Socket 0 TlsSocketClass 0%nat [])) ∧
  (connectTls sample_client 1000 default_tcp_options default_tls_options (sample_dial false)).1 =
    Done (Unexpected (make_error_code CONNECTION_TIMEOUT)) ∧
  wp (connectTls sample_client 1000 default_tcp_options default_tls_options)
    (connected_or_clean TlsSocketClass connect_tls_errors (sample_dial false)) (sample_dial false).
Proof.
  split; [vm_compute; reflexivity|]. split; [vm_compute; reflexivity|].
  exact (proj2 (proj2 (proj2 (connect_correct sample_client 1000 default_tcp_options
    default_tls_options (sample_dial false))))).
Defined.

(** A receive buffer of 4 GiB and one byte is one byte, and one of 2 GiB is refused. *)
Definition buffers (send recv : Z) : TcpOptions :=
  {| reuse_addr := true; reuse_port := true; nodelay := true; keepalive_idle := None;
     keepalive_interval := Some 5; keepalive_count := None; send_buf_size := Some send;
     recv_buf_size := Some recv; linger_timeout := Some 2500 |}.

Lemma tcp_options_correct_witness :
  let w := sample_dial true in
  dn_options (applyPreConnectTcpOptions 0%nat (buffers 512 (2 ^ 32 + 1)) w).2 =
    [(0%nat, opt_linger true 2); (0%nat, opt_receive_buffer_size 1); (0%nat, opt_send_buffer_size 512);
     (0%nat, opt_keep_alive true); (0%nat, opt_no_delay true)] ∧
  (applyPreConnectTcpOptions 0%nat (buffers 512 (2 ^ 31)) w).1 =
    Done (Unexpected (make_error_code OPTION_ERROR)) ∧
  wp (applyPreConnectTcpOptions 0%nat (buffers 512 (2 ^ 32 + 1))) (λ r w',
    match r with
    | Ok _ => ∀ o, asks_for (buffers 512 (2 ^ 32 + 1)) o → setting 0%nat (option_of o) w' = Some o
    | Unexpected e => e = make_error_code OPTION_ERROR ∧
        (∃ o, asks_for (buffers 512 (2 ^ 32 + 1)) o ∧ refused 0%nat o w') ∧
        ∀ o, asks_for (buffers 512 (2 ^ 32 + 1)) o → setting 0%nat (option_of o) w' = Some o ∨
          setting 0%nat (option_of o) w' = setting 0%nat (option_of o) w
    end ∧
    ∀ (x : nat) n, x ≠ 0%nat ∨ (∀ o, asks_for (buffers 512 (2 ^ 32 + 1)) o → option_of o ≠ n) →
      setting x n w' = setting x n w) w.
Proof.
  intros w. split; [vm_compute; reflexivity|]. split; [vm_compute; reflexivity|].
  exact (tcp_options_correct 0%nat (buffers 512 (2 ^ 32 + 1)) w).
Defined.

Lemma session_tickets_ignored_witness :
  applyPreConnectTlsOptions 0%nat (with_session_tickets false default_tls_options)
    (sample_dial true) =
  applyPreConnectTlsOptions 0%nat default_tls_options (sample_dial true).
Proof. exact (session_tickets_ignored 0%nat default_tls_options false (sample_dial true)). Defined.
