(* ===== verification/SocketResources.v ===== *)
(** The streams that are open because of a socket: no operation on a socket opens another
    stream, and destroying it closes its own. *)

From S2P Require Import Prelude ErrorCodes ErrorTranslation FsPath Options TlsContext SocketBase Socket.
From S2P Require Import Client.

(** ** What is documented of ASIO besides *)

(** The operations on a stream open nothing, and cancelling sends nothing. *)
Class AsioQuiet (W : Type) `{SP : AsioSpec W} := {
  read_opens h n t w : only_opens None w (async_read_some h n t w).2;
  write_opens h b t w : only_opens None w (async_write h b t w).2;
  shutdown_opens h w : only_opens None w (shutdown_send h w);
  close_opens h w : only_opens None w (close h w);
  cancel_opens h w : only_opens None w (cancel h w);
  signal_opens h w : only_opens None w (emit_cancel_signal h w);
  cancel_sends_nothing h w : outgoing h (cancel h w) = outgoing h w;
  signal_sends_nothing h w : outgoing h (emit_cancel_signal h w) = outgoing h w
}.

(** ** Sockets that open nothing *)

Section tame.
Context {W : Type} `{Q : AsioQuiet W}.

(** An operation on a socket keeps its stream and opens none. *)
Definition tame (s s' : st W) : Prop :=
  s_stream s'.1 = s_stream s.1 ∧ only_opens None s.2 s'.2.

#[export] Instance tame_preorder : PreOrder tame.
Proof.
  split; [intros s; split; [done|apply only_opens_refl]|].
  intros s1 s2 s3 [H1 H2] [H3 H4]. split; [by rewrite H3|by eapply only_opens_trans].
Qed.

#[export] Instance tame_invariant fuel : SocketInvariant (H := socket_DualSocket fuel) tame.
Proof.
  apply socket_call_steps; [apply _|..].
  - intros b s. split; [done|apply only_opens_refl].
  - intros n t s. split; [done|apply read_opens].
  - intros b t s. split; [done|apply write_opens].
  - intros s. split_and!; (split; [done|]);
      [apply shutdown_opens|apply close_opens|apply cancel_opens|apply signal_opens].
Qed.

(** Destroying a socket closes its stream, and sends nothing. *)
Lemma socket_destroy_closes (s : st W) :
  wp socket_destroy (λ _ s', tame s s' ∧ is_open (s_stream s.1) s'.2 = false ∧
    outg s' = outg s) s.
Proof.
  assert (Hcancel : wp socket_cancelSocket (λ _ s', tame s s' ∧ outg s' = outg s) s).
  { pose proof (socket_keeps (SocketInvariant := tame_invariant 0) _ _
      (call_cancelSocket (H := socket_DualSocket 0)) s) as Ht. simpl in Ht.
    assert (wp socket_cancelSocket (λ _ s', outg s' = outg s) s) as Ho.
    { unfold socket_cancelSocket, SocketBase_cancelSocket. wp_steps.
      destruct (connected _); wp_steps; unfold outg; simpl;
        by rewrite ?cancel_sends_nothing, signal_sends_nothing. }
    unfold wp in *. by destruct (socket_cancelSocket s) as [[]]. }
  unfold socket_destroy. wp_step. eapply wp_mono; [exact Hcancel|]. simpl. intros _ s1 [Ht1 Ho1].
  pose proof (socket_keeps (SocketInvariant := tame_invariant 0) _ _
    (call_closeSocket (H := socket_DualSocket 0)) s1) as Ht2. simpl in Ht2.
  pose proof (socket_closeSocket_spec s1) as Hc. unfold wp in *.
  destruct (socket_closeSocket s1) as [[]s2]; try done. destruct Hc as (Hc & _ & Ho2). simpl in Ht2.
  assert (tame s s2) as Ht by (by etrans). split_and!; [done| |congruence].
  destruct Ht as [<- _]. exact Hc.
Qed.
End tame.

(** The network of the file Client. *)
#[export] Program Instance dial_AsioQuiet : AsioQuiet dial_net.
Next Obligation.
  intros h n t w. simpl. destruct (mem_read _ _ _ _) as [c l]. intros x Hx. by left.
Qed.
Next Obligation. intros h b t w x Hx. by left. Qed.
Next Obligation. intros h w x Hx. by left. Qed.
Next Obligation.
  intros h w x Hx%bool_decide_eq_true. left. apply bool_decide_true. simpl in Hx. set_solver.
Qed.
Next Obligation. intros h w x Hx. by left. Qed.
Next Obligation. intros h w x Hx. by left. Qed.
Next Obligation. done. Qed.
Next Obligation. done. Qed.
