(* ===== verification/Server.v ===== *)
(** The server (src/server/Server.cpp, ServerBase.cpp): listening, the loop that
    accepts connections, the coroutines that hand them to the client's handler, and
    stopping, as a transition system.

    Every call of listen has a coroutine of its own, suspended only while it waits for a
    connection, so its state is where it waits. What it spawns is a task, which the
    threads of the pool resume in any order, between any two resumptions of the
    listeners; a task that waits for its TLS handshake is resumed when that is over. The
    events are the calls of the program's user, the completion of a pending accept, the
    resumption of a task, and the handler of a handshake's timer that is run late; each is
    one definition below, translated from the code between two suspensions. *)

From S2P Require Import Prelude ErrorCodes ErrorTranslation FsPath Options TlsContext SocketBase Socket.
From S2P Require Import Client.

(** ** ASIO (interface) *)

(** What has become of the timer of a handshake when that is over and the timer is
    cancelled: it has not expired; it has expired, but its handler is still queued in the
    executor, where cancelling does not reach it; or its handler has run. *)
Inductive hs_timer := TimerWaits | TimerQueued | TimerRan.

#[export] Instance hs_timer_eq_dec : EqDecision hs_timer.
Proof. solve_decision. Defined.

(** The acceptor of the server. [accept_into] puts a new connection into a socket;
    [async_handshake_server] is the handshake against its timer: its code, and what has
    become of the timer. *)
Class AsioAcceptor (W : Type) `{Asio W} := {
  acceptor_is_open : W → bool;
  acceptor_open : W → error_code * W;
  acceptor_reuse_address : bool → W → error_code * W;
  acceptor_bind : Z → W → error_code * W;
  acceptor_listen : W → error_code * W;
  acceptor_cancel : W → error_code * W;
  acceptor_close : W → error_code * W;
  accept_into : stream W → W → W;
  async_handshake_server : stream W → Z → W → error_code * hs_timer * W
}.

(** What is documented: an acceptor cannot be opened twice, only opening and closing
    change whether it is open, and only an open one can be cancelled. A handshake opens
    no stream, and leaves its own open when it succeeds. *)
Class AsioAcceptorSpec (W : Type) `{A : Asio W} `{AC : !AsioConnect W} `{AP : !AsioAcceptor W} := {
  acceptor_open_spec w ec w' :
    acceptor_open w = (ec, w') →
    (acceptor_is_open w = true → ec_bool ec = true ∧ acceptor_is_open w' = true) ∧
    (ec_bool ec = false → acceptor_is_open w' = true);
  acceptor_reuse_keeps b w :
    acceptor_is_open (acceptor_reuse_address b w).2 = acceptor_is_open w;
  acceptor_bind_keeps p w : acceptor_is_open (acceptor_bind p w).2 = acceptor_is_open w;
  acceptor_listen_keeps w : acceptor_is_open (acceptor_listen w).2 = acceptor_is_open w;
  acceptor_cancel_spec w ec w' :
    acceptor_cancel w = (ec, w') →
    acceptor_is_open w' = acceptor_is_open w ∧ ec_bool ec = negb (acceptor_is_open w);
  acceptor_close_closes w ec w' :
    acceptor_close w = (ec, w') → ec_bool ec = false ∧ acceptor_is_open w' = false;
  server_handshake_opens h t w ec b w' :
    async_handshake_server h t w = (ec, b, w') →
    only_opens None w w' ∧ (ec_bool ec = false → is_open h w' = is_open h w)
}.

Section server.
Context {W : Type} `{AE : AsioErrors} `{A : !Asio W} `{AC : !AsioConnect W} `{SI : !SocketIds W}.
Context `{OS : !OpenSsl W} `{AT : !AsioTls W} `{AP : !AsioAcceptor W}.

(** [ClientHandler] *)
Variable handler : socket W → M W unit.

(** ** State *)

(** The spawned coroutines, where they are suspended: [acceptPlainSocket] and
    [acceptTlsSocket] at their start, whose reference arguments point into the frame of
    the listening coroutine that spawned it; [acceptTlsSocket] in the handshake of its
    stream; and the lambda that calls the handler. [conn] is the socket of the
    connection as it was accepted, kept as a history. *)
Inductive task :=
| AcceptPlain (conn : stream W)
| AcceptTls (conn : stream W) (frame : nat)
| Handshaking (conn : stream W) (ssl_stream : stream W) (hs_timeout : Z)
| CallHandler (cls : socket_class) (conn : stream W) (sock : stream W).

(** The variables of a listening coroutine: its options, and with TLS the context. *)
Record listening := Listening {
  l_tcp : TcpOptions;
  l_tls : option (TlsOptions * ssl_ctx W)
}.

(** A listening coroutine: running up to its first suspension, waiting for a connection,
    returned, or destroyed with the pool. *)
Inductive listener :=
| Starting
| Accepting (l : listening) (sock : stream W)
| Finished (r : result unit)
| Dropped.

(** [_port] and [_stop_requested]; the listening coroutines, of which the frame [f] is the
    one of the [f]-th call; the tasks that wait to be resumed; three histories: the
    connections that were accepted, those the handler was called with, with the socket it
    got, and those that were given up before; and the number of timer handlers that are
    still queued although their coroutine, to whose frame they refer, has ended. *)
Record server := Server {
  sv_port : Z;
  sv_stop_requested : bool;
  sv_listeners : list listener;
  sv_tasks : list task;
  sv_accepted : list (stream W);
  sv_handled : list (stream W * socket W);
  sv_dropped : list (stream W);
  sv_late_timers : nat
}.

Definition Server_new (port : Z) : server := Server port false [] [] [] [] [] 0.

Abbreviation srv := (server * W)%type.

Definition isStopped (s : srv) : bool := sv_stop_requested s.1.

Definition on_server (f : server → server) : M srv unit := modify (λ s, (f s.1, s.2)).
Definition in_world {B} (m : M W B) : M srv B := zoom snd (λ w s, (s.1, w)) m.

Definition set_stop_requested (s : server) : server :=
  Server (sv_port s) true (sv_listeners s) (sv_tasks s)
    (sv_accepted s) (sv_handled s) (sv_dropped s) (sv_late_timers s).
Definition set_listener (f : nat) (l : listener) (s : server) : server :=
  Server (sv_port s) (sv_stop_requested s) (<[f := l]> (sv_listeners s)) (sv_tasks s)
    (sv_accepted s) (sv_handled s) (sv_dropped s) (sv_late_timers s).
Definition add_listener (l : listener) (s : server) : server :=
  Server (sv_port s) (sv_stop_requested s) (sv_listeners s ++ [l]) (sv_tasks s)
    (sv_accepted s) (sv_handled s) (sv_dropped s) (sv_late_timers s).
Definition set_tasks (ts : list task) (s : server) : server :=
  Server (sv_port s) (sv_stop_requested s) (sv_listeners s) ts (sv_accepted s) (sv_handled s)
    (sv_dropped s) (sv_late_timers s).
Definition add_accepted (conn : stream W) (s : server) : server :=
  Server (sv_port s) (sv_stop_requested s) (sv_listeners s) (sv_tasks s)
    (sv_accepted s ++ [conn]) (sv_handled s) (sv_dropped s) (sv_late_timers s).
Definition add_handled (conn : stream W) (k : socket W) (s : server) : server :=
  Server (sv_port s) (sv_stop_requested s) (sv_listeners s) (sv_tasks s)
    (sv_accepted s) (sv_handled s ++ [(conn, k)]) (sv_dropped s) (sv_late_timers s).
Definition add_dropped (conn : stream W) (s : server) : server :=
  Server (sv_port s) (sv_stop_requested s) (sv_listeners s) (sv_tasks s)
    (sv_accepted s) (sv_handled s) (sv_dropped s ++ [conn]) (sv_late_timers s).
Definition add_late_timer (s : server) : server :=
  Server (sv_port s) (sv_stop_requested s) (sv_listeners s) (sv_tasks s)
    (sv_accepted s) (sv_handled s) (sv_dropped s) (S (sv_late_timers s)).

(** [asio::co_spawn(executor, ..., asio::detached)] *)
Definition co_spawn (t : task) : M srv unit := on_server (λ s, set_tasks (sv_tasks s ++ [t]) s).

(** ** Listening *)

(** The server has its own copies of these two functions, equal to the client's. *)
Definition server_applyPreConnectTcpOptions : stream W → TcpOptions → M W (result unit) :=
  applyPreConnectTcpOptions.
Definition server_applyPreConnectTlsOptions : stream W → TlsOptions → M W error_code :=
  applyPreConnectTlsOptions.

Definition acceptor_step (f : W → error_code * W) : M srv (result unit) :=
  ec ← in_world (run f);
  if ec_bool ec then mret (Unexpected (makeSocketCreateError ec)) else mret (Ok tt).

Definition listen_setup (reuse : bool) : M srv (result unit) :=
  port ← gets (λ s : srv, sv_port s.1);
  _ ←? acceptor_step acceptor_open;
  _ ←? acceptor_step (acceptor_reuse_address reuse);
  _ ←? acceptor_step (acceptor_bind port);
  acceptor_step acceptor_listen.

(** The coroutine of a call of listen is started; the number of its frame. *)
Definition new_frame : M srv nat :=
  f ← gets (λ s : srv, length (sv_listeners s.1));
  on_server (add_listener Starting);;
  mret f.

(** [co_return]: the frame of the coroutine is destroyed. *)
Definition finish (f : nat) (r : result unit) : M srv unit := on_server (set_listener f (Finished r)).

(** The head of the loop, up to the suspension in [async_accept]. *)
Definition accept_next (f : nat) (l : listening) : M srv unit :=
  stopped ← gets isStopped;
  if (stopped : bool) then finish f (Ok tt)
  else
    sock ← in_world (run new_tcp_socket);
    on_server (set_listener f (Accepting l sock)).

Definition asyncListen (tcp_opts : TcpOptions) : M srv unit :=
  f ← new_frame;
  r ← listen_setup (reuse_addr tcp_opts);
  match r with
  | Unexpected e => finish f (Unexpected e)
  | Ok _ => accept_next f (Listening tcp_opts None)
  end.

Definition asyncListenTls (tls_server_opts : TlsServerOptions) (tcp_opts : TcpOptions)
    (tls_opts : TlsOptions) : M srv unit :=
  f ← new_frame;
  r ← (_ ←? listen_setup true; in_world (createTlsContextWrapper tls_opts (Some tls_server_opts)));
  match r with
  | Unexpected e => finish f (Unexpected e)
  | Ok ctx => accept_next f (Listening tcp_opts (Some (tls_opts, ctx)))
  end.

(** The task for an accepted connection. *)
Definition accept_task (f : nat) (l : listening) (sock : stream W) : task :=
  match l_tls l with
  | None => AcceptPlain sock
  | Some _ => AcceptTls sock f
  end.

(** The local socket goes when the coroutine returns. *)
Definition finish_without (f : nat) (sock : stream W) (r : result unit) : M srv unit :=
  in_world (modify (destroy_stream sock));; finish f r.

(** The rest of the loop's body, from the completion of [async_accept] with [ec]. *)
Definition accept_completed (f : nat) (l : listening) (sock : stream W) (ec : error_code) : M srv unit :=
  if bool_decide (ec = asio_error operation_aborted) || bool_decide (ec = asio_error bad_descriptor)
  then finish_without f sock (Ok tt)
  else if ec_bool ec then finish_without f sock (Unexpected (makeServerError ec (txt "accept")))
  else
    on_server (add_accepted sock);;
    r ← in_world (server_applyPreConnectTcpOptions sock (l_tcp l));
    match r with
    | Unexpected e => on_server (add_dropped sock);; finish_without f sock (Unexpected e)
    | Ok _ =>
        co_spawn (accept_task f l sock);;
        accept_next f l
    end.

(** What [listen] makes of the future: a coroutine that threw or was dropped. *)
Definition listen_get (o : outcome (result unit)) : result unit :=
  match o with
  | Done r => r
  | _ => Unexpected (makeReadError (std_make_error_code operation_canceled))
  end.

(** ** Tasks *)

Definition acceptPlainSocket (conn : stream W) : M srv unit :=
  co_spawn (CallHandler TcpSocketClass conn conn).

(** What the references of a task point to; nothing, when the frame is gone. *)
Definition frame_variables (frame : nat) (s : server) : option (TlsOptions * ssl_ctx W) :=
  match sv_listeners s !! frame with
  | Some (Accepting l _) => l_tls l
  | _ => None
  end.

(** [co_return] of [acceptTlsSocket], which gives the connection up with its stream. *)
Definition drop_connection (conn ssl_stream : stream W) : M srv unit :=
  in_world (modify (destroy_stream ssl_stream));;
  on_server (add_dropped conn).

(** Up to the suspension in [async_handshake]. *)
Definition acceptTlsSocket (conn : stream W) (frame : nat) : M srv unit :=
  vars ← gets (λ s : srv, frame_variables frame s.1);
  match vars with
  | None => undef
  | Some (tls_opts, ctx) =>
      ssl_stream ← in_world (run (ssl_stream_new conn ctx));
      tls_ec ← in_world (server_applyPreConnectTlsOptions ssl_stream tls_opts);
      if ec_bool tls_ec then drop_connection conn ssl_stream
      else co_spawn (Handshaking conn ssl_stream (default hours24 (handshake_timeout_ms tls_opts)))
  end.

(** [hs_timer.cancel()], before the coroutine ends: a handler that is queued stays. *)
Definition cancel_timer (timer : hs_timer) : M srv unit :=
  if bool_decide (timer = TimerQueued) then on_server add_late_timer else mret tt.

(** From the end of the handshake, or the timer that cancels it, on. *)
Definition handshake_completed (conn ssl_stream : stream W) (hs_timeout : Z) : M srv unit :=
  '(hs_ec, timer) ← in_world (run (async_handshake_server ssl_stream hs_timeout));
  cancel_timer timer;;
  let hs_timed_out := bool_decide (timer = TimerRan) in
  if bool_decide (hs_ec = asio_error operation_aborted) && hs_timed_out
  then drop_connection conn ssl_stream
  else if ec_bool hs_ec then drop_connection conn ssl_stream
  else co_spawn (CallHandler TlsSocketClass conn ssl_stream).

Definition call_handler (cls : socket_class) (conn sock : stream W) : M srv unit :=
  k ← in_world (make_socket cls sock);
  on_server (add_handled conn k);;
  in_world (handler k).

Definition run_task (t : task) : M srv unit :=
  match t with
  | AcceptPlain conn => acceptPlainSocket conn
  | AcceptTls conn frame => acceptTlsSocket conn frame
  | Handshaking conn ssl_stream hs_timeout => handshake_completed conn ssl_stream hs_timeout
  | CallHandler cls conn sock => call_handler cls conn sock
  end.

(** ** Stopping *)

(** The overloads without an error code throw. *)
Definition or_throw (f : W → error_code * W) : M srv unit :=
  ec ← in_world (run f);
  if ec_bool ec then throw std_system_error else mret tt.

Definition ServerBase_stop : M srv unit :=
  on_server set_stop_requested;;
  in_world (run acceptor_cancel);;
  mret tt.

Definition Server_stop : M srv unit :=
  ServerBase_stop;;
  or_throw acceptor_cancel;;
  or_throw acceptor_close.

(** ** The system *)

Inductive event :=
| Listen (tcp_opts : TcpOptions)
| ListenTls (tls_server_opts : TlsServerOptions) (tcp_opts : TcpOptions) (tls_opts : TlsOptions)
| AcceptCompletes (frame : nat) (ec : error_code)
| RunTask (i : nat)
| RunTimer
| Stop.

(** A timer handler that runs after its coroutine has ended: the flag it sets and the
    stream it cancels are gone. *)
Definition late_timer_handler : M srv unit := undef.

(** The pending accept of a listener completes; a connection is put into its socket.
    Completions and resumptions of nothing do nothing. The exception of [stop] goes to
    its caller. *)
Definition step (e : event) : M srv unit :=
  match e with
  | Listen tcp_opts => asyncListen tcp_opts
  | ListenTls so tcp_opts tls_opts => asyncListenTls so tcp_opts tls_opts
  | AcceptCompletes f ec => λ s,
      match sv_listeners s.1 !! f with
      | Some (Accepting l sock) =>
          ((if ec_bool ec then mret tt else in_world (modify (accept_into sock)));;
           accept_completed f l sock ec) s
      | _ => (Done tt, s)
      end
  | RunTask i => λ s,
      match sv_tasks s.1 !! i with
      | Some t => (on_server (set_tasks (delete i (sv_tasks s.1)));; run_task t) s
      | None => (Done tt, s)
      end
  | RunTimer => λ s,
      match sv_late_timers s.1 with
      | O => (Done tt, s)
      | S _ => late_timer_handler s
      end
  | Stop => λ s, match Server_stop s with (Throw _, s') => (Done tt, s') | r => r end
  end.

Fixpoint run_events (es : list event) : M srv unit :=
  match es with
  | [] => mret tt
  | e :: es => step e;; run_events es
  end.

(** The blocking calls spawn the coroutine and wait for its future. [es] is what other
    threads and the network do in the meantime; when it is over the coroutine has
    finished, or the pool drops it with its local socket, which breaks the future. *)
Definition future_get (f : nat) (es : list event) : M srv (result unit) :=
  run_events es;;
  v ← gets fst;
  match sv_listeners v !! f with
  | Some (Finished r) => mret (listen_get (Done r))
  | Some (Accepting _ sock) =>
      in_world (modify (destroy_stream sock));;
      on_server (set_listener f Dropped);;
      mret (listen_get (Throw std_future_error))
  | _ => mret (listen_get (Throw std_future_error))
  end.

Definition Server_listen (tcp_opts : TcpOptions) (es : list event) : M srv (result unit) :=
  f ← gets (λ s : srv, length (sv_listeners s.1));
  step (Listen tcp_opts);; future_get f es.

Definition Server_listenTls (tls_server_opts : TlsServerOptions) (tcp_opts : TcpOptions)
    (tls_opts : TlsOptions) (es : list event) : M srv (result unit) :=
  f ← gets (λ s : srv, length (sv_listeners s.1));
  step (ListenTls tls_server_opts tcp_opts tls_opts);; future_get f es.

(** ** The interfaces of a server

    The abstract classes [ServerSync] and [ServerAsync], over the state [S] of an
    implementation. The coroutines of the latter are left where they first wait, and the
    blocking calls take what happens until they return. *)
Class ServerSync (S : Type) := {
  virtual_listen : TcpOptions → list event → M S (result unit);
  virtual_listenTls : TlsServerOptions → TcpOptions → TlsOptions → list event → M S (result unit)
}.

Class ServerAsync (S : Type) := {
  virtual_asyncListen : TcpOptions → M S unit;
  virtual_asyncListenTls : TlsServerOptions → TcpOptions → TlsOptions → M S unit
}.

(** The class [Server] implements both. *)
#[export] Instance Server_ServerSync : ServerSync srv := {|
  virtual_listen := Server_listen;
  virtual_listenTls := Server_listenTls
|}.

#[export] Instance Server_ServerAsync : ServerAsync srv := {|
  virtual_asyncListen := asyncListen;
  virtual_asyncListenTls := asyncListenTls
|}.
End server.

Arguments AcceptPlain {W _} conn.
Arguments AcceptTls {W _} conn frame.
Arguments Handshaking {W _} conn ssl_stream hs_timeout.
Arguments CallHandler {W _} cls conn sock.
Arguments Listening {W _}.
Arguments Starting {W _ _}.
Arguments Accepting {W _ _}.
Arguments Finished {W _ _}.
Arguments Dropped {W _ _}.

(** ** Lemmas *)

Section server_lemmas.
Context {W : Type} `{AE : AsioErrors} `{A : !Asio W} `{AC : !AsioConnect W} `{SI : !SocketIds W}.
Context `{OS : !OpenSsl W} `{AT : !AsioTls W} `{AP : !AsioAcceptor W}.
Variable handler : socket W → M W unit.
Abbreviation server := (server (W := W)).
Implicit Types s : server * W.

(** Code that preserves a property of the server, whatever happens in the world. *)
Definition keeps {B} (P : server → Prop) (m : M (server * W) B) : Prop :=
  ∀ s, P s.1 → wlp m (λ _ s', P s'.1) s.

Lemma keeps_seq {B C} P (m : M (server * W) B) (k : B → M (server * W) C) :
  keeps P m → (∀ b, keeps P (k b)) → keeps P (m ≫= k).
Proof.
  intros Hm Hk s Hs. rewrite wlp_bind. eapply wlp_mono; [by apply Hm|].
  intros b s' Hs'. by apply Hk.
Qed.

Lemma keeps_ret {B} P (b : B) : keeps P (mret b).
Proof. by intros s Hs. Qed.

Lemma keeps_seq_expected {B C} P (m : M (server * W) (result B)) (k : B → M (server * W) (result C)) :
  keeps P m → (∀ b, keeps P (k b)) → keeps P (bind_expected m k).
Proof. intros Hm Hk. apply keeps_seq; [done|]. intros []; [apply Hk|apply keeps_ret]. Qed.

Lemma keeps_gets {B} P (f : server * W → B) : keeps P (gets f).
Proof. by intros s Hs. Qed.

Lemma keeps_throw {B} P x : keeps P (throw (A := B) x).
Proof. by intros s Hs. Qed.

Lemma keeps_undef {B} P : keeps P (undef (A := B)).
Proof. by intros s Hs. Qed.

Lemma keeps_if {B} P (b : bool) (m1 m2 : M (server * W) B) :
  keeps P m1 → keeps P m2 → keeps P (if b then m1 else m2).
Proof. by destruct b. Qed.

Lemma keeps_in_world {B} P (m : M W B) : keeps P (in_world m).
Proof. intros s Hs. unfold in_world. rewrite wlp_zoom. unfold wlp. by destruct (m s.2) as [[] ?]. Qed.

Lemma keeps_on_server (P : server → Prop) f : (∀ v, P v → P (f v)) → keeps P (on_server f).
Proof. intros Hf s Hs. by apply Hf. Qed.

(** Code that behaves like other code in one state. *)
Lemma wp_at {B} (m1 m2 : M (server * W) B) Q s : m1 s = m2 s → wp m2 Q s → wp m1 Q s.
Proof. unfold wp. by intros ->. Qed.
Lemma wlp_at {B} (m1 m2 : M (server * W) B) Q s : m1 s = m2 s → wlp m2 Q s → wlp m1 Q s.
Proof. unfold wlp. by intros ->. Qed.

(** Running in the world and then reading off what is left of the server. *)
Lemma wp_in_world {B} (m : M W B) Q s :
  wp (in_world m) Q s ↔ wp m (λ b w, Q b (s.1, w)) s.2.
Proof. unfold in_world. by rewrite wp_zoom. Qed.

Lemma wp_run_pair {B} (f : W → B * W) (Q : B → W → Prop) w :
  wp (run f) Q w ↔ Q (f w).1 (f w).2.
Proof. unfold wp, run. by destruct (f w). Qed.
End server_lemmas.

(** What is left after the rules for the control structure: the updates. *)
Ltac keeps :=
  repeat first
    [ assumption | apply keeps_seq; [|intros ?] | apply keeps_seq_expected; [|intros ?]
    | apply keeps_if | apply keeps_ret | apply keeps_gets | apply keeps_throw | apply keeps_undef
    | apply keeps_in_world
    | match goal with |- keeps _ (match ?x with _ => _ end) => destruct x end
    | apply keeps_on_server; intros ? ? ].
