(* ===== verification/ServerInv.v ===== *)
(** The server of the file Server step by step: what an event may do to its record,
    whatever happens in the network, as a step relation on which the invariants are
    shown by cases; and when an event is handled to its end. *)

From S2P Require Import Prelude ErrorCodes ErrorTranslation FsPath Options TlsContext SocketBase Socket.
From S2P Require Import Client Server.

Lemma sum_list_insert (l : list nat) i x y :
  l !! i = Some y → (sum_list (<[i := x]> l) + y = sum_list l + x)%nat.
Proof.
  revert i. induction l as [|z l IH]; intros [|i]; simpl; [done|done| |].
  - intros [= ->]. lia.
  - intros Hi. specialize (IH i Hi). lia.
Qed.

(** ** Specification *)

Section spec.
Context {W : Type} `{A : Asio W} `{OS : !OpenSsl W}.
Implicit Types v : server (W := W).

(** The connection a task is about. *)
Definition task_conn (t : task (W := W)) : stream W :=
  match t with
  | AcceptPlain c | AcceptTls c _ | Handshaking c _ _ | CallHandler _ c _ => c
  end.

(** How often a task is resumed until its connection is handed over. *)
Definition task_runs (t : task (W := W)) : nat :=
  match t with
  | AcceptPlain _ => 2
  | AcceptTls _ _ => 3
  | Handshaking _ _ _ => 2
  | CallHandler _ _ _ => 1
  end.

Definition all_runs (ts : list (task (W := W))) : nat := sum_list (task_runs <$> ts).

(** The accepts that listeners wait for. *)
Definition waits (x : listener (W := W)) : nat := match x with Accepting _ _ => 1 | _ => 0 end.
Definition pending v : nat := sum_list (waits <$> sv_listeners v).

(** Each accepted connection is in exactly one place: handed to the handler, given up, or
    in a task. *)
Definition accounted v : Prop :=
  sv_accepted v ≡ₚ (sv_handled v).*1 ++ sv_dropped v ++ (task_conn <$> sv_tasks v).

(** A task that can be resumed: its references do not dangle. *)
Definition alive v (t : task (W := W)) : Prop :=
  match t with AcceptTls _ f => is_Some (frame_variables f v) | _ => True end.
#[export] Instance alive_dec v t : Decision (alive v t).
Proof. destruct t; simpl; apply _. Defined.
Definition undangled v : Prop := Forall (alive v) (sv_tasks v).

(** The listeners that have ended because the system refused an option of a connection
    they had accepted. *)
Definition refused_option : result unit := Unexpected (make_error_code OPTION_ERROR).
Definition refusal (x : listener (W := W)) : nat :=
  match x with
  | Finished (Unexpected e) => if bool_decide (e = make_error_code OPTION_ERROR) then 1 else 0
  | _ => 0
  end.
Definition refusals v : nat := sum_list (refusal <$> sv_listeners v).

(** A server on which nobody listens with TLS. *)
Definition plain_task (t : task (W := W)) : Prop :=
  match t with
  | AcceptPlain _ => True
  | CallHandler cls c h => cls = TcpSocketClass ∧ h = c
  | _ => False
  end.
Definition plain_server v : Prop :=
  (∀ f l h, sv_listeners v !! f = Some (Accepting l h) → l_tls l = None) ∧
  Forall plain_task (sv_tasks v) ∧ Forall (λ ck, s_stream ck.2 = ck.1) (sv_handled v) ∧
  length (sv_dropped v) = refusals v ∧ sv_late_timers v = 0%nat.

Definition is_ListenTls (e : event) : bool :=
  match e with ListenTls _ _ _ => true | _ => false end.
Definition is_listening (e : event) : bool :=
  match e with Listen _ | ListenTls _ _ _ => true | _ => false end.

(** The errors with which listening without TLS can end. *)
Definition listen_errors : list error_code :=
  make_error_code <$> [SOCKET_CREATE_FAILED; SERVER_ACCEPT_FAILED; OPTION_ERROR].

Definition documented (r : result unit) : Prop := ∀ e, r = Unexpected e → e ∈ listen_errors.

(** How a listener ends before it waits, and when no connection comes any more. *)
Definition not_set_up : error_code := make_error_code SOCKET_CREATE_FAILED.
Definition ended_result (r : result unit) : Prop :=
  r = Ok tt ∨ r = Unexpected (make_error_code SERVER_ACCEPT_FAILED).

(** Runs tasks, [n] times, in an order that somebody picks. *)
Definition fair_pick (pick : list (task (W := W)) → nat) : Prop :=
  ∀ ts, ts ≠ [] → (pick ts < length ts)%nat.
End spec.

(** ** The moves of a server *)

Section moves.
Context {W : Type} `{A : Asio W} `{OS : !OpenSsl W}.
Implicit Types v : server (W := W).

(** The head of the accept loop. *)
Inductive waits_or_ends v (l : listening) : listener (W := W) → Prop :=
| loop_waits h : sv_stop_requested v = false → waits_or_ends v l (Accepting l h)
| loop_ends : sv_stop_requested v = true → waits_or_ends v l (Finished (Ok tt)).

(** The task [t] of [v] is resumed, and [ts] takes its place. *)
Definition resumed (i : nat) (ts : list (task (W := W))) v : server :=
  set_tasks (delete i (sv_tasks v) ++ ts) v.

(** The events for which there is nothing to do. *)
Definition idle (e : event) v : Prop :=
  match e with
  | AcceptCompletes f _ => ∀ l h, sv_listeners v !! f ≠ Some (Accepting l h)
  | RunTask i => sv_tasks v !! i = None
  | RunTimer => sv_late_timers v = 0%nat
  | _ => False
  end.

(** When a handshake is over its timer may leave a handler behind. *)
Inductive may_lag v : server (W := W) → Prop :=
| on_time : may_lag v v
| lags : may_lag v (add_late_timer v).

Inductive server_move : event → server (W := W) → server (W := W) → Prop :=
| move_none e v : idle e v → server_move e v v
| move_fails e v err :
    is_listening e = true → err = not_set_up ∨
      is_ListenTls e = true ∧ err = make_error_code TLS_CERT_LOAD_FAILURE →
    server_move e v (add_listener (Finished (Unexpected err)) v)
| move_listens e v l x :
    is_listening e = true → (is_ListenTls e = false → l_tls l = None) → waits_or_ends v l x →
    server_move e v (add_listener x v)
| move_ends f ec v l h r :
    sv_listeners v !! f = Some (Accepting l h) → ended_result r →
    server_move (AcceptCompletes f ec) v (set_listener f (Finished r) v)
| move_refuses f ec v l h :
    sv_listeners v !! f = Some (Accepting l h) →
    server_move (AcceptCompletes f ec) v (set_listener f (Finished refused_option)
      (add_dropped h (add_accepted h v)))
| move_accepts f ec v l h x :
    sv_listeners v !! f = Some (Accepting l h) → waits_or_ends v l x →
    server_move (AcceptCompletes f ec) v (set_listener f x
      (set_tasks (sv_tasks v ++ [accept_task f l h]) (add_accepted h v)))
| move_spawns i v c :
    sv_tasks v !! i = Some (AcceptPlain c) →
    server_move (RunTask i) v (resumed i [CallHandler TcpSocketClass c c] v)
| move_handshakes i v c f k t :
    sv_tasks v !! i = Some (AcceptTls c f) → is_Some (frame_variables f v) →
    server_move (RunTask i) v (resumed i [Handshaking c k t] v)
| move_secures i v v' c k t :
    sv_tasks v !! i = Some (Handshaking c k t) → may_lag v v' →
    server_move (RunTask i) v (resumed i [CallHandler TlsSocketClass c k] v')
| move_drops i v v' t :
    sv_tasks v !! i = Some t → ¬ plain_task t → may_lag v v' →
    server_move (RunTask i) v (add_dropped (task_conn t) (resumed i [] v'))
| move_handles i v cls c h k :
    sv_tasks v !! i = Some (CallHandler cls c h) → s_stream k = h →
    server_move (RunTask i) v (add_handled c k (resumed i [] v))
| move_stops v : server_move Stop v (set_stop_requested v).
End moves.

(** ** Every event is a move *)

Section events.
Context {W : Type} `{AE : AsioErrors} `{A : !Asio W} `{AC : !AsioConnect W} `{SI : !SocketIds W}.
Context `{OS : !OpenSsl W} `{AT : !AsioTls W} `{AP : !AsioAcceptor W}.
Variable handler : socket W → M W unit.
Implicit Types s : server (W := W) * W.
Implicit Types v : server (W := W).

(** What a piece of code does to the record, which was [v]. *)
Definition makes {B} (m : M (server (W := W) * W) B) v (Q : server → Prop) : Prop :=
  ∀ w, wlp m (λ _ s', Q s'.1) (v, w).

Lemma makes_in_world {B C} (m : M W B) (k : B → M (server (W := W) * W) C) v Q :
  (∀ b, makes (k b) v Q) → makes (in_world m ≫= k) v Q.
Proof.
  intros Hk w. wp_step. unfold in_world. rewrite wlp_zoom. simpl. unfold wlp at 1.
  destruct (m w) as [[b| | |] w']; try done. apply Hk.
Qed.

Lemma makes_on_server f v (Q : server → Prop) : Q (f v) → makes (on_server f) v Q.
Proof. by intros HQ w. Qed.

Lemma makes_on_server_bind {C} f (k : unit → M (server (W := W) * W) C) v Q :
  makes (k tt) (f v) Q → makes (on_server f ≫= k) v Q.
Proof. intros Hk w. wp_step. unfold on_server. wp_steps. apply Hk. Qed.

Lemma makes_kept {B C} (m : M (server (W := W) * W) B) (k : B → M (server (W := W) * W) C) v Q :
  keeps (eq v) m → (∀ b, makes (k b) v Q) → makes (m ≫= k) v Q.
Proof.
  intros Hm Hk w. wp_step. eapply wlp_mono; [by apply (Hm (v, w))|]. simpl.
  intros b [v' w'] Heq. simpl in Heq. subst v'. apply Hk.
Qed.

Lemma accept_next_makes f l v (Q : server → Prop) :
  (∀ x, waits_or_ends v l x → Q (set_listener f x v)) → makes (accept_next f l) v Q.
Proof.
  intros HQ w. unfold accept_next. wp_steps. unfold isStopped. simpl.
  destruct (sv_stop_requested v) eqn:Hs.
  - apply makes_on_server, HQ. by constructor.
  - revert w. apply makes_in_world. intros h. apply makes_on_server, HQ. by constructor.
Qed.

Lemma set_new_listener v x :
  set_listener (length (sv_listeners v)) x (add_listener Starting v) = add_listener x v.
Proof.
  unfold set_listener, add_listener. simpl. f_equal.
  rewrite insert_app_r_alt by lia. by rewrite Nat.sub_diag.
Qed.

(** The errors of a call of listen. *)
Definition listen_fails (e : event) (err : error_code) : Prop :=
  err = not_set_up ∨ is_ListenTls e = true ∧ err = make_error_code TLS_CERT_LOAD_FAILURE.

(** A call of listen, after whose setup [r] the loop begins. *)
Lemma listen_makes {B} e (m : M (server (W := W) * W) (result B)) (l : B → listening) v :
  is_listening e = true → (is_ListenTls e = false → ∀ b, l_tls (l b) = None) →
  (∀ v, keeps (eq v) m) → (∀ s, wlp m (λ r _, ∀ err, r = Unexpected err → listen_fails e err) s) →
  makes (f ← new_frame; r ← m;
    match r with Unexpected err => finish f (Unexpected err) | Ok b => accept_next f (l b) end)
    v (server_move e v).
Proof.
  intros He Hl Hm Hdoc w. unfold new_frame, on_server. wp_steps. simpl.
  set (v1 := add_listener Starting v).
  eapply wlp_mono; [apply (wlp_conj _ (λ _ s', v1 = s'.1)); [by apply Hm|apply Hdoc]|].
  simpl. intros r [v' w'] [Heq Hr]. simpl in Heq. subst v'. destruct r as [b|err].
  - apply accept_next_makes. intros x Hx. unfold v1. rewrite set_new_listener.
    apply (move_listens e v (l b)); [done|by intros ?; apply Hl|by destruct Hx; constructor].
  - apply makes_on_server. unfold v1. rewrite set_new_listener. by apply move_fails; [|apply Hr].
Qed.

(** Setting up the acceptor. *)
Lemma acceptor_step_outcome f s :
  wp (acceptor_step f) (λ r s', s' = (s.1, (f s.2).2) ∧
    r = if ec_bool (f s.2).1 then Unexpected (make_error_code SOCKET_CREATE_FAILED) else Ok tt) s.
Proof.
  unfold acceptor_step. wp_step. rewrite wp_in_world, wp_run_pair.
  destruct (ec_bool (f s.2).1) eqn:Hec; wp_steps; split; try done.
  unfold makeSocketCreateError. rewrite Hec. simpl. by destruct (isSocketCreateError _).
Qed.

(** Code that fails only when the acceptor cannot be set up. *)
Definition sets_up (m : M (server (W := W) * W) (result unit)) : Prop :=
  ∀ s, wlp m (λ r _, ∀ err, r = Unexpected err → err = not_set_up) s.

Lemma sets_up_seq m k : sets_up m → (∀ a, sets_up (k a)) → sets_up (bind_expected m k).
Proof.
  intros Hm Hk s. wp_step. eapply wlp_mono; [apply Hm|].
  intros [[]|e] s' Hr; [apply Hk|intros e' [= <-]; by apply Hr].
Qed.

Lemma listen_setup_fails b : sets_up (listen_setup b).
Proof.
  assert (Hf : ∀ f, sets_up (acceptor_step f)).
  { intros f s. apply wp_wlp. eapply wp_mono; [apply acceptor_step_outcome|].
    intros r s2 [_ ->] e. destruct (ec_bool _); [|done]. by intros [= <-]. }
  intros s. unfold listen_setup. rewrite wlp_bind, wlp_gets. generalize (sv_port s.1). intros p.
  revert s. repeat (apply sets_up_seq; [apply Hf|intros ?]). apply Hf.
Qed.

Lemma tls_context_errors o so (w : W) :
  wlp (createTlsContextWrapper o so) (λ r _, ∀ e, r = Unexpected e →
    e = make_error_code TLS_CERT_LOAD_FAILURE) w.
Proof.
  assert (∀ so w, wlp (c ← Private_new o so; mret (Ok c)) (λ r _, ∀ e, r = Unexpected e →
    e = make_error_code TLS_CERT_LOAD_FAILURE) w) as Hnew.
  { intros so' w'. wp_step. unfold wlp. by destruct (Private_new o so' w') as [[]]. }
  unfold createTlsContextWrapper. destruct so as [so|]; [|apply Hnew].
  do 2 (rewrite wlp_bind, wlp_gets; destruct (path_missing _ w); [wp_steps; by intros e [= <-]|]).
  apply Hnew.
Qed.

Lemma applyPreConnectTcpOptions_refuses h o (w : W) :
  wlp (server_applyPreConnectTcpOptions h o)
    (λ r _, ∀ e, r = Unexpected e → e = make_error_code OPTION_ERROR) w.
Proof.
  unfold wlp, server_applyPreConnectTcpOptions. rewrite applyPreConnectTcpOptions_list.
  unfold apply_options. by destruct (set_options _ _ _) as [[] w']; intros e [= <-].
Qed.

Lemma finish_without_makes f ec v l h k r :
  sv_listeners v !! f = Some (Accepting l h) → ended_result r →
  makes (finish_without f k r) v (server_move (AcceptCompletes f ec) v).
Proof.
  intros Hf Hr. apply makes_in_world. intros _. apply makes_on_server. by eapply move_ends.
Qed.

Lemma accept_completed_makes f ec v l h :
  sv_listeners v !! f = Some (Accepting l h) →
  makes (accept_completed f l h ec) v (server_move (AcceptCompletes f ec) v).
Proof.
  intros Hf. unfold accept_completed. destruct (_ || _); [by eapply finish_without_makes; [|left]|].
  destruct (ec_bool ec) eqn:Hec.
  { eapply finish_without_makes; [done|]. right. unfold makeServerError. by rewrite Hec. }
  apply makes_on_server_bind. intros w. wp_step. unfold in_world at 1. rewrite wlp_zoom. simpl.
  eapply wlp_mono; [apply applyPreConnectTcpOptions_refuses|]. simpl. intros [[]|e] w1 Hr.
  - clear Hr. revert w1. apply makes_on_server_bind, accept_next_makes. intros x Hx.
    apply (move_accepts f ec v l h x Hf). by destruct Hx; constructor.
  - rewrite (Hr e eq_refl). clear Hr. revert w1. apply makes_on_server_bind. apply makes_in_world.
    intros _. apply makes_on_server. by apply (move_refuses f ec v l h).
Qed.

Lemma set_tasks_twice ts1 ts2 v : set_tasks ts2 (set_tasks ts1 v) = set_tasks ts2 v.
Proof. done. Qed.

Lemma drop_connection_makes i v v' t c k :
  sv_tasks v !! i = Some t → ¬ plain_task t → task_conn t = c → may_lag v v' →
  makes (drop_connection c k) (set_tasks (delete i (sv_tasks v)) v') (server_move (RunTask i) v).
Proof.
  intros Hi Ht <- Hv. apply makes_in_world. intros _. apply makes_on_server.
  assert (delete i (sv_tasks v) = delete i (sv_tasks v') ++ []) as -> by (rewrite app_nil_r; by destruct Hv).
  by apply move_drops.
Qed.

Lemma cancel_timer_makes timer i v (m : M (server (W := W) * W) unit) Q :
  (∀ v', may_lag v v' → makes m (set_tasks (delete i (sv_tasks v)) v') Q) →
  makes (cancel_timer timer;; m) (set_tasks (delete i (sv_tasks v)) v) Q.
Proof.
  intros Hm. unfold cancel_timer. case_bool_decide.
  - apply makes_on_server_bind. exact (Hm _ (lags v)).
  - intros w. wp_steps. exact (Hm _ (on_time v) w).
Qed.

Lemma run_task_makes i t v :
  sv_tasks v !! i = Some t →
  makes (run_task handler t) (set_tasks (delete i (sv_tasks v)) v) (server_move (RunTask i) v).
Proof.
  intros Hi. destruct t as [c|c f|c k t|cls c h]; simpl.
  - apply makes_on_server. exact (move_spawns i v c Hi).
  - intros w. unfold acceptTlsSocket. wp_steps. simpl. unfold frame_variables. simpl.
    destruct (frame_variables f v) as [[o ctx]|] eqn:Hf; unfold frame_variables in Hf; rewrite Hf; [|done].
    revert w. apply makes_in_world. intros k. apply makes_in_world. intros ec.
    destruct (ec_bool ec); [by apply (drop_connection_makes i v v _ c k Hi); [intros []|..|constructor]|].
    apply makes_on_server. apply (move_handshakes i v c f k _ Hi).
    unfold frame_variables. rewrite Hf. by eexists.
  - apply makes_in_world. intros [ec timer]. apply cancel_timer_makes. intros v' Hv. cbv zeta.
    destruct (_ && _); [by apply (drop_connection_makes i v v' _ c k Hi); [intros []| |]|].
    destruct (ec_bool ec); [by apply (drop_connection_makes i v v' _ c k Hi); [intros []| |]|].
    apply makes_on_server.
    assert (delete i (sv_tasks v) = delete i (sv_tasks v')) as -> by by destruct Hv.
    exact (move_secures i v v' c k t Hi Hv).
  - intros w. unfold call_handler. wp_step. unfold in_world at 1, make_socket. wp_steps. simpl.
    unfold on_server. wp_steps. eapply (keeps_in_world (server_move (RunTask i) v)). simpl.
    rewrite <- (app_nil_r (delete i _)). by eapply move_handles.
Qed.

(** Whatever the network does, an event is a move. *)
Lemma step_moves e s : wlp (step handler e) (λ _ s', server_move e s.1 s'.1) s.
Proof.
  destruct s as [v w]. simpl.
  assert (Hskip : ∀ m, m (v, w) = (Done tt, (v, w)) → idle e v →
    wlp m (λ _ s', server_move e v s'.1) (v, w)).
  { intros m Hm He. apply (wlp_at _ (mret tt)); [done|]. by apply move_none. }
  destruct e as [o|so o t|f ec|i| |].
  - apply (listen_makes (Listen o) _ (λ _, Listening o None)); [done|done| |].
    + intros v'. unfold listen_setup, acceptor_step. keeps.
    + intros s. eapply wlp_mono; [apply listen_setup_fails|]. by intros r s' Hr err ?; left; apply Hr.
  - apply (listen_makes (ListenTls so o t) _ (λ ctx, Listening o (Some (t, ctx)))); [done|done| |].
    + intros v'. unfold listen_setup, acceptor_step. keeps.
    + intros s. wp_step. eapply wlp_mono; [apply listen_setup_fails|]. intros [[]|e] s1 Hr; wp_steps.
      * unfold in_world. rewrite wlp_zoom. eapply wlp_mono; [apply tls_context_errors|].
        intros r w' He err Herr. right. by split; [|apply He].
      * intros err [= <-]. left. by apply Hr.
  - destruct (sv_listeners v !! f) as [[|l h|r|]|] eqn:Hf;
      try by apply Hskip; [simpl; rewrite Hf|simpl; rewrite Hf].
    eapply wlp_at; [simpl; rewrite Hf; reflexivity|]. revert w Hskip. 
    cut (makes ((if ec_bool ec then mret tt else in_world (modify (accept_into h)));;
      accept_completed f l h ec) v (server_move (AcceptCompletes f ec) v)); [by auto|].
    apply makes_kept; [keeps|]. intros _. by apply accept_completed_makes.
  - destruct (sv_tasks v !! i) as [t|] eqn:Hi; [|by apply Hskip; [simpl; rewrite Hi|]].
    eapply wlp_at; [simpl; rewrite Hi; reflexivity|].
    pose proof (makes_on_server_bind _ (λ _, run_task handler t) _ _ (run_task_makes i t v Hi)) as Hm.
    apply Hm.
  - destruct (sv_late_timers v) eqn:Hl; [by apply Hskip; [simpl; rewrite Hl|]|].
    by eapply wlp_at; [simpl; rewrite Hl; reflexivity|].
  - apply wp_wlp. unfold wp, step, Server_stop, ServerBase_stop, or_throw, in_world, run, on_server, zoom.
    unfold mbind, M_bind. simpl. destruct (acceptor_cancel w) as [ec w1]. simpl.
    destruct (acceptor_cancel w1) as [ec1 w2]. simpl.
    destruct (ec_bool ec1); simpl; [by apply move_stops|].
    destruct (acceptor_close w2) as [ec2 w3]. simpl. destruct (ec_bool ec2); apply move_stops.
Qed.
End events.

(** ** Invariants *)

Section invariants.
Context {W : Type} `{A : Asio W} `{OS : !OpenSsl W}.
Implicit Types v : server (W := W).

(** The tasks after the resumption of [t], but for what [t] became. *)
Lemma tasks_without {B} (f : task → B) i t v :
  sv_tasks v !! i = Some t → f <$> sv_tasks v ≡ₚ f t :: (f <$> delete i (sv_tasks v)).
Proof. intros Hi%delete_Permutation. by apply (fmap_Permutation f) in Hi. Qed.

Lemma resumed_conns i t ts v :
  sv_tasks v !! i = Some t → task_conn <$> ts = [task_conn t] →
  task_conn <$> sv_tasks (resumed i ts v) ≡ₚ task_conn <$> sv_tasks v.
Proof.
  intros Hi Hts. rewrite (tasks_without task_conn i t v Hi). simpl. rewrite fmap_app, Hts.
  by rewrite Permutation_app_comm.
Qed.

Lemma move_accounted e v v' : server_move e v v' → accounted v → accounted v'.
Proof.
  unfold accounted. destruct 1 as [| | | |f ec v l h Hf|f ec v l h x Hf Hx|i v c Hi|i v c f k t Hi|
    i v v' c k t Hi Hv'|i v v' t Hi _ Hv'|i v cls c h k Hi Hk|]; intros Hv; try done.
  - simpl. rewrite Hv, <- !app_assoc. do 2 f_equiv. apply Permutation_app_comm.
  - simpl. rewrite fmap_app, Hv.
    assert (task_conn <$> [accept_task f l h] = [h]) as -> by (unfold accept_task; by destruct (l_tls l)).
    by rewrite <- !app_assoc.
  - by rewrite (resumed_conns i _ _ v Hi).
  - by rewrite (resumed_conns i _ _ v Hi).
  - pose proof (resumed_conns i _ [CallHandler TlsSocketClass c k] v Hi eq_refl) as Hc. simpl in Hc.
    destruct Hv'; simpl; by rewrite Hv, Hc.
  - destruct Hv'; simpl; rewrite Hv, (tasks_without _ _ _ _ Hi), app_nil_r;
      by rewrite <- (app_assoc (sv_dropped v)).
  - simpl. rewrite Hv, (tasks_without _ _ _ _ Hi), app_nil_r. rewrite fmap_app. simpl.
    rewrite <- app_assoc. f_equiv. by rewrite <- Permutation_middle.
Qed.

(** The accepts that are waited for after a listener moved on. *)
Lemma pending_set f x y v :
  sv_listeners v !! f = Some y → (pending (set_listener f x v) + waits y = pending v + waits x)%nat.
Proof.
  intros Hf. unfold pending. simpl. rewrite list_fmap_insert.
  apply sum_list_insert. by rewrite list_lookup_fmap, Hf.
Qed.

Lemma pending_add x v : pending (add_listener x v) = (pending v + waits x)%nat.
Proof. unfold pending. simpl. rewrite fmap_app, sum_list_with_app. simpl. lia. Qed.

(** What a stopped server may still accept. *)
Definition reserve v : nat := (length (sv_accepted v) + pending v)%nat.

Lemma ends_if_stopped v l x :
  sv_stop_requested v = true → waits_or_ends v l x → x = Finished (Ok tt).
Proof. by intros Hs []; [congruence|]. Qed.

Lemma move_stopped e v v' :
  server_move e v v' → sv_stop_requested v = true →
  sv_stop_requested v' = true ∧ (reserve v' ≤ reserve v)%nat ∧
  (∀ f, (∀ l h, sv_listeners v !! f ≠ Some (Accepting l h)) →
        ∀ l h, sv_listeners v' !! f ≠ Some (Accepting l h)).
Proof.
  intros Hm Hs.
  assert (Hother : ∀ f x g, (∀ l h, x ≠ Accepting l h) →
    (∀ l h, sv_listeners v !! g ≠ Some (Accepting l h)) →
    ∀ l h, <[f := x]> (sv_listeners v) !! g ≠ Some (Accepting l h)).
  { intros f x g Hx Hg l h. rewrite list_lookup_insert. case_decide; [|by apply Hg].
    intros [= E]. by eapply Hx. }
  assert (Hnew : ∀ x g, (∀ l h, x ≠ Accepting l h) →
    (∀ l h, sv_listeners v !! g ≠ Some (Accepting l h)) →
    ∀ l h, (sv_listeners v ++ [x]) !! g ≠ Some (Accepting l h)).
  { intros x g Hx Hg l h [?|[_ E]]%lookup_app_Some; [by eapply Hg|].
    apply list_lookup_singleton_Some in E as [_ E]. by eapply Hx. }
  unfold reserve.
  destruct Hm as [| |e v l x He Hl Hx|f ec v l h r Hf|f ec v l h Hf|f ec v l h x Hf Hx| | |i v v' c k t Hi Hv|
    i v v' t Hi _ Hv| |]; try done; try (by destruct Hv).
  - rewrite pending_add. simpl. split_and!; [done|lia|]. intros g. by apply Hnew.
  - rewrite pending_add. pose proof (ends_if_stopped _ _ _ Hs Hx). subst x. simpl.
    split_and!; [done|lia|]. intros g. by apply Hnew.
  - pose proof (pending_set f (Finished r) _ _ Hf) as Hp. simpl in Hp.
    split_and!; [done|simpl; lia|]. intros g. by apply Hother.
  - pose proof (pending_set f (Finished refused_option) _ _ Hf) as Hp. simpl in Hp.
    split_and!; [done| |intros g; by apply Hother].
    simpl. rewrite length_app. simpl. unfold pending in *. simpl in *. lia.
  - pose proof (ends_if_stopped _ _ _ Hs Hx). subst x.
    pose proof (pending_set f (Finished (Ok tt)) _ _ Hf) as Hp. simpl in Hp.
    split_and!; [done| |intros g; by apply Hother].
    simpl. rewrite length_app. simpl. unfold pending in *. simpl in *. lia.
Qed.

(** The completion of its accept is the end of a listener that was stopped. *)
Lemma move_ends_wait f ec v v' :
  server_move (AcceptCompletes f ec) v v' → sv_stop_requested v = true →
  ∀ l h, sv_listeners v' !! f ≠ Some (Accepting l h).
Proof.
  inversion 1 as [e v0 Hi| | |f' ec' v0 l h r Hf|f' ec' v0 l h Hf|f' ec' v0 l h x Hf Hx| | | | | |]; subst;
    intros Hs; try done.
  - apply lookup_lt_Some in Hf. intros l' h'. simpl. by rewrite list_lookup_insert_eq.
  - apply lookup_lt_Some in Hf. intros l' h'. simpl. by rewrite list_lookup_insert_eq.
  - pose proof (ends_if_stopped _ _ _ Hs Hx). subst x. apply lookup_lt_Some in Hf.
    intros l' h'. simpl. by rewrite list_lookup_insert_eq.
Qed.

(** The listener of the call [f] waits, or has ended for a reason that is documented. *)
Definition listener_fine (f : nat) v : Prop :=
  match sv_listeners v !! f with
  | Some (Accepting _ _) => True
  | Some (Finished r) => documented r
  | _ => False
  end.

Lemma move_fine f e v v' : server_move e v v' → listener_fine f v → listener_fine f v'.
Proof.
  assert (Hadd : ∀ x, listener_fine f v → listener_fine f (add_listener x v)).
  { unfold listener_fine. simpl. intros x. destruct (sv_listeners v !! f) eqn:E; [|done].
    by rewrite (lookup_app_l_Some _ _ _ _ E). }
  assert (Hset : ∀ g x y, sv_listeners v !! g = Some y →
    match x with Accepting _ _ => True | Finished r => documented r | _ => False end →
    listener_fine f v →
    listener_fine f (set_listener g x v)).
  { unfold listener_fine. simpl. intros g x y Hg%lookup_lt_Some Hx. rewrite list_lookup_insert.
    case_decide as E; [|done]. by destruct x. }
  assert (Hended : ∀ r, ended_result r → documented r).
  { intros r [->| ->] e' [= <-]. by right; left. }
  destruct 1 as [| |e v l x He Hl Hx|g ec v l h r Hg Hr|g ec v l h Hg|g ec v l h x Hg Hx| | |i v v' c k t Hi Hv|
    i v v' t Hi _ Hv| |]; try done; try (by destruct Hv); auto.
  - eapply (Hset g (Finished r)); [done|]. by apply Hended.
  - eapply (Hset g (Finished refused_option)); [done|]. intros e [= <-]. by right; right; left.
  - intros Hf. eapply (Hset g x); [done| |done]. by destruct Hx; [|intros ? [=]].
Qed.

Lemma plain_undangled v : plain_server v → undangled v.
Proof.
  intros (_ & Ht & _ & _). eapply Forall_impl; [exact Ht|]. by intros [].
Qed.

(** The refusals after a listener moved on, or came. *)
Lemma refusals_set f x l h v :
  sv_listeners v !! f = Some (Accepting l h) → refusals (set_listener f x v) = (refusals v + refusal x)%nat.
Proof.
  intros Hf. unfold refusals. simpl. rewrite list_fmap_insert.
  assert ((refusal <$> sv_listeners v) !! f = Some 0%nat) as H0 by by rewrite list_lookup_fmap, Hf.
  pose proof (sum_list_insert _ f (refusal x) _ H0). lia.
Qed.

Lemma refusals_add x v : refusals (add_listener x v) = (refusals v + refusal x)%nat.
Proof. unfold refusals. simpl. rewrite fmap_app, sum_list_with_app. simpl. lia. Qed.

Lemma no_refusal v l x : waits_or_ends v l x → refusal x = 0%nat.
Proof. by destruct 1. Qed.

Lemma ended_no_refusal r : ended_result r → refusal (Finished r) = 0%nat.
Proof. by intros [->| ->]. Qed.

(** A plain server whose listener [g] moves on to [x] having given up [cs]. *)
Lemma plain_set g l h x cs v :
  sv_listeners v !! g = Some (Accepting l h) → (∀ l h, x = Accepting l h → l_tls l = None) →
  length cs = refusal x → plain_server v →
  plain_server (set_listener g x (Server (sv_port v) (sv_stop_requested v) (sv_listeners v) (sv_tasks v)
    (sv_accepted v) (sv_handled v) (sv_dropped v ++ cs) (sv_late_timers v))).
Proof.
  intros Hg Hx Hcs (Hl & Ht & Hh & Hd & H0). split_and!; try done.
  - intros f l' h'. simpl. rewrite list_lookup_insert. case_decide; [|by apply Hl].
    intros [= E]. by eapply Hx.
  - pose proof (refusals_set g x l h v Hg) as Hr. unfold refusals in *. simpl in *.
    rewrite length_app. lia.
Qed.

Lemma plain_add x v :
  (∀ l h, x = Accepting l h → l_tls l = None) → refusal x = 0%nat → plain_server v →
  plain_server (add_listener x v).
Proof.
  intros Hx H0 (Hl & Ht & Hh & Hd & Hz). split_and!; try done.
  - intros f l' h' [?|[_ E]]%lookup_app_Some; [by eapply Hl|].
    apply list_lookup_singleton_Some in E as [_ E]. by eapply Hx.
  - rewrite refusals_add. simpl. lia.
Qed.

(** A plain server whose tasks are others, of the same kind. *)
Lemma plain_tasks ts v : Forall plain_task ts → plain_server v → plain_server (set_tasks ts v).
Proof. intros Hts (Hl & _ & Hh & Hd & Hz). by split_and!. Qed.

Lemma move_plain e v v' :
  server_move e v v' → is_ListenTls e = false → plain_server v → plain_server v'.
Proof.
  intros Hm He Hv. pose proof Hv as (Hl & Ht & Hh & Hd & Hz).
  assert (Hdel : ∀ i ts, Forall plain_task ts → Forall plain_task (delete i (sv_tasks v) ++ ts)).
  { intros i ts Hts. apply Forall_app. split; [by apply Forall_delete|done]. }
  assert (Htask : ∀ i t, sv_tasks v !! i = Some t → plain_task t).
  { intros i t Hi. by eapply Forall_lookup_1. }
  assert (Hset : ∀ g l h x, sv_listeners v !! g = Some (Accepting l h) →
    (∀ l h, x = Accepting l h → l_tls l = None) → refusal x = 0%nat → plain_server (set_listener g x v)).
  { intros g l h x Hg Hx H0. pose proof (plain_set g l h x [] v Hg Hx (eq_sym H0) Hv) as Hp.
    rewrite app_nil_r in Hp. by destruct v. }
  destruct Hm as [|e v err He' Hr|e v l x He' Hlt Hx|g ec v l h r Hg Hr|g ec v l h Hg|g ec v l h x Hg Hx|i v c Hi|
    i v c f k t Hi|i v v' c k t Hi|i v v' t Hi Hn|i v cls c h k Hi Hk|]; try done.
  - apply plain_add; [done| |done]. by destruct Hr as [->|[? _]]; [|congruence].
  - apply plain_add; [|by eapply no_refusal|done]. intros l' h' ->. inversion Hx; subst. by apply Hlt.
  - apply (Hset g l h); [done|done|by apply ended_no_refusal].
  - by apply (plain_set g l h (Finished refused_option) [h] v).
  - assert (plain_server (set_listener g x v)) as (Hl' & _ & _ & Hd' & _).
    { apply (Hset g l h); [done| |by eapply no_refusal]. intros l' h' ->. inversion Hx; subst. by eapply Hl. }
    split_and!; [exact Hl'| |exact Hh|exact Hd'|exact Hz].
    apply Forall_app. split; [done|]. unfold accept_task. rewrite (Hl _ _ _ Hg). by constructor.
  - apply plain_tasks; [|done]. apply Hdel. by constructor.
  - by apply Htask in Hi.
  - by apply Htask in Hi.
  - by apply Htask in Hi.
  - apply Htask in Hi as [_ ->]. apply (plain_tasks (delete i (sv_tasks v) ++ [])) in Hv; [|by apply Hdel].
    destruct Hv as (H1 & H2 & H3 & H4 & H5). split_and!; try done.
    apply Forall_app. split; [done|]. by constructor.
Qed.

(** Resuming a task brings the server nearer to having none. *)
Lemma all_runs_resumed i t ts v :
  sv_tasks v !! i = Some t →
  (all_runs (sv_tasks (resumed i ts v)) + task_runs t = all_runs (sv_tasks v) + all_runs ts)%nat.
Proof.
  intros Hi. unfold all_runs. rewrite (tasks_without task_runs i t v Hi). simpl.
  rewrite fmap_app, sum_list_with_app. lia.
Qed.

Lemma move_runs i v v' :
  server_move (RunTask i) v v' → (i < length (sv_tasks v))%nat →
  (all_runs (sv_tasks v') < all_runs (sv_tasks v))%nat ∧ sv_accepted v' = sv_accepted v ∧
  (undangled v → undangled v').
Proof.
  intros Hm [t0 Hi0]%lookup_lt_is_Some.
  assert (Hstep : ∀ ts t, sv_tasks v !! i = Some t → (all_runs ts < task_runs t)%nat →
    (all_runs (sv_tasks (resumed i ts v)) < all_runs (sv_tasks v))%nat).
  { intros ts t Hi Hlt. pose proof (all_runs_resumed i t ts v Hi). lia. }
  assert (Halive : ∀ ts, Forall plain_task ts ∨ (∃ c k t, ts = [Handshaking c k t]) ∨
    (∃ cls c k, ts = [CallHandler cls c k]) →
    undangled v → Forall (alive v) (delete i (sv_tasks v) ++ ts)).
  { intros ts Hts Hu. apply Forall_app. split; [by apply Forall_delete|].
    destruct Hts as [Hts|[(?&?&?&->)|(?&?&?&->)]]; [|by repeat constructor..].
    eapply Forall_impl; [exact Hts|]. by intros []. }
  inversion Hm as [e v0 Hidle| | | | | |? ? c Hi|? ? c f k t Hi|? ? v1 c k t Hi Hv1|? ? v1 t Hi Hn Hv1|
    ? ? cls c h k Hi Hk|]; subst; try done.
  - unfold idle in Hidle. congruence.
  - split_and!; [eapply Hstep; [exact Hi|unfold all_runs; simpl; lia]|done|apply Halive; naive_solver].
  - split_and!; [eapply Hstep; [exact Hi|unfold all_runs; simpl; lia]|done|apply Halive; naive_solver].
  - destruct Hv1; (split_and!;
      [eapply (Hstep [_]); [exact Hi|unfold all_runs; simpl; lia]|done|apply Halive; naive_solver]).
  - assert (all_runs [] < task_runs t)%nat by (destruct t; unfold all_runs; simpl; lia).
    destruct Hv1; (split_and!; [by eapply (Hstep []); [exact Hi|]|done|apply Halive; by left; constructor]).
  - split_and!; [eapply (Hstep []); [exact Hi|unfold all_runs; simpl; lia]|done|apply Halive; by left; constructor].
Qed.
End invariants.

(** ** What the network's operations leave alone *)

(** [R] relates the network before and after every operation that is not one of the
    acceptor. *)
Class QuietNetwork {W : Type} `{A : Asio W} `{AC : !AsioConnect W} `{SI : !SocketIds W} `{OS : !OpenSsl W}
    `{AT : !AsioTls W} `{AP : !AsioAcceptor W} (R : W → W → Prop) := {
  quiet_preorder :: PreOrder R;
  quiet_new_socket w : R w (new_tcp_socket w).2;
  quiet_option h o w : R w (set_option h o w).2;
  quiet_destroy h w : R w (destroy_stream h w);
  quiet_accept h w : R w (accept_into h w);
  quiet_ids n w : R w (set_id_counter n w);
  quiet_ctx w w' : ctx_step w w' → R w w';
  quiet_ssl_stream h c w : R w (ssl_stream_new h c w).2;
  quiet_ciphers h b w : R w (SSL_set_cipher_list h b w).2;
  quiet_curves h b w : R w (SSL_set1_curves_list h b w).2;
  quiet_verify_mode h m w : R w (stream_set_verify_mode h m w);
  quiet_verify_depth h d w : R w (stream_set_verify_depth h d w);
  quiet_set_options h ops w : R w (SSL_set_options h ops w);
  quiet_clear_options h ops w : R w (SSL_clear_options h ops w);
  quiet_handshake h t w : R w (async_handshake_server h t w).2
}.

#[export] Instance quiet_anything {W : Type} `{A : Asio W} `{AC : !AsioConnect W} `{SI : !SocketIds W}
  `{OS : !OpenSsl W} `{AT : !AsioTls W} `{AP : !AsioAcceptor W} : QuietNetwork (W := W) (λ _ _, True).
Proof. by split; [split|..]. Qed.

(** The code that runs on the network alone: it ends, and is as quiet as the network. *)
Definition quiet {W B} (R : W → W → Prop) (m : M W B) : Prop := ∀ w, wp m (λ _ w', R w w') w.

Section quiet.
Context {W : Type} (R : W → W → Prop) `{PR : !PreOrder R}.

Lemma quiet_ret {B} (b : B) : quiet R (mret b).
Proof. intros w. wp_step. reflexivity. Qed.
Lemma quiet_gets {B} (f : W → B) : quiet R (gets f).
Proof. intros w. wp_step. reflexivity. Qed.
Lemma quiet_bind {B C} (m : M W B) (k : B → M W C) : quiet R m → (∀ b, quiet R (k b)) → quiet R (m ≫= k).
Proof.
  intros Hm Hk w. wp_step. eapply wp_mono; [apply Hm|]. intros b w1 H1.
  eapply wp_mono; [apply Hk|]. intros c w2 H2. simpl in *. by etrans; [exact H1|].
Qed.
Lemma quiet_modify f : (∀ w, R w (f w)) → quiet R (modify f).
Proof. intros Hf w. wp_step. apply Hf. Qed.
Lemma quiet_run {B} (f : W → B * W) : (∀ w, R w (f w).2) → quiet R (run f).
Proof. intros Hf w. unfold wp, run. specialize (Hf w). by destruct (f w). Qed.
End quiet.

Ltac quiet_law :=
  intros; first
    [ exact I | apply quiet_new_socket | apply quiet_option | apply quiet_destroy | apply quiet_accept
    | apply quiet_ids | apply quiet_ssl_stream | apply quiet_ciphers | apply quiet_curves
    | apply quiet_verify_mode | apply quiet_verify_depth | apply quiet_set_options
    | apply quiet_clear_options | apply quiet_handshake ].

Ltac quiet :=
  repeat first
    [ assumption | match goal with H : ∀ _, quiet _ _ |- _ => apply H end
    | apply quiet_ret; apply _ | apply quiet_gets; apply _ | apply quiet_bind; [apply _| |intros ?]
    | apply quiet_modify; quiet_law | apply quiet_run; quiet_law
    | match goal with |- quiet _ (match ?x with _ => _ end) => destruct x end ].

Section quiet_operations.
Context {W : Type} `{AE : AsioErrors} `{A : !Asio W} `{AC : !AsioConnect W} `{SI : !SocketIds W}.
Context `{OS : !OpenSsl W} `{AT : !AsioTls W} `{AP : !AsioAcceptor W}.
Context (R : W → W → Prop) `{QN : !QuietNetwork R}.

Lemma quiet_ctx_only {B} (m : M W B) : ctx_only m → quiet R m.
Proof.
  intros Hm w. eapply wp_mono; [apply Hm|]. simpl. intros _ w' Hr.
  induction Hr as [|w1 w2 w3 H1 _ IH]; [reflexivity|]. etrans; [by apply quiet_ctx|done].
Qed.

Lemma quiet_tcp_options h o : quiet R (server_applyPreConnectTcpOptions h o).
Proof.
  unfold server_applyPreConnectTcpOptions, applyPreConnectTcpOptions, set_socket_option, bind_expected, when.
  quiet.
Qed.

Lemma quiet_tls_options h o : quiet R (server_applyPreConnectTlsOptions h o).
Proof.
  unfold server_applyPreConnectTlsOptions, applyPreConnectTlsOptions, set_list. quiet.
Qed.

Lemma quiet_tls_context o so : quiet R (createTlsContextWrapper o so).
Proof.
  pose proof (λ so, quiet_ctx_only _ (Private_new_ctx_only o so)). unfold createTlsContextWrapper. quiet.
Qed.

Lemma quiet_make_socket cls h : quiet R (make_socket cls h).
Proof. unfold make_socket. quiet. Qed.
End quiet_operations.

(** ** Events end *)

Section progress.
Context {W : Type} `{AE : AsioErrors} `{A : !Asio W} `{AC : !AsioConnect W} `{SI : !SocketIds W}.
Context `{OS : !OpenSsl W} `{AT : !AsioTls W} `{AP : !AsioAcceptor W}.
Implicit Types s : server (W := W) * W.

(** Code of the server that ends, and is as quiet as the network. *)
Definition quietly {B} (R : W → W → Prop) (m : M (server (W := W) * W) B) : Prop :=
  ∀ s, wp m (λ _ s', R s.2 s'.2) s.

Section rules.
Context (R : W → W → Prop) `{PR : !PreOrder R}.

Lemma quietly_ret {B} (b : B) : quietly R (mret b).
Proof. intros s. wp_step. reflexivity. Qed.
Lemma quietly_gets {B} (f : server * W → B) : quietly R (gets f).
Proof. intros s. wp_step. reflexivity. Qed.
Lemma quietly_on_server f : quietly R (on_server f).
Proof. intros s. unfold on_server. wp_step. simpl. reflexivity. Qed.
Lemma quietly_in_world {B} (m : M W B) : quiet R m → quietly R (in_world m).
Proof. intros Hm s. rewrite wp_in_world. apply Hm. Qed.
Lemma quietly_bind {B C} (m : M (server * W) B) (k : B → M (server * W) C) :
  quietly R m → (∀ b, quietly R (k b)) → quietly R (m ≫= k).
Proof.
  intros Hm Hk s. wp_step. eapply wp_mono; [apply Hm|]. intros b s1 H1.
  eapply wp_mono; [apply Hk|]. intros c s2 H2. simpl in *. by etrans; [exact H1|].
Qed.
End rules.

Ltac quiet_operation :=
  first [ apply quiet_tcp_options | apply quiet_tls_options | apply quiet_tls_context
        | apply quiet_make_socket ]; apply _.

Ltac quietly :=
  repeat first
    [ assumption | match goal with H : ∀ _, quietly _ _ |- _ => apply H end
    | apply quietly_ret; apply _ | apply quietly_gets; apply _ | apply quietly_on_server; apply _
    | apply quietly_in_world; solve [quiet | quiet_operation]
    | apply quietly_bind; [apply _| |intros ?]
    | match goal with |- quietly _ (match ?x with _ => _ end) => destruct x end ].

Section operations.
Context (R : W → W → Prop) `{QN : !QuietNetwork R}.

Lemma quietly_accept_next f l : quietly R (accept_next f l).
Proof. unfold accept_next, finish. quietly. Qed.

Lemma quietly_accept_completed f l h ec : quietly R (accept_completed f l h ec).
Proof.
  pose proof (quietly_accept_next f l). unfold accept_completed, finish_without, finish, co_spawn. quietly.
Qed.

(** The resumption of a task whose references are alive. *)
Lemma quietly_run_task handler t s :
  (∀ k, quiet R (handler k)) → alive s.1 t → wp (run_task handler t) (λ _ s', R s.2 s'.2) s.
Proof.
  intros Hh Ht. destruct t as [c|c f|c k t|cls c h]; simpl.
  - revert s Ht. cut (quietly R (acceptPlainSocket c)); [by auto|]. unfold acceptPlainSocket, co_spawn. quietly.
  - unfold acceptTlsSocket. wp_steps. simpl in Ht. destruct (frame_variables f s.1) as [[o ctx]|]; [|by destruct Ht].
    clear Ht. revert s. match goal with |- ∀ s, wp ?m _ s => cut (quietly R m); [by auto|] end.
    unfold drop_connection, co_spawn. quietly.
  - revert s Ht. cut (quietly R (handshake_completed c k t)); [by auto|].
    unfold handshake_completed, cancel_timer, drop_connection, co_spawn. quietly.
  - revert s Ht. cut (quietly R (call_handler handler cls c h)); [by auto|].
    unfold call_handler. quietly.
Qed.
End operations.

(** A task whose references dangle is undefined behaviour. *)
Lemma dangling_undefined handler t s Q : ¬ alive s.1 t → wlp (run_task handler t) Q s.
Proof.
  destruct t as [c|c f|c k t|cls c h]; intros Ht; try by destruct Ht. simpl in *.
  unfold acceptTlsSocket. wp_steps. destruct (frame_variables f s.1); [by destruct Ht|done].
Qed.

(** Code that always ends, without an exception and without undefined behaviour. *)
Abbreviation total := (quietly (λ _ _ : W, True)).

Lemma total_run {B} (f : W → B * W) : quiet (λ _ _, True) (run f).
Proof. by apply quiet_run. Qed.

Lemma total_listen_setup b : total (listen_setup b).
Proof.
  unfold listen_setup, acceptor_step, bind_expected. pose proof (@total_run error_code). quietly.
Qed.

Lemma total_step_listening handler e : is_listening e = true → total (step handler e).
Proof.
  pose proof total_listen_setup. pose proof (quietly_accept_next (λ _ _ : W, True)).
  destruct e; try done; intros _; simpl;
    unfold asyncListen, asyncListenTls, new_frame, finish, bind_expected; quietly; auto.
Qed.

(** Stopping sets the flag, even when it throws, and changes nothing else. *)
Lemma step_stop_server handler s : wp (step handler Stop) (λ _ s', s'.1 = set_stop_requested s.1) s.
Proof.
  unfold wp, step, Server_stop, ServerBase_stop, or_throw, in_world, run, on_server, zoom.
  unfold mbind, M_bind. simpl. destruct (acceptor_cancel s.2) as [ec w1]. simpl.
  destruct (acceptor_cancel w1) as [ec1 w2]. simpl. destruct (ec_bool ec1); simpl; [done|].
  destruct (acceptor_close w2) as [ec2 w3]. simpl. by destruct (ec_bool ec2).
Qed.

(** The task that an event resumes, if any, is alive, and no timer handler is late. *)
Definition resumable (e : event) (v : server (W := W)) : Prop :=
  match e with
  | RunTask i => ∀ t, sv_tasks v !! i = Some t → alive v t
  | RunTimer => sv_late_timers v = 0%nat
  | _ => True
  end.

Lemma undangled_resumable i v : undangled v → resumable (RunTask i) v.
Proof. intros Hv t Hi. by eapply Forall_lookup_1. Qed.

Lemma plain_resumable e v : plain_server v → resumable e v.
Proof.
  intros Hv. destruct e as [| | |i| |]; try done; [by apply undangled_resumable, plain_undangled|].
  by destruct Hv as (_ & _ & _ & _ & ?).
Qed.

(** Otherwise the event resumes what refers to a frame that is gone. *)
Lemma resumable_or_dangles e v :
  resumable e v ∨
  (∃ i c f, e = RunTask i ∧ sv_tasks v !! i = Some (AcceptTls c f) ∧ frame_variables f v = None) ∨
  e = RunTimer ∧ (0 < sv_late_timers v)%nat.
Proof.
  destruct e as [| | |i| |]; try by left.
  - destruct (sv_tasks v !! i) as [t|] eqn:Hi; [|left; intros t; by rewrite Hi].
    destruct (decide (alive v t)) as [Ha|Ha]; [left; intros t'; rewrite Hi; by intros [= <-]|].
    right. left. destruct t as [|c f| |]; try by destruct Ha. exists i, c, f. split_and!; [done..|].
    simpl in Ha. by apply eq_None_not_Some.
  - simpl. destruct (sv_late_timers v); [by left|]. right. right. split; [done|lia].
Qed.

(** Every event whose task is alive is handled to its end. *)
Lemma step_total handler e s :
  (∀ k w, wp (handler k) (λ _ _, True) w) → resumable e s.1 → wp (step handler e) (λ _ _, True) s.
Proof.
  intros Hh He. destruct (is_listening e) eqn:El; [by apply total_step_listening|].
  destruct e as [o|so o t|f ec|i| |]; try done.
  - destruct (sv_listeners s.1 !! f) as [[|l h|r|]|] eqn:Hf;
      try by eapply (wp_at _ (mret tt)); [simpl; rewrite Hf|].
    eapply wp_at; [simpl; rewrite Hf; reflexivity|]. clear Hf. revert s He.
    match goal with |- ∀ s, _ → wp ?m _ s => cut (total m); [by auto|] end.
    pose proof (quietly_accept_completed (λ _ _ : W, True) f l h ec). quietly.
  - destruct (sv_tasks s.1 !! i) as [t|] eqn:Hi; [|by eapply (wp_at _ (mret tt)); [simpl; rewrite Hi|]].
    eapply wp_at; [simpl; rewrite Hi; reflexivity|]. unfold on_server. wp_steps.
    eapply wp_mono; [by apply (quietly_run_task (λ _ _, True)); [|apply He]|done].
  - simpl in He. by eapply (wp_at _ (mret tt)); [simpl; rewrite He|].
  - eapply wp_mono; [apply step_stop_server|done].
Qed.
End progress.

(** ** The acceptor *)

(** The operations of the network leave the acceptor alone, but for its own. *)
Definition same_acceptor {W : Type} `{A : Asio W} `{AC : !AsioConnect W} `{AP : !AsioAcceptor W}
    (w w' : W) : Prop := acceptor_is_open w' = acceptor_is_open w.

Section acceptor.
Context {W : Type} `{AE : AsioErrors} `{A : !Asio W} `{AC : !AsioConnect W} `{SI : !SocketIds W}.
Context `{OS : !OpenSsl W} `{AT : !AsioTls W} `{AP : !AsioAcceptor W} `{PS : !AsioAcceptorSpec W}.
Implicit Types s : server (W := W) * W.

(** Calls that are made one after the other up to the first that fails: whether all of
    them succeeded, and the network then. *)
Inductive called : list (W → error_code * W) → W → bool → W → Prop :=
| none_left w : called [] w true w
| call_refused f fs w ec w' : f w = (ec, w') → ec_bool ec = true → called (f :: fs) w false w'
| call_accepted f fs w ec w1 ok w' :
    f w = (ec, w1) → ec_bool ec = false → called fs w1 ok w' → called (f :: fs) w ok w'.

(** The calls that set up the acceptor. The option for reusing the address is not heeded
    with TLS. *)
Definition setup_calls (reuse : bool) (port : Z) : list (W → error_code * W) :=
  [acceptor_open; acceptor_reuse_address reuse; acceptor_bind port; acceptor_listen].

Definition reuses (e : event) : bool := match e with Listen o => reuse_addr o | _ => true end.

(** One of the files a TLS listener needs is not there. *)
Definition files_missing (e : event) (w : W) : bool :=
  match e with
  | ListenTls so _ _ => path_missing (cert_chain_path so) w || path_missing (private_key_path so) w
  | _ => false
  end.

(** The listener of a call has the call's options. *)
Definition has_options (e : event) (l : listening (W := W)) : Prop :=
  match e with
  | Listen o => l = Listening o None
  | ListenTls _ o t => l_tcp l = o ∧ ∃ ctx, l_tls l = Some (t, ctx)
  | _ => False
  end.

(** One step of the setup, before the other calls. *)
Lemma acceptor_step_called f fs (k : unit → M (server (W := W) * W) (result unit))
    (Q : result unit → W → Prop) s :
  (∀ ec w, f s.2 = (ec, w) → ec_bool ec = true → Q (Unexpected not_set_up) w) →
  (∀ ec w, f s.2 = (ec, w) → ec_bool ec = false →
    wp (k tt) (λ r s', s'.1 = s.1 ∧ called fs w (has_value r) s'.2 ∧ Q r s'.2) (s.1, w)) →
  wp (bind_expected (acceptor_step f) k) (λ r s',
    s'.1 = s.1 ∧ called (f :: fs) s.2 (has_value r) s'.2 ∧ Q r s'.2) s.
Proof.
  intros Hfail Hgo. wp_step. eapply wp_mono; [apply acceptor_step_outcome|]. intros r1 s1 [-> ->].
  destruct (f s.2) as [ec w1] eqn:Hf. simpl. destruct (ec_bool ec) eqn:Hec; cbn beta iota.
  - simpl. split_and!; [done|by eapply call_refused|by eapply Hfail].
  - eapply wp_mono; [by eapply Hgo|]. simpl. intros r s' (-> & Hc & HQ).
    split_and!; [done|by eapply call_accepted|done].
Qed.

(** Setting up the acceptor: it fails when it is open already, and does not close it
    again when a later step fails. *)
Lemma listen_setup_outcome b s :
  wp (listen_setup b) (λ r s', s'.1 = s.1 ∧ called (setup_calls b (sv_port s.1)) s.2 (has_value r) s'.2 ∧
    (acceptor_is_open s.2 = true → has_value r = false ∧ acceptor_is_open s'.2 = true) ∧
    match r with Ok _ => acceptor_is_open s'.2 = true | Unexpected e => e = not_set_up end) s.
Proof.
  unfold listen_setup, setup_calls. wp_step.
  set (Q := λ (r : result unit) w,
    (acceptor_is_open s.2 = true → has_value r = false ∧ acceptor_is_open w = true) ∧
    match r with Ok _ => acceptor_is_open w = true | Unexpected e => e = not_set_up end).
  apply (acceptor_step_called _ _ _ Q).
  { intros ec w Hf%acceptor_open_spec _. split; [|done]. intros Ho.
    by destruct (proj1 Hf Ho). }
  intros ec w1 Hf%acceptor_open_spec Hec. destruct Hf as [Hwas Hnow].
  assert (Hnot : acceptor_is_open s.2 ≠ true) by (intros [? _]%Hwas; congruence). specialize (Hnow Hec).
  cbv beta. apply (acceptor_step_called _ _ _ Q (s.1, _)); [by split; [intros ?%Hnot|]|].
  cbn [fst snd]. intros ec2 w2 Hf2 _. pose proof (acceptor_reuse_keeps b w1) as Hk2. rewrite Hf2 in Hk2.
  cbv beta. apply (acceptor_step_called _ _ _ Q (s.1, _)); [by split; [intros ?%Hnot|]|].
  cbn [fst snd]. intros ec3 w3 Hf3 _. pose proof (acceptor_bind_keeps (sv_port s.1) w2) as Hk3. rewrite Hf3 in Hk3.
  cbv beta. eapply wp_mono; [apply acceptor_step_outcome|]. cbn [fst snd]. intros r [v' w'] [[= -> ->] ->].
  pose proof (acceptor_listen_keeps w3) as Hk4. destruct (acceptor_listen w3) as [ec4 w4] eqn:Hf4. simpl in *.
  destruct (ec_bool ec4) eqn:Hec4; split_and!; try done; try by intros ?%Hnot.
  - by eapply call_refused.
  - eapply call_accepted; [done..|constructor].
  - split; [by intros ?%Hnot|congruence].
Qed.

Context `{QN : !QuietNetwork same_acceptor}.

(** What a call of listen comes to: its listener [x], and the network afterwards. *)
Definition listens (e : event) s x s' : Prop :=
  s'.1 = add_listener x s.1 ∧ ∃ ok w, called (setup_calls (reuses e) (sv_port s.1)) s.2 ok w ∧
  (acceptor_is_open s.2 = true → ok = false) ∧
  (ok = true ∨ acceptor_is_open s.2 = true → acceptor_is_open s'.2 = true) ∧
  if ok then
    if files_missing e w then x = Finished (Unexpected (make_error_code TLS_CERT_LOAD_FAILURE)) ∧ s'.2 = w
    else if isStopped s then x = Finished (Ok tt)
    else ∃ l h, x = Accepting l h ∧ has_options e l
  else x = Finished (Unexpected not_set_up) ∧ s'.2 = w.

Lemma accept_next_outcome l s0 s :
  s.1 = add_listener Starting s0.1 → acceptor_is_open s.2 = true →
  wp (accept_next (length (sv_listeners s0.1)) l) (λ _ s', ∃ x, s'.1 = add_listener x s0.1 ∧
    acceptor_is_open s'.2 = true ∧
    if isStopped s0 then x = Finished (Ok tt) else ∃ h, x = Accepting l h) s.
Proof.
  intros Hs Hopen. assert (isStopped s = isStopped s0) as Hst by (unfold isStopped; by rewrite Hs).
  unfold accept_next. wp_steps. rewrite Hst. destruct (isStopped s0) eqn:Hs0.
  - unfold finish, on_server. wp_steps. exists (Finished (Ok tt)). by rewrite Hs, set_new_listener.
  - rewrite wp_bind, wp_in_world, wp_run_pair. unfold on_server. wp_steps. simpl.
    exists (Accepting l (new_tcp_socket s.2).1). rewrite Hs, set_new_listener. split_and!; [done| |by eexists].
    etrans; [apply (quiet_new_socket (R := same_acceptor) s.2)|done].
Qed.

(** A call whose setup, and nothing more, has failed. *)
Lemma listen_refused e s s1 w :
  called (setup_calls (reuses e) (sv_port s.1)) s.2 false w → s1.1 = add_listener Starting s.1 → s1.2 = w →
  (acceptor_is_open s.2 = true → acceptor_is_open w = true) →
  wp (finish (length (sv_listeners s.1)) (Unexpected not_set_up)) (λ _ s', ∃ x, listens e s x s') s1.
Proof.
  intros Hc Hs <- Ho. unfold finish, on_server. wp_steps. exists (Finished (Unexpected not_set_up)).
  rewrite Hs, set_new_listener. split; [done|]. exists false, s1.2. split; [done|]. split; [done|]. split; [|done].
  intros [?|?]; [done|by apply Ho].
Qed.

Lemma asyncListen_outcome o s : wp (asyncListen o) (λ _ s', ∃ x, listens (Listen o) s x s') s.
Proof.
  unfold asyncListen, new_frame, on_server. wp_steps. cbn [fst snd].
  eapply wp_mono; [apply listen_setup_outcome|]. cbn [fst snd]. intros [[]|e] s1 (Hs1 & Hc & Hopen & Hr).
  - eapply wp_mono; [by eapply accept_next_outcome|]. intros _ s' (x & Hs' & Ho & Hx). exists x.
    split; [done|]. exists true, s1.2. split_and!; [done|by intros [? _]%Hopen|done|]. simpl.
    destruct (isStopped s); [done|]. destruct Hx as [h ->]. by eexists _, _.
  - subst e. eapply listen_refused; [exact Hc|done|done|by apply Hopen].
Qed.

Lemma tls_context_outcome o so (w : W) :
  wp (createTlsContextWrapper o (Some so)) (λ r w',
    if path_missing (cert_chain_path so) w || path_missing (private_key_path so) w
    then r = Unexpected (make_error_code TLS_CERT_LOAD_FAILURE) ∧ w' = w
    else has_value r = true ∧ same_acceptor w w') w.
Proof.
  unfold createTlsContextWrapper. do 2 (rewrite wp_bind, wp_gets; destruct (path_missing _ w); [by wp_steps|]).
  simpl. wp_step. eapply wp_mono; [apply (quiet_ctx_only same_acceptor), Private_new_ctx_only|].
  simpl. intros c w' Hw. by wp_steps.
Qed.

Lemma asyncListenTls_outcome so o t s :
  wp (asyncListenTls so o t) (λ _ s', ∃ x, listens (ListenTls so o t) s x s') s.
Proof.
  unfold asyncListenTls, new_frame, on_server. wp_steps. cbn [fst snd].
  eapply wp_mono; [apply listen_setup_outcome|]. cbn [fst snd]. intros [[]|e] s1 (Hs1 & Hc & Hopen & Hr).
  2: { subst e. eapply listen_refused; [exact Hc|done|done|by apply Hopen]. }
  assert (acceptor_is_open s.2 = true → True = False) as Hnot by by intros [? _]%Hopen.
  rewrite wp_in_world. eapply wp_mono; [apply tls_context_outcome|].
  set (missing := path_missing _ _ || _). destruct missing eqn:Hm; unfold missing in Hm; clear missing.
  - intros r w2 [-> ->]. cbn beta iota. unfold finish, on_server. wp_steps. cbn [fst snd].
    exists (Finished (Unexpected (make_error_code TLS_CERT_LOAD_FAILURE))). rewrite Hs1, set_new_listener.
    split; [done|]. exists true, s1.2. split_and!; [done|by intros [? _]%Hopen|done|]. simpl. by rewrite Hm.
  - intros [ctx|e] w2 [Hv Ho2]; [|done]. unfold same_acceptor in Ho2. rewrite Hr in Ho2. cbn beta iota.
    eapply wp_mono; [by eapply accept_next_outcome|]. intros _ s' (x & Hs' & Ho & Hx). exists x.
    split; [done|]. exists true, s1.2. split_and!; [done|by intros [? _]%Hopen|done|]. simpl. rewrite Hm.
    destruct (isStopped s); [done|]. destruct Hx as [h ->]. eexists _, _. split; [done|]. split; [done|by eexists].
Qed.

Lemma listening_outcome handler e s :
  is_listening e = true → wp (step handler e) (λ _ s', ∃ x, listens e s x s') s.
Proof.
  destruct e as [o|so o t| | | |]; intros Hl; try done; simpl.
  - apply asyncListen_outcome.
  - apply asyncListenTls_outcome.
Qed.

(** A call comes to wait only with an acceptor that it has opened itself, and only if the
    server was not stopped; when the acceptor was open before, the call fails. *)
Lemma listens_waits e s x s' :
  listens e s x s' →
  (acceptor_is_open s.2 = true → x = Finished (Unexpected not_set_up) ∧ acceptor_is_open s'.2 = true) ∧
  ((∃ r, x = Finished r) ∨
   (∃ l h, x = Accepting l h) ∧ isStopped s = false ∧ acceptor_is_open s'.2 = true).
Proof.
  intros (_ & ok & w & _ & Hwas & Hopen & Hx). split.
  - intros Ho. rewrite (Hwas Ho) in Hx. split; [by destruct Hx|]. apply Hopen. by right.
  - destruct ok; [|left; destruct Hx as [-> _]; by eexists]. specialize (Hopen (or_introl eq_refl)).
    destruct (files_missing e w); [left; destruct Hx as [-> _]; by eexists|].
    destruct (isStopped s); [left; by eexists|]. right. destruct Hx as (l & h & -> & _). by eauto.
Qed.

(** The other events, stopping apart, leave the acceptor alone. *)
Lemma same_acceptor_step handler e s :
  (∀ k, quiet same_acceptor (handler k)) → is_listening e = false → e ≠ Stop →
  wlp (step handler e) (λ _ s', same_acceptor s.2 s'.2) s.
Proof.
  intros Hh He Hstop. destruct e as [o|so o t|f ec|i| |]; try done.
  - destruct (sv_listeners s.1 !! f) as [[|l h|r|]|] eqn:Hf;
      try by eapply (wlp_at _ (mret tt)); [simpl; rewrite Hf|].
    eapply wlp_at; [simpl; rewrite Hf; reflexivity|]. clear Hf. apply wp_wlp. revert s.
    match goal with |- ∀ s, wp ?m _ s => cut (quietly same_acceptor m); [by auto|] end.
    apply quietly_bind; [apply _| |intros _; by apply quietly_accept_completed].
    destruct (ec_bool ec); [by apply quietly_ret; apply _|].
    apply quietly_in_world. quiet.
  - destruct (sv_tasks s.1 !! i) as [t|] eqn:Hi; [|by eapply (wlp_at _ (mret tt)); [simpl; rewrite Hi|]].
    eapply wlp_at; [simpl; rewrite Hi; reflexivity|]. unfold on_server. wp_steps.
    destruct (decide (alive (set_tasks (delete i (sv_tasks s.1)) s.1) t)) as [Ha|Ha].
    + apply wp_wlp. exact (quietly_run_task same_acceptor handler t (_, s.2) Hh Ha).
    + by apply dangling_undefined.
  - destruct (sv_late_timers s.1) eqn:Hl; [by eapply (wlp_at _ (mret tt)); [simpl; rewrite Hl|]|].
    by eapply wlp_at; [simpl; rewrite Hl; reflexivity|].
Qed.

(** At most one listener waits, and only with an open acceptor unless the server was
    stopped. *)
Definition exclusive s : Prop :=
  (pending s.1 ≤ 1)%nat ∧
  (pending s.1 = 1%nat → isStopped s = false → acceptor_is_open s.2 = true).

Lemma move_pending e v v' : server_move e v v' → is_listening e = false →
  (pending v' ≤ pending v)%nat ∧ (e ≠ Stop → sv_stop_requested v' = sv_stop_requested v).
Proof.
  assert (Hset : ∀ f x l h, sv_listeners v !! f = Some (Accepting l h) →
    (pending (set_listener f x v) ≤ pending v)%nat).
  { intros f x l h Hf. pose proof (pending_set f x _ _ Hf) as Hp. simpl in Hp.
    assert (waits x ≤ 1)%nat by (destruct x; simpl; lia). lia. }
  destruct 1 as [e v Hi|e v err He _|e v l x He _ Hx|f ec v l h r Hf|f ec v l h Hf|f ec v l h x Hf Hx| | |
    i v v' c k t Hi Hv|i v v' t Hi _ Hv| |]; intros Hl; try (by split); try congruence; try (by destruct Hv).
  - split; [by eapply Hset|done].
  - split; [by eapply (Hset f (Finished refused_option))|done].
  - split; [by eapply (Hset f x l h)|done].
Qed.

Lemma exclusive_step handler e s :
  (∀ k, quiet same_acceptor (handler k)) → exclusive s → wlp (step handler e) (λ _ s', exclusive s') s.
Proof.
  intros Hh [Hle Hopen]. destruct (is_listening e) eqn:He.
  - apply wp_wlp. eapply wp_mono; [by apply listening_outcome|].
    intros _ s' (x & Hx). pose proof (proj1 Hx) as Hs'. apply listens_waits in Hx as [Hwas Hx].
    unfold exclusive, isStopped. rewrite Hs', pending_add. simpl.
    assert (isStopped s = sv_stop_requested s.1) as Hst by done.
    destruct Hx as [[r ->]|((l & h & ->) & Hrun & Ho)]; simpl.
    + rewrite Nat.add_0_r. split; [done|]. intros Hp Hrun. apply Hwas, Hopen; [done|congruence].
    + assert (pending s.1 ≠ 1%nat) by by intros Hp; destruct Hwas as [[=] _]; apply Hopen.
      split; [lia|done].
  - assert (e = Stop ∨ e ≠ Stop) as [->|Hstop] by (destruct e; auto).
    { apply wp_wlp. eapply wp_mono; [apply step_stop_server|]. simpl. intros _ s' Hs'.
      unfold exclusive, isStopped. by rewrite Hs'. }
    eapply wlp_mono; [apply wlp_conj; [apply step_moves|by apply same_acceptor_step]|]. simpl.
    intros _ s' [Hm Ha]. destruct (move_pending _ _ _ Hm He) as [Hp Hst]. specialize (Hst Hstop).
    split; [lia|]. unfold isStopped. rewrite Hst, Ha. intros H1 H2. apply Hopen; [lia|done].
Qed.
End acceptor.
