(* ===== verification/ServerSpec.v ===== *)
(** What the server of the file Server promises: the theorems on listening, accepting,
    handing over and stopping, against an abstract service, and a concrete network to
    run the server on. *)

From S2P Require Import Prelude ErrorCodes ErrorTranslation FsPath Options TlsContext SocketBase Socket.
From S2P Require Import Client Server ServerInv.

(** ** An abstract service

    Connections wait, have been served, or were given up; some listeners wait for the
    next one each, and once the service is stopped none of them waits again. A connection
    may be given up as soon as it is accepted, which ends its listener. *)
Section service.
Context {C : Type}.

Record service := Service {
  waiting : list C;
  served : list C;
  given_up : list C;
  listeners : nat;
  stopped : bool
}.

(** Connections wait in no particular order. *)
Definition service_equiv (a b : service) : Prop :=
  waiting a ≡ₚ waiting b ∧ served a = served b ∧ given_up a = given_up b ∧
  listeners a = listeners b ∧ stopped a = stopped b.

#[export] Instance service_equiv_equivalence : Equivalence service_equiv.
Proof.
  split.
  - by intros a.
  - intros a b (H1 & H2 & H3 & H4 & H5). by split_and!.
  - intros a b c (H1 & H2 & H3 & H4 & H5) (H1' & H2' & H3' & H4' & H5').
    split_and!; [by rewrite H1|congruence..].
Qed.

Inductive service_step : service → service → Prop :=
| service_listens ws vs gs n : service_step (Service ws vs gs n false) (Service ws vs gs (S n) false)
| service_closes ws vs gs n b : service_step (Service ws vs gs (S n) b) (Service ws vs gs n b)
| service_accepts ws vs gs n b c :
    service_step (Service ws vs gs (S n) b) (Service (c :: ws) vs gs (if b then n else S n) b)
| service_refuses ws vs gs n b c :
    service_step (Service ws vs gs (S n) b) (Service ws vs (gs ++ [c]) n b)
| service_serves ws vs gs n b c :
    service_step (Service (c :: ws) vs gs n b) (Service ws (vs ++ [c]) gs n b)
| service_gives_up ws vs gs n b c :
    service_step (Service (c :: ws) vs gs n b) (Service ws vs (gs ++ [c]) n b)
| service_stops ws vs gs n b : service_step (Service ws vs gs n b) (Service ws vs gs n true).

(** At most one step, up to the order of what waits. *)
Definition service_may (a b : service) : Prop :=
  service_equiv a b ∨ ∃ a' b', service_equiv a a' ∧ service_step a' b' ∧ service_equiv b' b.

#[export] Instance service_may_proper : Proper (service_equiv ==> service_equiv ==> iff) service_may.
Proof.
  cut (∀ a b c d, service_equiv a b → service_equiv c d → service_may a c → service_may b d).
  { intros Hcut a b Hab c d Hcd. split; [by apply Hcut|].
    apply Hcut; by symmetry. }
  intros a b c d Hab Hcd [He|(a' & b' & H1 & H2 & H3)].
  - left. by rewrite <- Hab, <- Hcd.
  - right. exists a', b'. split_and!; [by rewrite <- Hab|done|by rewrite <- Hcd].
Qed.

Lemma service_may_step a b : service_step a b → service_may a b.
Proof. intros Hs. right. by exists a, b. Qed.
End service.
Arguments service C : clear implicits.

Section abstraction.
Context {W : Type} `{A : Asio W} `{OS : !OpenSsl W}.
Implicit Types v : server (W := W).

(** The service that a server implements. *)
Definition service_of v : service (stream W) :=
  Service (task_conn <$> sv_tasks v) (sv_handled v).*1 (sv_dropped v) (pending v) (sv_stop_requested v).

(** The accepts that the other listeners wait for. *)
Lemma pending_others f l h v :
  sv_listeners v !! f = Some (Accepting l h) →
  ∃ n, pending v = S n ∧ ∀ x, pending (set_listener f x v) = (n + waits x)%nat.
Proof.
  intros Hf. exists (pending (set_listener f Dropped v)).
  pose proof (pending_set f Dropped _ _ Hf) as Hp. simpl in Hp. split; [lia|].
  intros x. pose proof (pending_set f x _ _ Hf) as Hx. simpl in Hx. lia.
Qed.

(** Taking a task out of the ones that wait. *)
Lemma service_takes v i t :
  sv_tasks v !! i = Some t →
  service_equiv (service_of v) (Service (task_conn t :: (task_conn <$> delete i (sv_tasks v)))
    (sv_handled v).*1 (sv_dropped v) (pending v) (sv_stop_requested v)).
Proof. intros Hi. split_and!; [by apply tasks_without|done..]. Qed.

Lemma move_simulates e v v' : server_move e v v' → service_may (service_of v) (service_of v').
Proof.
  assert (Hstay : ∀ i t ts, sv_tasks v !! i = Some t → task_conn <$> ts = [task_conn t] →
    service_may (service_of v) (service_of (resumed i ts v))).
  { intros i t ts Hi Hts. left. split_and!; [|done..]. symmetry. by eapply resumed_conns. }
  destruct 1 as [|e v err He Hr|e v l x He Hl Hx|f ec v l h r Hf|f ec v l h Hf|f ec v l h x Hf Hx|i v c Hi|
    i v c f k t Hi|i v v' c k t Hi Hv|i v v' t Hi Hn Hv|i v cls c h k Hi Hk|]; try by eapply Hstay.
  - by left.
  - left. split_and!; try done. simpl. rewrite pending_add. simpl. lia.
  - destruct Hx as [h Hs|Hs].
    + unfold service_of. rewrite pending_add. simpl. rewrite Hs, Nat.add_1_r. apply service_may_step. constructor.
    + left. split_and!; try done. simpl. rewrite pending_add. simpl. lia.
  - destruct (pending_others f l h v Hf) as (n & Hn & Hset). unfold service_of at 1. rewrite Hn.
    unfold service_of. rewrite Hset, Nat.add_0_r. apply service_may_step. constructor.
  - destruct (pending_others f l h v Hf) as (n & Hn & Hset). unfold service_of at 1. rewrite Hn.
    unfold service_of. set (v1 := add_dropped h (add_accepted h v)).
    change (pending (set_listener f (Finished refused_option) v1)) with
      (pending (set_listener f (Finished refused_option) v)).
    rewrite Hset, Nat.add_0_r. apply service_may_step. constructor.
  - destruct (pending_others f l h v Hf) as (n & Hn & Hset).
    set (v1 := set_tasks (sv_tasks v ++ [accept_task f l h]) (add_accepted h v)).
    assert (Hw : task_conn <$> sv_tasks v1 ≡ₚ h :: (task_conn <$> sv_tasks v)).
    { simpl. rewrite fmap_app. unfold accept_task. rewrite Permutation_app_comm. by destruct (l_tls l). }
    right. eexists _, _. split_and!; [|apply (service_accepts (task_conn <$> sv_tasks v) (sv_handled v).*1
      (sv_dropped v) n (sv_stop_requested v) h)|]; split_and!; try done. simpl.
    change (pending (set_listener f x v1)) with (pending (set_listener f x v)). rewrite Hset.
    destruct Hx as [h' Hs|Hs]; rewrite Hs; simpl; lia.
  - pose proof (Hstay i (Handshaking c k t) [CallHandler TlsSocketClass c k] Hi eq_refl) as Hs. by destruct Hv.
  - right. eexists _, _. split_and!; [by apply service_takes|apply service_gives_up|].
    destruct Hv; split_and!; try done; simpl; by rewrite app_nil_r.
  - right. eexists _, _. split_and!; [by apply service_takes|apply service_serves|].
    split_and!; try done; simpl; [by rewrite app_nil_r|by rewrite fmap_app].
  - apply service_may_step. constructor.
Qed.
End abstraction.

(** ** Runs *)

Section runs.
Context {W : Type} `{AE : AsioErrors} `{A : !Asio W} `{AC : !AsioConnect W} `{SI : !SocketIds W}.
Context `{OS : !OpenSsl W} `{AT : !AsioTls W} `{AP : !AsioAcceptor W}.
Variable handler : socket W → M W unit.
Implicit Types s : server (W := W) * W.
Implicit Types v : server (W := W).

(** What every move keeps, a run keeps. *)
Lemma run_events_keeps (P : server → Prop) es s :
  (∀ e v v', e ∈ es → server_move e v v' → P v → P v') → P s.1 →
  wlp (run_events handler es) (λ _ s', P s'.1) s.
Proof.
  intros HP Hs. revert s Hs. induction es as [|e es IH]; intros s Hs; simpl; wp_steps; [done|].
  eapply wlp_mono; [apply step_moves|]. simpl. intros _ s1 Hm.
  apply IH; [|by eapply HP; [left|..]]. intros e' v v' He'. apply HP. by right.
Qed.

Lemma run_events_app es1 es2 Q s :
  wlp (run_events handler es1) (λ _ s', wlp (run_events handler es2) Q s') s →
  wlp (run_events handler (es1 ++ es2)) Q s.
Proof.
  revert s. induction es1 as [|e es1 IH]; intros s; simpl; [done|]. wp_steps. intros Hw.
  eapply wlp_mono; [exact Hw|]. simpl. intros _ s'. apply IH.
Qed.

Lemma run_events_simulates es s :
  wlp (run_events handler es) (λ _ s', rtc service_may (service_of s.1) (service_of s'.1)) s.
Proof.
  apply (run_events_keeps (λ v, rtc service_may (service_of s.1) (service_of v))); [|done].
  intros e v v' _ Hm Hr. eapply rtc_r; [exact Hr|by eapply move_simulates].
Qed.

(** On a server without TLS every run is handled to its end. *)
Lemma run_events_plain es s :
  (∀ k w, wp (handler k) (λ _ _, True) w) → Forall (λ e, is_ListenTls e = false) es →
  plain_server s.1 → wp (run_events handler es) (λ _ s', plain_server s'.1) s.
Proof.
  intros Hh Hes. revert s. induction Hes as [|e es He _ IH]; intros s Hs; simpl; wp_steps; [done|].
  eapply wp_mono; [eapply wp_conj; [|apply step_moves]|].
  - by apply step_total, plain_resumable.
  - simpl. intros _ s1 [_ Hm]. apply IH. by eapply move_plain.
Qed.

Lemma plain_server_new port : plain_server (Server_new (W := W) port).
Proof. split_and!; [done|by constructor..|done]. Qed.




(** A stopped server. *)
Lemma stopped_events es1 f ec es2 s :
  isStopped s = true →
  wlp (run_events handler (es1 ++ AcceptCompletes f ec :: es2)) (λ _ s', isStopped s' = true ∧
    (reserve s'.1 ≤ reserve s.1)%nat ∧
    ∀ l h, sv_listeners s'.1 !! f ≠ Some (Accepting l h)) s.
Proof.
  intros Hs. set (P := λ v, sv_stop_requested v = true ∧ (reserve v ≤ reserve s.1)%nat).
  assert (HP : ∀ e v v', server_move e v v' → P v → P v').
  { intros e v v' Hm [H1 H2]. destruct (move_stopped _ _ _ Hm H1) as (H3 & H4 & _). split; [done|lia]. }
  apply run_events_app.
  eapply wlp_mono; [apply (run_events_keeps P); [by intros e v v' _; apply HP|by split]|].
  cbn beta. intros _ s1 Hs1. cbn [run_events]. wp_step.
  eapply wlp_mono; [apply step_moves|]. simpl. intros _ s2 Hm.
  eapply wlp_mono; [apply (run_events_keeps
    (λ v, P v ∧ ∀ l h, sv_listeners v !! f ≠ Some (Accepting l h)))|].
  - intros e v v' _ Hm' [Hv Hf]. split; [by eapply HP|]. by apply (move_stopped _ _ _ Hm'); [apply Hv|].
  - split; [by eapply HP|]. eapply move_ends_wait; [done|apply Hs1].
  - simpl. intros _ s3 [[H1 H2] H3]. by split_and!.
Qed.

Lemma stop_and_wait es1 es2 f ec es3 s :
  wlp (run_events handler (es1 ++ Stop :: es2 ++ AcceptCompletes f ec :: es3)) (λ _ s',
    isStopped s' = true ∧ ∀ l h, sv_listeners s'.1 !! f ≠ Some (Accepting l h)) s.
Proof.
  apply run_events_app. unfold wlp at 1.
  destruct (run_events handler es1 s) as [[[]| | |] s1]; [|done..]. cbn [app run_events]. wp_step.
  eapply wlp_mono; [exact (wp_wlp _ _ _ (step_stop_server handler s1))|]. intros ? s2 Hs2.
  eapply wlp_mono; [apply stopped_events|].
  - unfold isStopped. by rewrite Hs2.
  - intros _ s3 (H1 & _ & H2). done.
Qed.

Lemma listen_fine o s :
  wlp (step handler (Listen o)) (λ _ s', listener_fine (length (sv_listeners s.1)) s'.1) s.
Proof.
  eapply wlp_mono; [apply step_moves|]. simpl. intros _ s' Hm. unfold listener_fine.
  inversion Hm as [? ? Hi|? ? err He Hr|? ? l x He Hl Hx| | | | | | | | |]; subst; simpl; [done|..];
    rewrite lookup_app_r, Nat.sub_diag by done; simpl.
  - destruct Hr as [->|[? _]]; [|done]. intros e [= <-]. by left.
  - by destruct Hx; [|intros ? [=]].
Qed.

(** What a blocking call returns, if it does; that it does when nobody listens with TLS. *)
Lemma blocking_listen_sound o es1 es2 ec es3 s :
  let f := length (sv_listeners s.1) in
  wlp (Server_listen handler o (es1 ++ Stop :: es2 ++ AcceptCompletes f ec :: es3)) (λ r s',
    isStopped s' = true ∧ sv_listeners s'.1 !! f = Some (Finished r) ∧ documented r) s.
Proof.
  intros f. unfold Server_listen, future_get. do 2 wp_step. fold f. wp_step.
  eapply wlp_mono; [apply listen_fine|]. simpl. intros _ s1 Hf. fold f in Hf. wp_step.
  eapply wlp_mono; [apply wlp_conj; [apply stop_and_wait|]|].
  { apply (run_events_keeps (listener_fine f)); [|exact Hf]. intros e v v' _ Hm. by eapply move_fine. }
  simpl. intros _ s2 ((Hst & Hp2) & Hf2). wp_steps. unfold listener_fine in Hf2.
  destruct (sv_listeners s2.1 !! f) as [[|l h|r|]|] eqn:Hl; try done.
  by destruct (Hp2 l h).
Qed.

Lemma blocking_listen_total o es s :
  (∀ k w, wp (handler k) (λ _ _, True) w) → plain_server s.1 → Forall (λ e, is_ListenTls e = false) es →
  wp (Server_listen handler o es) (λ _ _, True) s.
Proof.
  intros Hh Hs Hes. unfold Server_listen, future_get. do 3 wp_step.
  eapply wp_mono; [eapply wp_conj; [by apply step_total, plain_resumable|apply step_moves]|].
  simpl. intros _ s1 (_ & Hm). wp_step. eapply wp_mono; [apply run_events_plain; [done..|by eapply move_plain]|].
  simpl. intros _ s2 _. wp_steps. by destruct (sv_listeners s2.1 !! _) as [[|l h|r|]|].
Qed.
End runs.

Section tls_tasks.
Context {W : Type} `{CS : AsioConnectSpec W} `{OS : !OpenSsl W} `{AT : !AsioTls W}.
Context `{TS : !AsioTlsSpec W} `{AP : !AsioAcceptor W} `{PS : !AsioAcceptorSpec W}.
Implicit Types s : server (W := W) * W.





End tls_tasks.

(** ** Correctness *)

(** C9: the server, with TLS or without, implements the abstract service: whatever the
    order in which connections arrive, handshakes end, the threads run the spawned
    coroutines, and the user listens and stops, every event is at most one step of the
    service, which serves or gives up every connection at most once and, once stopped,
    waits for none but those it is waiting for. Without TLS every event moreover ends,
    without an exception and without undefined behaviour, if the client's handler
    returns. *)
Theorem server_refines_service {W : Type} `{AE : AsioErrors} `{A : !Asio W} `{AC : !AsioConnect W}
    `{SI : !SocketIds W} `{OS : !OpenSsl W} `{AT : !AsioTls W} `{AP : !AsioAcceptor W}
    (handler : socket W → M W unit) es port (w : W) :
  (∀ k w, wp (handler k) (λ _ _, True) w) →
  let Q (_ : unit) s := rtc service_may (Service [] [] [] 0 false) (service_of s.1) in
  wlp (run_events handler es) Q (Server_new port, w) ∧
  (Forall (λ e, is_ListenTls e = false) es → wp (run_events handler es) Q (Server_new port, w)).
Proof.
  intros Hh Q. pose proof (run_events_simulates handler es (Server_new port, w)) as Hr.
  split; [exact Hr|]. intros Hes. eapply wp_mono; [eapply wp_conj; [|exact Hr]|by intros ? s [_ ?]].
  by apply run_events_plain; [..|apply plain_server_new].
Qed.


(** C13: at most one call of listen waits for connections at a time. Whatever happened
    before, of calls, connections and stops, as long as the handler leaves the acceptor
    alone: listening once more while a call waits never waits as well, but ends at once
    and leaves the other call and its tasks as they were. On a server that was not
    stopped the acceptor is then open and the new call ends with SOCKET_CREATE_FAILED; on
    a stopped one, where a call may still wait for its last completion, it may end
    without an error. *)
Theorem listeners_exclusive {W : Type} `{AE : AsioErrors} `{A : !Asio W} `{AC : !AsioConnect W}
    `{SI : !SocketIds W} `{OS : !OpenSsl W} `{AT : !AsioTls W} `{AP : !AsioAcceptor W}
    `{PS : !AsioAcceptorSpec W} `{QN : !QuietNetwork same_acceptor}
    (handler : socket W → M W unit) es port e (w : W) :
  (∀ k, quiet same_acceptor (handler k)) → is_listening e = true →
  wlp (run_events handler es) (λ _ s, (pending s.1 ≤ 1)%nat ∧
    (pending s.1 = 1%nat → wp (step handler e) (λ _ s', ∃ r, s'.1 = add_listener (Finished r) s.1 ∧
       (isStopped s = false → acceptor_is_open s.2 = true ∧
          r = Unexpected (make_error_code SOCKET_CREATE_FAILED))) s))
    (Server_new port, w).
Proof.
  intros Hh He. assert (exclusive (Server_new (W := W) port, w)) as Hs by (split; [unfold pending; simpl; lia|done]).
  revert Hs. generalize (Server_new (W := W) port, w). induction es as [|e' es IH]; intros s Hs; simpl; wp_steps.
  - destruct Hs as [Hle Hopen]. split; [done|]. intros Hp.
    eapply wp_mono; [by apply listening_outcome|]. simpl. intros _ s' (x & Hx). pose proof (proj1 Hx) as Hs'.
    apply listens_waits in Hx as [Hwas [[r ->]|(_ & Hst & _)]].
    + exists r. split; [done|]. intros Hst. specialize (Hopen Hp Hst). by destruct (Hwas Hopen) as [[= ->] _].
    + exists (Unexpected not_set_up). destruct (Hwas (Hopen Hp Hst)) as [-> _]. split; [done|].
      by split; [apply Hopen|].
  - eapply wlp_mono; [by apply exclusive_step|]. simpl. intros _ s1. apply IH.
Qed.

(** C14: if the client's handler returns, no event throws, apart from what a call of stop
    throws to its caller, and an event of a server that exists is undefined behaviour in
    exactly two cases: a TLS connection is taken up after its listener has ended, because
    its coroutine refers to the options and the context in the frame of the listener; or
    the timer of a TLS handshake had expired but its handler was still queued when the
    handshake ended, and runs only then, because it refers to the frame of the coroutine
    of the handshake. *)
Theorem step_undefined_iff {W : Type} `{AE : AsioErrors} `{A : !Asio W} `{AC : !AsioConnect W}
    `{SI : !SocketIds W} `{OS : !OpenSsl W} `{AT : !AsioTls W} `{AP : !AsioAcceptor W}
    (handler : socket W → M W unit) e (s : server (W := W) * W) :
  (∀ k w, wp (handler k) (λ _ _, True) w) →
  ((step handler e s).1 = Done tt ∨ (step handler e s).1 = Undef) ∧
  ((step handler e s).1 = Undef ↔
   (∃ i c f, e = RunTask i ∧ sv_tasks s.1 !! i = Some (AcceptTls c f) ∧ frame_variables f s.1 = None) ∨
   e = RunTimer ∧ (0 < sv_late_timers s.1)%nat).
Proof.
  intros Hh. destruct (resumable_or_dangles e s.1) as [Hr|[(i & c & f & -> & Hi & Hf)|[-> Hl]]].
  - pose proof (step_total handler e s Hh Hr) as Ht. unfold wp in Ht.
    destruct (step handler e s) as [[[]| | |] s'] eqn:Hs; try done. split; [by left|]. simpl. split; [done|].
    intros [(i & c & f & -> & Hi & Hf)|[-> Hl]]; simpl in Hr; [|lia].
    specialize (Hr _ Hi). simpl in Hr. rewrite Hf in Hr. by destruct Hr.
  - assert ((step handler (RunTask i) s).1 = Undef) as Hu.
    { simpl. rewrite Hi. unfold on_server, mbind, M_bind. simpl. unfold acceptTlsSocket, mbind, M_bind. simpl.
      unfold frame_variables in *. simpl. by rewrite Hf. }
    split; [by right|]. split; [|done]. intros _. left. by exists i, c, f.
  - assert ((step handler RunTimer s).1 = Undef) as Hu by (simpl; by destruct (sv_late_timers s.1); [lia|]).
    split; [by right|]. split; [|done]. intros _. by right.
Qed.

(** C29: after a stop, no more connections are accepted than the listeners were waiting
    for; a listener whose wait has ended never waits again, although listening may be
    called again. *)
Theorem stop_ends_accepting {W : Type} `{AE : AsioErrors} `{A : !Asio W} `{AC : !AsioConnect W}
    `{SI : !SocketIds W} `{OS : !OpenSsl W} `{AT : !AsioTls W} `{AP : !AsioAcceptor W}
    (handler : socket W → M W unit) es1 f ec es2 (s : server (W := W) * W) :
  isStopped s = true →
  wlp (run_events handler (es1 ++ AcceptCompletes f ec :: es2)) (λ _ s', isStopped s' = true ∧
    (length (sv_accepted s'.1) + pending s'.1 ≤ length (sv_accepted s.1) + pending s.1)%nat ∧
    ∀ l h, sv_listeners s'.1 !! f ≠ Some (Accepting l h)) s.
Proof. apply stopped_events. Qed.

(** C30: a call of listen makes the four calls that set up the acceptor, opening it, its
    option, binding and listening, up to the first that fails. If one fails, as opening
    does when the acceptor is open already, the call ends with SOCKET_CREATE_FAILED and
    leaves the acceptor as it then is, open if it was opened. If all succeed, it ends with
    TLS_CERT_LOAD_FAILURE when a file of a TLS listener is missing; else it ends without
    an error and serves nobody when the server was stopped; and else it waits, with the
    acceptor open and the given options. Nothing else of the server changes. *)
Theorem listen_correct {W : Type} `{AE : AsioErrors} `{A : !Asio W} `{AC : !AsioConnect W}
    `{SI : !SocketIds W} `{OS : !OpenSsl W} `{AT : !AsioTls W} `{AP : !AsioAcceptor W}
    `{PS : !AsioAcceptorSpec W} `{QN : !QuietNetwork same_acceptor}
    (handler : socket W → M W unit) e (s : server (W := W) * W) :
  is_listening e = true →
  wp (step handler e) (λ _ s', ∃ ok w x, s'.1 = add_listener x s.1 ∧
    called [acceptor_open; acceptor_reuse_address (reuses e); acceptor_bind (sv_port s.1); acceptor_listen]
      s.2 ok w ∧
    (acceptor_is_open s.2 = true → ok = false) ∧
    (ok = true ∨ acceptor_is_open s.2 = true → acceptor_is_open s'.2 = true) ∧
    if ok then
      if files_missing e w then x = Finished (Unexpected (make_error_code TLS_CERT_LOAD_FAILURE)) ∧ s'.2 = w
      else if isStopped s then x = Finished (Ok tt)
      else ∃ l h, x = Accepting l h ∧ has_options e l
    else x = Finished (Unexpected (make_error_code SOCKET_CREATE_FAILED)) ∧ s'.2 = w) s.
Proof.
  intros He. eapply wp_mono; [by apply listening_outcome|]. intros _ s' (x & Hs' & ok & w & Hx). by exists ok, w, x.
Qed.

(** C15: a blocking call of listen, without TLS, has its listener's own result when it
    returns: success or one of three documented errors, never the error for a dropped
    coroutine, if the server was stopped and then the accept that the call waited for
    has completed, whatever else happened in between, TLS listeners included. And it does
    return when nobody listens with TLS, then or before, and the client's handler always
    returns: no event is then undefined behaviour. *)
Theorem blocking_listen_returns {W : Type} `{AE : AsioErrors} `{A : !Asio W} `{AC : !AsioConnect W}
    `{SI : !SocketIds W} `{OS : !OpenSsl W} `{AT : !AsioTls W} `{AP : !AsioAcceptor W}
    (handler : socket W → M W unit) o es1 es2 ec es3 (s : server (W := W) * W) :
  let f := length (sv_listeners s.1) in
  let es := es1 ++ Stop :: es2 ++ AcceptCompletes f ec :: es3 in
  let Q r s' := isStopped s' = true ∧ sv_listeners s'.1 !! f = Some (Finished r) ∧
    ∀ e, r = Unexpected e → e ∈ listen_errors in
  wlp (Server_listen handler o es) Q s ∧
  ((∀ k w, wp (handler k) (λ _ _, True) w) → plain_server s.1 → Forall (λ e, is_ListenTls e = false) es →
   wp (Server_listen handler o es) Q s).
Proof.
  intros f es Q. pose proof (blocking_listen_sound handler o es1 es2 ec es3 s) as Hs. split; [exact Hs|].
  intros Hh Hp Hes. eapply wp_mono; [eapply wp_conj; [by apply blocking_listen_total|exact Hs]|].
  by intros r s' [_ ?].
Qed.

(** C31: stopping closes the acceptor and sets the flag for good; but when the acceptor
    is not open, because the server never listened or was stopped before, it throws
    after setting the flag. *)
Theorem stop_correct {W : Type} `{AE : AsioErrors} `{A : !Asio W} `{AC : !AsioConnect W}
    `{AP : !AsioAcceptor W} `{PS : !AsioAcceptorSpec W} `{OS : !OpenSsl W}
    (s : server (W := W) * W) :
  ∃ w', Server_stop s =
    (if acceptor_is_open s.2 then Done tt else Throw std_system_error,
     (set_stop_requested s.1, w')) ∧ acceptor_is_open w' = false ∧
    ∃ w'', Server_stop (set_stop_requested s.1, w') =
      (Throw std_system_error, (set_stop_requested s.1, w'')).
Proof.
  cut (∀ s : server (W := W) * W, ∃ w', Server_stop s =
    (if acceptor_is_open s.2 then Done tt else Throw std_system_error,
     (set_stop_requested s.1, w')) ∧ acceptor_is_open w' = false).
  { intros Hcut. destruct (Hcut s) as (w' & Hw & Hc).
    destruct (Hcut (set_stop_requested s.1, w')) as (w'' & Hw' & _). simpl in Hw'.
    exists w'. split_and!; [done|done|]. exists w''. by rewrite Hw', Hc. }
  clear s. intros s.
  unfold Server_stop, ServerBase_stop, or_throw, in_world, run, on_server, zoom, mbind, M_bind. simpl.
  destruct (acceptor_cancel s.2) as [ec1 w1] eqn:H1. apply acceptor_cancel_spec in H1 as [O1 _]. simpl.
  destruct (acceptor_cancel w1) as [ec2 w2] eqn:H2. apply acceptor_cancel_spec in H2 as [O2 E2]. simpl.
  rewrite E2, O1. destruct (acceptor_is_open s.2) eqn:Ho; simpl.
  - destruct (acceptor_close w2) as [ec3 w3] eqn:H3. apply acceptor_close_closes in H3 as [E3 O3].
    simpl. rewrite E3. simpl. by exists w3.
  - exists w2. by rewrite O2, O1.
Qed.


(** ** A concrete network with an acceptor *)

Definition dn_set_acceptor (b : bool) (w : dial_net) : dial_net :=
  DialNet (dn_open w) (dn_next w) (dn_ids w) (dn_reach w) (dn_tls w) (dn_flags w) b
    (dn_line w) (dn_app w) (dn_options w).

#[export] Instance dial_AsioAcceptor : AsioAcceptor dial_net := {|
  acceptor_is_open := dn_acceptor;
  acceptor_open := λ w,
    if dn_acceptor w then (linux_asio_error already_open, w) else (ec_none, dn_set_acceptor true w);
  acceptor_reuse_address := λ _ w, (ec_none, w);
  acceptor_bind := λ p w, (if bool_decide (p < 1024) then ErrorCode 13 cat_system else ec_none, w);
  acceptor_listen := λ w, (ec_none, w);
  acceptor_cancel := λ w,
    (if dn_acceptor w then ec_none else linux_asio_error bad_descriptor, w);
  acceptor_close := λ w, (ec_none, dn_set_acceptor false w);
  accept_into := λ h w, dn_set_open ({[h]} ∪ dn_open w) w;
  async_handshake_server := λ _ _ w,
    if dn_tls w then (ec_none, TimerWaits, w) else (linux_asio_error operation_aborted, TimerRan, w)
|}.

#[export] Program Instance dial_AsioAcceptorSpec : AsioAcceptorSpec dial_net.
Next Obligation.
  intros w ec w'. simpl. destruct (dn_acceptor w) eqn:Ha; intros [= <- <-]; by split.
Qed.
Next Obligation. done. Qed.
Next Obligation. done. Qed.
Next Obligation. done. Qed.
Next Obligation. intros w ec w'. simpl. intros [= <- <-]. by destruct (dn_acceptor w). Qed.
Next Obligation. intros w ec w'. simpl. by intros [= <- <-]. Qed.
Next Obligation.
  intros h t w ec b w'. simpl. destruct (dn_tls w); intros [= <- <- <-];
    split; try done; apply only_opens_refl.
Qed.

#[export] Instance dial_QuietNetwork : QuietNetwork (W := dial_net) same_acceptor.
Proof.
  split; unfold same_acceptor; try done.
  - split; [by intros w|]. intros w1 w2 w3. congruence.
  - intros h o w. simpl. by destruct (negative_size o).
  - by intros w w' [].
  - intros h t w. simpl. by destruct (dn_tls w).
Qed.

(** ** Witnesses *)

Definition no_handler (k : socket dial_net) : M dial_net unit := mret tt.

Lemma no_handler_total k w : wp (no_handler k) (λ _ _, True) w.
Proof. done. Qed.
Lemma no_handler_quiet k : quiet same_acceptor (no_handler k).
Proof. by intros w. Qed.



(** Two connections, of which one is handed over, then a stop. *)
Definition plain_run : list event :=
  [Listen default_tcp_options; AcceptCompletes 0 ec_none; AcceptCompletes 0 ec_none; RunTask 0;
   RunTask 1; Stop; AcceptCompletes 0 (linux_asio_error operation_aborted)].

Definition plain_start : server (W := dial_net) * dial_net := (Server_new 8080, sample_dial true).
Definition plain_end : server (W := dial_net) * dial_net :=
  (run_events no_handler plain_run plain_start).2.

Lemma server_refines_service_witness :
  service_of plain_end.1 = Service [1%nat] [0%nat] [] 0 true ∧
  wlp (run_events no_handler plain_run)
    (λ _ s, rtc service_may (Service [] [] [] 0 false) (service_of s.1)) plain_start ∧
  (Forall (λ e, is_ListenTls e = false) plain_run → wp (run_events no_handler plain_run)
    (λ _ s, rtc service_may (Service [] [] [] 0 false) (service_of s.1)) plain_start).
Proof.
  split; [vm_compute; reflexivity|].
  exact (server_refines_service no_handler plain_run 8080 (sample_dial true) no_handler_total).
Defined.


(** Two TLS connections, of which the second is still in its handshake. *)
Definition listen_tls : event :=
  ListenTls {| cert_chain_path := empty_path; private_key_path := empty_path |}
    default_tcp_options default_tls_options.


Definition waits_now : server (W := dial_net) * dial_net := (step no_handler listen_tls plain_start).2.

Lemma listeners_exclusive_witness :
  pending waits_now.1 = 1%nat ∧
  sv_listeners (step no_handler (Listen default_tcp_options) waits_now).2.1 !! 1%nat =
    Some (Finished (Unexpected (make_error_code SOCKET_CREATE_FAILED))) ∧
  sv_listeners (run_events no_handler [Stop; Listen default_tcp_options] waits_now).2.1 !! 1%nat =
    Some (Finished (Ok tt)) ∧
  wlp (run_events no_handler [listen_tls]) (λ _ s, (pending s.1 ≤ 1)%nat ∧
    (pending s.1 = 1%nat → wp (step no_handler (Listen default_tcp_options)) (λ _ s',
       ∃ r, s'.1 = add_listener (Finished r) s.1 ∧ (isStopped s = false → acceptor_is_open s.2 = true ∧
          r = Unexpected (make_error_code SOCKET_CREATE_FAILED))) s))
    plain_start.
Proof.
  do 3 (split; [vm_compute; reflexivity|]).
  exact (listeners_exclusive no_handler [listen_tls] 8080 (Listen default_tcp_options) (sample_dial true)
    no_handler_quiet eq_refl).
Defined.

(** A TLS listener that is stopped before a connection it accepted is taken up. *)
Definition tls_stopped : server (W := dial_net) * dial_net :=
  (run_events no_handler [listen_tls; AcceptCompletes 0 ec_none; Stop;
     AcceptCompletes 0 (linux_asio_error operation_aborted)] plain_start).2.

(** A handshake whose timer has expired when it ends, with its handler still queued. *)
Definition late_timer : server (W := dial_net) * dial_net :=
  (add_late_timer plain_start.1, plain_start.2).

Lemma step_undefined_iff_witness :
  (step no_handler (RunTask 0) tls_stopped).1 = Undef ∧ (step no_handler RunTimer late_timer).1 = Undef ∧
  ((step no_handler (RunTask 0) tls_stopped).1 = Done tt ∨
   (step no_handler (RunTask 0) tls_stopped).1 = Undef) ∧
  ((step no_handler (RunTask 0) tls_stopped).1 = Undef ↔
   (∃ i c f, RunTask 0 = RunTask i ∧ sv_tasks tls_stopped.1 !! i = Some (AcceptTls c f) ∧
     frame_variables f tls_stopped.1 = None) ∨
   RunTask 0 = RunTimer ∧ (0 < sv_late_timers tls_stopped.1)%nat).
Proof.
  do 2 (split; [vm_compute; reflexivity|]).
  exact (step_undefined_iff no_handler (RunTask 0) tls_stopped no_handler_total).
Defined.

Lemma stop_ends_accepting_witness :
  isStopped plain_end = true ∧
  wlp (run_events no_handler ([Stop] ++ AcceptCompletes 0 ec_none :: [Listen default_tcp_options]))
    (λ _ s', isStopped s' = true ∧
      (length (sv_accepted s'.1) + pending s'.1 ≤
       length (sv_accepted plain_end.1) + pending plain_end.1)%nat ∧
      ∀ l h, sv_listeners s'.1 !! 0%nat ≠ Some (Accepting l h)) plain_end.
Proof.
  assert (isStopped plain_end = true) as Hs by (vm_compute; reflexivity).
  split; [exact Hs|].
  exact (stop_ends_accepting no_handler [Stop] 0 ec_none [Listen default_tcp_options] plain_end Hs).
Defined.

Lemma listen_correct_witness :
  let o := default_tcp_options in
  sv_listeners (step no_handler (Listen o) plain_start).2.1 = [Accepting (Listening o None) 0%nat] ∧
  sv_listeners (step no_handler (Listen o) (Server_new 80, sample_dial true)).2.1 =
    [Finished (Unexpected (make_error_code SOCKET_CREATE_FAILED))] ∧
  wp (step no_handler (Listen o)) (λ _ s', ∃ ok w x, s'.1 = add_listener x plain_start.1 ∧
    called [acceptor_open; acceptor_reuse_address (reuses (Listen o));
      acceptor_bind (sv_port plain_start.1); acceptor_listen] plain_start.2 ok w ∧
    (acceptor_is_open plain_start.2 = true → ok = false) ∧
    (ok = true ∨ acceptor_is_open plain_start.2 = true → acceptor_is_open s'.2 = true) ∧
    if ok then
      if files_missing (Listen o) w
      then x = Finished (Unexpected (make_error_code TLS_CERT_LOAD_FAILURE)) ∧ s'.2 = w
      else if isStopped plain_start then x = Finished (Ok tt)
      else ∃ l h, x = Accepting l h ∧ has_options (Listen o) l
    else x = Finished (Unexpected (make_error_code SOCKET_CREATE_FAILED)) ∧ s'.2 = w) plain_start.
Proof.
  intros o. do 2 (split; [vm_compute; reflexivity|]).
  exact (listen_correct no_handler (Listen o) plain_start eq_refl).
Defined.

(** A connection, then a stop, which aborts the pending accept. *)
Lemma blocking_listen_returns_witness :
  let aborted := linux_asio_error operation_aborted in
  let es := [AcceptCompletes 0 ec_none] ++ Stop :: [] ++ AcceptCompletes 0 aborted :: [RunTask 0; RunTask 0] in
  let served := Server_listen no_handler default_tcp_options es in
  (served plain_start).1 = Done (Ok tt) ∧ length (sv_handled (served plain_start).2.1) = 1%nat ∧
  wp served (λ r s', isStopped s' = true ∧ sv_listeners s'.1 !! 0%nat = Some (Finished r) ∧
    ∀ e, r = Unexpected e → e ∈ listen_errors) plain_start.
Proof.
  intros aborted es served. split; [vm_compute; reflexivity|]. split; [vm_compute; reflexivity|].
  assert (Forall (λ e, is_ListenTls e = false) es) as Hes by by repeat constructor.
  exact (proj2 (blocking_listen_returns no_handler default_tcp_options [AcceptCompletes 0 ec_none] []
    aborted [RunTask 0; RunTask 0] plain_start) no_handler_total (plain_server_new 8080) Hes).
Defined.

Lemma stop_correct_witness :
  acceptor_is_open (sample_dial true) = false ∧
  ∃ w', Server_stop plain_start = (Throw std_system_error, (set_stop_requested plain_start.1, w')) ∧
    acceptor_is_open w' = false ∧
    ∃ w'', Server_stop (set_stop_requested plain_start.1, w') =
      (Throw std_system_error, (set_stop_requested plain_start.1, w'')).
Proof. split; [reflexivity|]. exact (stop_correct plain_start). Defined.

