(* ===== verification/TicketSession.v ===== *)
(** A program that talks to a ticket worker over the network: it connects with a client,
    hands the socket to a TicketController, sends requests and destroys the controller
    when it is done. What the parts promise one by one, put together: nothing that was
    opened on the way stays open, however the session ends. *)

From S2P Require Import Prelude ErrorCodes ErrorTranslation FsPath Options TlsContext SocketBase Socket.
From S2P Require Import Client SocketResources Ticket TicketJson TicketFrame TicketPeer.
From S2P Require Import TicketController TicketWorker.
From S2P Require Import TicketProtocol TicketLifetimes.

#[local] Opaque frame_bytes.

(** ** Programs with a controller *)

Section session_ops.
Context {C W G X : Type} `{AE : AsioErrors} `{A : !Asio W} `{DS : !DualSocket (socket W) W}.
Context `{CS : !ClientSync C (socket W) W} `{CA : !ClientAsync C (socket W) W}.
Context `{J : Json} `{Rn : Rng G}.

(** The network, the random generator of the thread, and the data of the program. *)
Record program := Program { pg_world : W; pg_rng : G; pg_data : X }.

Definition on_network {B} (m : M W B) : M program B :=
  zoom pg_world (λ w s, Program w (pg_rng s) (pg_data s)) m.

(** A block in which a controller lives: it is destroyed at the end, also when the body
    throws. *)
Definition with_controller {B} (k : socket W) (ser : option TicketSerializer)
    (body : M (ctl_st (socket W) W G X) B) : M program B := λ s,
  match TicketController_new (Some k) ser with
  | None => (Undef, s)
  | Some c =>
      let '(o, s1) := body (CtlSt c (pg_rng s) (pg_world s) (pg_data s)) in
      if returns_or_throws o then
        let '(od, w) := TicketController_destroy (s_ctl s1) (s_world s1) in
        (match od with Done _ => o | _ => Undef end, Program w (s_rng s1) (s_client s1))
      else (o, Program (s_world s1) (s_rng s1) (s_client s1))
  end.

(** What a program asks a controller to do, with the time-out of its options, and what it
    gets. *)
Inductive request :=
| Send (command payload metadata : bytes) (timeout : Z)
| SendLong (command payload : bytes) (onProgress : option (TicketInfo → M X unit))
    (metadata : bytes) (timeout : Z)
| Poll (id : bytes) (timeout : Z)
| Cancel (id : bytes) (timeout : Z).

Inductive reply :=
| SendReply (r : result bytes)
| TicketReply (r : result TicketInfo)
| CancelReply (r : result unit).

(** Cancelling has no coroutine version. *)
Definition make_request (fuel : nat) (md : mode) (q : request) : M (ctl_st (socket W) W G X) reply :=
  match q with
  | Send command payload metadata t =>
      r ← controller_send md command payload metadata t; mret (SendReply r)
  | SendLong command payload f metadata t =>
      r ← controller_sendLong fuel md command payload
            ((λ f ticket, on_client (f ticket)) <$> f) metadata t;
      mret (TicketReply r)
  | Poll id t => r ← controller_poll md id t; mret (TicketReply r)
  | Cancel id t => r ← controller_cancel id t; mret (CancelReply r)
  end.

Fixpoint make_requests (fuel : nat) (md : mode) (qs : list request)
    : M (ctl_st (socket W) W G X) (list reply) :=
  match qs with
  | [] => mret []
  | q :: qs => r ← make_request fuel md q; rs ← make_requests fuel md qs; mret (r :: rs)
  end.

(** Connecting through one of the two interfaces, with TLS or without. *)
Definition open_by (md : mode) (c : C) (timeout : Z) (tcp_opts : TcpOptions)
    (tls : option TlsOptions) : M W (result (socket W)) :=
  match md, tls with
  | Sync, None => virtual_connect c timeout tcp_opts
  | Sync, Some o => virtual_connectTls c timeout tcp_opts o
  | Async, None => virtual_asyncConnect c timeout tcp_opts
  | Async, Some o => virtual_asyncConnectTls c timeout tcp_opts o
  end.

Definition ticket_session (fuel : nat) (md : mode) (c : C) (timeout : Z) (tcp_opts : TcpOptions)
    (tls : option TlsOptions) (ser : option TicketSerializer) (qs : list request)
    : M program (result (list reply)) :=
  k ←? on_network (open_by md c timeout tcp_opts tls);
  rs ← with_controller k ser (make_requests fuel md qs);
  mret (Ok rs).
End session_ops.
Arguments program : clear implicits.
Arguments Program {W G X}.
Arguments request : clear implicits.

Section blocks.
Context {W G X : Type} `{Q : AsioQuiet W} (n : nat).
Context `{J : Json} `{Rn : Rng G}.
Let D : DualSocket (socket W) W := socket_DualSocket n.
#[local] Existing Instance D | 0.

Lemma drop_socket_closes k w :
  ∃ w', drop_socket (DS := D) (Some k) w = (Done tt, w') ∧ only_opens None w w' ∧
    is_open (s_stream k) w' = false ∧ outgoing (s_stream k) w' = outgoing (s_stream k) w.
Proof.
  pose proof (socket_destroy_closes (k, w)) as Hd. unfold wp in Hd. simpl.
  destruct (socket_destroy (k, w)) as [[[]| | |] [k' w']]; try done.
  destruct Hd as ([Hk Ho] & Hc & Hs). simpl in *. exists w'. split_and!; try done.
  unfold outg in Hs. simpl in Hs. by rewrite Hk in Hs.
Qed.

(** Destroying a peer closes the stream of its socket. *)
Lemma destroy_closes (p : peer (socket W)) w k :
  p_socket p = Some k →
  ∃ w', TicketPeer_destroy (DS := D) p w = (Done tt, w') ∧ only_opens None w w' ∧
    is_open (s_stream k) w' = false ∧ outgoing (s_stream k) w' = outgoing (s_stream k) w.
Proof.
  intros Hk. unfold TicketPeer_destroy. destruct (p_closed p); [rewrite Hk; apply drop_socket_closes|].
  pose proof (keeps_goodbye (SI := tame_invariant n) (p, w)) as Ht.
  pose proof (goodbye_spec (SP := socket_DualSocketSpec n) p w k Hk) as Hg.
  unfold wp in Hg. destruct (goodbye (p, w)) as [[r| | |] [p1 w1]]; try done.
  destruct Hg as (_ & _ & _ & k1 & Hk1 & _ & Hs). simpl in *. rewrite Hk1.
  destruct Ht as (_ & _ & Ht). simpl in Ht. rewrite Hk, Hk1 in Ht. destruct Ht as [Hst Ho]. simpl in *.
  destruct (drop_socket_closes k1 w1) as (w' & E & Ho' & Hc & Hs'). rewrite Hst in *.
  exists w'. split_and!; [exact E|by eapply only_opens_trans|done|].
  unfold outg in Hs. simpl in Hs. rewrite Hst in Hs. congruence.
Qed.

(** A block ends with its socket closed, whatever its body does with the controller. *)
Lemma with_controller_closes {B} k ser (body : M (ctl_st (socket W) W G X) B) (s : program W G X) :
  steps (ctl_keeps tame) body →
  returns_or_throws (with_controller (DS := D) k ser body s).1 = true →
  only_opens None (pg_world s) (pg_world (with_controller (DS := D) k ser body s).2) ∧
  is_open (s_stream k) (pg_world (with_controller (DS := D) k ser body s).2) = false.
Proof.
  intros Hb. unfold with_controller, TicketController_new. simpl.
  set (c := Controller _ _ _). specialize (Hb (CtlSt c (pg_rng s) (pg_world s) (pg_data s))).
  destruct (body _) as [o s1]. destruct Hb as (_ & _ & Hb). simpl in Hb.
  destruct (returns_or_throws o) eqn:Ho; [|simpl; by rewrite Ho]. intros _.
  destruct (p_socket (c_peer (s_ctl s1))) as [k1|] eqn:Hk1; [|done]. destruct Hb as [Hst Hopen]. simpl in *.
  destruct (destroy_closes (c_peer (s_ctl s1)) (s_world s1) k1 Hk1) as (w' & E & Ho' & Hc & _).
  unfold TicketController_destroy. rewrite E. simpl.
  split; [by eapply only_opens_trans|by rewrite <- Hst].
Qed.

(** The result of a block is the result of its body, and the destructor sends nothing. *)
Lemma wp_with_controller {B} k ser (body : M (ctl_st (socket W) W G X) B)
    (P : B → ctl_st (socket W) W G X → Prop) (s : program W G X) :
  (∀ b s1, P b s1 → ∃ k1, p_socket (c_peer (s_ctl s1)) = Some k1 ∧ s_stream k1 = s_stream k) →
  wp body P (CtlSt (Controller (TicketPeer_new (Some k) (Some (serializer_or_default ser))) 0
    (to_string (getId (DualSocket := D) k))) (pg_rng s) (pg_world s) (pg_data s)) →
  wp (with_controller (DS := D) k ser body) (λ b s', ∃ s1, P b s1 ∧
    pg_rng s' = s_rng s1 ∧ pg_data s' = s_client s1 ∧ only_opens None (s_world s1) (pg_world s') ∧
    is_open (s_stream k) (pg_world s') = false ∧
    outgoing (s_stream k) (pg_world s') = outgoing (s_stream k) (s_world s1)) s.
Proof.
  intros Hk Hb. unfold wp, with_controller, TicketController_new in *. cbn [p_socket TicketPeer_new].
  destruct (body _) as [[b| | |] s1]; try done. simpl.
  destruct (Hk b s1 Hb) as (k1 & Hk1 & Hst).
  destruct (destroy_closes (c_peer (s_ctl s1)) (s_world s1) k1 Hk1) as (w' & E & Ho' & Hc & Hs).
  unfold TicketController_destroy. rewrite E. rewrite Hst in *. by exists s1.
Qed.

Lemma keeps_make_requests fuel md (qs : list (request X)) :
  steps (ctl_keeps tame) (make_requests (W := W) (G := G) (DS := D) fuel md qs).
Proof.
  pose proof (keeps_controller_call (G := G) (X := X) (SI := tame_invariant n)) as Hcall.
  induction qs as [|q qs IH]; simpl; [by apply steps_here; [apply _|]|].
  apply steps_bind; [apply _| |intros r; apply steps_bind; [apply _|exact IH|]].
  2: { intros; by apply steps_here; [apply _|]. }
  destruct q; simpl; (apply steps_bind; [apply _| |intros; by apply steps_here; [apply _|]]);
    apply Hcall; constructor.
Qed.
End blocks.

(** Whatever way of connecting is chosen. *)
Lemma open_by_outcome {C W : Type} `{AE : AsioErrors} `{A : !Asio W} `{CS : !ClientSync C (socket W) W}
    `{CA : !ClientAsync C (socket W) W} `{CC : !ClientSpec C W} md c t o tls (w : W) :
  wp (open_by md c t o tls) (connected_or_clean
    (match tls with Some _ => TlsSocketClass | None => TcpSocketClass end) connect_tls_errors w) w.
Proof.
  assert (Hmono : ∀ m, wp m (connected_or_clean TcpSocketClass connect_errors w) w →
    wp m (connected_or_clean TcpSocketClass connect_tls_errors w) w).
  { intros m Hm. eapply wp_mono; [exact Hm|]. intros [k|e] w'; [done|]. intros [He Ho].
    split; [by apply connect_errors_tls|done]. }
  destruct md, tls as [tls|]; simpl.
  - apply connectTls_spec.
  - apply Hmono, connect_spec.
  - apply asyncConnectTls_spec.
  - apply Hmono, asyncConnect_spec.
Qed.

(** ** Correctness *)

(** C5: a session with a ticket server leaves nothing open, through any client that keeps
    the contract of connecting, blocking or with coroutines, with TLS or without, whatever
    requests are made and whatever becomes of them: when it is over, because it returned
    or because something threw, no stream is open that was not open before; and a session
    that fails as a whole fails with one of the errors of connecting. *)
Theorem session_leaves_nothing_open {C W G X : Type} `{Q : AsioQuiet W}
    `{CS : !ClientSync C (socket W) W} `{CA : !ClientAsync C (socket W) W} `{CC : !ClientSpec C W}
    `{J : Json} `{Rn : Rng G} n fuel md c timeout tcp_opts tls ser qs (s : program W G X) :
  let run := ticket_session (DS := socket_DualSocket n) fuel md c timeout tcp_opts tls ser qs s in
  returns_or_throws run.1 = true →
  only_opens None (pg_world s) (pg_world run.2) ∧
  ∀ e, run.1 = Done (Unexpected e) → e ∈ connect_tls_errors.
Proof.
  unfold ticket_session, on_network, bind_expected, zoom, mbind, M_bind.
  pose proof (open_by_outcome md c timeout tcp_opts tls (pg_world s)) as Hc. unfold wp in Hc.
  destruct (open_by _ _ _ _ _ _) as [[[k|e]| | |] w1]; simpl in *; try done.
  2: { intros _. split; [apply Hc|]. intros e' [= <-]. apply Hc. }
  destruct Hc as (_ & _ & _ & Hopen).
  pose proof (with_controller_closes n k ser _ (Program w1 (pg_rng s) (pg_data s))
    (keeps_make_requests n fuel md qs)) as Hw.
  destruct (with_controller _ _ _ _) as [o s2]. simpl in Hw.
  intros Hr. assert (returns_or_throws o = true) as Ho by by destruct o.
  destruct (Hw Ho) as [Hopen2 Hclosed]. split; [|by destruct o].
  intros x Hx. left. assert (is_open x (pg_world s2) = true) as Hx2 by by destruct o.
  destruct (Hopen2 x Hx2) as [Hx1|]; [|done].
  destruct (Hopen x Hx1) as [?|[= <-]]; [done|congruence].
Qed.

(** ** A concrete session

    The line holds the response to the request that the program will make. *)
Definition line_with (input : bytes) : dial_net := dn_set_line (MemNet input [] 100 true false) (sample_dial true).

(** The request of the first socket of the program. *)
Definition first_request : TicketInfo :=
  request_ticket (sample_u ++ txt "/0#0") SHORT (txt "echo") (txt "hi") [] 5.

Definition session_start : program dial_net unit (list TicketInfo) :=
  Program (line_with (frame_bytes (json_bytes (completed_response first_request (txt "hi"))))) tt [].

Lemma session_leaves_nothing_open_witness :
  let run := ticket_session (DS := socket_DualSocket 0) 0 Sync sample_client 500 default_tcp_options None None
    [Send (txt "echo") (txt "hi") [] 5; Poll (txt "x") 5] session_start in
  run.1 = Done (Ok [SendReply (Ok (txt "hi")); TicketReply (Unexpected (linux_asio_error eof))]) ∧
  returns_or_throws run.1 = true ∧
  only_opens None (pg_world session_start) (pg_world run.2) ∧
  ∀ e, run.1 = Done (Unexpected e) → e ∈ connect_tls_errors.
Proof.
  intros run.
  assert (run.1 = Done (Ok [SendReply (Ok (txt "hi")); TicketReply (Unexpected (linux_asio_error eof))])) as E.
  { vm_compute. reflexivity. }
  assert (returns_or_throws run.1 = true) as Hr by by rewrite E.
  split_and!; [exact E|exact Hr|..];
    exact (proj1 (session_leaves_nothing_open 0 0 Sync sample_client 500 default_tcp_options None None _ _ Hr)) ||
    exact (proj2 (session_leaves_nothing_open 0 0 Sync sample_client 500 default_tcp_options None None _ _ Hr)).
Defined.
