(* ===== verification/TicketService.v ===== *)
(** A server whose handler serves tickets: for every connection that it accepts it makes a
    TicketWorker, registers its handlers, handles tickets, and destroys the worker. With
    the sessions of the file TicketSession, a ticket is followed from the program that
    asks to the handler that answers, and back. *)

From S2P Require Import Prelude ErrorCodes ErrorTranslation FsPath Options TlsContext SocketBase Socket.
From S2P Require Import Client SocketResources Ticket TicketJson TicketFrame TicketPeer.
From S2P Require Import TicketController TicketWorker.
From S2P Require Import TicketProtocol TicketLifetimes Server ServerSpec TicketSession.

#[local] Opaque frame_bytes.

(** ** The data of the program *)

(** The handlers share a part of the world, which has nothing to do with the network; and
    the counter of identifiers belongs to neither. *)
Class ProgramData (W X : Type) `{SP : AsioSpec W} `{SI : !SocketIds W} := {
  data : W → X;
  set_data : X → W → W;
  data_set x w : data (set_data x w) = x;
  set_data_open x w h : is_open h (set_data x w) = is_open h w;
  set_data_outgoing x w h : outgoing h (set_data x w) = outgoing h w;
  ids_data n w : data (set_id_counter n w) = data w;
  ids_incoming n w h : incoming h (set_id_counter n w) = incoming h w;
  ids_outgoing n w h : outgoing h (set_id_counter n w) = outgoing h w;
  ids_healthy n w h : healthy h w → healthy h (set_id_counter n w)
}.

(** ** The service *)

Section service_ops.
Context {W X : Type} `{SP : AsioSpec W} `{SI : !SocketIds W} `{PD : !ProgramData W X}.
Context `{DS : !DualSocket (socket W) W} `{J : Json} `{EM : ErrorMessages}.

(** The worker that the service makes. *)
Definition service_worker (k : socket W) (ser : option TicketSerializer)
    (handlers : list (bytes * TicketHandler X)) : worker (socket W) X :=
  foldr (λ ch, registerHandler ch.1 ch.2) (TicketWorker_new (Some k) ser) handlers.

(** A block in which it lives. *)
Definition with_worker {B} (k : socket W) (ser : option TicketSerializer)
    (handlers : list (bytes * TicketHandler X)) (body : M (wrk_st (socket W) W X) B) : M W B := λ w,
  let '(o, s1) := body (WrkSt (service_worker k ser handlers) w (data w)) in
  if returns_or_throws o then
    let '(od, w1) := TicketWorker_destroy (s_worker s1) (s_wworld s1) in
    (match od with Done _ => o | _ => Undef end, set_data (s_shared s1) w1)
  else (o, set_data (s_shared s1) (s_wworld s1)).

(** The handler of the server: up to [n] tickets, until one cannot be received. *)
Definition ticket_service (md : mode) (n : nat) (ser : option TicketSerializer)
    (handlers : list (bytes * TicketHandler X)) (k : socket W) : M W unit :=
  with_worker k ser handlers (serve md n);; mret tt.
End service_ops.

(** ** Serving a connection *)

Section service.
Context {W X : Type} `{Q : AsioQuiet W} `{SI : !SocketIds W} `{PD : !ProgramData W X} (fuel : nat).
Context `{J : Json} `{EM : ErrorMessages}.
Let D : DualSocket (socket W) W := socket_DualSocket fuel.
#[local] Existing Instance D | 0.

Lemma service_worker_peer k ser (handlers : list (bytes * TicketHandler X)) :
  k_peer (service_worker k ser handlers) = TicketPeer_new (Some k) (Some (serializer_or_default ser)).
Proof. by induction handlers as [|[c h] hs IH]. Qed.

(** A connection at the moment its handler is called: it will deliver [input]. *)
Lemma service_ready k ser handlers w input :
  tcp_or_tls (s_class k) = true → s_buf k = [] → healthy (s_stream k) w →
  (∃ more, incoming (s_stream k) w = input ++ more) →
  wrk_ready (SP := socket_DualSocketSpec fuel) (serializer_or_default ser)
    (WrkSt (service_worker k ser handlers) w (data w)) input (outgoing (s_stream k) w).
Proof.
  intros Hc Hb Hh [more Hi]. unfold wrk_ready. simpl. rewrite service_worker_peer.
  exists k. split_and!; try done. exists more. simpl. unfold rxs, read_buffer, inc. simpl. by rewrite Hb.
Qed.

Lemma keeps_serve md n : steps (wrk_keeps (X := X) tame) (serve (H := D) md n).
Proof.
  pose proof (keeps_worker_call (X := X) (SI := tame_invariant fuel)) as Hcall.
  induction n as [|n IH]; simpl; [by apply steps_here; [apply _|]|].
  apply steps_bind_expected; [apply _|apply Hcall; constructor|intros _; exact IH].
Qed.

(** The tickets that arrive are answered, and then the connection is closed. *)
Lemma ticket_service_spec md ser handlers k w ts tbs rs bs x' :
  tcp_or_tls (s_class k) = true → s_buf k = [] → healthy (s_stream k) w →
  (∃ more, incoming (s_stream k) w = frames tbs ++ more) →
  responses_in (serializer_or_default ser) tbs ts →
  all_answers (service_worker k ser handlers) ts (data w) rs x' →
  Forall2 (λ r b, serialize (serializer_or_default ser) r = Done b ∧ b ≠ []) rs bs →
  wp (ticket_service (DS := D) md (length ts) ser handlers k) (λ _ w',
    outgoing (s_stream k) w' = outgoing (s_stream k) w ++ frames bs ∧
    is_open (s_stream k) w' = false ∧ data w' = x') w.
Proof.
  intros Hc Hb Hh Hi Hin Ha Hbs.
  pose proof (service_ready k ser handlers w _ Hc Hb Hh Hi) as Hr.
  set (s0 := WrkSt _ _ _) in Hr.
  assert (Hserve : wp (serve (H := D) md (length ts)) (λ _ s1, s_shared s1 = x' ∧
    ∃ k1, p_socket (k_peer (s_worker s1)) = Some k1 ∧ s_stream k1 = s_stream k ∧
      outgoing (s_stream k) (s_wworld s1) = outgoing (s_stream k) w ++ frames bs) s0).
  { pose proof (keeps_serve md (length ts) s0) as Hst.
    rewrite <- (app_nil_r (frames tbs)) in Hr.
    pose proof (serve_spec (SP := socket_DualSocketSpec fuel) md _ ts s0 tbs rs x' bs [] _ Hin Ha Hbs Hr) as Hs.
    unfold wp in *.
    destruct (serve _ _ _) as [[r| | |] s1]; try done. destruct Hs as (_ & Hx & k1 & Hk1 & _ & _ & _ & _ & Ho).
    simpl in Hk1, Ho. split; [done|]. exists k1. split; [done|].
    destruct Hst as (_ & _ & Hst). subst s0. simpl in Hst. rewrite service_worker_peer in Hst. simpl in Hst.
    rewrite Hk1 in Hst. destruct Hst as [Hst _]. simpl in Hst. split; [done|].
    unfold outg in Ho. simpl in Ho. by rewrite Hst in Ho. }
  unfold ticket_service. wp_step. unfold with_worker, wp in *.
  fold s0. destruct (serve _ _ s0) as [[r| | |] s1]; try done.
  destruct Hserve as (Hx & k1 & Hk1 & Hst & Ho). simpl.
  destruct (destroy_closes fuel (k_peer (s_worker s1)) (s_wworld s1) k1 Hk1) as (w' & E & _ & Hcl & Hs).
  change D with (socket_DualSocket fuel). unfold TicketWorker_destroy. rewrite E. rewrite Hst in *. simpl.
  by rewrite set_data_outgoing, set_data_open, data_set, Hs, Ho, Hcl, Hx.
Qed.
End service.

(** ** Serving through the server *)

Section server.
Context {W X : Type} `{Q : AsioQuiet W} `{AC : !AsioConnect W} `{SI : !SocketIds W}.
Context `{OS : !OpenSsl W} `{AT : !AsioTls W} `{AP : !AsioAcceptor W} `{PD : !ProgramData W X}.
Context (fuel : nat) `{J : Json} `{EM : ErrorMessages}.
Implicit Types s : server (W := W) * W.

(** The socket that the handler gets for a connection. *)
Definition next_socket (cls : socket_class) (h : stream W) (w : W) : socket W :=
  Socket (id_counter w) cls h [].

(** What serving a connection leaves behind. *)
Definition served (conn h : stream W) (cls : socket_class) (bs : list bytes) (x' : X) s s' : Prop :=
  sv_handled s'.1 = sv_handled s.1 ++ [(conn, next_socket cls h s.2)] ∧
  sv_accepted s'.1 = sv_accepted s.1 ∧ sv_listeners s'.1 = sv_listeners s.1 ∧
  outgoing h s'.2 = outgoing h s.2 ++ frames bs ∧ is_open h s'.2 = false ∧ data s'.2 = x'.

Lemma call_handler_serves md ser handlers s cls conn h ts tbs more rs bs x' :
  tcp_or_tls cls = true → healthy h s.2 → incoming h s.2 = frames tbs ++ more →
  responses_in (serializer_or_default ser) tbs ts →
  all_answers (service_worker (next_socket cls h s.2) ser handlers) ts (data s.2) rs x' →
  Forall2 (λ r b, serialize (serializer_or_default ser) r = Done b ∧ b ≠ []) rs bs →
  wp (call_handler (ticket_service (DS := socket_DualSocket fuel) md (length ts) ser handlers) cls conn h)
    (λ _ s', served conn h cls bs x' s s' ∧ sv_tasks s'.1 = sv_tasks s.1) s.
Proof.
  intros Hc Hh Hi Hin Ha Hbs. unfold call_handler, in_world, make_socket, SocketBase_new. wp_steps.
  unfold on_server. wp_steps. simpl.
  eapply wp_mono.
  { eapply (ticket_service_spec fuel md ser handlers (next_socket cls h s.2) _ ts tbs rs bs x'); try done.
    - by apply ids_healthy.
    - exists more. simpl. by rewrite ids_incoming.
    - by rewrite ids_data. }
  simpl. intros _ w' (Ho & Hcl & Hd). rewrite ids_outgoing in Ho. done.
Qed.
End server.

(** ** From the program that asks to the handler that answers *)

Section conversation.
Context {C W G X : Type} `{Q : AsioQuiet W} {CS : ClientSync C (socket W) W} {CA : ClientAsync C (socket W) W}.
Context `{J : Json} `{Rn : Rng G} (n : nat).
Context {W' X' : Type} {A' : Asio W'} {SP' : AsioSpec W'} {Q' : AsioQuiet W'}.
Context `{AC : !AsioConnect W'} `{SI : !SocketIds W'} `{OS : !OpenSsl W'} `{AT : !AsioTls W'}.
Context `{AP : !AsioAcceptor W'} `{PD : !ProgramData W' X'} `{EM : ErrorMessages}.

(** The request of a program that has just connected with the socket [k], when the
    generator gives the text [u]. *)
Definition session_request (k : socket W) (u command payload metadata : bytes) (timeout : Z) : TicketInfo :=
  request_ticket (u ++ txt "/" ++ to_string (s_id k) ++ txt "#" ++ to_string 0) SHORT
    command payload metadata timeout.

(** A program in the world [w] connects, over a line that works, with a server in the state
    [s] that is about to call its handler for this connection: what the program writes is
    what the server's stream [h] will deliver, and the other way round. *)
Record conversation (ser : option TicketSerializer) (c : C) md timeout tcp_opts tls
    (command payload metadata : bytes) (t : Z) (w w1 : W) (g : G) (k : socket W) (u : bytes)
    (s : server (W := W') * W') i cls (conn h : stream W') handlers (response : TicketInfo) (x' : X')
    (b rb more more' : bytes) : Prop := {
  cv_connect : open_by md c timeout tcp_opts tls w = (Done (Ok k), w1);
  cv_uuid : ∃ g', generate_uuid g = (Done u, g');
  cv_line : healthy (s_stream k) w1 ∧ incoming (s_stream k) w1 = frame_bytes rb ++ more;
  cv_request : message_of (serializer_or_default ser)
    (session_request k u command payload metadata t) b;
  cv_task : sv_tasks s.1 !! i = Some (CallHandler cls conn h) ∧ tcp_or_tls cls = true;
  cv_server_line : healthy h s.2 ∧ incoming h s.2 = frame_bytes b ++ more';
  cv_answer : answers (service_worker (next_socket cls h s.2) ser handlers)
    (session_request k u command payload metadata t) (data s.2) response x';
  cv_response : message_of (serializer_or_default ser) response rb
}.

Lemma conversation_exchange ser c md timeout tcp_opts tls command payload metadata t w w1 g x k u s i cls
    conn h handlers response x' b rb more more' :
  tcp_or_tls (s_class k) = true → s_buf k = [] →
  conversation ser c md timeout tcp_opts tls command payload metadata t w w1 g k u s i cls conn h
    handlers response x' b rb more more' →
  ∃ g', exchange (SP := socket_DualSocketSpec n) (SP' := socket_DualSocketSpec n)
    (serializer_or_default ser) SHORT command payload metadata t
    (CtlSt (Controller (TicketPeer_new (Some k) (Some (serializer_or_default ser))) 0
      (to_string (s_id k))) g w1 (x : X))
    (WrkSt (service_worker (next_socket cls h s.2) ser handlers) s.2 (data s.2)) u g' response x' b rb
    [] (outgoing (s_stream k) w1) [] (outgoing h s.2).
Proof.
  intros Hcls Hbuf [Hc [g' Hu] [Hl Hi] Hreq [Ht Htc] [Hl' Hi'] Ha Hres]. exists g'. split; try done.
  - exists k. split_and!; try done. exists more. simpl. unfold rxs, read_buffer, inc. simpl.
    by rewrite Hbuf, Hi, app_nil_r.
  - rewrite app_nil_r. apply service_ready; [done..|]. by exists more'.
Qed.
End conversation.

(** The client's side of a session of one short request. *)
Lemma wp_send_session {C W G X : Type} `{Q : AsioQuiet W} `{CS : !ClientSync C (socket W) W}
    `{CA : !ClientAsync C (socket W) W} `{J : Json} `{Rn : Rng G} n fuel md (c : C) timeout tcp_opts tls
    ser command payload metadata t (w w1 : W) k g (x : X) out (P : result bytes → Prop) :
  open_by md c timeout tcp_opts tls w = (Done (Ok k), w1) →
  wp (controller_send (DS := socket_DualSocket n) md command payload metadata t)
    (λ r s', P r ∧ ctl_ready (SP := socket_DualSocketSpec n) (serializer_or_default ser) s' [] out)
    (CtlSt (Controller (TicketPeer_new (Some k) (Some (serializer_or_default ser))) 0
      (to_string (s_id k))) g w1 x) →
  wp (ticket_session (DS := socket_DualSocket n) fuel md c timeout tcp_opts tls ser
       [Send command payload metadata t])
    (λ r s', (∃ b, r = Ok [SendReply b] ∧ P b) ∧ outgoing (s_stream k) (pg_world s') = out ∧
      is_open (s_stream k) (pg_world s') = false ∧ only_opens None w1 (pg_world s')) (Program w g x).
Proof.
  intros Hc Hs. unfold ticket_session, on_network. wp_step. wp_step. unfold wp at 1. simpl. rewrite Hc.
  wp_step. eapply wp_mono.
  - apply (wp_with_controller n k ser _ (λ rs s1, (∃ r, rs = [SendReply r] ∧ P r) ∧
      ∃ k1, p_socket (c_peer (s_ctl s1)) = Some k1 ∧ s_stream k1 = s_stream k ∧
        outgoing (s_stream k) (s_world s1) = out ∧ only_opens None w1 (s_world s1)));
      [by intros rs s1 (_ & k1 & ? & ? & _); exists k1|].
    simpl. wp_steps.
    pose proof (keeps_controller_call (X := X) (SI := tame_invariant n) _ _
      (call_send md command payload metadata t)
      (CtlSt (Controller (TicketPeer_new (Some k) (Some (serializer_or_default ser))) 0
        (to_string (s_id k))) g w1 x)) as Hk.
    unfold wp in *. simpl in *. destruct (controller_send _ _ _ _ _ _) as [[r| | |] s1]; try done.
    destruct Hs as [HP (k1 & Hk1 & _ & _ & _ & _ & Ho)], Hk as (_ & _ & Hk). simpl in *.
    rewrite Hk1 in Hk. destruct Hk as [Hst Hop]. simpl in Hst, Hop. unfold outg in Ho. simpl in Ho.
    rewrite Hst in Ho. split; [by exists r|by exists k1].
  - simpl. intros rs s' (s1 & [(r & -> & HP) (k1 & _ & _ & Ho & Hop)] & _ & _ & Hop' & Hcl & Ho').
    wp_steps. split_and!; [by exists r|congruence|done|by eapply only_opens_trans].
Qed.

(** ** Correctness *)

(** C4: a server whose handler is the ticket service answers every ticket that arrives on a
    connection, in order, with one response each, and then closes the connection: when a
    thread calls the handler for a connection, plain or TLS, that works and will deliver
    the frames of some tickets, exactly the frames of their answers are sent on it, the
    handlers see the data of the program as their predecessors left it, the connection
    counts as handled, and no other connection of the server is affected. *)
Theorem service_answers_all {W X : Type} `{Q : AsioQuiet W} `{AC : !AsioConnect W} `{SI : !SocketIds W}
    `{OS : !OpenSsl W} `{AT : !AsioTls W} `{AP : !AsioAcceptor W} `{PD : !ProgramData W X}
    `{J : Json} `{EM : ErrorMessages} fuel md ser handlers (s : server (W := W) * W) i cls conn h
    ts tbs more rs bs x' :
  sv_tasks s.1 !! i = Some (CallHandler cls conn h) → tcp_or_tls cls = true →
  healthy h s.2 → incoming h s.2 = frames tbs ++ more →
  responses_in (serializer_or_default ser) tbs ts →
  all_answers (service_worker (next_socket cls h s.2) ser handlers) ts (data s.2) rs x' →
  Forall2 (λ r b, serialize (serializer_or_default ser) r = Done b ∧ b ≠ []) rs bs →
  wp (step (ticket_service (DS := socket_DualSocket fuel) md (length ts) ser handlers) (RunTask i))
    (λ _ s', served conn h cls bs x' s s' ∧ sv_tasks s'.1 = delete i (sv_tasks s.1)) s.
Proof.
  intros Hi Hc Hh Hin Hts Ha Hbs. unfold wp, step. rewrite Hi.
  change (wp (run_task (ticket_service (DS := socket_DualSocket fuel) md (length ts) ser handlers)
    (CallHandler cls conn h)) (λ _ s', served conn h cls bs x' s s' ∧
      sv_tasks s'.1 = delete i (sv_tasks s.1)) (set_tasks (delete i (sv_tasks s.1)) s.1, s.2)).
  eapply wp_mono; [by eapply (call_handler_serves fuel md ser handlers
    (set_tasks (delete i (sv_tasks s.1)) s.1, s.2))|]. done.
Qed.

(** C1: a request goes all the way: when a program connects, through any client that keeps
    the contract of connecting, and sends a short request over a line that works to a
    server whose handler is the ticket service, then the program gets the text that the
    handler registered for the command returned, or io_error when that failed or there is
    none; it has sent exactly the frame of its request, the server exactly the frame of
    the answer, after running the handler once; and both have closed the connection, the
    program without leaving anything else open. *)
Theorem ticket_call {C W G X W' X' : Type} `{Q : AsioQuiet W} `{CS : !ClientSync C (socket W) W}
    `{CA : !ClientAsync C (socket W) W} `{CC : !ClientSpec C W} `{J : Json} `{Rn : Rng G}
    {A' : Asio W'} {SP' : AsioSpec W'} {Q' : AsioQuiet W'}
    `{AC : !AsioConnect W'} `{SI : !SocketIds W'} `{OS : !OpenSsl W'} `{AT : !AsioTls W'}
    `{AP : !AsioAcceptor W'} `{PD : !ProgramData W' X'} `{EM : ErrorMessages}
    n fuel md md' ser (c : C) timeout tcp_opts tls command payload metadata t (w w1 : W) (g : G) (x : X)
    k u (s : server (W := W') * W') i cls conn h handlers response x' b rb more more' :
  conversation ser c md timeout tcp_opts tls command payload metadata t w w1 g k u s i cls conn h
    handlers response x' b rb more more' →
  wp (ticket_session (DS := socket_DualSocket n) fuel md c timeout tcp_opts tls ser
        [Send command payload metadata t])
    (λ r s', r = Ok [SendReply match ticket_result response with
                               | Some res => Ok res
                               | None => Unexpected (std_make_error_code io_error)
                               end] ∧
      outgoing (s_stream k) (pg_world s') = outgoing (s_stream k) w1 ++ frame_bytes b ∧
      only_opens None w (pg_world s')) (Program w g x) ∧
  wp (step (ticket_service (DS := socket_DualSocket n) md' 1 ser handlers) (RunTask i))
    (λ _ s', served conn h cls [rb] x' s s') s.
Proof.
  intros Hconv. pose proof (open_by_outcome md c timeout tcp_opts tls w) as Hc.
  pose proof Hconv as [Hco _ _ Hreq [Hi Htc] [Hh Hin] Ha Hres]. unfold wp in Hc. rewrite Hco in Hc.
  destruct Hc as (Hcls & Hbuf & _ & Hopen).
  assert (tcp_or_tls (s_class k) = true) as Htt by (rewrite Hcls; by destruct tls).
  apply (conversation_exchange n) with (x := x) in Hconv as [g' Hex]; [|done|done]. split.
  - pose proof (wp_send_session (Q := Q) n fuel md c timeout tcp_opts tls ser command payload metadata t w w1 k g
      x (outgoing (s_stream k) w1 ++ frame_bytes b) (λ r, r = match ticket_result response with
        | Some res => Ok res | None => Unexpected (std_make_error_code io_error) end) Hco
      (exchange_send md _ _ _ _ _ _ _ _ _ _ _ _ _ _ _ _ _ Hex)) as Hs.
    eapply wp_mono; [exact Hs|].
    simpl. intros r s' ((b0 & -> & ->) & Ho & Hcl & Hop). split_and!; [done|done|].
    intros y Hy. left. destruct (Hop y Hy) as [Hy1|]; [|done].
    destruct (Hopen y Hy1) as [?|[= <-]]; [done|congruence].
  - unfold wp, step. rewrite Hi.
    change (wp (run_task (ticket_service (DS := socket_DualSocket n) md' 1 ser handlers)
      (CallHandler cls conn h)) (λ _ s', served conn h cls [rb] x' s s')
        (set_tasks (delete i (sv_tasks s.1)) s.1, s.2)).
    eapply wp_mono; [eapply (call_handler_serves n md' ser handlers
      (set_tasks (delete i (sv_tasks s.1)) s.1, s.2) cls conn h [_] [b] more' [response] [rb] x')|];
      [done|done|simpl; rewrite Hin; unfold frames; simpl; by rewrite app_nil_r| | | |by intros _ s' [? _]].
    + destruct Hreq as (_ & _ & Hd & Hl). by repeat constructor.
    + econstructor; [exact Ha|constructor].
    + destruct Hres as (Hs & Hne & _). by repeat constructor.
Qed.

(** ** Witnesses: the counter of the network as the data of an echo service *)

#[export] Program Instance dial_ProgramData : ProgramData dial_net nat := {|
  data := dn_app;
  set_data x w := DialNet (dn_open w) (dn_next w) (dn_ids w) (dn_reach w) (dn_tls w) (dn_flags w)
    (dn_acceptor w) (dn_line w) x (dn_options w)
|}.
Next Obligation. done. Qed.
Next Obligation. done. Qed.
Next Obligation. done. Qed.
Next Obligation. done. Qed.
Next Obligation. done. Qed.
Next Obligation. done. Qed.
Next Obligation. done. Qed.

Definition echo_handlers : list (bytes * TicketHandler nat) := [(txt "echo", echo_handler)].

(** A server that is about to call its handler for the connection 0, which will deliver
    [input]. *)
Definition about_to_serve (input : bytes) : server (W := dial_net) * dial_net :=
  (Server 8080 false [] [CallHandler TcpSocketClass 0%nat 0%nat] [0%nat] [] [] 0,
   dn_set_open {[0%nat]} (line_with input)).

Lemma about_to_serve_healthy input : healthy (W := dial_net) 0%nat (about_to_serve input).2.
Proof. split; [simpl; set_solver|simpl; lia]. Qed.

Lemma service_answers_all_witness :
  let ts := [echo_ticket (txt "a"); echo_ticket (txt "bad")] in
  let rs := [completed_response (echo_ticket (txt "a")) (txt "a");
             error_response (txt "t1") (message 10) SHORT (txt "echo") 9] in
  let s := about_to_serve (frames (json_bytes <$> ts)) in
  let k := service_worker (next_socket TcpSocketClass 0%nat s.2) None echo_handlers in
  all_answers k ts (data s.2) rs 2%nat ∧
  wp (step (ticket_service (DS := socket_DualSocket 0) Sync (length ts) None echo_handlers) (RunTask 0))
    (λ _ s', served 0%nat 0%nat TcpSocketClass (json_bytes <$> rs) 2%nat s s' ∧
       sv_tasks s'.1 = delete 0%nat (sv_tasks s.1)) s.
Proof.
  intros ts rs s k.
  assert (all_answers k ts (data s.2) rs 2%nat) as Ha.
  { econstructor; [by apply (answers_completed _ _ _ echo_handler)|].
    econstructor; [|constructor].
    exact (answers_failed k (echo_ticket (txt "bad")) 1%nat echo_handler
      (make_error_code PROTOCOL_ERROR) 2%nat eq_refl eq_refl eq_refl). }
  split; [exact Ha|].
  apply (service_answers_all 0 Sync None echo_handlers s 0 TcpSocketClass 0%nat 0%nat ts
    (json_bytes <$> ts) [] rs (json_bytes <$> rs) 2%nat);
    [done|done|apply about_to_serve_healthy|by rewrite app_nil_r| |exact Ha|].
  - do 2 (constructor; [by vm_compute|]). constructor.
  - do 2 (constructor; [by vm_compute|]). constructor.
Defined.

Lemma ticket_call_witness :
  let request := first_request in
  let response := completed_response request (txt "hi") in
  let w := line_with (frame_bytes (json_bytes response)) in
  let k : socket dial_net := Socket 0 TcpSocketClass 0%nat [] in
  let s := about_to_serve (frame_bytes (json_bytes request)) in
  conversation None sample_client Sync 500 default_tcp_options None (txt "echo") (txt "hi") [] 5
    w (open_by Sync sample_client 500 default_tcp_options None w).2 tt k sample_u s 0 TcpSocketClass 0%nat 0%nat
    echo_handlers response 1%nat (json_bytes request) (json_bytes response) [] [] ∧
  wp (ticket_session (DS := socket_DualSocket 0) 0 Sync sample_client 500 default_tcp_options None None
        [Send (txt "echo") (txt "hi") [] 5])
    (λ r s', r = Ok [SendReply (Ok (txt "hi"))] ∧
      outgoing (W := dial_net) 0%nat (pg_world s') =
        outgoing (W := dial_net) 0%nat (open_by Sync sample_client 500 default_tcp_options None w).2 ++
        frame_bytes (json_bytes request) ∧
      only_opens None w (pg_world s')) (Program w tt ([] : list TicketInfo)) ∧
  wp (step (ticket_service (DS := socket_DualSocket 0) Async 1 None echo_handlers) (RunTask 0))
    (λ _ s', served 0%nat 0%nat TcpSocketClass [json_bytes response] 1%nat s s') s.
Proof.
  intros request response w k s.
  assert (conversation None sample_client Sync 500 default_tcp_options None (txt "echo") (txt "hi") [] 5
    w (open_by Sync sample_client 500 default_tcp_options None w).2 tt k sample_u s 0 TcpSocketClass 0%nat 0%nat
    echo_handlers response 1%nat (json_bytes request) (json_bytes response) [] []) as Hconv.
  { split.
    - vm_compute. reflexivity.
    - exists tt. by vm_compute.
    - split; [split; [apply (bool_decide_unpack _); by vm_compute|vm_compute; lia]|by vm_compute].
    - split_and!; [by vm_compute|by vm_compute|by vm_compute|by vm_compute].
    - done.
    - split; [apply about_to_serve_healthy|by vm_compute].
    - by apply (answers_completed _ _ _ echo_handler).
    - split_and!; [by vm_compute|by vm_compute|by vm_compute|by vm_compute]. }
  split; [exact Hconv|].
  exact (ticket_call 0 0 Sync Async None sample_client 500 default_tcp_options None _ _ _ _ _ _ tt
    ([] : list TicketInfo) k sample_u s 0 TcpSocketClass 0%nat 0%nat echo_handlers response 1%nat _ _ [] [] Hconv).
Defined.
