(* ===== verification/FtpUtils.v ===== *)
(** The directory navigator of the FTP client (src/protocol/FtpUtils.cpp): a path
    is reached by single steps from the last one. *)

From S2P Require Import Prelude ErrorCodes FsPath.

Definition backslash : bytes := txt "\".

(** ** Drives *)

(** The regular expression [^[A-Za-z]:]. *)
Definition hasWindowsDrive (p : path) : bool :=
  match path_string p with
  | c :: d :: _ => isalpha c && bool_decide (d = Byte.x3a)
  | _ => false
  end.

Definition extractWindowsDrive (p : path) : bytes :=
  let s := path_string p in
  match s with
  | c :: d :: _ => if isalpha c && bool_decide (d = Byte.x3a) then take 2 s else []
  | _ => []
  end.

Definition isPosixAbsolute (p : path) : bool :=
  negb (hasWindowsDrive p) && negb (path_empty p) &&
  bool_decide (head (path_string p) = Some slash).

Definition stripWindowsDrive (p : path) : path :=
  let s := path_string p in
  match s with
  | c :: d :: rest =>
      if isalpha c && bool_decide (d = Byte.x3a) then
        match rest with
        | e :: _ =>
            if bool_decide (e = slash) || bool_decide ([e] = backslash)
            then path_of_string (drop 3 s) else path_of_string (drop 2 s)
        | [] => path_of_string (drop 2 s)
        end
      else p
  | _ => p
  end.

(** ** SmartDirectoryNavigator *)

Definition normalize (p : path) : path := lexically_normal p.

Definition split (p : path) : list bytes :=
  List.filter (λ part, negb (bool_decide (part = dot)) && negb (bool_decide (part = dotdot)))
    (elements p).

(** The constructor: [_current]. *)
Definition SmartDirectoryNavigator_new (startPath : path) : path := normalize startPath.

(** The length of the common prefix: the loop on [common]. *)
Fixpoint common_parts (currentParts targetParts : list bytes) : nat :=
  match currentParts, targetParts with
  | a :: cs, b :: ts => if bool_decide (a = b) then S (common_parts cs ts) else 0
  | _, _ => 0
  end%nat.

(** The abstract class: the two virtual functions that a derived class implements, over
    its state [S]. The non-virtual ones are the definitions below. *)
Class SmartDirectoryNavigator (S : Type) := {
  virtual_ftpCd : bytes → M S (result unit);
  virtual_ftpSelectDrive : bytes → M S (result unit)
}.

Section navigator.
Context {S : Type} `{N : !SmartDirectoryNavigator S}.

(** A loop of [ftpCd] that returns at the first error. *)
Fixpoint cd_each (parts : list bytes) : M S (result unit) :=
  match parts with
  | [] => mret (Ok tt)
  | part :: parts => _ ←? virtual_ftpCd part; cd_each parts
  end.

Definition descendFromRoot (target : path) : M S (result unit) :=
  cd_each (List.filter
    (λ part, negb (bool_decide (part = [slash])) && negb (bool_decide (part = backslash)) &&
             negb (bool_decide (part = [])))
    (elements (stripWindowsDrive target))).

(** [changeDirectory] from [current]: what it returns, and the new [_current]. *)
Definition changeDirectory (current targetPath : path) : M S (result unit * path) :=
  let target := normalize targetPath in
  let arrive (m : M S (result unit)) : M S (result unit * path) :=
    r ← m; mret (r, match r with Ok _ => target | Unexpected _ => current end) in
  let currentHasDrive := hasWindowsDrive current in
  let targetHasDrive := hasWindowsDrive target in
  let currentDrive := extractWindowsDrive current in
  let targetDrive := extractWindowsDrive target in
  if (currentHasDrive || targetHasDrive) && negb (bool_decide (currentDrive = targetDrive)) then
    arrive (_ ←? (if negb (bool_decide (targetDrive = [])) then virtual_ftpSelectDrive targetDrive
                  else mret (Ok tt));
            descendFromRoot target)
  else if isPosixAbsolute target && negb (isPosixAbsolute current) then
    arrive (descendFromRoot target)
  else
    let currentParts := split (relative_path current) in
    let targetParts := split (relative_path target) in
    let common := common_parts currentParts targetParts in
    arrive (_ ←? cd_each (replicate (length currentParts - common) dotdot);
            cd_each (drop common targetParts)).
End navigator.

(** ** A server's working directory

    What a server promises about its working directory [cwd], a list of names:
    entering a directory appends its name, [..] drops the last one, and a refused
    command changes nothing. *)
Class Cwd (S : Type) `{SmartDirectoryNavigator S} := {
  cwd : S → list bytes;
  cd_down d s :
    plain_name d →
    wp (virtual_ftpCd d) (λ r s', match r with
                       | Ok _ => cwd s' = cwd s ++ [d]
                       | Unexpected _ => cwd s' = cwd s
                       end) s;
  cd_up s :
    cwd s ≠ [] →
    wp (virtual_ftpCd dotdot) (λ r s', match r with
                            | Ok _ => cwd s' = removelast (cwd s)
                            | Unexpected _ => cwd s' = cwd s
                            end) s
}.

Section navigator_lemmas.
Context {S : Type} `{C : Cwd S}.
Implicit Types s : S.

Lemma cd_each_down parts s :
  Forall plain_name parts →
  wp (cd_each parts) (λ r s',
    match r with
    | Ok _ => cwd s' = cwd s ++ parts
    | Unexpected _ => ∃ n, (n < length parts)%nat ∧ cwd s' = cwd s ++ take n parts
    end) s.
Proof.
  revert s. induction parts as [|d parts IH]; intros s Hp; simpl; wp_steps; [by rewrite app_nil_r|].
  apply Forall_cons in Hp as [Hd Hp].
  eapply wp_mono; [by apply cd_down|]. simpl. intros [[]|e] s1 H1; simpl.
  - eapply wp_mono; [by apply IH|]. simpl. rewrite H1. intros [[]|e] s2.
    + intros ->. by rewrite <- app_assoc.
    + intros (n & Hn & ->). exists (Datatypes.S n). split; [lia|]. by rewrite <- app_assoc.
  - exists 0%nat. split; [lia|]. simpl. by rewrite app_nil_r.
Qed.

Lemma cd_each_up n s :
  (n ≤ length (cwd s))%nat →
  wp (cd_each (replicate n dotdot)) (λ r s',
    match r with
    | Ok _ => cwd s' = take (length (cwd s) - n) (cwd s)
    | Unexpected _ => ∃ k, (k < n)%nat ∧ cwd s' = take (length (cwd s) - k) (cwd s)
    end) s.
Proof.
  revert s. induction n as [|n IH]; intros s Hn; simpl; wp_steps.
  { by rewrite Nat.sub_0_r, take_ge. }
  assert (cwd s ≠ []) as Hne by (intros E; rewrite E in Hn; simpl in Hn; lia).
  assert (removelast (cwd s) = take (length (cwd s) - 1) (cwd s)) as Hrm.
  { rewrite (removelast_firstn_len (cwd s)). by rewrite Nat.sub_1_r. }
  eapply wp_mono; [by apply cd_up|]. simpl. intros [[]|e] s1 H1; simpl.
  - rewrite Hrm in H1. assert (length (cwd s1) = (length (cwd s) - 1)%nat) as Hl.
    { rewrite H1, length_take. lia. }
    eapply wp_mono; [apply IH; lia|]. simpl. rewrite Hl, H1. intros [[]|e] s2.
    + intros ->. rewrite take_take. f_equal. lia.
    + intros (k & Hk & ->). exists (Datatypes.S k). split; [lia|]. rewrite take_take. f_equal. lia.
  - exists 0%nat. split; [lia|]. by rewrite Nat.sub_0_r, take_ge.
Qed.

Lemma common_parts_spec a b :
  let n := common_parts a b in
  (n ≤ length a)%nat ∧ (n ≤ length b)%nat ∧ take n a = take n b.
Proof.
  revert b. induction a as [|x a IH]; intros [|y b]; simpl; try (split_and!; (done || lia)).
  case_bool_decide as E; simpl; [|split_and!; (done || lia)].
  destruct (IH b) as (? & ? & ?). subst. split_and!; [lia|lia|by f_equal].
Qed.

(** A plain absolute path: a root and plain names, no trailing separator. *)
Definition plain_path (names : list bytes) : path := Path true names false.

(** The same path with a separator at its end. *)
Definition trailing_path (names : list bytes) : path := Path true names true.

Lemma split_plain names :
  Forall plain_name names → split (relative_path (plain_path names)) = names.
Proof.
  unfold split, elements; simpl. rewrite app_nil_r.
  induction 1 as [|n names (_ & H1 & H2 & _) _ IH]; simpl; [done|].
  rewrite !bool_decide_false by done. simpl. by rewrite IH.
Qed.

Lemma plain_path_string names : ∃ l : bytes, path_string (plain_path names) = slash :: l.
Proof. by eexists. Qed.

Lemma plain_path_no_drive names :
  hasWindowsDrive (plain_path names) = false ∧ isPosixAbsolute (plain_path names) = true.
Proof.
  unfold isPosixAbsolute. destruct (plain_path_string names) as [s Hs].
  assert (hasWindowsDrive (plain_path names) = false) as ->.
  { unfold hasWindowsDrive. rewrite Hs. by destruct s. }
  rewrite Hs. by destruct names.
Qed.

Lemma changeDirectory_plain names target s :
  cwd s = names → Forall plain_name names → Forall plain_name target →
  wp (changeDirectory (plain_path names) (plain_path target)) (λ ro s',
    match ro.1 with
    | Ok _ => cwd s' = target ∧ ro.2 = plain_path target
    | Unexpected _ => ro.2 = plain_path names
    end) s.
Proof.
  intros Hs Hn Ht. unfold changeDirectory, normalize.
  assert (lexically_normal (plain_path target) = plain_path target) as ->
    by by apply lexically_normal_plain.
  destruct (plain_path_no_drive names) as [-> ->]. destruct (plain_path_no_drive target) as [-> ->].
  cbn [orb andb negb]. rewrite !split_plain by done.
  destruct (common_parts_spec names target) as (H1 & H2 & H3).
  set (n := common_parts names target) in *. wp_steps.
  eapply wp_mono; [apply cd_each_up; rewrite Hs; lia|].
  intros [[]|e] s1 Hs1; simpl; [|by wp_steps].
  eapply wp_mono; [by apply cd_each_down, Forall_drop|].
  intros [[]|e] s2 Hs2; simpl; wp_steps; [|done]. split; [|done].
  simpl in Hs2. rewrite Hs2, Hs1, Hs.
  replace (length names - (length names - n))%nat with n by lia.
  rewrite H3. apply take_drop.
Qed.
End navigator_lemmas.

(** ** A concrete server: the directories that exist and the working directory *)
Record tree_server := TreeServer { ts_dirs : list (list bytes); ts_cwd : list bytes }.

Definition ts_cd (d : bytes) : M tree_server (result unit) := λ s,
  if bool_decide (d = dotdot) then
    (Done (Ok tt), TreeServer (ts_dirs s) (removelast (ts_cwd s)))
  else if bool_decide (ts_cwd s ++ [d] ∈ ts_dirs s) then
    (Done (Ok tt), TreeServer (ts_dirs s) (ts_cwd s ++ [d]))
  else (Done (Unexpected (make_error_code PROTOCOL_ERROR)), s).

#[export] Instance ts_navigator : SmartDirectoryNavigator tree_server := {|
  virtual_ftpCd := ts_cd;
  virtual_ftpSelectDrive := ts_cd
|}.

#[export] Program Instance ts_Cwd : Cwd tree_server := {| cwd := ts_cwd |}.
Next Obligation.
  intros d s (H1 & H2 & H3 & _). unfold wp, virtual_ftpCd, ts_navigator, ts_cd. rewrite bool_decide_false by done.
  by case_bool_decide.
Qed.
Next Obligation. intros s Hs. unfold wp, virtual_ftpCd, ts_navigator, ts_cd. by rewrite bool_decide_true. Qed.

(** A navigator and its server. *)
Definition ts_go (target : path) : M (path * tree_server) (result unit) := λ s,
  match changeDirectory s.1 target s.2 with
  | (Done (r, current), s') => (Done r, (current, s'))
  | (Throw x, s') => (Throw x, (s.1, s'))
  | (Undef, s') => (Undef, (s.1, s'))
  | (NoFuel, s') => (NoFuel, (s.1, s'))
  end.

(** ** Correctness of the navigator *)

(** C27: between absolute paths of plain names without a trailing separator the
    navigator keeps its picture of the server right: when its directory is the
    server's and changing to a path succeeds, the server is in the directory of
    that path and the navigator knows it. *)
Theorem navigator_in_sync {S : Type} `{C : Cwd S}
    names target (s : S) :
  cwd s = names → Forall plain_name names → Forall plain_name target →
  wp (changeDirectory (plain_path names) (plain_path target)) (λ ro s',
    ro.1 = Ok tt → cwd s' = target ∧ ro.2 = plain_path target) s.
Proof.
  intros Hs Hn Ht. eapply wp_mono; [by apply changeDirectory_plain|].
  by intros [[[]|e] p] s1 E; simpl in *.
Qed.

Lemma plain_letters n :
  bool_decide (n ≠ [] ∧ n ≠ dot ∧ n ≠ dotdot ∧ (slash ∉ n) ∧ (CR ∉ n) ∧ LF ∉ n) = true → plain_name n.
Proof. by intros H%bool_decide_eq_true. Qed.

Lemma navigator_in_sync_witness :
  let s := TreeServer [[txt "a"]; [txt "a"; txt "b"]; [txt "a"; txt "c"]] [txt "a"; txt "b"] in
  cwd s = [txt "a"; txt "b"] ∧
  Forall plain_name [txt "a"; txt "b"] ∧ Forall plain_name [txt "a"; txt "c"] ∧
  wp (changeDirectory (plain_path [txt "a"; txt "b"]) (plain_path [txt "a"; txt "c"]))
    (λ ro s', ro.1 = Ok tt → cwd s' = [txt "a"; txt "c"] ∧
       ro.2 = plain_path [txt "a"; txt "c"]) s.
Proof.
  intros s.
  assert (Forall plain_name [txt "a"; txt "b"]) as H1
    by by repeat (constructor; [by apply plain_letters|]).
  assert (Forall plain_name [txt "a"; txt "c"]) as H2
    by by repeat (constructor; [by apply plain_letters|]).
  split_and!; [reflexivity|exact H1|exact H2|].
  exact (navigator_in_sync _ _ s eq_refl H1 H2).
Defined.

(** Outside the case of plain absolute paths and changes that succeed the navigator
    loses its position. After a change that failed on the way it still believes to be
    where it started, so the next one ends, with success, in another directory ("/d" for "/a/d"); a trailing
    separator is sent as a change to the empty name and fails in an existing
    directory; and a relative path is taken from the root instead of the current
    directory, after which an existing absolute path is not found any more. *)
Theorem navigator_loses_position :
  let dirs := [[txt "a"]; [txt "d"]; [txt "b"]; [txt "a"; txt "b"]; [txt "a"; txt "d"]] in
  let p s := path_of_string s in
  let at_ cur dir := (p cur, TreeServer dirs dir) in
  let failed := Unexpected (make_error_code PROTOCOL_ERROR) in
  (ts_go (p (txt "/missing/x")) (at_ (txt "/a") [txt "a"]) = (Done failed, at_ (txt "/a") []) ∧
   ts_go (p (txt "/a/d")) (at_ (txt "/a") []) = (Done (Ok tt), at_ (txt "/a/d") [txt "d"])) ∧
  ts_go (p (txt "/a/b/")) (at_ (txt "/") []) = (Done failed, at_ (txt "/") [txt "a"; txt "b"]) ∧
  (ts_go (p (txt "b")) (at_ (txt "/a") [txt "a"]) = (Done (Ok tt), at_ (txt "b") [txt "b"]) ∧
   ts_go (p (txt "/a")) (at_ (txt "b") [txt "b"]) = (Done failed, at_ (txt "b") [txt "b"])).
Proof. split_and!; by vm_compute. Qed.
