(* ===== verification/FtpParse.v ===== *)
(** What the FTP client reads from texts (src/protocol/FtpFileTransfer.cpp): the end
    of a response, PASV addresses, feature lists and directory listings. *)

From stdpp Require Import pretty.
From S2P Require Import Prelude ErrorCodes FsPath.

(** ** Numbers of the standard library *)

(** The value of decimal digits. *)
Definition decimal (ds : bytes) : Z := foldl (λ v d, v * 10 + (byte_val d - 48)) 0 ds.

Fixpoint take_while (f : byte → bool) (s : bytes) : bytes :=
  match s with c :: s' => if f c then c :: take_while f s' else [] | [] => [] end.

Fixpoint drop_while (f : byte → bool) (s : bytes) : bytes :=
  match s with c :: s' => if f c then drop_while f s' else s | [] => [] end.

(** An optional sign: whether it is a minus, and what follows it. *)
Definition parse_sign (s : bytes) : bool * bytes :=
  match s with
  | c :: s' => if bool_decide (c = Byte.x2d) then (true, s')
               else if bool_decide (c = Byte.x2b) then (false, s') else (false, s)
  | [] => (false, s)
  end.

(** [std::stoi] *)
Definition stoi (s : bytes) : outcome Z :=
  let '(neg, s) := parse_sign (drop_while isspace s) in
  let ds := take_while isdigit s in
  if bool_decide (ds = []) then Throw std_invalid_argument
  else
    let v := if neg then - decimal ds else decimal ds in
    if bool_decide (- 2 ^ 31 ≤ v < 2 ^ 31) then Done v else Throw std_out_of_range.

(** [std::from_chars] into an [uint32_t]: the value and the number of bytes read. *)
Definition from_chars_u32 (s : bytes) : expected errc (Z * nat) :=
  let ds := take_while isdigit s in
  if bool_decide (ds = []) then Unexpected invalid_argument
  else if bool_decide (decimal ds < 2 ^ 32) then Ok (decimal ds, length ds)
  else Unexpected result_out_of_range.

(** ** Responses *)

(** Drops what [f] accepts from the end. *)
Definition trim_end (f : byte → bool) (s : bytes) : bytes := rev (drop_while f (rev s)).

Definition is_eol (b : byte) : bool := bool_decide (b = CR) || bool_decide (b = LF).

Definition splitLines (lines : bytes) : list bytes :=
  List.filter nonempty (trim_end is_eol <$> split_on LF lines).

Definition three_digits (l : bytes) : bool :=
  match l with a :: b :: c :: _ => isdigit a && isdigit b && isdigit c | _ => false end.

Definition isCompleteFtpResponse (lines : list bytes) : bool :=
  match lines with
  | [] => false
  | first :: _ =>
      if bool_decide (length first < 4)%nat || negb (three_digits first) then false
      else
        let code := take 3 first in
        if bool_decide (first !! 3%nat = Some Byte.x20) then true
        else if bool_decide (first !! 3%nat ≠ Some Byte.x2d) then false
        else existsb (λ l, bool_decide (4 ≤ length l)%nat && bool_decide (take 3 l = code) &&
                           bool_decide (l !! 3%nat = Some Byte.x20)) lines
  end.

(** ** PASV *)

Definition trim_leading_space (str : bytes) : bytes := drop_while isspace str.

Definition parse_uint8 (str : bytes) : result Z :=
  let str := trim_leading_space str in
  if bool_decide (str = []) then Unexpected (std_make_error_code invalid_argument)
  else
    match from_chars_u32 str with
    | Unexpected e => Unexpected (std_make_error_code e)
    | Ok (val, n) =>
        if bool_decide (n ≠ length str) then Unexpected (std_make_error_code invalid_argument)
        else if bool_decide (255 < val) then Unexpected (std_make_error_code result_out_of_range)
        else Ok val
    end.

(** [find] of one character from a position. *)
Definition find_from (c : byte) (pos : nat) (s : bytes) : option nat :=
  (λ i, (pos + i)%nat) <$> search [c] (drop pos s).

(** The parameter loop, while fewer than six are read: at most [k] more from
    [params]. [None] when one of them does not parse. *)
Fixpoint pasv_params (k : nat) (params : bytes) : option (list Z) :=
  match k with
  | O => Some []
  | S k' =>
      if bool_decide (params = []) then Some []
      else
        let comma := search [Byte.x2c] params in
        let part := match comma with Some i => take i params | None => params end in
        match parse_uint8 part with
        | Unexpected _ => None
        | Ok val =>
            match comma with
            | None => Some [val]
            | Some i => cons val <$> pasv_params k' (drop (i + 1) params)
            end
        end
  end.

(** An [asio::ip::tcp::endpoint] with an IPv4 address: the address and the port. *)
Definition endpoint : Type := Z * Z.

Definition pasv_endpoint (parts : list Z) : option endpoint :=
  match parts with
  | [p0; p1; p2; p3; p4; p5] =>
      Some (wrap_u32 (Z.lor (Z.lor (Z.lor (wrap_u32 (Z.shiftl p0 24)) (wrap_u32 (Z.shiftl p1 16)))
                                   (wrap_u32 (Z.shiftl p2 8))) p3),
            wrap_u16 (Z.lor (wrap_u32 (Z.shiftl p4 8)) p5))
  | _ => None
  end.

Definition parsePasvResponse (response : bytes) : option endpoint :=
  match find_from Byte.x28 0 response with
  | None => None
  | Some start =>
      match find_from Byte.x29 start response with
      | None => None
      | Some end_ =>
          if bool_decide (end_ ≤ start)%nat then None
          else
            let params := take (end_ - start - 1) (drop (start + 1) response) in
            match pasv_params 6 params with
            | None => None
            | Some parts => pasv_endpoint parts
            end
      end
  end.

(** ** Features *)

Record FtpCapabilities := {
  cap_mlst : bool; cap_nlst : bool; cap_list_cmd : bool; cap_size : bool; cap_mdtm : bool;
  cap_rename : bool; cap_epsv : bool; cap_pasv : bool; cap_feat : bool
}.

Definition default_capabilities : FtpCapabilities :=
  {| cap_mlst := false; cap_nlst := false; cap_list_cmd := true; cap_size := false;
     cap_mdtm := false; cap_rename := false; cap_epsv := false; cap_pasv := true;
     cap_feat := false |}.

Definition set_feature (feature : bytes) (c : FtpCapabilities) : FtpCapabilities :=
  let '(Build_FtpCapabilities mlst nlst list_cmd size mdtm rename epsv pasv feat) := c in
  if starts_with (txt "MLST") feature
  then Build_FtpCapabilities true nlst list_cmd size mdtm rename epsv pasv feat
  else if starts_with (txt "NLST") feature
  then Build_FtpCapabilities mlst true list_cmd size mdtm rename epsv pasv feat
  else if starts_with (txt "SIZE") feature
  then Build_FtpCapabilities mlst nlst list_cmd true mdtm rename epsv pasv feat
  else if starts_with (txt "MDTM") feature
  then Build_FtpCapabilities mlst nlst list_cmd size true rename epsv pasv feat
  else if starts_with (txt "RENAME") feature
  then Build_FtpCapabilities mlst nlst list_cmd size mdtm true epsv pasv feat
  else if starts_with (txt "PASV") feature
  then Build_FtpCapabilities mlst nlst list_cmd size mdtm rename epsv true feat
  else if starts_with (txt "FEAT") feature
  then Build_FtpCapabilities mlst nlst list_cmd size mdtm rename epsv pasv true
  else c.

Definition is_blank_end (b : byte) : bool := bool_decide (b = Byte.x20) || is_eol b.

Definition parse_feature_line (c : FtpCapabilities) (line : bytes) : FtpCapabilities :=
  if bool_decide (length line < 2)%nat then c
  else match line with
       | b :: feature =>
           if bool_decide (b = Byte.x20) then set_feature (trim_end is_blank_end feature) c else c
       | [] => c
       end.

Definition parseFeatures (feat_response : bytes) (c : FtpCapabilities) : FtpCapabilities :=
  foldl parse_feature_line c (splitLines feat_response).

(** ** Directory listings *)

(** Outcomes of code that keeps no state. *)
#[export] Instance outcome_ret : MRet outcome := λ A a, Done a.
#[export] Instance outcome_bind : MBind outcome := λ A B k o,
  match o with
  | Done a => k a
  | Throw x => Throw x
  | Undef => Undef
  | NoFuel => NoFuel
  end.

(** The fields of [std::tm] that are filled in. *)
Record tm := { tm_year : Z; tm_mon : Z; tm_mday : Z; tm_hour : Z; tm_min : Z }.

(** The clock and the time zone of the system: the current local year and
    [std::mktime]. *)
Class Clock := { current_year : Z; mktime : tm → Z }.

(** [IAbstractFileTransfer::FileListData] *)
Record FileListData := {
  fl_date : Z;
  fl_size : Z;
  fl_file_name : bytes;
  fl_full_path : path
}.

Definition monthMap (month : bytes) : option Z :=
  (λ p : nat * bytes, Z.of_nat p.1) <$> list_find (λ m, m = month)
    [ txt "Jan"; txt "Feb"; txt "Mar"; txt "Apr"; txt "May"; txt "Jun"; txt "Jul"; txt "Aug";
      txt "Sep"; txt "Oct"; txt "Nov"; txt "Dec" ].

Section listing.
Context `{Clock}.

Definition parseFtpTimestamp (month day time_or_year : bytes) : outcome Z :=
  match monthMap month with
  | None => Throw (std_runtime_error (txt "Invalid month name: " ++ month))
  | Some monthNum =>
      dayNum ← stoi day;
      if bool_decide (dayNum < 1) || bool_decide (31 < dayNum)
      then Throw (std_runtime_error (txt "Invalid day: " ++ day))
      else
        ymd ← match search (txt ":") time_or_year with
              | Some colonPos =>
                  hour ← stoi (take colonPos time_or_year);
                  minute ← stoi (drop (colonPos + 1) time_or_year);
                  mret (current_year, hour, minute)
              | None => year ← stoi time_or_year; mret (year, 0, 0)
              end;
        let '(year, hour, minute) := ymd in
        (* year - 1900 is computed on int *)
        if bool_decide (year - 1900 < - 2 ^ 31) then Undef
        else
          let t := mktime {| tm_year := year - 1900; tm_mon := monthNum; tm_mday := dayNum;
                             tm_hour := hour; tm_min := minute |} in
          if bool_decide (t = -1)
          then Throw (std_runtime_error (txt "Invalid date/time combination"))
          else mret t
  end.

(** [iss >> token] into a string. *)
Definition read_token (s : bytes) : option (bytes * bytes) :=
  let s := drop_while isspace s in
  let t := take_while (λ c, negb (isspace c)) s in
  if bool_decide (t = []) then None else Some (t, drop (length t) s).

(** [iss >> size] into an [uint64_t]: a minus sign negates modulo 2^64, a value out
    of range fails. *)
Definition read_u64 (s : bytes) : option (Z * bytes) :=
  let '(neg, s) := parse_sign (drop_while isspace s) in
  let ds := take_while isdigit s in
  if bool_decide (ds = []) then None
  else if bool_decide (decimal ds < 2 ^ 64) then
    Some (wrap_u64 (if neg then - decimal ds else decimal ds), drop (length ds) s)
  else None.

(** The eight fields in front of the name, and what follows them. *)
Definition read_fields (line : bytes) : option (Z * bytes * bytes * bytes * bytes) :=
  '(_, s) ← read_token line;
  '(_, s) ← read_token s;
  '(_, s) ← read_token s;
  '(_, s) ← read_token s;
  '(size, s) ← read_u64 s;
  '(month, s) ← read_token s;
  '(day, s) ← read_token s;
  '(time_or_year, s) ← read_token s;
  Some (size, month, day, time_or_year, s).

(** [None] for a line that is not taken; an invalid date throws. *)
Definition parseFtpLine (line : bytes) : outcome (option FileListData) :=
  if bool_decide (line = []) then Done None
  else
    match read_fields line with
    | None => Done None
    | Some (size, month, day, time_or_year, s) =>
        let file_name := drop_while isspace (trim_end isspace s) in
        if bool_decide (file_name = []) then Done None
        else
          date ← parseFtpTimestamp month day time_or_year;
          mret (Some {| fl_date := date; fl_size := size; fl_file_name := file_name;
                        fl_full_path := empty_path |})
    end.

(** The loop of [list] over the lines of a listing. *)
Fixpoint parse_listing (lines : list bytes) : outcome (list FileListData) :=
  match lines with
  | [] => mret []
  | line :: lines =>
      file ← parseFtpLine line;
      files ← parse_listing lines;
      mret (match file with Some f => f :: files | None => files end)
  end.
End listing.

(** ** Lemmas *)

Lemma take_while_app f s1 s2 :
  Forall (λ c, f c = true) s1 → (∀ c, head s2 = Some c → f c = false) →
  take_while f (s1 ++ s2) = s1 ∧ drop_while f (s1 ++ s2) = s2.
Proof.
  intros H1 H2. induction H1 as [|c s1 Hc _ [IH1 IH2]]; simpl.
  - destruct s2 as [|c s2]; simpl; [done|]. by rewrite (H2 c eq_refl).
  - by rewrite Hc, IH1, IH2.
Qed.

Lemma take_while_all f s : Forall (λ c, f c = true) s → take_while f s = s.
Proof. intros H. rewrite <- (app_nil_r s) at 1. by apply take_while_app. Qed.

Lemma drop_while_stop f s : (∀ c, head s = Some c → f c = false) → drop_while f s = s.
Proof. intros H. by destruct (take_while_app f [] s). Qed.

Lemma drop_while_app f s1 s2 :
  drop_while f (s1 ++ s2) =
    match drop_while f s1 with [] => drop_while f s2 | r => r ++ s2 end.
Proof.
  induction s1 as [|c s1 IH]; simpl; [done|]. by destruct (f c).
Qed.

Lemma trim_end_app f s : 
  (∀ c, last s = Some c → f c = false) → trim_end f s = s.
Proof.
  intros H. unfold trim_end. rewrite drop_while_stop; [apply rev_involutive|].
  intros c Hc. apply H. rewrite last_lookup.
  destruct s as [|s x] using rev_ind; [done|].
  rewrite rev_app_distr in Hc. simpl in Hc. rewrite length_app; simpl.
  rewrite lookup_app_r by lia. by replace (_ - _)%nat with 0%nat by lia.
Qed.

(** Splitting lines that were put together. *)
Definition proper_line (l : bytes) : Prop := l ≠ [] ∧ Forall (λ c, is_eol c = false) l.

Lemma split_on_app sep l s :
  sep ∉ l → split_on sep (l ++ sep :: s) = l :: split_on sep s.
Proof.
  induction l as [|c l IH]; simpl; intros Hl; [by rewrite bool_decide_true|].
  rewrite bool_decide_false by set_solver. rewrite IH by set_solver. done.
Qed.

Lemma split_on_none sep l : sep ∉ l → split_on sep l = [l].
Proof.
  induction l as [|c l IH]; simpl; intros Hl; [done|].
  rewrite bool_decide_false by set_solver. by rewrite IH by set_solver.
Qed.

Definition lines_text (lines : list bytes) : bytes := concat ((.++ CRLF) <$> lines).

Lemma proper_no_lf l : proper_line l → LF ∉ l.
Proof. intros [_ Hl] Hin. rewrite Forall_forall in Hl. specialize (Hl _ Hin). done. Qed.

Lemma trim_eol_cr l : proper_line l → trim_end is_eol (l ++ [CR]) = l.
Proof.
  intros [Hne Hl]. unfold trim_end. rewrite rev_app_distr. simpl.
  rewrite drop_while_stop; [apply rev_involutive|].
  intros c Hc. rewrite Forall_forall in Hl. apply Hl.
  apply list_elem_of_In, in_rev, list_elem_of_In. destruct (rev l); [done|].
  injection Hc as ->. by left.
Qed.

Lemma lines_text_cons l lines :
  lines_text (l :: lines) = (l ++ [CR]) ++ LF :: lines_text lines.
Proof. unfold lines_text; simpl. by rewrite <- !app_assoc. Qed.

Lemma splitLines_lines_text lines :
  Forall proper_line lines → splitLines (lines_text lines) = lines.
Proof.
  unfold splitLines. induction 1 as [|l lines Hl _ IH]; [done|].
  rewrite lines_text_cons, split_on_app.
  - rewrite fmap_cons, trim_eol_cr by done.
    destruct Hl as [Hne _]. destruct l; [done|]. simpl. f_equal. exact IH.
  - pose proof (proper_no_lf l Hl). rewrite elem_of_app. intros [?|Hin]; [done|].
    by apply list_elem_of_singleton in Hin.
Qed.

(** The decimal texts of natural numbers. *)
Definition decimal_from (v : Z) (ds : bytes) : Z :=
  foldl (λ v d, v * 10 + (byte_val d - 48)) v ds.

Lemma pretty_digit (r : N) :
  (r < 10)%N → isdigit (Ascii.byte_of_ascii (pretty_N_char r)) = true ∧
    byte_val (Ascii.byte_of_ascii (pretty_N_char r)) - 48 = Z.of_N r.
Proof.
  intros Hr. rewrite <- (N2Nat.id r) in Hr |- *. revert Hr. generalize (N.to_nat r). intros n Hn.
  do 10 (destruct n as [|n]; [done|]). lia.
Qed.

Lemma pretty_go_digits (x : N) s :
  Forall (λ c, isdigit c = true) (txt s) →
  Forall (λ c, isdigit c = true) (txt (pretty_N_go x s)) ∧
  decimal_from 0 (txt (pretty_N_go x s)) = decimal_from (Z.of_N x) (txt s) ∧
  (length (txt s) ≤ length (txt (pretty_N_go x s)))%nat ∧
  ((0 < x)%N → txt (pretty_N_go x s) ≠ []).
Proof.
  revert s. induction (N.lt_wf_0 x) as [x _ IH]; intros s Hs.
  destruct (decide (x = 0)%N) as [->|Hx]; [by rewrite pretty_N_go_0|].
  rewrite pretty_N_go_step by lia.
  destruct (pretty_digit (x `mod` 10)%N) as [Hd Hv]; [by apply N.mod_lt|].
  set (c := Ascii.byte_of_ascii (pretty_N_char (x `mod` 10))) in *.
  assert (txt (String.String (pretty_N_char (x `mod` 10)) s) = c :: txt s) as Ht by done.
  destruct (IH (x `div` 10)%N) with (s := String.String (pretty_N_char (x `mod` 10)) s)
    as (H1 & H2 & H3 & _); [apply N.div_lt; lia|rewrite Ht; by constructor|].
  split_and!; [done| |rewrite Ht in H3; simpl in H3; lia|].
  - rewrite H2, Ht. unfold decimal_from at 1. simpl. fold (decimal_from (Z.of_N (x `div` 10) * 10
      + (byte_val c - 48)) (txt s)). rewrite Hv. f_equal. pose proof (N.div_mod x 10 ltac:(done)). lia.
  - intros _ H0. rewrite Ht in H3. rewrite H0 in H3. simpl in H3. lia.
Qed.

Lemma number_text n :
  0 ≤ n → Forall (λ c, isdigit c = true) (to_string n) ∧ decimal (to_string n) = n ∧
    to_string n ≠ [].
Proof.
  intros Hn. destruct n as [|p|p]; [by repeat constructor| |lia].
  destruct (pretty_go_digits (N.pos p) String.EmptyString) as (H1 & H2 & _ & H4);
    [by constructor|].
  unfold to_string. change (pretty (Z.pos p)) with (pretty_N_go (N.pos p) String.EmptyString).
  split_and!; [done|exact H2|by apply H4].
Qed.

Lemma octet_text n :
  0 ≤ n < 256 → Forall (λ c, isdigit c = true) (to_string n) ∧ decimal (to_string n) = n ∧
    to_string n ≠ [].
Proof. intros Hn. apply number_text. lia. Qed.

Lemma digit_not_space c : isdigit c = true → isspace c = false.
Proof.
  unfold isdigit, isspace. rewrite bool_decide_eq_true. intros H.
  rewrite !bool_decide_false by lia. done.
Qed.

Lemma head_Forall {A} (P : A → Prop) l c : Forall P l → head l = Some c → P c.
Proof. destruct 1; simpl; [done|]. by intros [= <-]. Qed.

Lemma parse_uint8_octet n : 0 ≤ n < 256 → parse_uint8 (to_string n) = Ok n.
Proof.
  intros Hn. destruct (octet_text n Hn) as (Hd & Hv & Hne).
  unfold parse_uint8, trim_leading_space, from_chars_u32.
  rewrite drop_while_stop.
  2: { intros c Hc. by apply digit_not_space, (head_Forall _ _ _ Hd). }
  rewrite bool_decide_false by done. rewrite (take_while_all _ _ Hd), Hv.
  rewrite bool_decide_false by done. rewrite bool_decide_true by lia. simpl.
  rewrite bool_decide_false by (intros H; by apply H). by rewrite bool_decide_false by lia.
Qed.

Lemma digit_val c : isdigit c = true → 48 ≤ byte_val c ≤ 57.
Proof. apply bool_decide_eq_true. Qed.

Lemma search_one c s i :
  search [c] s = Some i ↔ s !! i = Some c ∧ ∀ j, (j < i)%nat → s !! j ≠ Some c.
Proof.
  assert (Hs : ∀ l, starts_with [c] l = bool_decide (head l = Some c)).
  { intros [|d l]; simpl; [done|]. rewrite andb_true_r. apply bool_decide_ext. naive_solver. }
  assert (Hh : ∀ j, head (drop j s) = s !! j).
  { intros j. rewrite <- (Nat.add_0_r j) at 2. rewrite <- lookup_drop. by destruct (drop j s). }
  rewrite search_Some, Hs, Hh, bool_decide_eq_true. split.
  - intros (H1 & _ & H2). split; [done|]. intros j Hj. specialize (H2 j Hj).
    by rewrite Hs, Hh, bool_decide_eq_false in H2.
  - intros [H1 H2]. split_and!; [done|apply lookup_lt_Some in H1; simpl; lia|].
    intros j Hj. rewrite Hs, Hh. by apply bool_decide_eq_false, H2.
Qed.

Lemma search_one_app c s1 s2 : c ∉ s1 → search [c] (s1 ++ c :: s2) = Some (length s1).
Proof.
  intros Hc. apply search_one. split; [by rewrite lookup_app_r, Nat.sub_diag|].
  intros j Hj. rewrite lookup_app_l by done. intros H. by apply Hc, list_elem_of_lookup_2 with j.
Qed.

Lemma search_one_None c s : c ∉ s → search [c] s = None.
Proof.
  intros Hc. destruct (search [c] s) as [i|] eqn:E; [|done].
  apply search_one in E as [E _]. by apply list_elem_of_lookup_2 in E.
Qed.

Definition octets (ns : list Z) : Prop := Forall (λ n, 0 ≤ n < 256) ns.

Lemma pasv_params_text ns k :
  octets ns → (length ns ≤ k)%nat →
  pasv_params k (join [Byte.x2c] (to_string <$> ns)) = Some ns.
Proof.
  intros Hns. revert k. induction Hns as [|n ns Hn Hns IH]; intros k Hk; [by destruct k|].
  destruct k as [|k]; [simpl in Hk; lia|]. simpl in Hk.
  destruct (octet_text n Hn) as (Hd & _ & Hne).
  assert (Byte.x2c ∉ to_string n) as Hcomma.
  { intros Hin. rewrite Forall_forall in Hd. by apply Hd in Hin. }
  destruct ns as [|n' ns].
  - simpl. rewrite bool_decide_false by done.
    rewrite search_one_None by done. by rewrite parse_uint8_octet.
  - rewrite !fmap_cons. change (join [Byte.x2c] (to_string n :: to_string n' :: (to_string <$> ns)))
      with (to_string n ++ Byte.x2c :: join [Byte.x2c] (to_string <$> n' :: ns)).
    cbn [pasv_params]. rewrite bool_decide_false by (by destruct (to_string n)).
    rewrite search_one_app by done. rewrite take_app_length, parse_uint8_octet by done.
    rewrite drop_app_ge by lia. replace (_ + 1 - _)%nat with 1%nat by lia.
    change (drop 1 (Byte.x2c :: ?l)) with l. by rewrite IH by lia.
Qed.

Lemma pasv_endpoint_octets h1 h2 h3 h4 p1 p2 :
  octets [h1; h2; h3; h4; p1; p2] →
  pasv_endpoint [h1; h2; h3; h4; p1; p2] =
    Some (((h1 * 256 + h2) * 256 + h3) * 256 + h4, p1 * 256 + p2).
Proof.
  unfold octets. rewrite !Forall_cons. intros (H1 & H2 & H3 & H4 & H5 & H6 & _).
  unfold pasv_endpoint, wrap_u32, wrap_u16.
  assert (Hm : ∀ x k, 0 ≤ x < 256 → 0 ≤ k ≤ 24 →
    Z.shiftl x k `mod` 2 ^ 32 = Z.shiftl x k).
  { intros x k Hx Hk. rewrite Z.shiftl_mul_pow2, Z.mod_small; [done| |lia].
    split; [nia|]. assert (2 ^ k ≤ 2 ^ 24) by (apply Z.pow_le_mono_r; lia). nia. }
  rewrite !Hm by lia.
  replace (Z.lor (Z.lor (Z.lor (Z.shiftl h1 24) (Z.shiftl h2 16)) (Z.shiftl h3 8)) h4)
    with (Z.lor (Z.shiftl (Z.lor (Z.shiftl (Z.lor (Z.shiftl h1 8) h2) 8) h3) 8) h4)
    by (rewrite !Z.shiftl_lor, !Z.shiftl_shiftl by lia; done).
  rewrite !lor_shift8 by lia. by rewrite !Z.mod_small by lia.
Qed.

Lemma decimal_nonneg ds : Forall (λ c, isdigit c = true) ds → 0 ≤ decimal ds.
Proof.
  unfold decimal. assert (Hg : ∀ v, 0 ≤ v → Forall (λ c, isdigit c = true) ds →
    0 ≤ foldl (λ v d, v * 10 + (byte_val d - 48)) v ds); [|by apply Hg].
  induction ds as [|d ds IH]; intros v Hv Hd; simpl; [done|].
  apply Forall_cons in Hd as [Hd Hds]. apply digit_val in Hd. apply IH; [lia|done].
Qed.

Lemma take_while_Forall f s : Forall (λ c, f c = true) (take_while f s).
Proof. induction s as [|c s IH]; simpl; [done|]. destruct (f c) eqn:E; by constructor. Qed.

Lemma parse_uint8_range s v : parse_uint8 s = Ok v → 0 ≤ v < 256.
Proof.
  unfold parse_uint8, from_chars_u32. set (ds := take_while isdigit _).
  pose proof (decimal_nonneg ds (take_while_Forall _ _)).
  repeat case_bool_decide; try done; intros [= <-]; lia.
Qed.

Lemma pasv_params_octets k s ns : pasv_params k s = Some ns → octets ns ∧ (length ns ≤ k)%nat.
Proof.
  assert (∀ k, octets [] ∧ (length (@nil Z) ≤ k)%nat) as Hnil
    by (intros ?; split; [apply Forall_nil_2|simpl; lia]).
  revert s ns. induction k as [|k IH]; intros s ns; simpl; [by intros [= <-]|].
  case_bool_decide; [by intros [= <-]|].
  destruct (parse_uint8 _) as [v|] eqn:Ev; [|done]. apply parse_uint8_range in Ev.
  destruct (search _ _) as [i|].
  - rewrite fmap_Some. intros (ns' & Hns & ->). apply IH in Hns as [? ?].
    split; [by constructor|simpl; lia].
  - intros [= <-]. split; [by apply Forall_singleton|simpl; lia].
Qed.

(** ** Correctness of PASV parsing *)

(** C36: a PASV response gives the address and the port of its six numbers, in
    network order, wherever in the text the parenthesis stands. *)
Theorem parsePasvResponse_complete pre h1 h2 h3 h4 p1 p2 post :
  Byte.x28 ∉ pre → octets [h1; h2; h3; h4; p1; p2] →
  parsePasvResponse (pre ++ txt "(" ++
      join (txt ",") (to_string <$> [h1; h2; h3; h4; p1; p2]) ++ txt ")" ++ post) =
    Some (((h1 * 256 + h2) * 256 + h3) * 256 + h4, p1 * 256 + p2).
Proof.
  intros Hpre Hoct. set (ps := join _ _). unfold parsePasvResponse, find_from.
  change (txt "(" ++ ps ++ txt ")" ++ post) with (Byte.x28 :: ps ++ Byte.x29 :: post).
  assert (Byte.x29 ∉ Byte.x28 :: ps) as Hps.
  { subst ps. unfold octets in Hoct. rewrite !Forall_cons in Hoct.
    destruct Hoct as (H1 & H2 & H3 & H4 & H5 & H6 & _).
    assert (Hd : ∀ n, 0 ≤ n < 256 → Byte.x29 ∉ to_string n).
    { intros n Hn Hin. destruct (octet_text n Hn) as (Hd & _).
      rewrite Forall_forall in Hd. by apply Hd in Hin. }
    simpl. repeat (rewrite not_elem_of_cons || rewrite not_elem_of_app).
    split_and!; try done; by apply Hd. }
  rewrite drop_0, search_one_app by done. cbn [fmap option_fmap option_map Nat.add].
  rewrite drop_app_length.
  change (Byte.x28 :: ps ++ Byte.x29 :: post) with ((Byte.x28 :: ps) ++ Byte.x29 :: post) at 1.
  rewrite search_one_app by done. cbn [fmap option_fmap option_map length].
  rewrite bool_decide_false by lia.
  rewrite drop_app_ge by lia. replace (length pre + 1 - length pre)%nat with 1%nat by lia.
  replace (length pre + S (length ps) - length pre - 1)%nat with (length ps) by lia.
  rewrite skipn_cons, drop_0. rewrite take_app_length. subst ps. change (txt ",") with [Byte.x2c].
  rewrite pasv_params_text by (done || (simpl; lia)). by apply pasv_endpoint_octets.
Qed.

Lemma parsePasvResponse_complete_witness :
  (Byte.x28 ∉ txt "227 Entering Passive Mode ") ∧ octets [127; 0; 0; 1; 200; 10] ∧
  parsePasvResponse (txt "227 Entering Passive Mode " ++ txt "(" ++
      join (txt ",") (to_string <$> [127; 0; 0; 1; 200; 10]) ++ txt ")" ++ CRLF) =
    Some (((127 * 256 + 0) * 256 + 0) * 256 + 1, 200 * 256 + 10).
Proof.
  assert (Byte.x28 ∉ txt "227 Entering Passive Mode ") as H1
    by (apply (bool_decide_unpack _); by vm_compute).
  assert (octets [127; 0; 0; 1; 200; 10]) as H2 by (apply (bool_decide_unpack _); by vm_compute).
  split_and!; [exact H1|exact H2|]. exact (parsePasvResponse_complete _ _ _ _ _ _ _ CRLF H1 H2).
Defined.

(** Whatever text a server sends, an endpoint is only made of six numbers from
    0 to 255: no part of the address or of the port is ever cut. *)
Theorem parsePasvResponse_sound response ip port :
  parsePasvResponse response = Some (ip, port) →
  ∃ h1 h2 h3 h4 p1 p2, octets [h1; h2; h3; h4; p1; p2] ∧
    ip = ((h1 * 256 + h2) * 256 + h3) * 256 + h4 ∧ port = p1 * 256 + p2 ∧
    0 ≤ ip < 2 ^ 32 ∧ 0 ≤ port < 2 ^ 16.
Proof.
  unfold parsePasvResponse. destruct (find_from _ _ _) as [start|]; [|done].
  destruct (find_from _ _ _) as [e|]; [|done]. case_bool_decide; [done|].
  destruct (pasv_params _ _) as [ns|] eqn:E; [|done].
  apply pasv_params_octets in E as [Ho _].
  destruct ns as [|h1 [|h2 [|h3 [|h4 [|p1 [|p2 [|]]]]]]]; try done.
  rewrite pasv_endpoint_octets by done. intros [= <- <-].
  exists h1, h2, h3, h4, p1, p2. split; [done|].
  unfold octets in Ho. rewrite !Forall_cons in Ho. split_and!; (done || lia).
Qed.

Lemma parsePasvResponse_sound_witness :
  parsePasvResponse (txt "227 (10,0, 0,1,4,1,junk)") = Some (167772161, 1025) ∧
  ∃ h1 h2 h3 h4 p1 p2, octets [h1; h2; h3; h4; p1; p2] ∧
    167772161 = ((h1 * 256 + h2) * 256 + h3) * 256 + h4 ∧ 1025 = p1 * 256 + p2 ∧
    0 ≤ 167772161 < 2 ^ 32 ∧ 0 ≤ 1025 < 2 ^ 16.
Proof.
  assert (parsePasvResponse (txt "227 (10,0, 0,1,4,1,junk)") = Some (167772161, 1025)) as H
    by by vm_compute.
  split; [exact H|]. exact (parsePasvResponse_sound _ _ _ H).
Defined.

(** ** Directory listings in the format of [ls -l] *)

(** A file as [ls -l] lists it: the four fields that are skipped (permissions, links,
    owner, group), its size, the time of its last modification, whether that was recent,
    that is within the last six months, and its name. *)
Record ls_entry := {
  ls_skipped : bytes * bytes * bytes * bytes;
  ls_size : Z;
  ls_year : Z;
  ls_month : nat;
  ls_day : Z;
  ls_hour : Z;
  ls_minute : Z;
  ls_recent : bool;
  ls_name : bytes
}.

Definition months : list bytes :=
  [ txt "Jan"; txt "Feb"; txt "Mar"; txt "Apr"; txt "May"; txt "Jun"; txt "Jul"; txt "Aug";
    txt "Sep"; txt "Oct"; txt "Nov"; txt "Dec" ].

Definition two_digits (n : Z) : bytes :=
  if bool_decide (n < 10) then txt "0" ++ to_string n else to_string n.

(** A recent time is shown without its year, another one without hour and minute. *)
Definition time_text (e : ls_entry) : bytes :=
  if ls_recent e then two_digits (ls_hour e) ++ txt ":" ++ two_digits (ls_minute e)
  else to_string (ls_year e).

(** The columns of a line are filled up with any number of spaces. *)
Definition gap (n : nat) : bytes := replicate (S n) Byte.x20.

Definition ls_line (g : nat → nat) (e : ls_entry) : bytes :=
  let '(permissions, links, owner, group) := ls_skipped e in
  permissions ++ gap (g 0%nat) ++ links ++ gap (g 1%nat) ++ owner ++ gap (g 2%nat) ++ group ++ gap (g 3%nat) ++
  to_string (ls_size e) ++ gap (g 4%nat) ++ default [] (months !! ls_month e) ++ gap (g 5%nat) ++
  to_string (ls_day e) ++ gap (g 6%nat) ++ time_text e ++ gap (g 7%nat) ++ ls_name e.

Definition token (t : bytes) : Prop := t ≠ [] ∧ Forall (λ c, isspace c = false) t.

(** A name without the blanks at its ends. *)
Definition without_blanks (n : bytes) : bytes := drop_while isspace (trim_end isspace n).

(** A name may have blanks, but not only blanks, and no line break. *)
Definition ls_name_ok (n : bytes) : Prop := without_blanks n ≠ [] ∧ Forall (λ c, is_eol c = false) n.

Definition ls_ok (e : ls_entry) : Prop :=
  (let '(permissions, links, owner, group) := ls_skipped e in
   token permissions ∧ token links ∧ token owner ∧ token group) ∧
  0 ≤ ls_size e < 2 ^ 64 ∧ (ls_month e < 12)%nat ∧ 1 ≤ ls_day e ≤ 31 ∧
  (0 ≤ ls_year e < 2 ^ 31 ∧ 0 ≤ ls_hour e < 24 ∧ 0 ≤ ls_minute e < 60) ∧ ls_name_ok (ls_name e).

Lemma gap_space n : Forall (λ c, isspace c = true) (gap n).
Proof. by apply Forall_replicate. Qed.

Lemma gap_head n s c : head (gap n ++ s) = Some c → isspace c = true.
Proof. by intros [= <-]. Qed.

Lemma token_head t s c : token t → head (t ++ s) = Some c → isspace c = false.
Proof. intros [Hne Ht]. destruct t as [|d t]; [done|]. intros [= <-]. by inversion Ht. Qed.

Lemma digits_token ds : ds ≠ [] → Forall (λ c, isdigit c = true) ds → token ds.
Proof. intros ? H. split; [done|]. eapply Forall_impl; [exact H|]. apply digit_not_space. Qed.

Lemma drop_spaces_token sp t s :
  Forall (λ c, isspace c = true) sp → token t → drop_while isspace (sp ++ t ++ s) = t ++ s.
Proof. intros Hsp Ht. apply take_while_app; [done|]. intros c. by apply token_head. Qed.

Lemma read_token_text sp t s :
  Forall (λ c, isspace c = true) sp → token t → (∀ c, head s = Some c → isspace c = true) →
  read_token (sp ++ t ++ s) = Some (t, s).
Proof.
  intros Hsp Ht Hs. unfold read_token. rewrite drop_spaces_token by done.
  destruct Ht as [Hne Ht].
  assert (take_while (λ c, negb (isspace c)) (t ++ s) = t) as ->.
  { apply take_while_app; [|intros c Hc; by rewrite (Hs c Hc)].
    eapply Forall_impl; [exact Ht|]. by intros c ->. }
  rewrite bool_decide_false by done. by rewrite drop_app_length.
Qed.

Lemma parse_sign_digits ds s :
  ds ≠ [] → Forall (λ c, isdigit c = true) ds → parse_sign (ds ++ s) = (false, ds ++ s).
Proof.
  intros Hne Hd. destruct ds as [|d ds]; [done|]. inversion Hd as [|? ? Hd1 _]. subst.
  apply digit_val in Hd1. simpl. rewrite !bool_decide_false; [done|..].
  - intros ->. vm_compute in Hd1. by destruct Hd1.
  - intros ->. vm_compute in Hd1. by destruct Hd1.
Qed.

Lemma read_u64_text sp n s :
  Forall (λ c, isspace c = true) sp → 0 ≤ n < 2 ^ 64 →
  (∀ c, head s = Some c → isdigit c = false) →
  read_u64 (sp ++ to_string n ++ s) = Some (n, s).
Proof.
  intros Hsp Hn Hs. destruct (number_text n) as (Hd & Hv & Hne); [lia|].
  unfold read_u64. rewrite drop_spaces_token by (done || by apply digits_token).
  rewrite parse_sign_digits by done.
  destruct (take_while_app isdigit (to_string n) s Hd Hs) as [-> _].
  rewrite bool_decide_false by done. rewrite Hv, bool_decide_true by lia.
  rewrite drop_app_length. unfold wrap_u64. by rewrite Z.mod_small by lia.
Qed.

Lemma stoi_digits ds :
  ds ≠ [] → Forall (λ c, isdigit c = true) ds → decimal ds < 2 ^ 31 → stoi ds = Done (decimal ds).
Proof.
  intros Hne Hd Hv. unfold stoi.
  rewrite drop_while_stop by (intros c Hc; apply digit_not_space, (head_Forall _ _ _ Hd Hc)).
  pose proof (parse_sign_digits ds [] Hne Hd) as Hs. rewrite app_nil_r in Hs. rewrite Hs.
  rewrite take_while_all by done. rewrite bool_decide_false by done.
  pose proof (decimal_nonneg ds Hd). by rewrite bool_decide_true by lia.
Qed.

Lemma stoi_number n : 0 ≤ n < 2 ^ 31 → stoi (to_string n) = Done n.
Proof.
  intros Hn. destruct (number_text n) as (Hd & Hv & Hne); [lia|].
  rewrite stoi_digits by (done || lia). by rewrite Hv.
Qed.

Lemma two_digits_text n :
  0 ≤ n < 60 → Forall (λ c, isdigit c = true) (two_digits n) ∧ two_digits n ≠ [] ∧
    stoi (two_digits n) = Done n.
Proof.
  intros Hn. assert (Forall (λ n, Forall (λ c, isdigit c = true) (two_digits n) ∧
    two_digits n ≠ [] ∧ stoi (two_digits n) = Done n) (seqZ 0 60)) as H
    by (repeat constructor; done).
  rewrite Forall_forall in H. apply H, elem_of_seqZ. lia.
Qed.

Lemma no_colon ds : Forall (λ c, isdigit c = true) ds → Byte.x3a ∉ ds.
Proof. rewrite Forall_forall. intros H Hin. by apply H in Hin. Qed.

Lemma monthMap_months m : (m < 12)%nat → monthMap (default [] (months !! m)) = Some (Z.of_nat m).
Proof. intros Hm. do 12 (destruct m as [|m]; [by vm_compute|]). lia. Qed.

Lemma month_token m : (m < 12)%nat → token (default [] (months !! m)).
Proof.
  intros Hm. split.
  - do 12 (destruct m as [|m]; [done|]). lia.
  - do 12 (destruct m as [|m]; [by repeat constructor|]). lia.
Qed.

Lemma time_token e : ls_ok e → token (time_text e).
Proof.
  intros (_ & _ & _ & _ & (Hy & Hh & Hm) & _). unfold time_text. destruct (ls_recent e).
  - destruct (two_digits_text (ls_hour e)) as (Hd1 & Hne & _); [lia|].
    destruct (two_digits_text (ls_minute e)) as (Hd2 & _); [lia|]. split.
    + simpl. by destruct (two_digits _).
    + apply Forall_app; split; [eapply Forall_impl; [exact Hd1|apply digit_not_space]|].
      apply Forall_app; split; [by repeat constructor|].
      eapply Forall_impl; [exact Hd2|apply digit_not_space].
  - destruct (number_text (ls_year e)) as (Hd & _ & Hne); [lia|]. by apply digits_token.
Qed.

(** The blanks before a name do not count, and neither do those at its ends. *)
Lemma without_blanks_gap n name :
  without_blanks name ≠ [] → without_blanks (gap n ++ name) = without_blanks name.
Proof.
  intros Hname. unfold without_blanks in *.
  assert (trim_end isspace (gap n ++ name) = gap n ++ trim_end isspace name) as ->.
  { unfold trim_end in *. rewrite rev_app_distr, drop_while_app.
    destruct (drop_while isspace (rev name)) eqn:E; [done|].
    by rewrite rev_app_distr, rev_involutive. }
  rewrite drop_while_app. by replace (drop_while isspace (gap n)) with (@nil byte) by (by induction n).
Qed.

Section listing_lemmas.
Context `{Clock}.

(** The time of an entry, as far as the listing shows it. *)
Definition ls_tm (e : ls_entry) : tm :=
  {| tm_year := ls_year e - 1900; tm_mon := Z.of_nat (ls_month e); tm_mday := ls_day e;
     tm_hour := if ls_recent e then ls_hour e else 0; tm_min := if ls_recent e then ls_minute e else 0 |}.

Definition a_year_later (t : tm) : tm :=
  {| tm_year := tm_year t + 1; tm_mon := tm_mon t; tm_mday := tm_mday t;
     tm_hour := tm_hour t; tm_min := tm_min t |}.

(** It was recent, but in the last year. *)
Definition of_last_year (e : ls_entry) : bool :=
  ls_recent e && bool_decide (ls_year e = current_year - 1).

(** The time that is made of the entry. *)
Definition ls_tm_read (e : ls_entry) : tm := if of_last_year e then a_year_later (ls_tm e) else ls_tm e.

Definition ls_data (e : ls_entry) : FileListData :=
  {| fl_date := mktime (ls_tm_read e); fl_size := ls_size e; fl_file_name := without_blanks (ls_name e);
     fl_full_path := empty_path |}.

(** Six months ago was this year or the last one, and the system can represent the time. *)
Definition ls_date_ok (e : ls_entry) : Prop :=
  (ls_recent e = true → ls_year e = current_year ∨ ls_year e = current_year - 1) ∧
  mktime (ls_tm_read e) ≠ -1.

Lemma parseFtpTimestamp_text e :
  0 ≤ current_year → ls_ok e → ls_date_ok e →
  parseFtpTimestamp (default [] (months !! ls_month e)) (to_string (ls_day e)) (time_text e) =
    Done (mktime (ls_tm_read e)).
Proof.
  intros Hcur (_ & _ & Hm & Hd & (Hy & Hh & Hmin) & _) [Hrec Hdate]. unfold parseFtpTimestamp.
  rewrite monthMap_months by done. rewrite stoi_number by lia. cbn [mbind outcome_bind].
  rewrite !bool_decide_false by lia. cbn [orb].
  unfold ls_tm_read, of_last_year, ls_tm, time_text in *. destruct (ls_recent e) eqn:Hr.
  - destruct (two_digits_text (ls_hour e)) as (Hd1 & _ & Hs1); [lia|].
    destruct (two_digits_text (ls_minute e)) as (_ & _ & Hs2); [lia|].
    change (txt ":" ++ ?m) with (Byte.x3a :: m). change (txt ":") with [Byte.x3a].
    rewrite search_one_app by (by apply no_colon). rewrite take_app_length, Hs1.
    rewrite drop_app_ge by lia. replace (_ + 1 - _)%nat with 1%nat by lia.
    rewrite skipn_cons, drop_0, Hs2. cbn [mbind outcome_bind mret outcome_ret].
    rewrite bool_decide_false by lia. destruct (Hrec eq_refl) as [E|E]; rewrite E in *.
    + rewrite (bool_decide_false (current_year = _)) in * by lia. simpl in *. by rewrite bool_decide_false.
    + rewrite (bool_decide_true (_ = current_year - 1)) in * by lia. unfold a_year_later in *. simpl in *.
      replace (current_year - 1 - 1900 + 1) with (current_year - 1900) in * by lia. by rewrite bool_decide_false.
  - destruct (number_text (ls_year e)) as (Hyd & _); [lia|].
    change (txt ":") with [Byte.x3a].
    rewrite search_one_None by (by apply no_colon). rewrite stoi_number by done.
    cbn [mbind outcome_bind mret outcome_ret andb] in *.
    rewrite bool_decide_false by lia. by rewrite bool_decide_false.
Qed.

Lemma read_fields_text g e :
  ls_ok e →
  read_fields (ls_line g e) =
    Some (ls_size e, default [] (months !! ls_month e), to_string (ls_day e),
          time_text e, gap (g 7%nat) ++ ls_name e).
Proof.
  intros He. pose proof (time_token e He) as Ht. destruct He as (Hsk & Hsize & Hm & Hd & _).
  unfold read_fields, ls_line.
  destruct (ls_skipped e) as [[[p l] o] gr]. destruct Hsk as (Hp & Hl & Ho & Hg).
  destruct (number_text (ls_day e)) as (Hdd & _ & Hdn); [lia|].
  change (read_token (p ++ ?s)) with (read_token ([] ++ p ++ s)).
  rewrite (read_token_text [] p) by (done || (intros c; by apply gap_head)). cbn [mbind option_bind].
  do 3 (rewrite read_token_text
    by (done || apply gap_space || (intros c; by apply gap_head)); cbn [mbind option_bind]).
  rewrite read_u64_text by (done || apply gap_space || (by intros c [= <-])).
  cbn [mbind option_bind].
  rewrite read_token_text
    by (apply gap_space || (by apply month_token) || (intros c; by apply gap_head)).
  cbn [mbind option_bind].
  rewrite read_token_text
    by (apply gap_space || (by apply digits_token) || (intros c; by apply gap_head)).
  cbn [mbind option_bind].
  by rewrite read_token_text
    by (apply gap_space || done || (intros c; by apply gap_head)).
Qed.

Lemma parseFtpLine_text g e :
  0 ≤ current_year → ls_ok e → ls_date_ok e →
  parseFtpLine (ls_line g e) = Done (Some (ls_data e)).
Proof.
  intros Hcur He Hdate. unfold parseFtpLine. pose proof (read_fields_text g e He) as Hf.
  rewrite bool_decide_false by (by intros Hl; rewrite Hl in Hf).
  rewrite Hf. pose proof He as (_ & _ & _ & _ & _ & Hne & _).
  pose proof (without_blanks_gap (g 7%nat) (ls_name e) Hne) as Hname. unfold without_blanks at 1 in Hname.
  rewrite Hname.
  rewrite bool_decide_false by done. rewrite parseFtpTimestamp_text by done. done.
Qed.

Lemma token_no_eol t : token t → Forall (λ c, is_eol c = false) t.
Proof.
  intros [_ Ht]. eapply Forall_impl; [exact Ht|]. intros c Hc.
  unfold is_eol. apply orb_false_iff. rewrite !bool_decide_eq_false.
  split; intros ->; by vm_compute in Hc.
Qed.

Lemma gap_no_eol n : Forall (λ c, is_eol c = false) (gap n).
Proof. by apply Forall_replicate. Qed.

Lemma ls_line_proper g e : ls_ok e → proper_line (ls_line g e).
Proof.
  intros He. pose proof (time_token e He) as Ht. destruct He as (Hsk & Hsize & Hm & Hd & _ & _ & Heol).
  unfold ls_line.
  destruct (ls_skipped e) as [[[p l] o] gr]. destruct Hsk as (Hp & Hl & Ho & Hg). split.
  - destruct Hp as [Hp _]. by destruct p.
  - destruct (number_text (ls_day e)) as (Hdd & _ & Hdn); [lia|].
    destruct (number_text (ls_size e)) as (Hsd & _ & Hsn); [lia|].
    rewrite !Forall_app. split_and!; auto using gap_no_eol, token_no_eol, digits_token,
      month_token.
Qed.

Lemma parse_listing_text g es :
  0 ≤ current_year → Forall (λ e, ls_ok e ∧ ls_date_ok e) es →
  parse_listing (ls_line g <$> es) = Done (ls_data <$> es).
Proof.
  intros Hcur. induction 1 as [|e es [He Hd] _ IH]; [done|].
  rewrite fmap_cons. simpl. rewrite parseFtpLine_text by done. cbn [mbind outcome_bind].
  by rewrite IH.
Qed.
End listing_lemmas.

(** C37: a listing in the format of [ls -l] is read line by line, in its order: every line
    gives the size of the file, its name, but for blanks at the ends of the name, and the
    date of its last modification, to the minute if the listing shows the time of day,
    and else to the day; provided the system can represent that date. The exception are
    files that were modified in the last six months but in the last year, whose line
    shows no year: they get a date that is a year late, in the future. *)
Theorem listing_correct `{Clock} g es :
  0 ≤ current_year → Forall (λ e, ls_ok e ∧ ls_date_ok e) es →
  parse_listing (splitLines (lines_text (ls_line g <$> es))) =
    Done ((λ e, {| fl_date := mktime (if of_last_year e then a_year_later (ls_tm e) else ls_tm e);
                   fl_size := ls_size e; fl_file_name := without_blanks (ls_name e);
                   fl_full_path := empty_path |}) <$> es).
Proof.
  intros Hcur Hes. rewrite splitLines_lines_text; [by apply parse_listing_text|].
  apply Forall_fmap. eapply Forall_impl; [exact Hes|]. intros e [He _]. by apply ls_line_proper.
Qed.

(** A clock that counts months of 31 days. *)
Definition sample_clock : Clock :=
  {| current_year := 2026;
     mktime t := (((tm_year t * 12 + tm_mon t) * 31 + tm_mday t) * 24 + tm_hour t) * 3600 +
                 tm_min t * 60 |}.

(** The first file was modified in November of the last year, and has a blank at its end. *)
Definition sample_entries : list ls_entry :=
  [ {| ls_skipped := (txt "-rw-r--r--", txt "1", txt "ftp", txt "ftp"); ls_size := 5318008;
       ls_year := 2025; ls_month := 10%nat; ls_day := 18; ls_hour := 20; ls_minute := 8;
       ls_recent := true; ls_name := txt "read me.txt " |};
    {| ls_skipped := (txt "drwxr-xr-x", txt "12", txt "ftp", txt "ftp"); ls_size := 4096;
       ls_year := 1999; ls_month := 0%nat; ls_day := 1; ls_hour := 3; ls_minute := 45;
       ls_recent := false; ls_name := txt "pub" |} ].

Lemma listing_correct_witness :
  let sample := sample_clock in
  Forall (λ e, ls_ok e ∧ ls_date_ok e) sample_entries ∧
  (of_last_year <$> sample_entries) = [true; false] ∧
  parse_listing (splitLines (lines_text (ls_line (λ n, n) <$> sample_entries))) =
    Done ((λ e, {| fl_date := mktime (if of_last_year e then a_year_later (ls_tm e) else ls_tm e);
                   fl_size := ls_size e; fl_file_name := without_blanks (ls_name e);
                   fl_full_path := empty_path |}) <$> sample_entries).
Proof.
  intros sample.
  assert (Forall (λ e, ls_ok e ∧ ls_date_ok e) sample_entries) as Hes.
  { repeat (apply Forall_cons; split); [..|by apply Forall_nil].
    all: split; [|split; [intros [=]; by right|by vm_compute]].
    all: unfold ls_ok, token, ls_name_ok; simpl;
      split_and!; try (apply (bool_decide_unpack _); by vm_compute); lia. }
  split; [exact Hes|]. split; [vm_compute; reflexivity|].
  apply (listing_correct (H := sample_clock)); [vm_compute; congruence|exact Hes].
Defined.

(** ** Feature lists *)

(** A line of the response that offers the feature [name]. *)
Definition offers (name : bytes) (feat_response : bytes) : bool :=
  existsb (starts_with (Byte.x20 :: name)) (splitLines feat_response).

(** [c] with the features that [has] answers for. *)
Definition with_features (has : bytes → bool) (c : FtpCapabilities) : FtpCapabilities :=
  {| cap_mlst := cap_mlst c || has (txt "MLST"); cap_nlst := cap_nlst c || has (txt "NLST");
     cap_list_cmd := cap_list_cmd c; cap_size := cap_size c || has (txt "SIZE");
     cap_mdtm := cap_mdtm c || has (txt "MDTM"); cap_rename := cap_rename c || has (txt "RENAME");
     cap_epsv := cap_epsv c; cap_pasv := cap_pasv c || has (txt "PASV");
     cap_feat := cap_feat c || has (txt "FEAT") |}.

Definition feature_names : list bytes :=
  [ txt "MLST"; txt "NLST"; txt "SIZE"; txt "MDTM"; txt "RENAME"; txt "PASV"; txt "FEAT" ].

Lemma with_features_none has c : (∀ n, n ∈ feature_names → has n = false) → with_features has c = c.
Proof.
  intros Hhas. destruct c. unfold with_features; cbn -[txt].
  by rewrite !Hhas, !orb_false_r by (unfold feature_names; set_solver).
Qed.

Lemma with_features_app has1 has2 c :
  with_features has2 (with_features has1 c) = with_features (λ n, has1 n || has2 n) c.
Proof. unfold with_features; cbn -[txt]. by rewrite <- !orb_assoc. Qed.

Lemma with_features_ext has1 has2 c :
  (∀ n, n ∈ feature_names → has1 n = has2 n) → with_features has1 c = with_features has2 c.
Proof.
  intros H. unfold with_features. by rewrite !H by (unfold feature_names; set_solver).
Qed.

Ltac next_feature :=
  match goal with
  | |- context [if starts_with ?n ?f then _ else _] =>
      destruct (starts_with n f) eqn:?;
      [ match goal with
        | Hn : starts_with n f = true |- _ => apply starts_with_spec in Hn as [? ->]
        end;
        unfold with_features; cbn; by rewrite ?orb_false_r, ?orb_true_r
      | ]
  end.

Lemma set_feature_spec f c : set_feature f c = with_features (λ n, starts_with n f) c.
Proof.
  unfold set_feature. destruct c as [c1 c2 c3 c4 c5 c6 c7 c8 c9].
  do 7 next_feature. symmetry. apply with_features_none.
  unfold feature_names. intros n Hn. rewrite !elem_of_cons in Hn.
  by destruct Hn as [->|[->|[->|[->|[->|[->|[->|[]%elem_of_nil]]]]]]].
Qed.

Lemma trim_end_keep f p c s :
  f c = false → trim_end f ((p ++ [c]) ++ s) = (p ++ [c]) ++ trim_end f s.
Proof.
  intros Hc. unfold trim_end. rewrite rev_app_distr, drop_while_app.
  assert (drop_while f (rev (p ++ [c])) = rev (p ++ [c])) as Hp.
  { rewrite rev_app_distr. simpl. by rewrite Hc. }
  destruct (drop_while f (rev s)) as [|d r] eqn:E.
  - rewrite Hp. by rewrite rev_involutive, app_nil_r.
  - rewrite rev_app_distr, rev_involutive. by simpl.
Qed.

Lemma trim_end_prefix f s : ∃ r, s = trim_end f s ++ r.
Proof.
  unfold trim_end. set (t := rev s). replace s with (rev t) by apply rev_involutive.
  induction t as [|c t [r IH]]; simpl; [by exists []|].
  destruct (f c); [|by exists []; rewrite app_nil_r].
  exists (r ++ [c]). by rewrite IH at 1; rewrite <- app_assoc.
Qed.

Lemma starts_with_trim_end f p c s :
  f c = false → starts_with (p ++ [c]) (trim_end f s) = starts_with (p ++ [c]) s.
Proof.
  intros Hc. apply eq_bool_prop_intro. rewrite !Is_true_true, !starts_with_spec. split.
  - intros [r Hr]. destruct (trim_end_prefix f s) as [r' Hs]. rewrite Hr in Hs.
    exists (r ++ r'). by rewrite Hs, <- app_assoc at 1.
  - intros [r ->]. exists (trim_end f r). by apply trim_end_keep.
Qed.

Lemma feature_name_shape n : n ∈ feature_names → ∃ p c, n = p ++ [c] ∧ is_blank_end c = false.
Proof.
  intros Hn. assert (Forall (λ n, is_blank_end (List.last n Byte.x20) = false) feature_names) as H
    by (repeat constructor).
  rewrite Forall_forall in H. specialize (H n Hn).
  destruct n as [|c n _] using rev_ind; [done|]. rewrite last_last in H. by eauto.
Qed.

Lemma parse_feature_line_spec l c :
  parse_feature_line c l = with_features (λ n, starts_with (Byte.x20 :: n) l) c.
Proof.
  unfold parse_feature_line. case_bool_decide as Hlen.
  - symmetry. apply with_features_none. intros n Hn.
    destruct (feature_name_shape n Hn) as (p & d & -> & _).
    destruct l as [|b [|? l]]; simpl in *; [done| |lia].
    destruct p; simpl; apply andb_false_r.
  - destruct l as [|b l]; [simpl in Hlen; lia|]. case_bool_decide as Hb; subst.
    + rewrite set_feature_spec. apply with_features_ext. intros n Hn. simpl.
      destruct (feature_name_shape n Hn) as (p & d & -> & Hd).
      by rewrite starts_with_trim_end.
    + symmetry. apply with_features_none. intros n _. simpl. by rewrite bool_decide_false.
Qed.

(** A FEAT response adds exactly the features it names in an indented line, and
    never takes a capability away; EPSV is never learned. *)
Theorem parseFeatures_correct feat_response c :
  parseFeatures feat_response c = with_features (λ n, offers n feat_response) c.
Proof.
  unfold parseFeatures, offers. generalize (splitLines feat_response) as ls.
  intros ls. revert c. induction ls as [|l ls IH]; intros c; simpl.
  - symmetry. by apply with_features_none.
  - rewrite IH, parse_feature_line_spec. apply with_features_app.
Qed.
