(* ===== verification/FileTransfer.v ===== *)
(** The interface [IAbstractFileTransfer] (include/protocol/FileTransfer.h) as a
    typeclass, and the contracts its users may rely on: queries and changes of a tree of
    files, and what files hold. The FTP client fulfils them in the files FtpFiles and
    FtpStore. *)

From S2P Require Import Prelude ErrorCodes FileTree FsPath FtpUtils FtpParse.

(** [T] is the state of a transfer object together with its world [W]; a callback runs
    in the world. *)
Class AbstractFileTransfer (T W : Type) := {
  ft_isAlive : T → bool;
  ft_list : path → M T (result (list FileListData));
  ft_createDir : path → M T (result unit);
  ft_exists : path → M T (result bool);
  ft_remove : path → M T (result unit);
  ft_read : path → M T (result bytes);
  ft_read_cb : path → (bytes → M W (result nat)) → M T (result nat);
  ft_write : path → bytes → M T (result FileListData);
  ft_write_cb : path → M W (result bytes) → M T (result FileListData);
  ft_isDirectory : path → M T (result bool)
}.

(** The contract, for paths whose directory exists, over a view of the remote files: what
    lies at a list of names. [ft_ready] is a connection in which the server answers. *)
Class FileTransferSpec (T W : Type) `{AbstractFileTransfer T W} := {
  ft_ready : T → Prop;
  ft_entry : T → list bytes → option entry;
  ft_parent t l x : ft_entry t (l ++ [x]) ≠ None → ft_entry t l = Some Directory;
  ft_exists_spec t dir n :
    ft_ready t → Forall plain_name dir → plain_name n → ft_entry t dir = Some Directory →
    wp (ft_exists (plain_path (dir ++ [n]))) (λ r t', ft_ready t' ∧
      (∀ l, ft_entry t' l = ft_entry t l) ∧
      r = Ok (bool_decide (ft_entry t (dir ++ [n]) ≠ None))) t;
  ft_isDirectory_spec t dir n e :
    ft_ready t → Forall plain_name dir → plain_name n → ft_entry t (dir ++ [n]) = Some e →
    wp (ft_isDirectory (plain_path (dir ++ [n]))) (λ r t', ft_ready t' ∧
      (∀ l, ft_entry t' l = ft_entry t l) ∧ r = Ok (is_dir e)) t;
  ft_createDir_spec t dir n :
    ft_ready t → Forall plain_name dir → plain_name n → ft_entry t dir = Some Directory →
    wp (ft_createDir (plain_path (dir ++ [n]))) (λ r t', ft_ready t' ∧ r = Ok tt ∧
      ∀ l, ft_entry t' l = if bool_decide (l = dir ++ [n])
                           then Some (default Directory (ft_entry t l)) else ft_entry t l) t;
  ft_remove_spec t dir n :
    ft_ready t → Forall plain_name dir → plain_name n → ft_entry t (dir ++ [n]) ≠ None →
    (∀ x, ft_entry t ((dir ++ [n]) ++ [x]) = None) →
    wp (ft_remove (plain_path (dir ++ [n]))) (λ r t', ft_ready t' ∧ r = Ok tt ∧
      ∀ l, ft_entry t' l = if bool_decide (l = dir ++ [n]) then None else ft_entry t l) t
}.

(** The contract on what files hold: reading gives back what was written, and writing
    changes nothing else. [ft_max] bounds the files for which the loops of a transfer are
    known to end. *)
Class FileStoreSpec (T W : Type) `{FileTransferSpec T W} := {
  ft_max : nat;
  ft_read_spec t dir n c :
    ft_ready t → Forall plain_name dir → plain_name n → ft_entry t (dir ++ [n]) = Some (File c) →
    (length c < ft_max)%nat →
    wp (ft_read (plain_path (dir ++ [n]))) (λ r t', ft_ready t' ∧ r = Ok c ∧
      ∀ l, ft_entry t' l = ft_entry t l) t;
  ft_write_spec t dir n data :
    ft_ready t → Forall plain_name dir → plain_name n → ft_entry t dir = Some Directory →
    ft_entry t (dir ++ [n]) ≠ Some Directory →
    wp (ft_write (plain_path (dir ++ [n])) data) (λ r t', ft_ready t' ∧
      (∃ f, r = Ok f ∧ fl_size f = Z.of_nat (length data) ∧ fl_file_name f = n) ∧
      ∀ l, ft_entry t' l = if bool_decide (l = dir ++ [n]) then Some (File data)
                           else ft_entry t l) t
}.

(** ** What the contract is good for *)

Section client.
Context {T W : Type} `{FileTransferSpec T W}.

(** Makes a directory, makes it once more, asks for it, and removes it. *)
Definition directory_session (p : path) : M T (list (result bool) * list (result unit)) :=
  before ← ft_exists (W := W) p;
  c1 ← ft_createDir (W := W) p;
  during ← ft_exists (W := W) p;
  is_dir ← ft_isDirectory (W := W) p;
  c2 ← ft_createDir (W := W) p;
  r ← ft_remove (W := W) p;
  after ← ft_exists (W := W) p;
  mret ([before; during; is_dir; after], [c1; c2; r]).

(** Writes a file, reads it, writes it anew, reads it again, and removes it. *)
Definition file_session (p : path) (a b : bytes)
    : M T (list (result bytes) * list (result bool) * result unit) :=
  ft_write (W := W) p a;;
  r1 ← ft_read (W := W) p;
  e1 ← ft_exists (W := W) p;
  ft_write (W := W) p b;;
  r2 ← ft_read (W := W) p;
  x ← ft_remove (W := W) p;
  e2 ← ft_exists (W := W) p;
  mret ([r1; r2], [e1; e2], x).

(** What lies at a path during a session, and everything else as at its beginning. *)
Definition holds (l0 : list bytes) (e : option entry) (t t' : T) : Prop :=
  ft_ready t' ∧ ∀ l, ft_entry t' l = if bool_decide (l = l0) then e else ft_entry t l.

Lemma holds_at l0 e t t' : holds l0 e t t' → ft_entry t' l0 = e.
Proof. intros [_ Hl]. by rewrite Hl, bool_decide_true. Qed.

Lemma holds_other l0 e t t' l : holds l0 e t t' → l ≠ l0 → ft_entry t' l = ft_entry t l.
Proof. intros [_ Hl] Hne. by rewrite Hl, bool_decide_false. Qed.

Lemma holds_start l0 e t : ft_ready t → ft_entry t l0 = e → holds l0 e t t.
Proof. intros Ht <-. split; [done|]. intros l. case_bool_decide; [by subst|done]. Qed.

Lemma holds_end l0 t t' : holds l0 (ft_entry t l0) t t' → ∀ l, ft_entry t' l = ft_entry t l.
Proof. intros [_ Hl] l. rewrite Hl. case_bool_decide; [by subst|done]. Qed.

Lemma holds_next l0 e e' t t1 t2 :
  holds l0 e t t1 → ft_ready t2 →
  (∀ l, ft_entry t2 l = if bool_decide (l = l0) then e' else ft_entry t1 l) → holds l0 e' t t2.
Proof.
  intros [_ H1] Hr H2. split; [done|]. intros l. rewrite H2, H1. by case_bool_decide.
Qed.

Lemma holds_same l0 e t t1 t2 :
  holds l0 e t t1 → ft_ready t2 → (∀ l, ft_entry t2 l = ft_entry t1 l) → holds l0 e t t2.
Proof. intros [_ H1] Hr H2. split; [done|]. intros l. by rewrite H2. Qed.

Section steps.
Context (t0 : T) (dir : list bytes) (n : bytes).
Hypothesis Hdir : Forall plain_name dir.
Hypothesis Hn : plain_name n.
Hypothesis Hkind : ft_entry t0 dir = Some Directory.
Let l0 := dir ++ [n].

Lemma parent_ne : dir ≠ l0.
Proof. intros E. apply (f_equal length) in E. unfold l0 in E. rewrite length_app in E. simpl in E. lia. Qed.

Lemma holds_parent e t : holds l0 e t0 t → ft_entry t dir = Some Directory.
Proof. intros Ht. by rewrite (holds_other _ _ _ _ dir Ht parent_ne). Qed.

Lemma exists_step e t :
  holds l0 e t0 t →
  wp (ft_exists (plain_path l0)) (λ r t', r = Ok (bool_decide (e ≠ None)) ∧ holds l0 e t0 t') t.
Proof.
  intros Ht. pose proof (holds_parent _ _ Ht) as Hp.
  eapply wp_mono; [by apply ft_exists_spec; [apply Ht|..]|]. simpl. fold l0.
  intros r t' (Hr & Hl & ->). rewrite (holds_at _ _ _ _ Ht). split; [done|]. by eapply holds_same.
Qed.

Lemma isDirectory_step e t :
  holds l0 (Some e) t0 t →
  wp (ft_isDirectory (plain_path l0)) (λ r t', r = Ok (is_dir e) ∧ holds l0 (Some e) t0 t') t.
Proof.
  intros Ht. eapply wp_mono; [apply ft_isDirectory_spec; [apply Ht|done|done|by apply (holds_at _ _ _ _ Ht)]|].
  simpl. intros r t' (Hr & Hl & ->). split; [done|]. by eapply holds_same.
Qed.

Lemma createDir_step e t :
  holds l0 e t0 t →
  wp (ft_createDir (plain_path l0)) (λ r t', r = Ok tt ∧ holds l0 (Some (default Directory e)) t0 t') t.
Proof.
  intros Ht. pose proof (holds_parent _ _ Ht) as Hp.
  eapply wp_mono; [by apply ft_createDir_spec; [apply Ht|..]|]. simpl. fold l0.
  intros r t' (Hr & -> & Hl). split; [done|]. eapply holds_next; [done|done|]. intros l. rewrite Hl.
  case_bool_decide; [|done]. subst l. by rewrite (holds_at _ _ _ _ Ht).
Qed.

Lemma remove_step e t :
  holds l0 (Some e) t0 t → (∀ x, ft_entry t0 (l0 ++ [x]) = None) →
  wp (ft_remove (plain_path l0)) (λ r t', r = Ok tt ∧ holds l0 None t0 t') t.
Proof.
  intros Ht Hx. assert (Hx' : ∀ x, ft_entry t (l0 ++ [x]) = None).
  { intros x. rewrite (holds_other _ _ _ _ _ Ht); [done|]. intros E.
    apply (f_equal length) in E. rewrite length_app in E. simpl in E. lia. }
  eapply wp_mono; [apply ft_remove_spec; [apply Ht|done|done| |done]|].
  { fold l0. by rewrite (holds_at _ _ _ _ Ht). }
  simpl. intros r t' (Hr & -> & Hl). split; [done|]. by eapply holds_next.
Qed.

(** Nothing lies below a path at which there is nothing. *)
Lemma nothing_below : ft_entry t0 l0 = None → ∀ x, ft_entry t0 (l0 ++ [x]) = None.
Proof.
  intros Hnone x. destruct (ft_entry t0 (l0 ++ [x])) eqn:E; [|done].
  rewrite (ft_parent t0 l0 x) in Hnone; [done|by rewrite E].
Qed.

(** The contract is enough to know what the session answers: the directory appears,
    making it again does no harm, and it leaves the files as they were. *)
Lemma directory_session_correct :
  ft_ready t0 → ft_entry t0 l0 = None →
  wp (directory_session (plain_path l0)) (λ r t', ft_ready t' ∧
    r = ([Ok false; Ok true; Ok true; Ok false], [Ok tt; Ok tt; Ok tt]) ∧
    ∀ l, ft_entry t' l = ft_entry t0 l) t0.
Proof.
  intros Hr Hnone. pose proof (holds_start _ _ _ Hr Hnone) as Hs0.
  pose proof (nothing_below Hnone) as Hx. unfold directory_session.
  wp_step. eapply wp_mono; [by apply (exists_step None)|]. intros ? t1 [-> Hs1]. cbn beta.
  wp_step. eapply wp_mono; [by apply (createDir_step None)|]. intros ? t2 [-> Hs2]. cbn beta.
  wp_step. eapply wp_mono; [by apply exists_step|]. intros ? t3 [-> Hs3]. cbn beta.
  wp_step. eapply wp_mono; [by apply isDirectory_step|]. intros ? t4 [-> Hs4]. cbn beta.
  wp_step. eapply wp_mono; [by apply createDir_step|]. intros ? t5 [-> Hs5]. cbn beta.
  wp_step. eapply wp_mono; [by eapply remove_step|]. intros ? t6 [-> Hs6]. cbn beta.
  wp_step. eapply wp_mono; [by apply (exists_step None)|]. intros ? t7 [-> Hs7]. cbn beta.
  wp_step. split_and!; [apply Hs7|done|]. apply (holds_end l0). by rewrite Hnone.
Qed.

Context `{FSt : !FileStoreSpec T W}.

Lemma write_step e data t :
  holds l0 e t0 t → e ≠ Some Directory →
  wp (ft_write (plain_path l0) data) (λ _ t', holds l0 (Some (File data)) t0 t') t.
Proof.
  intros Ht He. pose proof (holds_parent _ _ Ht) as Hp.
  eapply wp_mono; [apply ft_write_spec; [apply Ht|done|done|done|]|].
  { fold l0. by rewrite (holds_at _ _ _ _ Ht). }
  simpl. intros r t' (Hr & _ & Hl). by eapply holds_next.
Qed.

Lemma read_step c t :
  holds l0 (Some (File c)) t0 t → (length c < ft_max)%nat →
  wp (ft_read (plain_path l0)) (λ r t', r = Ok c ∧ holds l0 (Some (File c)) t0 t') t.
Proof.
  intros Ht Hc. eapply wp_mono; [apply (ft_read_spec _ _ _ c); [apply Ht|done|done| |done]|].
  { by apply (holds_at _ _ _ _ Ht). }
  simpl. intros r t' (Hr & -> & Hl). split; [done|]. by eapply holds_same.
Qed.

(** The contract is enough to know what the session reads, and what it leaves behind. *)
Lemma file_session_correct a b :
  ft_ready t0 → ft_entry t0 l0 = None → (length a < ft_max)%nat → (length b < ft_max)%nat →
  wp (file_session (plain_path l0) a b) (λ r t', r = ([Ok a; Ok b], [Ok true; Ok false], Ok tt) ∧
    ft_ready t' ∧ ∀ l, ft_entry t' l = ft_entry t0 l) t0.
Proof.
  intros Hr Hnone Ha Hb. pose proof (holds_start _ _ _ Hr Hnone) as Hs0.
  pose proof (nothing_below Hnone) as Hx. unfold file_session.
  wp_step. eapply wp_mono; [by apply (write_step None)|]. intros ? t1 Hs1. cbn beta.
  wp_step. eapply wp_mono; [by apply (read_step a)|]. intros ? t2 [-> Hs2]. cbn beta.
  wp_step. eapply wp_mono; [by apply (exists_step (Some (File a)))|]. intros ? t3 [-> Hs3]. cbn beta.
  wp_step. eapply wp_mono; [by eapply write_step|]. intros ? t4 Hs4. cbn beta.
  wp_step. eapply wp_mono; [by apply (read_step b)|]. intros ? t5 [-> Hs5]. cbn beta.
  wp_step. eapply wp_mono; [by eapply remove_step|]. intros ? t6 [-> Hs6]. cbn beta.
  wp_step. eapply wp_mono; [by apply (exists_step None)|]. intros ? t7 [-> Hs7]. cbn beta.
  wp_step. split_and!; [done|apply Hs7|]. apply (holds_end l0). by rewrite Hnone.
Qed.
End steps.
End client.
