(* ===== verification/FtpFileTransfer.v ===== *)
(** The FTP client (src/protocol/FtpFileTransfer.cpp, include/protocol/FtpFileTransfer.h):
    commands and responses on the control connection, data connections, and the
    operations on files and directories. *)

From S2P Require Import Prelude ErrorCodes SocketBase Socket FsPath FtpUtils FtpParse.

(** ** Data *)

(** [FtpFileTransfer::ConnectOptions]; times in milliseconds. *)
Record ConnectOptions := {
  opt_username : bytes;
  opt_password : bytes;
  opt_timeout : Z;
  opt_data_timeout : option Z;
  opt_use_passive : bool
}.

Definition default_options : ConnectOptions :=
  {| opt_username := txt "anonymous"; opt_password := txt "anonymous@"; opt_timeout := 10000;
     opt_data_timeout := None; opt_use_passive := false |}.

(** [FtpFileTransfer::Answer] *)
Record Answer := { full_msg : bytes; code : Z }.

(** What the client uses of the rest of the stack and of the system:
    [Client(host, port).connect(timeout)], [asio::ip::address_v4::to_string] and
    [std::chrono::system_clock::now]. *)
Class FtpEnvironment (K W : Type) := {
  Client_connect : bytes → Z → Z → M W (result K);
  address_to_string : Z → bytes;
  system_clock_now : W → Z
}.

Section responses.
Context {K W : Type} `{DualSocket K W} `{AE : AsioErrors}.

(** Bounds the iterations of the receiving loops, each of which takes at least one
    byte from the connection. *)
Variable fuel : nat.

(** ** Commands and responses on one socket *)

Definition sendCommand (cmd : bytes) (timeout : Z) : M (K * W) (result unit) :=
  r ← writeAll Sync (cmd ++ CRLF) (Some timeout);
  match r with
  | Unexpected e => mret (Unexpected e)
  | Ok _ => mret (Ok tt)
  end.

(** [while (true)] of [receiveResponse]: [buf] grows line by line until it is
    complete. *)
Fixpoint response_loop (fuel : nat) (buf tmp : bytes) (timeout : Z) : M (K * W) (result bytes) :=
  match fuel with
  | O => out_of_fuel
  | S fuel' =>
      '(r, tmp) ← readUntil Sync tmp CRLF (Some timeout);
      match r with
      | Unexpected e => mret (Unexpected e)
      | Ok n =>
          if bool_decide (n = 0%nat) then mret (Unexpected (make_error_code CONNECTION_LOST))
          else
            let buf := buf ++ take n tmp in
            if isCompleteFtpResponse (splitLines buf) then mret (Ok buf)
            else response_loop fuel' buf tmp timeout
      end
  end.

Definition zero_bytes (n : nat) : bytes := replicate n Byte.x00.

Definition receiveResponse (timeout : Z) : M (K * W) (result Answer) :=
  buf ←? response_loop fuel [] (zero_bytes (Z.to_nat 1024)) timeout;
  if bool_decide (length buf < 3)%nat then mret (Unexpected (make_error_code PROTOCOL_ERROR))
  else c ← lift (stoi (take 3 buf)); mret (Ok {| full_msg := buf; code := c |}).

Definition sendAndReceiveResponse (cmd : bytes) (timeout : Z) : M (K * W) (result Answer) :=
  _ ←? sendCommand cmd timeout; receiveResponse timeout.

(** [while (true)] of [receiveRawResponse]: everything up to the end of the stream. *)
Fixpoint raw_loop (fuel : nat) (buf tmp : bytes) (timeout : Z) : M (K * W) (result bytes) :=
  match fuel with
  | O => out_of_fuel
  | S fuel' =>
      '(r, tmp) ← readSome Sync tmp (Some timeout);
      match r with
      | Unexpected e =>
          if bool_decide (e = asio_error eof) then mret (Ok buf) else mret (Unexpected e)
      | Ok n =>
          if bool_decide (n = 0%nat) then mret (Ok buf)
          else raw_loop fuel' (buf ++ take n tmp) tmp timeout
      end
  end.

Definition receiveRawResponse (timeout : Z) : M (K * W) (result bytes) :=
  raw_loop fuel [] (zero_bytes (Z.to_nat 1024)) timeout.
End responses.

Section client.
Context {K W : Type} `{DualSocket K W} `{AE : AsioErrors} `{Env : FtpEnvironment K W} `{Clk : Clock}.
Variable fuel : nat.

(** ** The client object *)

(** [_host], [_port], the path of [_navigator], [_socket], [_options] and
    [_capabilities]. *)
Record ftp_client := FtpClient {
  f_host : bytes;
  f_port : Z;
  f_current : path;
  f_socket : option K;
  f_options : ConnectOptions;
  f_capabilities : FtpCapabilities
}.

Definition DefaultFtpNavigator_new : path := SmartDirectoryNavigator_new (path_of_string (txt "/")).

Definition FtpFileTransfer_new (host : bytes) (port : Z) : ftp_client :=
  FtpClient host port DefaultFtpNavigator_new None
    default_options default_capabilities.

Definition fst_ : Type := ftp_client * W.

Definition set_control (k : option K) (c : ftp_client) : ftp_client :=
  FtpClient (f_host c) (f_port c) (f_current c) k (f_options c) (f_capabilities c).
Definition set_current (p : path) (c : ftp_client) : ftp_client :=
  FtpClient (f_host c) (f_port c) p (f_socket c) (f_options c) (f_capabilities c).
Definition set_capabilities (caps : FtpCapabilities) (c : ftp_client) : ftp_client :=
  FtpClient (f_host c) (f_port c) (f_current c) (f_socket c) (f_options c) caps.

(** An operation on [*_socket]; the pointer must not be null. *)
Definition on_control {A} (m : M (K * W) A) : M fst_ A := λ s,
  match f_socket s.1 with
  | None => (Undef, s)
  | Some k => let '(o, (k', w')) := m (k, s.2) in (o, (set_control (Some k') s.1, w'))
  end.

Definition on_world {A} (m : M W A) : M fst_ A := zoom snd (λ w s, (s.1, w)) m.

(** [_socket.reset(k)]: the socket it held is destroyed. *)
Definition reset_socket (new : option K) : M fst_ unit := λ s,
  match f_socket s.1 with
  | None => (Done tt, (set_control new s.1, s.2))
  | Some k => let '(o, (_, w')) := destroySocket (k, s.2) in (o, (set_control new s.1, w'))
  end.

Definition fail {S A} (e : Error) : M S (result A) := mret (Unexpected (make_error_code e)).

Definition getDataTimeout (c : ftp_client) : Z :=
  default (opt_timeout (f_options c)) (opt_data_timeout (f_options c)).

(** The overloads for the control connection. *)
Definition control_timeout : M fst_ Z := gets (λ s : fst_, opt_timeout (f_options s.1)).
Definition send_command (cmd : bytes) : M fst_ (result unit) :=
  t ← control_timeout; on_control (sendCommand cmd t).
Definition receive_response : M fst_ (result Answer) :=
  t ← control_timeout; on_control (receiveResponse fuel t).
Definition ask (cmd : bytes) : M fst_ (result Answer) :=
  t ← control_timeout; on_control (sendAndReceiveResponse fuel cmd t).

(** ** DefaultFtpNavigator *)

(** [ftpCd]; [ftpSelectDrive] does the same with a drive. *)
Definition ftpCd (dir : bytes) : M fst_ (result unit) :=
  r ←? ask (txt "CWD " ++ dir);
  if bool_decide (code r ≠ 250) then fail PROTOCOL_ERROR else mret (Ok tt).

Definition ftpSelectDrive (drive : bytes) : M fst_ (result unit) :=
  r ←? ask (txt "CWD " ++ drive);
  if bool_decide (code r ≠ 250) then fail PROTOCOL_ERROR else mret (Ok tt).

(** The navigator of the client: [_parent] is the client itself. *)
#[export] Instance DefaultFtpNavigator : SmartDirectoryNavigator fst_ := {|
  virtual_ftpCd := ftpCd;
  virtual_ftpSelectDrive := ftpSelectDrive
|}.

(** [_navigator.changeDirectory(path)] *)
Definition navigate (p : path) : M fst_ (result unit) :=
  current ← gets (λ s : fst_, f_current s.1);
  '(r, current) ← changeDirectory current p;
  modify (λ s : fst_, (set_current current s.1, s.2));;
  mret r.

(** ** Connecting *)

Definition parse_features (feat_response : bytes) : M fst_ unit :=
  modify (λ s : fst_, (set_capabilities (parseFeatures feat_response (f_capabilities s.1)) s.1, s.2)).

(** One command of the login: an error, or a code that is not accepted, drops the
    connection. *)
Definition login_step (cmd : bytes) (accepted : list Z) : M fst_ (result unit) :=
  r ← ask cmd;
  match r with
  | Unexpected e => reset_socket None;; mret (Unexpected e)
  | Ok a =>
      if bool_decide (code a ∈ accepted) then mret (Ok tt)
      else reset_socket None;; fail PROTOCOL_ERROR
  end.

Definition ftp_connect (opts : ConnectOptions) : M fst_ (result unit) :=
  host ← gets (λ s : fst_, f_host s.1);
  port ← gets (λ s : fst_, f_port s.1);
  sock ←? on_world (Client_connect host port (opt_timeout opts));
  reset_socket (Some sock);;
  (* the greeting is only logged *)
  '(greeting, _) ← on_control (readUntil Sync (zero_bytes (Z.to_nat 512)) CRLF None);
  _ ←? mret greeting;
  _ ←? (if bool_decide (opt_username opts = []) then mret (Ok tt)
        else login_step (txt "USER " ++ opt_username opts) [331; 230]);
  _ ←? (if bool_decide (opt_password opts = []) then mret (Ok tt)
        else login_step (txt "PASS " ++ opt_password opts) [230; 231]);
  feat ← ask (txt "FEAT");
  match feat with
  | Ok a => if bool_decide (code a = 211) then parse_features (full_msg a) else mret tt
  | Unexpected _ => mret tt
  end;;
  mret (Ok tt).

Definition isAlive (s : fst_) : bool :=
  match f_socket s.1 with Some k => isConnected k s.2 | None => false end.

(** The destructor of the client destroys its socket. *)
Definition FtpFileTransfer_destroy : M fst_ unit := reset_socket None.

(** The factory: when the connection fails, the client goes and its socket with it. *)
Definition openFtpConnection (host : bytes) (port : Z) (opts : ConnectOptions)
    : M W (result ftp_client) := λ w,
  match ftp_connect opts (FtpFileTransfer_new host port, w) with
  | (Done (Ok _), (c, w')) => (Done (Ok c), w')
  | (Done (Unexpected e), s') =>
      let '(o, (_, w')) := FtpFileTransfer_destroy s' in
      (match o with
       | Done _ => Done (Unexpected e)
       | Throw x => Throw x | Undef => Undef | NoFuel => NoFuel
       end, w')
  | (Throw x, s') => let '(_, (_, w')) := FtpFileTransfer_destroy s' in (Throw x, w')
  | (Undef, (_, w')) => (Undef, w')
  | (NoFuel, (_, w')) => (NoFuel, w')
  end.

(** ** Data connections *)

(** [endpoint->address()] of an empty optional is undefined behaviour. *)
Definition openDataConnection : M fst_ (result K) :=
  r ←? ask (txt "PASV");
  if bool_decide (code r ≠ 227) then fail PROTOCOL_ERROR
  else
    match parsePasvResponse (full_msg r) with
    | None => undef
    | Some (ip, port) =>
        t ← gets (λ s : fst_, getDataTimeout s.1);
        on_world (Client_connect (address_to_string ip) port t)
    end.

(** A function that owns a data socket, a [std::unique_ptr]: whatever is left in it
    is destroyed when the function returns or throws. *)
Definition dst : Type := option K * fst_.

Definition destroy_data : M dst unit := λ s,
  match s.1 with
  | None => (Done tt, s)
  | Some k => let '(o, (_, w')) := destroySocket (k, s.2.2) in (o, (None, (s.2.1, w')))
  end.

Definition with_data {A} (k : K) (body : M dst A) : M fst_ A := λ s,
  match body (Some k, s) with
  | (Done a, s') =>
      let '(o, s'') := destroy_data s' in
      (match o with
       | Done _ => Done a
       | Throw x => Throw x | Undef => Undef | NoFuel => NoFuel
       end, s''.2)
  | (Throw x, s') => (Throw x, (destroy_data s').2.2)
  | (Undef, s') => (Undef, s'.2)
  | (NoFuel, s') => (NoFuel, s'.2)
  end.

Definition ctl {A} (m : M fst_ A) : M dst A := zoom snd (λ t s, (s.1, t)) m.

(** An operation on [*data_socket] with the data timeout. *)
Definition on_data {A} (m : Z → M (K * W) A) : M dst A := λ s,
  match s.1 with
  | None => (Undef, s)
  | Some k => let '(o, (k', w')) := m (getDataTimeout s.2.1) (k, s.2.2) in
              (o, (Some k', (s.2.1, w')))
  end.

(** What list, read and write begin with: go to a directory, open the data
    connection, and give the command on the control connection. *)
Definition open_transfer (dir : path) : M fst_ (result K) :=
  _ ←? navigate dir; openDataConnection.

Definition begin_transfer (cmd : bytes) : M dst (result unit) :=
  r ←? ctl (ask cmd);
  if bool_decide (code r ≠ 150) then fail PROTOCOL_ERROR else mret (Ok tt).

(** What read and write end with. *)
Definition end_transfer : M dst (result unit) :=
  r ←? ctl receive_response;
  if bool_decide (code r ≠ 226) then fail PROTOCOL_ERROR else mret (Ok tt).

(** ** Listing *)

Definition ftp_list (p : path) : M fst_ (result (list FileListData)) :=
  data_socket ←? open_transfer p;
  with_data data_socket (
    _ ←? begin_transfer (txt "LIST");
    list_result ←? on_data (receiveRawResponse fuel);
    files ← lift (parse_listing (splitLines list_result));
    _ ←? ctl receive_response;
    mret (Ok files)).

(** ** Existence *)

Definition existsMlst (name : bytes) : M fst_ (result bool) :=
  caps ← gets (λ s : fst_, f_capabilities s.1);
  if negb (cap_mlst caps) then mret (Ok false)
  else
    r ←? ask (txt "MLST " ++ name);
    if bool_decide (code r = 250) then mret (Ok true)
    else if bool_decide (code r = 550) then mret (Ok false)
    else fail PROTOCOL_ERROR.

(** The way back after a successful CWD is only logged when it fails. *)
Definition existsCwd (name : bytes) : M fst_ (result bool) :=
  r ←? ask (txt "CWD " ++ name);
  if bool_decide (code r = 250) then _ ← ftpCd (txt ".."); mret (Ok true)
  else if bool_decide (code r = 550) then mret (Ok false)
  else fail PROTOCOL_ERROR.

Definition existsSize (name : bytes) : M fst_ (result bool) :=
  r ←? ask (txt "SIZE " ++ name);
  if bool_decide (code r = 213) then mret (Ok true)
  else if bool_decide (code r = 550) || bool_decide (code r = 500) then mret (Ok false)
  else fail PROTOCOL_ERROR.

(** [result.has_value() && result.value()] *)
Definition is_true (r : result bool) : bool := match r with Ok b => b | Unexpected _ => false end.

Definition ftp_exists (remote_path : path) : M fst_ (result bool) :=
  let name := filename remote_path in
  if bool_decide (name = []) then mret (Ok true)
  else
    _ ←? navigate (parent_path remote_path);
    caps ← gets (λ s : fst_, f_capabilities s.1);
    mlst ← (if cap_mlst caps then existsMlst name else mret (Ok false));
    if is_true mlst then mret mlst
    else
      size ← (if cap_size caps then existsSize name else mret (Ok false));
      if is_true size then mret size
      else
        r ← existsCwd name;
        match r with
        | Ok b => mret (Ok b)
        | Unexpected _ => mret (Ok false)
        end.

(** ** Directories *)

Definition isDirectoryMlst (name : bytes) : M fst_ (result bool) :=
  caps ← gets (λ s : fst_, f_capabilities s.1);
  if negb (cap_mlst caps) then mret (Ok false)
  else
    r ←? ask (txt "MLST " ++ name);
    if bool_decide (code r = 250) then
      match search (txt "type=") (full_msg r) with
      | None => fail PROTOCOL_ERROR
      | Some start =>
          let type_field := match find_from Byte.x3b start (full_msg r) with
                            | Some end_ => take (end_ - start) (drop start (full_msg r))
                            | None => drop start (full_msg r)
                            end in
          mret (Ok (match search (txt "type=dir") type_field with Some _ => true | None => false end))
      end
    else fail PROTOCOL_ERROR.

Definition isDirectoryCwd (name : bytes) : M fst_ (result bool) :=
  r ←? ask (txt "CWD " ++ name);
  if bool_decide (code r = 250) then
    restore ← ftpCd (txt "..");
    if has_value restore then mret (Ok true) else fail PROTOCOL_ERROR
  else if bool_decide (code r = 550) then
    caps ← gets (λ s : fst_, f_capabilities s.1);
    if cap_size caps then
      size ←? existsSize name;
      if (size : bool) then mret (Ok false) else fail PROTOCOL_ERROR
    else fail PROTOCOL_ERROR
  else fail PROTOCOL_ERROR.

Definition isDirectory (p : path) : M fst_ (result bool) :=
  let name := filename p in
  if bool_decide (name = []) then mret (Ok true)
  else
    _ ←? navigate (parent_path p);
    caps ← gets (λ s : fst_, f_capabilities s.1);
    mlst ← (if cap_mlst caps then isDirectoryMlst name else fail PROTOCOL_ERROR);
    match mlst with
    | Ok b => mret (Ok b)
    | Unexpected _ => isDirectoryCwd name
    end.

Definition get_last_component (p : path) : bytes :=
  if bool_decide (filename p = []) then filename (parent_path p) else filename p.

Definition createDir (p : path) : M fst_ (result unit) :=
  exists_result ←? ftp_exists p;
  if (exists_result : bool) then mret (Ok tt)
  else
    _ ←? navigate (parent_path p);
    r ←? ask (txt "MKD " ++ get_last_component p);
    if bool_decide (code r ≠ 257) then fail PROTOCOL_ERROR else mret (Ok tt).

Definition ftp_remove (remote_path : path) : M fst_ (result unit) :=
  is_dir ←? isDirectory remote_path;
  let cmd := if (is_dir : bool) then txt "RMD" else txt "DELE" in
  _ ←? navigate (parent_path remote_path);
  r ←? ask (cmd ++ txt " " ++ filename remote_path);
  if bool_decide (code r ≠ 250) then fail PROTOCOL_ERROR else mret (Ok tt).

(** ** Reading and writing files *)

Definition ftp_read (p : path) : M fst_ (result bytes) :=
  data_socket ←? open_transfer (parent_path p);
  with_data data_socket (
    _ ←? begin_transfer (txt "RETR " ++ filename p);
    buffer ←? on_data (receiveRawResponse fuel);
    _ ←? end_transfer;
    mret (Ok buffer)).

(** [while (true)] of the reading with a callback; the user's callback runs in the
    same world. *)
Fixpoint read_chunks (fuel : nat) (callback : bytes → M W (result nat)) (buffer : bytes)
    (total_bytes : nat) : M dst (result nat) :=
  match fuel with
  | O => out_of_fuel
  | S fuel' =>
      '(r, buffer) ← on_data (λ t, readSome Sync buffer (Some t));
      match r with
      | Unexpected e =>
          if bool_decide (e = asio_error eof) then mret (Ok total_bytes) else mret (Unexpected e)
      | Ok bytes_read =>
          if bool_decide (bytes_read = 0%nat) then mret (Ok total_bytes)
          else
            consumed ←? ctl (on_world (callback (take bytes_read buffer)));
            if bool_decide (consumed ≠ bytes_read) then fail PROTOCOL_ERROR
            else read_chunks fuel' callback buffer (total_bytes + bytes_read)
      end
  end.

Definition ftp_read_cb (p : path) (callback : bytes → M W (result nat)) : M fst_ (result nat) :=
  data_socket ←? open_transfer (parent_path p);
  with_data data_socket (
    _ ←? begin_transfer (txt "RETR " ++ filename p);
    total_bytes ←? read_chunks fuel callback (zero_bytes (Z.to_nat 16384)) 0;
    _ ←? end_transfer;
    mret (Ok total_bytes)).

Definition ftp_write (p : path) (data : bytes) : M fst_ (result FileListData) :=
  data_socket ←? open_transfer (parent_path p);
  with_data data_socket (
    _ ←? begin_transfer (txt "STOR " ++ filename p);
    _ ←? on_data (λ t, writeAll Sync data (Some t));
    destroy_data;;
    _ ←? end_transfer;
    now ← gets (λ s : dst, system_clock_now s.2.2);
    mret (Ok {| fl_date := now; fl_size := Z.of_nat (length data);
                fl_file_name := filename p; fl_full_path := p |})).

(** [while (true)] of the writing with a callback, until it gives an empty chunk. *)
Fixpoint write_chunks (fuel : nat) (next : M W (result bytes)) (total_bytes : nat)
    : M dst (result nat) :=
  match fuel with
  | O => out_of_fuel
  | S fuel' =>
      chunk ←? ctl (on_world next);
      if bool_decide (chunk = []) then mret (Ok total_bytes)
      else
        sent ←? on_data (λ t, writeAll Sync chunk (Some t));
        write_chunks fuel' next (total_bytes + sent)
  end.

Definition ftp_write_cb (p : path) (next : M W (result bytes)) : M fst_ (result FileListData) :=
  data_socket ←? open_transfer (parent_path p);
  with_data data_socket (
    _ ←? begin_transfer (txt "STOR " ++ filename p);
    now ← gets (λ s : dst, system_clock_now s.2.2);
    total_bytes ←? write_chunks fuel next 0;
    destroy_data;;
    _ ←? end_transfer;
    mret (Ok {| fl_date := now; fl_size := Z.of_nat total_bytes;
                fl_file_name := filename p; fl_full_path := p |})).
End client.
Arguments ftp_client K : clear implicits.

(** ** Lemmas *)

Lemma length_zero_bytes n : length (zero_bytes n) = n.
Proof. apply length_replicate. Qed.

Lemma search_crlf l rest : CR ∉ l → search CRLF (l ++ CRLF ++ rest) = Some (length l).
Proof.
  induction l as [|c l IH]; intros Hl; [done|].
  apply not_elem_of_cons in Hl as [Hc Hl]. simpl. rewrite bool_decide_false by done.
  simpl. simpl in IH. by rewrite IH.
Qed.

Lemma proper_no_cr l : proper_line l → CR ∉ l.
Proof. intros [_ Hl] Hin. rewrite Forall_forall in Hl. by specialize (Hl _ Hin). Qed.

Lemma lines_text_app ls1 ls2 : lines_text (ls1 ++ ls2) = lines_text ls1 ++ lines_text ls2.
Proof. unfold lines_text. by rewrite fmap_app, concat_app. Qed.

Lemma lines_text_one l : lines_text [l] = l ++ CRLF.
Proof. unfold lines_text; simpl. apply app_nil_r. Qed.

Lemma lines_text_length ls : (length ls ≤ length (lines_text ls))%nat.
Proof.
  induction ls as [|l ls IH]; [done|]. rewrite lines_text_cons, !length_app. simpl. lia.
Qed.

(** A response as RFC 959 has it: the three digits, a space and a text; or several
    lines, where the first has a hyphen instead of the space, the last is as above
    and no line between them begins like the last one. No line is longer than the
    client's buffer. *)
Definition ftp_reply (d : bytes) (ls : list bytes) : Prop :=
  length d = 3%nat ∧ Forall (λ c, isdigit c = true) d ∧
  Forall (λ l, proper_line l ∧ (length l + 2 ≤ 1024)%nat) ls ∧
  ((∃ text, ls = [d ++ txt " " ++ text]) ∨
   (∃ first middle text, ls = (d ++ txt "-" ++ first) :: middle ++ [d ++ txt " " ++ text] ∧
      Forall (λ l, starts_with (d ++ txt " ") l = false) middle)).

(** The lines make a complete response, and no fewer of them do. *)
Definition minimal_response (ls : list bytes) : Prop :=
  isCompleteFtpResponse ls = true ∧
  ∀ ls1 ls2, ls = ls1 ++ ls2 → ls1 ≠ [] → ls2 ≠ [] → isCompleteFtpResponse ls1 = false.

Lemma last_line_spec d l :
  length d = 3%nat →
  bool_decide (4 ≤ length l)%nat && bool_decide (take 3 l = d) &&
    bool_decide (l !! 3%nat = Some Byte.x20) = starts_with (d ++ txt " ") l.
Proof.
  intros Hd. destruct (starts_with (d ++ txt " ") l) eqn:E.
  - apply starts_with_spec in E as [r ->]. rewrite <- !app_assoc.
    rewrite !bool_decide_true; [done| | |].
    + by rewrite lookup_app_r, Hd by lia.
    + by rewrite <- Hd, take_app_length.
    + rewrite !length_app, Hd. simpl. lia.
  - apply not_true_iff_false in E. apply not_true_iff_false. contradict E.
    apply andb_true_iff in E as [[E1 E2]%andb_true_iff E3].
    rewrite bool_decide_eq_true in E1, E2, E3.
    apply starts_with_spec. exists (drop 4 l).
    rewrite <- (take_drop 3 l) at 1. rewrite E2, <- app_assoc. f_equal.
    by rewrite (drop_S _ _ _ E3).
Qed.

Lemma three_digits_app d s :
  length d = 3%nat → Forall (λ c, isdigit c = true) d → three_digits (d ++ s) = true.
Proof.
  intros Hl Hd. destruct d as [|a [|b [|c [|]]]]; simpl in Hl; try lia.
  rewrite !Forall_cons in Hd. destruct Hd as (Ha & Hb & Hc & _).
  simpl. by rewrite Ha, Hb, Hc.
Qed.

Lemma existsb_ext {A} (f g : A → bool) l : (∀ x, f x = g x) → existsb f l = existsb g l.
Proof. intros Hfg. induction l as [|x l IH]; simpl; [done|]. by rewrite Hfg, IH. Qed.

Lemma starts_with_skip d p s : starts_with (d ++ p) (d ++ s) = starts_with p s.
Proof. induction d as [|c d IH]; simpl; [done|]. by rewrite bool_decide_true. Qed.

Lemma complete_multi d first rest :
  length d = 3%nat → Forall (λ c, isdigit c = true) d →
  isCompleteFtpResponse ((d ++ txt "-" ++ first) :: rest) =
    existsb (starts_with (d ++ txt " ")) rest.
Proof.
  intros Hl Hd. unfold isCompleteFtpResponse.
  rewrite three_digits_app by done. rewrite bool_decide_false by (rewrite !length_app, Hl; simpl; lia).
  cbn [orb negb]. rewrite lookup_app_r, Hl by lia. cbn [Nat.sub lookup list_lookup txt].
  assert (Ht : take 3 (d ++ txt "-" ++ first) = d) by (by rewrite <- Hl, take_app_length).
  rewrite Ht. cbn [app]. simpl (String.list_byte_of_string _).
  rewrite bool_decide_false by done. rewrite bool_decide_false by (intros Hf; by apply Hf).
  rewrite (existsb_ext _ (starts_with (d ++ txt " "))) by (intros l; by apply last_line_spec).
  cbn [existsb]. by rewrite starts_with_skip.
Qed.

Lemma complete_single d text rest :
  length d = 3%nat → Forall (λ c, isdigit c = true) d →
  isCompleteFtpResponse ((d ++ txt " " ++ text) :: rest) = true.
Proof.
  intros Hl Hd. unfold isCompleteFtpResponse.
  rewrite three_digits_app by done. rewrite bool_decide_false by (rewrite !length_app, Hl; simpl; lia).
  cbn [orb negb]. rewrite lookup_app_r, Hl by lia. cbn [Nat.sub lookup list_lookup txt].
  by rewrite bool_decide_true.
Qed.

Lemma ftp_reply_minimal d ls : ftp_reply d ls → minimal_response ls.
Proof.
  intros (Hl & Hd & _ & [(text & ->)|(first & middle & text & -> & Hmid)]).
  - split; [by apply complete_single|].
    intros [|l1 [|? ls1]] ls2 Heq Hn1 Hn2; [done| |].
    + injection Heq as _ Heq. by destruct ls2.
    + by injection Heq as _ Heq.
  - split.
    + rewrite complete_multi by done. rewrite existsb_app. cbn [existsb].
      rewrite starts_with_skip. cbn. by rewrite orb_true_r.
    + intros [|l1 ls1] ls2 Heq Hn1 Hn2; [done|]. injection Heq as <- Heq.
      etrans; [by apply (complete_multi d first ls1)|].
      destruct ls2 as [|l2 ls2 _] using rev_ind; [done|].
      rewrite app_assoc in Heq. apply app_inj_tail in Heq as [-> _].
      apply Forall_app in Hmid as [Hmid _].
      clear Hn1. induction Hmid as [|l ls1 Hll _ IH]; simpl; [done|]. by rewrite Hll.
Qed.

Lemma ftp_reply_digits d ls : ftp_reply d ls → ∃ more, lines_text ls = d ++ more.
Proof.
  intros (_ & _ & _ & [(text & ->)|(first & middle & text & -> & _)]).
  - eexists. unfold lines_text; simpl. by rewrite <- !app_assoc.
  - eexists. rewrite lines_text_cons, <- !app_assoc. done.
Qed.

Section response_lemmas.
Context {K W : Type} `{LS : LineSocketSpec K W}.
#[local] Opaque zero_bytes isCompleteFtpResponse.

(** Reading one line that the connection will deliver. *)
Lemma read_line l rest out t k w :
  live k w → rx k w = l ++ CRLF ++ rest → CR ∉ l → (length l + 2 ≤ length out)%nat →
  (length (rx k w) < search_fuel)%nat →
  wp (readUntil Sync out CRLF t) (λ ro kw,
    length ro.2 = length out ∧ sent kw.1 kw.2 = sent k w ∧ live kw.1 kw.2 ∧
    ro.1 = Ok (length l + 2)%nat ∧ take (length l + 2) ro.2 = l ++ CRLF ∧
    rx kw.1 kw.2 = rest) (k, w).
Proof.
  intros Hlive Hrx Hcr Hlen Hf.
  pose proof (search_crlf l rest Hcr) as Hs. rewrite <- Hrx in Hs.
  eapply wp_mono; [by apply readUntil_line|]. simpl.
  intros [r out'] [k' w'] (Hl & Hsent & Hn & Hok). cbn [fst snd] in *.
  destruct (Hok _ Hlive Hs) as [Hv Hlive']; [lia|]. destruct r as [n|]; [|done].
  destruct (Hn n eq_refl) as (i & Hi & _ & -> & Hrx').
  assert (i = length l) as -> by congruence. rewrite Nat.min_l in * by lia.
  split_and!; try done.
  - rewrite Hrx, app_assoc in Hrx'. apply (f_equal (take (length l + 2))) in Hrx'.
    rewrite take_app_le in Hrx' by (rewrite length_app; simpl; lia).
    rewrite take_ge in Hrx' by (rewrite length_app; simpl; lia).
    rewrite Hrx'. rewrite take_app_le by (rewrite length_take; lia).
    by rewrite take_take, Nat.min_id.
  - apply (f_equal (drop (length l + 2))) in Hrx'.
    rewrite drop_app_ge in Hrx' by (rewrite length_take; lia).
    rewrite length_take, Nat.min_l, Nat.sub_diag, drop_0 in Hrx' by lia.
    rewrite <- Hrx', Hrx, app_assoc.
    rewrite drop_app_ge by (rewrite length_app; simpl; lia).
    rewrite length_app. simpl. by rewrite Nat.sub_diag.
Qed.

Lemma response_loop_reply fuel ls1 ls2 rest tmp t k w :
  minimal_response (ls1 ++ ls2) → ls2 ≠ [] →
  Forall (λ l, proper_line l ∧ (length l + 2 ≤ 1024)%nat) (ls1 ++ ls2) →
  live k w → rx k w = lines_text ls2 ++ rest → length tmp = 1024%nat →
  (length (rx k w) < search_fuel)%nat → (length ls2 ≤ fuel)%nat →
  wp (response_loop fuel (lines_text ls1) tmp t) (λ r kw,
    r = Ok (lines_text (ls1 ++ ls2)) ∧ rx kw.1 kw.2 = rest ∧ sent kw.1 kw.2 = sent k w ∧
    live kw.1 kw.2) (k, w).
Proof.
  intros Hmin Hne Hls. revert fuel ls1 tmp k w Hmin Hne Hls.
  induction ls2 as [|l ls2 IH]; intros fuel ls1 tmp k w Hmin Hne Hls Hlive Hrx Htmp Hsf Hf; [done|].
  destruct fuel as [|fuel]; [simpl in Hf; lia|]. simpl. wp_step.
  assert (proper_line l ∧ (length l + 2 ≤ 1024)%nat) as [Hp Hlen].
  { rewrite Forall_forall in Hls. apply Hls. apply elem_of_app; right; by left. }
  rewrite lines_text_cons in Hrx.
  eapply wp_mono.
  { apply (read_line l (lines_text ls2 ++ rest)); [done| |by apply proper_no_cr|lia|done].
    rewrite Hrx. by rewrite <- !app_assoc. }
  intros [r out'] [k' w'] (Hl & Hsent & Hlive' & Hr & Htake & Hrx'). simpl in Hr, Htake.
  cbn beta iota. rewrite Hr. rewrite bool_decide_false by lia. rewrite Htake.
  assert (lines_text ls1 ++ l ++ CRLF = lines_text (ls1 ++ [l])) as ->.
  { by rewrite lines_text_app, lines_text_one. }
  assert (Forall proper_line (ls1 ++ [l])) as Hprop.
  { rewrite cons_middle, app_assoc in Hls. apply Forall_app in Hls as [Hls _].
    eapply Forall_impl; [exact Hls|]. by intros ? []. }
  rewrite splitLines_lines_text by done.
  destruct ls2 as [|l2 ls2].
  - destruct Hmin as [-> _]. wp_steps. by split_and!.
  - destruct Hmin as [Hc Hmin].
    rewrite (Hmin (ls1 ++ [l]) (l2 :: ls2)); [|by rewrite <- app_assoc|by destruct ls1|done].
    assert (ls1 ++ l :: l2 :: ls2 = (ls1 ++ [l]) ++ l2 :: ls2) as Heq by by rewrite <- app_assoc.
    rewrite Heq in Hc, Hmin, Hls |- *. cbn [fst snd length] in *.
    eapply wp_mono; [apply IH; try done|].
    + lia.
    + rewrite Hrx'. rewrite Hrx in Hsf. rewrite !length_app in *. cbn [length] in Hsf.
      rewrite ?length_app in Hsf. lia.
    + cbn [length]. lia.
    + intros r' kw' (Ha & Hb & Hc' & Hd). by rewrite Hc', Hsent.
Qed.

Lemma response_loop_sound fuel buf tmp t k w :
  (0 < length tmp)%nat →
  (length (rx k w) < fuel)%nat → (length (rx k w) < search_fuel)%nat →
  wp (response_loop fuel buf tmp t) (λ r kw,
    ∀ b, r = Ok b → isCompleteFtpResponse (splitLines b) = true ∧
      ∃ more, b = buf ++ more ∧ rx k w = more ++ rx kw.1 kw.2 ∧ sent kw.1 kw.2 = sent k w) (k, w).
Proof.
  revert buf tmp k w. induction fuel as [|fuel IH]; intros buf tmp k w Htmp Hf Hsf; [lia|].
  simpl. wp_step. eapply wp_mono; [by apply readUntil_line|].
  intros [r out'] [k' w'] (Hl & Hsent & Hn & _). simpl in *.
  destruct r as [n|e]; [|by wp_steps].
  destruct (Hn n eq_refl) as (i & Hi & Hi2 & Hnn & Hrx).
  rewrite bool_decide_false by lia.
  destruct (isCompleteFtpResponse _) eqn:Hc.
  - wp_steps. intros b [= <-]. split; [done|]. by exists (take n out').
  - assert (length (take n out') = n) as Htl by (rewrite length_take; lia).
    rewrite Hrx, length_app, Htl in Hf, Hsf.
    eapply wp_mono; [apply IH; lia|]. simpl. intros r' [k2 w2] H2 b Hb.
    destruct (H2 b Hb) as (Hcomp & more & -> & Hrx2 & Hs2). split; [done|].
    exists (take n out' ++ more). simpl in *. rewrite Hs2, Hsent, Hrx, Hrx2.
    by rewrite <- !app_assoc.
Qed.

Lemma raw_loop_sound fuel buf tmp t k w :
  tmp ≠ [] → (length (rx k w) < fuel)%nat →
  wp (raw_loop fuel buf tmp t) (λ r kw,
    sent kw.1 kw.2 = sent k w ∧ ∀ b, r = Ok b → b = buf ++ rx k w) (k, w).
Proof.
  revert buf tmp k w. induction fuel as [|fuel IH]; intros buf tmp k w Htmp Hf; [lia|].
  simpl. wp_step. eapply wp_mono; [by apply readSome_next|].
  intros [r out'] [k' w'] (Hl & Hsent & Hn & Heof). simpl in *.
  destruct r as [n|e].
  - destruct (Hn n eq_refl) as [Hpos Hrx]. rewrite bool_decide_false by lia.
    assert (length (take n out') = n) as Htl by (rewrite length_take; lia).
    rewrite Hrx, length_app, Htl in Hf.
    eapply wp_mono; [apply IH; [|lia]|].
    + intros ->. simpl in Hl. by destruct tmp.
    + simpl. intros r' [k2 w2] [Hs2 Hb2]. split; [congruence|]. intros b Hb.
      rewrite (Hb2 b Hb), Hrx. by rewrite <- app_assoc.
  - case_bool_decide as He; wp_steps; (split; [done|]).
    + intros b [= <-]. rewrite Heof by by f_equal. by rewrite app_nil_r.
    + done.
Qed.

(** Without a bound on the stream: whatever the fuel, data that is returned is whole. *)
Lemma raw_loop_partial fuel buf tmp t k w :
  tmp ≠ [] →
  wlp (raw_loop fuel buf tmp t) (λ r kw, ∀ b, r = Ok b → b = buf ++ rx k w) (k, w).
Proof.
  revert buf tmp k w. induction fuel as [|fuel IH]; intros buf tmp k w Htmp; [done|].
  simpl. wp_step. eapply wlp_mono; [by apply wp_wlp, readSome_next|].
  intros [r out'] [k' w'] (Hl & _ & Hn & Heof). simpl in *.
  destruct r as [n|e].
  - destruct (Hn n eq_refl) as [Hpos Hrx]. rewrite bool_decide_false by lia.
    eapply wlp_mono; [apply IH; intros ->; by destruct tmp|].
    simpl. intros r' [k2 w2] Hb2 b Hb. rewrite (Hb2 b Hb), Hrx. by rewrite <- app_assoc.
  - case_bool_decide as He; wp_steps; [|done].
    intros b [= <-]. rewrite Heof by by f_equal. by rewrite app_nil_r.
Qed.
End response_lemmas.

Lemma stoi_three d s :
  length d = 3%nat → Forall (λ c, isdigit c = true) d → stoi (take 3 (d ++ s)) = Done (decimal d).
Proof.
  intros Hl Hd. rewrite <- Hl, take_app_length. apply stoi_digits; [by destruct d|done|].
  destruct d as [|a [|b [|c [|]]]]; simpl in Hl; try lia.
  rewrite !Forall_cons in Hd. destruct Hd as (Ha & Hb & Hc & _).
  apply digit_val in Ha, Hb, Hc. unfold decimal. simpl. lia.
Qed.

Lemma three_digits_spec s :
  three_digits s = true → ∃ d r, s = d ++ r ∧ length d = 3%nat ∧ Forall (λ c, isdigit c = true) d.
Proof.
  destruct s as [|a [|b [|c r]]]; try done. simpl.
  intros [[Ha Hb]%andb_true_iff Hc]%andb_true_iff. exists [a; b; c], r.
  split_and!; [done|done|]. by repeat constructor.
Qed.

Lemma complete_nonempty b : isCompleteFtpResponse (splitLines b) = true → b ≠ [].
Proof. by intros H ->. Qed.

(** Receiving a response that the connection will deliver. *)
Lemma receive_reply {K W : Type} `{LS : LineSocketSpec K W} fuel d ls rest t (k : K) (w : W) :
  live k w → ftp_reply d ls → rx k w = lines_text ls ++ rest →
  (length (rx k w) < search_fuel)%nat → (length ls ≤ fuel)%nat →
  wp (receiveResponse fuel t) (λ r kw,
    r = Ok {| full_msg := lines_text ls; code := decimal d |} ∧
    rx kw.1 kw.2 = rest ∧ sent kw.1 kw.2 = sent k w ∧ live kw.1 kw.2) (k, w).
Proof.
  intros Hlive Hr Hrx Hsf Hf. unfold receiveResponse. wp_step.
  pose proof (ftp_reply_minimal d ls Hr) as Hmin.
  destruct (ftp_reply_digits d ls Hr) as [more Hmore].
  destruct Hr as (Hl & Hd & Hls & _).
  eapply wp_mono.
  { apply (response_loop_reply fuel [] ls rest); try done.
    by intros ->; destruct Hmin as [Hmin _]. }
  simpl. intros r kw (-> & Hrx' & Hsent & Hlive'). wp_steps.
  rewrite bool_decide_false by (rewrite Hmore, length_app, Hl; lia).
  rewrite Hmore, stoi_three by done. by split_and!.
Qed.

(** ** Correctness of responses *)

(** C22: the client takes exactly one response off a control connection without faults,
    of one line or of many, with its code, and leaves what follows for the next command.
    No line is longer than the client's buffer of 1024 bytes. *)
Theorem receiveResponse_correct {K W : Type} `{LS : LineSocketSpec K W} fuel d ls rest t (k : K) (w : W) :
  live k w → ftp_reply d ls → rx k w = lines_text ls ++ rest →
  (length (rx k w) < search_fuel)%nat → (length ls ≤ fuel)%nat →
  wp (receiveResponse fuel t) (λ r kw,
    r = Ok {| full_msg := lines_text ls; code := decimal d |} ∧
    rx kw.1 kw.2 = rest ∧ sent kw.1 kw.2 = sent k w ∧ live kw.1 kw.2) (k, w).
Proof. apply receive_reply. Qed.

(** A plain connection on which [incoming_text] is still to be delivered. *)
Definition mem_connection (incoming_text : bytes) : socket mem_net * mem_net :=
  mem_socket [] (MemNet incoming_text [] 7 true false).

Lemma receiveResponse_correct_witness :
  let ls := [txt "211-Features"; txt " MLST type*;"; txt "211 End"] in
  let kw := mem_connection (lines_text ls ++ txt "226 next") in
  let D := socket_DualSocket 100 in
  live kw.1 kw.2 ∧ ftp_reply (txt "211") ls ∧ rx kw.1 kw.2 = lines_text ls ++ txt "226 next" ∧
  (length (rx kw.1 kw.2) < search_fuel)%nat ∧ (length ls ≤ 10)%nat ∧
  wp (receiveResponse 10 10000) (λ r kw',
    r = Ok {| full_msg := lines_text ls; code := decimal (txt "211") |} ∧
    rx kw'.1 kw'.2 = txt "226 next" ∧ sent kw'.1 kw'.2 = sent kw.1 kw.2 ∧
    live kw'.1 kw'.2) kw.
Proof.
  intros ls kw D.
  assert (live kw.1 kw.2) as H1 by (simpl; unfold ok; simpl; lia).
  assert (ftp_reply (txt "211") ls) as H2.
  { unfold ftp_reply. split_and!; [done|by repeat constructor| |].
    - unfold ls, proper_line. repeat (apply Forall_cons; split); [..|by apply Forall_nil];
        (split; [split; [done|by repeat constructor]|simpl; lia]).
    - right. exists (txt "Features"), [txt " MLST type*;"], (txt "End"). split; [done|].
      by repeat constructor. }
  assert (rx kw.1 kw.2 = lines_text ls ++ txt "226 next") as H3 by reflexivity.
  assert (length (rx kw.1 kw.2) < search_fuel)%nat as H4 by (vm_compute; lia).
  assert (length ls ≤ 10)%nat as H5 by (simpl; lia).
  split_and!; [exact H1|exact H2|exact H3|exact H4|exact H5|].
  exact (receiveResponse_correct 10 _ ls _ 10000 kw.1 kw.2 H1 H2 H3 H4 H5).
Defined.

(** C23: whatever the server sends, receiving a response ends; a response that is
    returned is complete and is exactly the text taken off the connection, and its
    code is the number it begins with; an exception is possible only when the text
    does not begin with a code. *)
Theorem receiveResponse_total {K W : Type} `{LS : LineSocketSpec K W} fuel t (k : K) (w : W) :
  (length (rx k w) < fuel)%nat → (length (rx k w) < search_fuel)%nat →
  match receiveResponse fuel t (k, w) with
  | (Done (Ok a), kw) =>
      rx k w = full_msg a ++ rx kw.1 kw.2 ∧ sent kw.1 kw.2 = sent k w ∧
      isCompleteFtpResponse (splitLines (full_msg a)) = true ∧
      (three_digits (rx k w) = true → code a = decimal (take 3 (rx k w)))
  | (Done (Unexpected _), _) => True
  | (Throw _, _) => three_digits (rx k w) = false
  | (Undef, _) | (NoFuel, _) => False
  end.
Proof.
  intros Hf Hsf. unfold receiveResponse.
  assert (0 < length (zero_bytes (Z.to_nat 1024)))%nat as Hz.
  { rewrite length_zero_bytes. lia. }
  pose proof (response_loop_sound fuel [] _ t k w Hz Hf Hsf) as Hloop.
  apply wp_run in Hloop as (r & kw & Hrun & Hr).
  destruct r as [b|e]; [|by rewrite (bind_expected_Unexpected _ _ _ _ _ Hrun)].
  rewrite (bind_expected_Ok _ _ _ _ _ Hrun). destruct (Hr b eq_refl) as (Hc & more & -> & Hrx & Hs).
  simpl in *. case_bool_decide as Hlen; [done|].
  unfold mbind, M_bind, lift. destruct (three_digits (rx k w)) eqn:H3.
  - apply three_digits_spec in H3 as (d & r & Hd & Hl & Hdig). rewrite Hd in Hrx |- *.
    assert (∃ r', more = d ++ r') as [r' ->].
    { exists (drop 3 more). apply (f_equal (take 3)) in Hrx.
      rewrite <- Hl in Hrx at 1. rewrite take_app_length, take_app_le in Hrx by lia.
      rewrite Hrx. by rewrite take_drop. }
    rewrite stoi_three by done. simpl. split_and!; try done.
    intros _. rewrite <- Hl. by rewrite take_app_length.
  - destruct (stoi (take 3 more)) eqn:E; simpl; [by split_and!|done| |].
    all: unfold stoi in E; destruct (parse_sign _); by repeat case_bool_decide.
Qed.

Lemma receiveResponse_total_witness :
  let kw := mem_connection (txt "nonsense" ++ CRLF ++ txt "220 ok" ++ CRLF) in
  let D := socket_DualSocket 100 in
  (length (rx kw.1 kw.2) < 50)%nat ∧ (length (rx kw.1 kw.2) < search_fuel)%nat ∧
  match receiveResponse 50 10000 kw with
  | (Done (Ok a), kw') =>
      rx kw.1 kw.2 = full_msg a ++ rx kw'.1 kw'.2 ∧ sent kw'.1 kw'.2 = sent kw.1 kw.2 ∧
      isCompleteFtpResponse (splitLines (full_msg a)) = true ∧
      (three_digits (rx kw.1 kw.2) = true → code a = decimal (take 3 (rx kw.1 kw.2)))
  | (Done (Unexpected _), _) => True
  | (Throw _, _) => three_digits (rx kw.1 kw.2) = false
  | (Undef, _) | (NoFuel, _) => False
  end.
Proof.
  intros kw D.
  assert (length (rx kw.1 kw.2) < 50)%nat as H1 by (vm_compute; lia).
  assert (length (rx kw.1 kw.2) < search_fuel)%nat as H2 by (vm_compute; lia).
  split_and!; [exact H1|exact H2|].
  exact (receiveResponse_total 50 10000 kw.1 kw.2 H1 H2).
Defined.

(** Receiving the raw data of a data connection ends, and a success gives the
    whole stream of the connection: a transfer that breaks off is never taken for
    a complete one. *)
Theorem receiveRawResponse_correct {K W : Type} `{LS : LineSocketSpec K W} fuel t (k : K) (w : W) :
  (length (rx k w) < fuel)%nat →
  wp (receiveRawResponse fuel t) (λ r kw, sent kw.1 kw.2 = sent k w ∧
    ∀ b, r = Ok b → b = rx k w) (k, w).
Proof.
  intros Hf. unfold receiveRawResponse. eapply wp_mono; [apply raw_loop_sound; [|done]|by auto].
  intros Hz. apply (f_equal length) in Hz. by rewrite length_zero_bytes in Hz.
Qed.

Lemma receiveRawResponse_correct_witness :
  let kw := mem_connection (txt "some data of a file") in
  let D := socket_DualSocket 100 in
  (length (rx kw.1 kw.2) < 50)%nat ∧
  wp (receiveRawResponse 50 10000) (λ r kw', sent kw'.1 kw'.2 = sent kw.1 kw.2 ∧
    ∀ b, r = Ok b → b = rx kw.1 kw.2) kw.
Proof.
  intros kw D.
  assert (length (rx kw.1 kw.2) < 50)%nat as H1 by (vm_compute; lia).
  split; [exact H1|]. exact (receiveRawResponse_correct 50 10000 kw.1 kw.2 H1).
Defined.
