(* ===== verification/FtpSession.v ===== *)
(** A session of the FTP client with a server: what the commands promise on a
    server that follows RFC 959 and RFC 3659, and what the client's queries then
    answer. *)

From S2P Require Import Prelude ErrorCodes SocketBase FileTree FsPath FtpUtils FtpParse FtpFileTransfer.

(** ** A file server

    [fs_entry s l] says what the server has at the names [l] from its root; [fs_cwd s] is
    its working directory and [fs_online s] a session in which it answers. The two
    commands of RFC 3659 are promised only when the client knows that they are
    supported. *)
Class FileServer (K W : Type) `{DualSocket K W} (fuel : nat) := {
  fs_online : fst_ (K := K) (W := W) → Prop;
  fs_cwd : fst_ (K := K) (W := W) → list bytes;
  fs_entry : fst_ (K := K) (W := W) → list bytes → option entry;
  fs_root s : fs_entry s [] = Some Directory;
  fs_parent s l x : fs_entry s (l ++ [x]) ≠ None → fs_entry s l = Some Directory;
  (** the state of the client that the server knows nothing of does not matter *)
  fs_client s p : fs_online s → let s' := (set_current p s.1, s.2) in
    fs_online s' ∧ fs_cwd s' = fs_cwd s ∧ ∀ l, fs_entry s' l = fs_entry s l;
  fs_up s :
    fs_online s → fs_cwd s ≠ [] →
    wp (ask fuel (txt "CWD " ++ dotdot)) (λ r s', ∃ a, r = Ok a ∧ code a = 250 ∧
      fs_online s' ∧ fs_cwd s' = removelast (fs_cwd s) ∧ ∀ l, fs_entry s' l = fs_entry s l) s;
  fs_down s d :
    fs_online s → plain_name d →
    wp (ask fuel (txt "CWD " ++ d)) (λ r s', ∃ a, r = Ok a ∧ fs_online s' ∧
      (∀ l, fs_entry s' l = fs_entry s l) ∧
      if bool_decide (fs_entry s (fs_cwd s ++ [d]) = Some Directory)
      then code a = 250 ∧ fs_cwd s' = fs_cwd s ++ [d]
      else code a = 550 ∧ fs_cwd s' = fs_cwd s) s;
  fs_size s n :
    fs_online s → plain_name n → cap_size (f_capabilities s.1) = true →
    wp (ask fuel (txt "SIZE " ++ n)) (λ r s', ∃ a, r = Ok a ∧ fs_online s' ∧
      (∀ l, fs_entry s' l = fs_entry s l) ∧ fs_cwd s' = fs_cwd s ∧
      code a = if bool_decide (kind_of (fs_entry s (fs_cwd s ++ [n])) = Some false) then 213 else 550) s;
  fs_mlst s n :
    fs_online s → plain_name n → cap_mlst (f_capabilities s.1) = true →
    wp (ask fuel (txt "MLST " ++ n)) (λ r s', ∃ a, r = Ok a ∧ fs_online s' ∧
      (∀ l, fs_entry s' l = fs_entry s l) ∧ fs_cwd s' = fs_cwd s ∧
      match fs_entry s (fs_cwd s ++ [n]) with
      | None => code a = 550
      | Some e => code a = 250 ∧ ∃ pre post,
          search (txt "type=") (full_msg a) = Some (length pre) ∧
          full_msg a = pre ++ txt "type=" ++ txt (if is_dir e then "dir;" else "file;") ++ post
      end) s
}.

(** A directory ([Some true]), a file ([Some false]) or nothing, and what a file holds. *)
Abbreviation fs_kind s l := (kind_of (fs_entry s l)).
Abbreviation fs_content s l := (content_of (fs_entry s l)).

Section session.
Context {K W : Type} `{DualSocket K W} {fuel : nat} `{FS : !FileServer K W fuel}.
Implicit Types s : fst_ (K := K) (W := W).

(** ** Lemmas *)

(** A command leaves the client's own state alone. *)
Definition same_client s s' : Prop :=
  f_current s'.1 = f_current s.1 ∧ f_capabilities s'.1 = f_capabilities s.1.

Lemma ask_same_client cmd s : wlp (ask fuel cmd) (λ _ s', same_client s s') s.
Proof.
  unfold ask, control_timeout. rewrite wlp_bind, wlp_gets. unfold wlp, on_control.
  destruct (f_socket s.1); [|done].
  by destruct (sendAndReceiveResponse _ _ _ _) as [[] [? ?]].
Qed.

(** What a command promises together with what the client keeps. *)
Lemma ask_wp cmd (Q : result Answer → fst_ → Prop) s :
  wp (ask fuel cmd) Q s → wp (ask fuel cmd) (λ r s', Q r s' ∧ same_client s s') s.
Proof. intros HQ. apply wp_conj; [done|apply ask_same_client]. Qed.

(** The server after a query: the same files. *)
Definition unchanged s s' : Prop :=
  fs_online s' ∧ (∀ l, fs_entry s' l = fs_entry s l) ∧
  f_capabilities s'.1 = f_capabilities s.1.

Lemma unchanged_trans s1 s2 s3 : unchanged s1 s2 → unchanged s2 s3 → unchanged s1 s3.
Proof.
  intros (_ & Hk1 & Hc1) (? & Hk2 & Hc2). split_and!; [done| |congruence].
  intros l. by rewrite Hk2.
Qed.

Lemma kind_prefix s l l' : fs_entry s (l ++ l') ≠ None → l' ≠ [] → fs_entry s l = Some Directory.
Proof.
  revert l. induction l' as [|x l' IH]; intros l Hk Hne; [done|].
  destruct l' as [|y l']; [by eapply fs_parent|].
  apply (fs_parent s l x). rewrite (IH (l ++ [x])); [done|by rewrite <- app_assoc|done].
Qed.

(** [ftpCd] to the parent and to a directory. *)
Lemma ftpCd_up s :
  fs_online s → fs_cwd s ≠ [] →
  wp (ftpCd fuel dotdot) (λ r s', r = Ok tt ∧ unchanged s s' ∧
    f_current s'.1 = f_current s.1 ∧ fs_cwd s' = removelast (fs_cwd s)) s.
Proof.
  intros Hon Hne. unfold ftpCd. wp_step.
  eapply wp_mono; [by apply ask_wp, fs_up|].
  intros r s' ((a & -> & Ha & Hon' & Hcwd & Hk) & Hcur & Hcaps). cbn beta iota.
  rewrite bool_decide_false by (intros Hn; by apply Hn). wp_steps. by split_and!.
Qed.

Lemma ftpCd_down s d :
  fs_online s → plain_name d →
  wp (ftpCd fuel d) (λ r s', unchanged s s' ∧ f_current s'.1 = f_current s.1 ∧
    if bool_decide (fs_entry s (fs_cwd s ++ [d]) = Some Directory)
    then r = Ok tt ∧ fs_cwd s' = fs_cwd s ++ [d]
    else r = Unexpected (make_error_code PROTOCOL_ERROR) ∧ fs_cwd s' = fs_cwd s) s.
Proof.
  intros Hon Hd. unfold ftpCd. wp_step.
  eapply wp_mono; [by apply ask_wp, fs_down|].
  intros r s' ((a & -> & Hon' & Hk & Ha) & Hcur & Hcaps). cbn beta iota.
  destruct (bool_decide (fs_entry s _ = _)); destruct Ha as [-> Hcwd]; simpl; unfold fail; wp_steps;
    by split_and!.
Qed.

Lemma cds_up n s :
  fs_online s → (n ≤ length (fs_cwd s))%nat →
  wp (cd_each (N := DefaultFtpNavigator fuel) (replicate n dotdot)) (λ r s', r = Ok tt ∧ unchanged s s' ∧
    f_current s'.1 = f_current s.1 ∧ fs_cwd s' = take (length (fs_cwd s) - n) (fs_cwd s)) s.
Proof.
  revert s. induction n as [|n IH]; intros s Hon Hn; simpl; wp_steps.
  { by rewrite Nat.sub_0_r, take_ge. }
  eapply wp_mono; [apply ftpCd_up; [done|by intros Hnil; rewrite Hnil in Hn; simpl in Hn; lia]|].
  intros r s1 (-> & Hu1 & Hcur1 & Hcwd1). cbn beta iota.
  rewrite removelast_firstn_len in Hcwd1.
  assert (length (fs_cwd s1) = (length (fs_cwd s) - 1)%nat) as Hl.
  { rewrite Hcwd1, length_take. lia. }
  eapply wp_mono; [apply IH; [by destruct Hu1|lia]|].
  intros r s2 (-> & Hu2 & Hcur2 & Hcwd2). split_and!; [done|by eapply unchanged_trans|congruence|].
  rewrite Hcwd2, Hl, Hcwd1, take_take. f_equal. lia.
Qed.

Lemma cds_down parts s :
  fs_online s → Forall plain_name parts → fs_entry s (fs_cwd s) = Some Directory →
  wp (cd_each (N := DefaultFtpNavigator fuel) parts) (λ r s', unchanged s s' ∧ f_current s'.1 = f_current s.1 ∧
    if bool_decide (fs_entry s (fs_cwd s ++ parts) = Some Directory)
    then r = Ok tt ∧ fs_cwd s' = fs_cwd s ++ parts
    else r = Unexpected (make_error_code PROTOCOL_ERROR)) s.
Proof.
  revert s. induction parts as [|d parts IH]; intros s Hon Hp Hk; simpl; wp_steps.
  { rewrite app_nil_r, bool_decide_true by done. by split_and!. }
  apply Forall_cons in Hp as [Hd Hp].
  eapply wp_mono; [by apply ftpCd_down|]. intros r s1 (Hu1 & Hcur1 & Hr1). cbn beta.
  case_bool_decide as Hd1; destruct Hr1 as [-> Hcwd1].
  - destruct Hu1 as (Hon1 & Hk1 & Hc1).
    eapply wp_mono; [apply IH; [done|done|by rewrite Hk1, Hcwd1]|].
    intros r s2 (Hu2 & Hcur2 & Hr2). split_and!; [|congruence|].
    + by eapply unchanged_trans; [|exact Hu2].
    + rewrite Hk1, Hcwd1, <- app_assoc in Hr2. done.
  - split_and!; [done|done|]. rewrite bool_decide_false; [done|]. intros Ht. apply Hd1.
    destruct parts as [|d2 parts]; [done|].
    apply (kind_prefix s (fs_cwd s ++ [d]) (d2 :: parts)); [|done]. rewrite <- app_assoc. simpl. by rewrite Ht.
Qed.

(** The navigator knows where the server is. *)
Definition in_sync s (names : list bytes) : Prop :=
  fs_online s ∧ f_current s.1 = plain_path names ∧ fs_cwd s = names ∧
  Forall plain_name names ∧ fs_entry s names = Some Directory.

Lemma changeDirectory_outcome s names target :
  in_sync s names → Forall plain_name target →
  wp (changeDirectory (N := DefaultFtpNavigator fuel) (plain_path names) (plain_path target))
    (λ ro s', unchanged s s' ∧
      if bool_decide (fs_entry s target = Some Directory)
      then ro = (Ok tt, plain_path target) ∧ fs_cwd s' = target
      else ro = (Unexpected (make_error_code PROTOCOL_ERROR), plain_path names)) s.
Proof.
  intros (Hon & _ & Hcwd & Hn & Hdir) Ht. unfold changeDirectory, normalize.
  assert (lexically_normal (plain_path target) = plain_path target) as ->
    by by apply lexically_normal_plain.
  destruct (plain_path_no_drive names) as [-> ->]. destruct (plain_path_no_drive target) as [-> ->].
  cbn [orb andb negb]. rewrite !split_plain by done.
  destruct (common_parts_spec names target) as (H1 & H2 & H3).
  set (n := common_parts names target) in *. wp_steps.
  eapply wp_mono; [apply cds_up; [done|rewrite Hcwd; lia]|].
  intros r s1 (-> & Hu1 & _ & Hcwd1). cbn beta iota. rewrite Hcwd in Hcwd1.
  replace (length names - (length names - n))%nat with n in Hcwd1 by lia.
  destruct Hu1 as (Hon1 & Hk1 & Hc1).
  assert (fs_cwd s1 ++ drop n target = target) as Hpath.
  { rewrite Hcwd1, H3. apply take_drop. }
  eapply wp_mono; [apply cds_down; [done|by apply Forall_drop|]|].
  - rewrite Hk1, Hcwd1. destruct (decide (n = length names)) as [->|Hne]; [by rewrite take_ge|].
    apply (kind_prefix s _ (drop n names)); [by rewrite take_drop, Hdir|].
    intros Hnil. apply (f_equal length) in Hnil. rewrite length_drop in Hnil. simpl in Hnil. lia.
  - intros r s2 (Hu2 & _ & Hr2). rewrite Hk1, Hpath in Hr2.
    assert (unchanged s s2) as Hu by (by eapply unchanged_trans; [|exact Hu2]).
    case_bool_decide; [destruct Hr2 as [-> Hcwd2]|subst r]; wp_steps; by split_and!.
Qed.

Lemma navigate_outcome s names target :
  in_sync s names → Forall plain_name target →
  wp (navigate fuel (plain_path target)) (λ r s', unchanged s s' ∧
    if bool_decide (fs_entry s target = Some Directory)
    then r = Ok tt ∧ in_sync s' target
    else r = Unexpected (make_error_code PROTOCOL_ERROR)) s.
Proof.
  intros Hs Ht. unfold navigate. wp_steps.
  assert (f_current s.1 = plain_path names) as -> by apply Hs.
  eapply wp_mono; [by apply changeDirectory_outcome|].
  intros ro s1 ((Hon1 & Hk1 & Hc1) & Hr). cbn beta.
  destruct (bool_decide _) eqn:Hd; [destruct Hr as [-> Hcwd]|subst ro]; wp_steps;
    destruct (fs_client s1 (plain_path target) Hon1) as (Ho2 & Hw2 & Hk2);
    destruct (fs_client s1 (plain_path names) Hon1) as (Ho3 & Hw3 & Hk3).
  - apply bool_decide_eq_true in Hd. split_and!; [by split_and!; [|intros l; rewrite Hk2|]|done|].
    unfold in_sync. split_and!; [done|done|congruence|done|by rewrite Hk2, Hk1].
  - split_and!; [by split_and!; [|intros l; rewrite Hk3|]|done].
Qed.

(** ** Queries *)

Lemma plain_name_path dir n :
  plain_name n →
  filename (plain_path (dir ++ [n])) = n ∧ parent_path (plain_path (dir ++ [n])) = plain_path dir.
Proof.
  intros Hn. unfold filename, parent_path, plain_path; simpl. rewrite last_snoc.
  split; [done|]. rewrite removelast_last. by destruct (dir ++ [n]) eqn:E; [destruct dir|].
Qed.

Lemma in_sync_next s s' names :
  in_sync s names → unchanged s s' → f_current s'.1 = f_current s.1 → fs_cwd s' = fs_cwd s →
  in_sync s' names.
Proof.
  intros (Hon & Hcur & Hcwd & Hn & Hk) (Hon' & Hk' & _) Hc Hw.
  unfold in_sync. rewrite Hk', Hc, Hw. by split_and!.
Qed.

Lemma existsSize_outcome s names n :
  in_sync s names → plain_name n → cap_size (f_capabilities s.1) = true →
  wp (existsSize fuel n) (λ r s', unchanged s s' ∧ in_sync s' names ∧
    r = Ok (bool_decide (fs_kind s (names ++ [n]) = Some false))) s.
Proof.
  intros Hs Hn Hcap. unfold existsSize. wp_step.
  eapply wp_mono; [apply ask_wp, fs_size; [by destruct Hs|done|done]|].
  intros r s' ((a & -> & Hon' & Hk & Hcwd & Ha) & Hcur & Hcaps). cbn beta iota. rewrite Ha.
  assert (unchanged s s') as Hu by (by split_and!).
  assert (in_sync s' names) as Hs' by by eapply in_sync_next.
  assert (fs_cwd s = names) as -> by apply Hs.
  destruct (bool_decide (fs_kind s (names ++ [n]) = Some false)); simpl; wp_steps; by split_and!.
Qed.

Lemma existsMlst_outcome s names n :
  in_sync s names → plain_name n → cap_mlst (f_capabilities s.1) = true →
  wp (existsMlst fuel n) (λ r s', unchanged s s' ∧ in_sync s' names ∧
    r = Ok (bool_decide (fs_entry s (names ++ [n]) ≠ None))) s.
Proof.
  intros Hs Hn Hcap. unfold existsMlst. wp_steps. rewrite Hcap. cbn [negb]. wp_step.
  eapply wp_mono; [apply ask_wp, fs_mlst; [by destruct Hs|done|done]|].
  intros r s' ((a & -> & Hon' & Hk & Hcwd & Ha) & Hcur & Hcaps). cbn beta iota.
  assert (unchanged s s') as Hu by (by split_and!).
  assert (in_sync s' names) as Hs' by by eapply in_sync_next.
  assert (fs_cwd s = names) as Hc by apply Hs. rewrite Hc in Ha.
  destruct (fs_entry s (names ++ [n])); [destruct Ha as [-> _]|rewrite Ha];
    simpl; wp_steps; by split_and!.
Qed.

(** Trying to enter a name, and going back. *)
Lemma existsCwd_outcome s names n :
  in_sync s names → plain_name n →
  wp (existsCwd fuel n) (λ r s', unchanged s s' ∧ in_sync s' names ∧
    r = Ok (bool_decide (fs_entry s (names ++ [n]) = Some Directory))) s.
Proof.
  intros Hs Hn. unfold existsCwd. wp_step.
  eapply wp_mono; [apply ask_wp, fs_down; [by destruct Hs|done]|].
  intros r s1 ((a & -> & Hon1 & Hk1 & Ha) & Hcur1 & Hcaps1). cbn beta iota.
  assert (unchanged s s1) as Hu1 by (by split_and!).
  assert (fs_cwd s = names) as Hc by apply Hs. rewrite Hc in Ha.
  destruct (bool_decide (fs_entry s (names ++ [n]) = Some Directory)); destruct Ha as [-> Hcwd1]; simpl; wp_step.
  - eapply wp_mono; [apply ftpCd_up; [done|rewrite Hcwd1; by destruct names]|].
    intros r s2 (-> & Hu2 & Hcur2 & Hcwd2). cbn beta. wp_steps.
    assert (unchanged s s2) as Hu by by eapply unchanged_trans.
    split_and!; [done| |done]. apply (in_sync_next s); [done|done|congruence|].
    by rewrite Hcwd2, Hcwd1, removelast_last, Hc.
  - split_and!; [done| |done]. apply (in_sync_next s); [done|done|congruence|congruence].
Qed.

Lemma isDirectoryMlst_outcome s names n :
  in_sync s names → plain_name n → cap_mlst (f_capabilities s.1) = true →
  wp (isDirectoryMlst fuel n) (λ r s', unchanged s s' ∧ in_sync s' names ∧
    r = match fs_entry s (names ++ [n]) with
        | Some e => Ok (is_dir e)
        | None => Unexpected (make_error_code PROTOCOL_ERROR)
        end) s.
Proof.
  intros Hs Hn Hcap. unfold isDirectoryMlst. wp_steps. rewrite Hcap. cbn [negb]. wp_step.
  eapply wp_mono; [apply ask_wp, fs_mlst; [by destruct Hs|done|done]|].
  intros r s' ((a & -> & Hon' & Hk & Hcwd & Ha) & Hcur & Hcaps). cbn beta iota.
  assert (unchanged s s') as Hu by (by split_and!).
  assert (in_sync s' names) as Hs' by by eapply in_sync_next.
  assert (fs_cwd s = names) as Hc by apply Hs. rewrite Hc in Ha.
  destruct (fs_entry s (names ++ [n])) as [e|].
  - destruct Ha as (-> & pre & post & Hsearch & Hmsg). rewrite bool_decide_true, Hsearch by done.
    wp_steps. split_and!; [done|done|]. f_equal. rewrite Hmsg. unfold find_from.
    rewrite drop_app_length. by destruct e; simpl;
      match goal with |- context [(?p + ?x - ?p)%nat] => replace (p + x - p)%nat with x by lia end.
  - rewrite Ha. by wp_steps.
Qed.

Lemma isDirectoryCwd_outcome s names n :
  in_sync s names → plain_name n →
  wp (isDirectoryCwd fuel n) (λ r s', unchanged s s' ∧ in_sync s' names ∧
    r = if bool_decide (fs_entry s (names ++ [n]) = Some Directory) then Ok true
        else if cap_size (f_capabilities s.1) && bool_decide (fs_kind s (names ++ [n]) = Some false)
        then Ok false else Unexpected (make_error_code PROTOCOL_ERROR)) s.
Proof.
  intros Hs Hn. unfold isDirectoryCwd. wp_step.
  eapply wp_mono; [apply ask_wp, fs_down; [by destruct Hs|done]|].
  intros r s1 ((a & -> & Hon1 & Hk1 & Ha) & Hcur1 & Hcaps1). cbn beta iota.
  assert (unchanged s s1) as Hu1 by (by split_and!).
  assert (fs_cwd s = names) as Hc by apply Hs. rewrite Hc in Ha.
  destruct (bool_decide (fs_entry s (names ++ [n]) = Some Directory)); destruct Ha as [-> Hcwd1].
  - rewrite bool_decide_true by done. wp_step.
    eapply wp_mono; [apply ftpCd_up; [done|rewrite Hcwd1; by destruct names]|].
    intros r s2 (-> & Hu2 & Hcur2 & Hcwd2). cbn beta. simpl. wp_steps.
    split_and!; [by eapply unchanged_trans| |done].
    apply (in_sync_next s); [done|by eapply unchanged_trans|congruence|].
    by rewrite Hcwd2, Hcwd1, removelast_last, Hc.
  - assert (in_sync s1 names) as Hs1 by (apply (in_sync_next s); congruence || done).
    simpl. wp_steps. rewrite <- Hcaps1.
    destruct (cap_size (f_capabilities s1.1)) eqn:Hsize; cbn [andb]; [|by unfold fail; wp_steps].
    wp_step. eapply wp_mono; [by apply existsSize_outcome|].
    intros r s2 (Hu2 & Hs2 & ->). cbn beta iota. rewrite Hk1.
    assert (unchanged s s2) as Hu by by eapply unchanged_trans.
    by destruct (bool_decide (fs_kind s (names ++ [n]) = Some false)); unfold fail; wp_steps.
Qed.

(** A first query, made only when the capability [cap] is there: whether it is
    already decisive. *)
Definition decisive (cap answer : bool) s names (mlst : result bool) s' : Prop :=
  unchanged s s' ∧ in_sync s' names ∧ is_true mlst = cap && answer ∧
  (is_true mlst = true → mlst = Ok true).

Lemma decisive_Ok cap answer s names s' :
  cap = true → unchanged s s' → in_sync s' names → decisive cap answer s names (Ok answer) s'.
Proof. intros -> ? ?. unfold decisive. split_and!; [done..|]. by intros [= ->]. Qed.

Lemma decisive_skip answer s names :
  in_sync s names → decisive false answer s names (Ok false) s.
Proof. intros Hs. unfold decisive. split_and!; [split_and!; [by apply Hs|done|done]|done..]. Qed.

Lemma ftp_exists_outcome s names dir n :
  in_sync s names → Forall plain_name dir → plain_name n →
  wp (ftp_exists fuel (plain_path (dir ++ [n]))) (λ r s', unchanged s s' ∧
    if bool_decide (fs_entry s dir = Some Directory) then
      in_sync s' dir ∧
      r = Ok (if cap_mlst (f_capabilities s.1) || cap_size (f_capabilities s.1)
              then bool_decide (fs_entry s (dir ++ [n]) ≠ None)
              else bool_decide (fs_entry s (dir ++ [n]) = Some Directory))
    else r = Unexpected (make_error_code PROTOCOL_ERROR)) s.
Proof.
  intros Hs Hdir Hn. unfold ftp_exists. destruct (plain_name_path dir n Hn) as [-> ->].
  rewrite bool_decide_false by apply Hn. wp_steps.
  eapply wp_mono; [by eapply navigate_outcome|]. intros r s1 (Hu1 & Hr1). cbn beta.
  destruct (bool_decide (fs_entry s dir = Some Directory)); [destruct Hr1 as [-> Hs1]|by rewrite Hr1].
  wp_steps. destruct (Hu1) as (_ & Hk1 & Hc1). rewrite <- Hc1, <- Hk1.
  set (mlst := cap_mlst (f_capabilities s1.1)). set (size := cap_size (f_capabilities s1.1)).
  set (e := fs_entry s1 (dir ++ [n])).
  eapply (wp_mono _ (decisive mlst (bool_decide (e ≠ None)) s1 dir)).
  { subst mlst. destruct (cap_mlst _) eqn:Hcap; [|by wp_steps; apply decisive_skip].
    eapply wp_mono; [by apply existsMlst_outcome|].
    intros r s2 (Hu2 & Hs2 & ->). by apply decisive_Ok. }
  intros r2 s2 (Hu2 & Hs2 & Ht2 & Hr2). cbn beta. pose proof (unchanged_trans _ _ _ Hu1 Hu2) as Hu.
  destruct (is_true r2) eqn:E2; wp_steps.
  { split; [done|]. split; [done|]. rewrite Hr2 by done.
    symmetry in Ht2. apply andb_true_iff in Ht2 as [-> ->]. done. }
  destruct (Hu2) as (_ & Hk2 & Hc2).
  eapply (wp_mono _ (decisive size (bool_decide (kind_of e = Some false)) s2 dir)).
  { subst size. destruct (cap_size _) eqn:Hcap; [|by wp_steps; apply decisive_skip].
    eapply wp_mono; [apply existsSize_outcome; [done|done|by rewrite Hc2]|].
    intros r s3 (Hu3 & Hs3 & ->). rewrite Hk2. by apply decisive_Ok. }
  intros r3 s3 (Hu3 & Hs3 & Ht3 & Hr3). cbn beta. pose proof (unchanged_trans _ _ _ Hu Hu3) as Hu'.
  destruct (is_true r3) eqn:E3; wp_steps.
  { split; [done|]. split; [done|]. rewrite Hr3 by done.
    symmetry in Ht3. apply andb_true_iff in Ht3 as [-> Hk]. apply bool_decide_eq_true in Hk.
    rewrite orb_true_r. by rewrite bool_decide_true by (intros E; by rewrite E in Hk). }
  eapply wp_mono; [by apply existsCwd_outcome|]. intros r s4 (Hu4 & Hs4 & ->). cbn beta. wp_steps.
  split; [by eapply unchanged_trans|]. split; [done|]. f_equal.
  destruct Hu3 as (_ & Hk3 & _). rewrite Hk3, Hk2. fold e.
  destruct mlst, size, e as [[]|]; done.
Qed.

Lemma isDirectory_outcome s names dir n :
  in_sync s names → Forall plain_name dir → plain_name n →
  wp (isDirectory fuel (plain_path (dir ++ [n]))) (λ r s', unchanged s s' ∧
    (fs_entry s dir = Some Directory → in_sync s' dir) ∧
    r = match fs_entry s (dir ++ [n]) with
        | Some Directory => Ok true
        | Some (File _) => if cap_mlst (f_capabilities s.1) || cap_size (f_capabilities s.1)
                        then Ok false else Unexpected (make_error_code PROTOCOL_ERROR)
        | None => Unexpected (make_error_code PROTOCOL_ERROR)
        end) s.
Proof.
  intros Hs Hdir Hn. unfold isDirectory. destruct (plain_name_path dir n Hn) as [-> ->].
  rewrite bool_decide_false by apply Hn. wp_steps.
  eapply wp_mono; [by eapply navigate_outcome|]. intros r s1 (Hu1 & Hr1). cbn beta.
  case_bool_decide as Hd; [destruct Hr1 as [-> Hs1]|subst r].
  2: { split; [done|]. split; [done|].
       destruct (fs_entry s (dir ++ [n])) eqn:Hk; [|done].
       destruct Hd. apply (fs_parent s dir n). by rewrite Hk. }
  wp_steps. destruct (Hu1) as (_ & Hk1 & Hc1). rewrite <- Hc1, <- (Hk1 (dir ++ [n])).
  assert (Hcwd : ∀ s2, unchanged s1 s2 → in_sync s2 dir →
    (fs_entry s1 (dir ++ [n]) ≠ None → cap_mlst (f_capabilities s1.1) = false) →
    wp (isDirectoryCwd fuel n) (λ r s', unchanged s s' ∧
      (fs_entry s dir = Some Directory → in_sync s' dir) ∧
      r = match fs_entry s1 (dir ++ [n]) with
          | Some Directory => Ok true
          | Some (File _) => if cap_mlst (f_capabilities s1.1) || cap_size (f_capabilities s1.1)
                          then Ok false else Unexpected (make_error_code PROTOCOL_ERROR)
          | None => Unexpected (make_error_code PROTOCOL_ERROR)
          end) s2).
  { intros s2 Hu2 Hs2 Hm. destruct (Hu2) as (_ & Hk2 & Hc2).
    eapply wp_mono; [by apply isDirectoryCwd_outcome|]. intros r s3 (Hu3 & Hs3 & ->).
    split; [by eapply unchanged_trans; [exact Hu1|]; eapply unchanged_trans|]. split; [done|].
    rewrite Hk2, Hc2. destruct (fs_entry s1 (dir ++ [n])) as [[]|]; [done| |].
    - rewrite Hm by done. rewrite (bool_decide_false (Some (File _) = Some Directory)) by done.
      rewrite bool_decide_true by done. by rewrite andb_true_r.
    - rewrite !bool_decide_false by done. by rewrite andb_false_r. }
  destruct (cap_mlst (f_capabilities s1.1)) eqn:Hcap; wp_steps.
  - eapply wp_mono; [by apply isDirectoryMlst_outcome|]. intros r s2 (Hu2 & Hs2 & ->).
    destruct (fs_entry s1 (dir ++ [n])) as [k|] eqn:Hk; cbn beta iota.
    + wp_steps. split; [by eapply unchanged_trans|]. split; [done|]. by destruct k.
    + by apply Hcwd.
  - unfold fail. wp_steps. apply Hcwd; [|done|done]. split_and!; [by apply Hs1|done|done].
Qed.
End session.

(** ** Correctness of the queries *)

(** C24: on a server that keeps its promises, and as long as the navigator knows where it
    is, [exists] of an absolute path of plain names answers whether there is something at
    the path, and leaves the files, the navigator and the server in step. That is so if
    the client can see files: on a server that supports neither MLST nor SIZE it answers
    false for a file. And for a path in a missing directory it answers an error, not
    false. Of a path with a separator at its end it says that it exists, whatever is
    there, without asking the server. *)
Theorem exists_correct {K W : Type} `{DualSocket K W} {fuel} `{FS : !FileServer K W fuel}
    s names dir n :
  in_sync s names → Forall plain_name dir → plain_name n →
  wp (ftp_exists fuel (plain_path (dir ++ [n]))) (λ r s', unchanged s s' ∧
    if bool_decide (fs_entry s dir = Some Directory) then
      in_sync s' dir ∧
      r = Ok (if cap_mlst (f_capabilities s.1) || cap_size (f_capabilities s.1)
              then bool_decide (fs_entry s (dir ++ [n]) ≠ None)
              else bool_decide (fs_entry s (dir ++ [n]) = Some Directory))
    else r = Unexpected (make_error_code PROTOCOL_ERROR)) s ∧
  ftp_exists fuel (trailing_path (dir ++ [n])) s = (Done (Ok true), s).
Proof. intros Hs Hd Hn. split; [by eapply ftp_exists_outcome|done]. Qed.

(** On such a server, with the navigator in step, [isDirectory] answers true for a directory and
    false for a file, the latter only if MLST or SIZE is supported; everything
    else, a path with nothing behind it as well, is an error. *)
Theorem isDirectory_correct {K W : Type} `{DualSocket K W} {fuel} `{FS : !FileServer K W fuel}
    s names dir n :
  in_sync s names → Forall plain_name dir → plain_name n →
  wp (isDirectory fuel (plain_path (dir ++ [n]))) (λ r s', unchanged s s' ∧
    (fs_entry s dir = Some Directory → in_sync s' dir) ∧
    r = match fs_entry s (dir ++ [n]) with
        | Some Directory => Ok true
        | Some (File _) => if cap_mlst (f_capabilities s.1) || cap_size (f_capabilities s.1)
                        then Ok false else Unexpected (make_error_code PROTOCOL_ERROR)
        | None => Unexpected (make_error_code PROTOCOL_ERROR)
        end) s.
Proof. apply isDirectory_outcome. Qed.

