(* ===== verification/FtpTransfer.v ===== *)
(** File transfers of the FTP client: what a successful [read] or [write] means,
    and what is not guarded against: a malformed PASV response, and a path with a line
    break in it. *)

From S2P Require Import Prelude ErrorCodes SocketBase Socket FsPath FtpUtils FtpParse FtpFileTransfer.
From S2P Require Import FtpSession.

Section transfer.
Context {K W : Type} `{LS : LineSocketSpec K W} `{Env : FtpEnvironment K W}.
Implicit Types s : fst_ (K := K) (W := W).

(** ** Lemmas *)

Lemma with_data_inv {A} k (body : dst → outcome A * dst) s a s' :
  with_data k body s = (Done a, s') →
  ∃ d d', body (Some k, s) = (Done a, d) ∧ destroy_data d = (Done tt, d') ∧ s' = d'.2.
Proof.
  unfold with_data. destruct (body (Some k, s)) as [[a1| | |] d] eqn:E; [|done..].
  destruct (destroy_data d) as [[[]| | |] d'] eqn:Ed; [|done..]. intros [= -> <-]. by exists d, d'.
Qed.

(** What is left in the pointer is closed when the function returns. *)
Lemma destroy_data_inv k s d' :
  destroy_data (Some k, s) = (Done tt, d') →
  ∃ k' w', destroySocket (k, s.2) = (Done tt, (k', w')) ∧ isConnected k' w' = false ∧
    d' = (None, (s.1, w')).
Proof.
  unfold destroy_data; simpl. destruct (destroySocket (k, s.2)) as [o [k' w']] eqn:Hd.
  intros [= -> <-]. exists k', w'. split_and!; [done| |done].
  pose proof (destroySocket_closes k s.2) as Hc. unfold wp in Hc. by rewrite Hd in Hc.
Qed.

Lemma ctl_inv {A} (m : fst_ → outcome A * fst_) (d : dst) a d' :
  ctl m d = (Done a, d') → ∃ s', m d.2 = (Done a, s') ∧ d' = (d.1, s').
Proof.
  unfold ctl, zoom. destruct (m d.2) as [o s'] eqn:E. intros [= -> <-]. by eauto.
Qed.

Lemma on_data_inv {A} (m : Z → K * W → outcome A * (K * W)) (d : dst) a d' :
  on_data m d = (Done a, d') →
  ∃ k k' w', d.1 = Some k ∧ m (getDataTimeout d.2.1) (k, d.2.2) = (Done a, (k', w')) ∧
    d' = (Some k', (d.2.1, w')).
Proof.
  unfold on_data. destruct d.1 as [k|]; [|done].
  destruct (m _ _) as [o [k' w']] eqn:E. intros [= -> <-]. by exists k, k', w'.
Qed.

Lemma begin_transfer_inv fuel cmd (d d' : dst) :
  begin_transfer fuel cmd d = (Done (Ok tt), d') →
  ∃ a s', ask fuel cmd d.2 = (Done (Ok a), s') ∧ code a = 150 ∧ d' = (d.1, s').
Proof.
  intros (a & d1 & Ha & Hc)%bind_expected_inv.
  apply ctl_inv in Ha as (s' & Ha & ->). case_bool_decide as H150; [done|].
  injection Hc as <-. exists a, s'. split_and!; [done|lia|done].
Qed.

Lemma end_transfer_inv fuel (d d' : dst) :
  end_transfer fuel d = (Done (Ok tt), d') →
  ∃ a s', receive_response fuel d.2 = (Done (Ok a), s') ∧ code a = 226 ∧ d' = (d.1, s').
Proof.
  intros (a & d1 & Ha & Hc)%bind_expected_inv.
  apply ctl_inv in Ha as (s' & Ha & ->). case_bool_decide as H226; [done|].
  injection Hc as <-. exists a, s'. split_and!; [done|lia|done].
Qed.
End transfer.

(** ** A concrete server with a data connection

    Two connections: the control connection, on which every command brings the next
    response of a script, and the data connection. *)
Inductive channel := ControlChannel | DataChannel.

Record ftp_net := FtpNet { n_control : mem_net; n_data : mem_net; n_script : list bytes }.

Definition net_of (h : channel) (w : ftp_net) : mem_net :=
  match h with ControlChannel => n_control w | DataChannel => n_data w end.

Definition put_net (h : channel) (m : mem_net) (w : ftp_net) : ftp_net :=
  match h with
  | ControlChannel => FtpNet m (n_data w) (n_script w)
  | DataChannel => FtpNet (n_control w) m (n_script w)
  end.

Definition next_response (w : ftp_net) : ftp_net :=
  match n_script w with
  | [] => w
  | r :: script =>
      let c := n_control w in
      FtpNet (MemNet (mn_in c ++ r) (mn_out c) (mn_mtu c) (mn_open c) (mn_silent c)) (n_data w) script
  end.

Definition net_read (h : channel) (n : nat) (t : Z) (w : ftp_net) : read_completion * ftp_net :=
  let '(c, m) := mem_read tt n t (net_of h w) in (c, put_net h m w).

Definition net_write (h : channel) (b : bytes) (t : Z) (w : ftp_net) : write_completion * ftp_net :=
  let '(c, m) := mem_write tt b t (net_of h w) in
  (c, match h with
      | ControlChannel => next_response (put_net h m w)
      | DataChannel => put_net h m w
      end).

#[export] Instance net_Asio : Asio ftp_net := {|
  stream := channel;
  is_open := λ h w, mn_open (net_of h w);
  executor_runs := λ _ _, true;
  async_read_some := net_read;
  async_write := net_write;
  shutdown_send := λ _ w, w;
  close := λ h w, put_net h (mem_close tt (net_of h w)) w;
  cancel := λ _ w, w;
  emit_cancel_signal := λ _ w, w;
  dyn_prepare := λ v n, v ++ replicate n Byte.x00;
  dyn_commit := λ v size k, take (size + k `min` (length v - size)) v
|}.

Lemma net_put_same h m w : net_of h (put_net h m w) = m.
Proof. by destruct h. Qed.

Lemma net_read_inv h n t w c w' :
  net_read h n t w = (c, w') → mem_read tt n t (net_of h w) = (c, net_of h w').
Proof.
  unfold net_read. destruct (mem_read tt n t (net_of h w)) as [c' m]. intros [= <- <-].
  by rewrite net_put_same.
Qed.

Lemma net_write_inv h b t w c w' :
  net_write h b t w = (c, w') →
  ec_bool (wc_ec c) = false ∧ wc_bytes c = length b ∧
  mn_out (net_of h w') = mn_out (net_of h w) ++ b ∧ mn_open (net_of h w') = mn_open (net_of h w) ∧
  mn_mtu (net_of h w') = mn_mtu (net_of h w) ∧
  ∃ more, mn_in (net_of h w') = mn_in (net_of h w) ++ more.
Proof.
  unfold net_write, mem_write. destruct h; intros [= <- <-].
  - unfold next_response. simpl. destruct (n_script w); simpl; split_and!; try done.
    + exists []. by rewrite app_nil_r.
    + by eexists.
  - simpl. split_and!; try done. exists []. by rewrite app_nil_r.
Qed.

#[export] Program Instance net_AsioSpec : AsioSpec ftp_net := {|
  incoming := λ h w, mn_in (net_of h w);
  outgoing := λ h w, mn_out (net_of h w);
  healthy := λ h w, mn_open (net_of h w) = true ∧ (0 < mn_mtu (net_of h w))%nat
|}.
Next Obligation.
  simpl. intros h n t w c w' Hr%net_read_inv. by eapply (read_bounded (W := mem_net)).
Qed.
Next Obligation.
  simpl. intros h n t w c w' Hr%net_read_inv. by eapply (read_failed_nothing (W := mem_net)).
Qed.
Next Obligation.
  simpl. intros h n t w c w' Hr%net_read_inv. exact (read_in_order (W := mem_net) tt n t _ _ _ Hr).
Qed.
Next Obligation.
  simpl. intros h n t w c w' Hn Hr%net_read_inv. exact (read_ended (W := mem_net) tt n t _ _ _ Hn Hr).
Qed.
Next Obligation. simpl. intros h b t w c w' Hw%net_write_inv. by destruct Hw as (? & ? & ? & _). Qed.
Next Obligation. simpl. by intros h w [Ho _]. Qed.
Next Obligation.
  simpl. intros h n t w c w' Hh Hn Hin Hr%net_read_inv.
  exact (healthy_read (W := mem_net) tt n t _ _ _ Hh Hn Hin Hr).
Qed.
Next Obligation.
  simpl. intros h b t w c w' [Ho Hm] Hw%net_write_inv.
  destruct Hw as (H1 & _ & _ & H2 & H3 & H4). rewrite H2, H3. by split_and!.
Qed.
Next Obligation. simpl. intros h w. by rewrite net_put_same. Qed.
Next Obligation. simpl. intros h w. by rewrite net_put_same. Qed.
Next Obligation. simpl. intros v n. eexists. split; [|done]. by rewrite length_replicate. Qed.
Next Obligation. done. Qed.

(** Connecting gives the data connection; the clock stands still. *)
#[export] Instance net_environment : FtpEnvironment (socket ftp_net) ftp_net := {|
  Client_connect _ _ _ := mret (Ok (Socket 1 TcpSocketClass DataChannel []));
  address_to_string _ := txt "127.0.0.1";
  system_clock_now _ := 0
|}.

(** A connected client, a script of responses, and what comes on the data connection. *)
Definition net_session (script : list bytes) (data : bytes)
    : fst_ (K := socket ftp_net) (W := ftp_net) :=
  (FtpClient (txt "localhost") 21 (plain_path []) (Some (Socket 0 TcpSocketClass ControlChannel []))
     default_options default_capabilities,
   FtpNet (MemNet [] [] 100 true false) (MemNet data [] 4 true false) script).

Definition transfer_script : list bytes :=
  [ txt "227 Entering Passive Mode (127,0,0,1,200,10)" ++ CRLF;
    txt "150 opening" ++ CRLF ++ txt "226 done" ++ CRLF ].

(** ** Correctness of transfers *)

(** C19: a file that is read has arrived completely: when [read] succeeds, the
    server had announced the data (150), the result is everything that the data
    connection delivered up to its end, the server then confirmed the transfer (226),
    and the data connection is closed. *)
Theorem read_correct {K W : Type} `{LS : LineSocketSpec K W} `{Env : !FtpEnvironment K W}
    fuel p (s : fst_ (K := K) (W := W)) b s' :
  ftp_read fuel p s = (Done (Ok b), s') →
  ∃ k s1 a1 s2 k' w' a2 s3 k'' w'',
    open_transfer fuel (parent_path p) s = (Done (Ok k), s1) ∧
    ask fuel (txt "RETR " ++ filename p) s1 = (Done (Ok a1), s2) ∧ code a1 = 150 ∧
    receiveRawResponse fuel (getDataTimeout s2.1) (k, s2.2) = (Done (Ok b), (k', w')) ∧
    b = rx k s2.2 ∧
    receive_response fuel (s2.1, w') = (Done (Ok a2), s3) ∧ code a2 = 226 ∧
    destroySocket (k', s3.2) = (Done tt, (k'', w'')) ∧ isConnected k'' w'' = false ∧
    s' = (s3.1, w'').
Proof.
  intros (k & s1 & Hopen & Hrun)%bind_expected_inv.
  apply with_data_inv in Hrun as (d & d' & Hrun & Hdestroy & ->).
  apply bind_expected_inv in Hrun as ([] & d1 & Hbegin & Hrun).
  apply begin_transfer_inv in Hbegin as (a1 & s2 & Hask & Hcode & ->). cbn [fst snd] in *.
  apply bind_expected_inv in Hrun as (b' & d2 & Hraw & Hrun).
  apply on_data_inv in Hraw as (k0 & k' & w' & [= <-] & Hraw & ->). cbn [fst snd] in *.
  apply bind_expected_inv in Hrun as ([] & d3 & Hend & Hrun). injection Hrun as -> ->.
  apply end_transfer_inv in Hend as (a2 & s3 & Hrecv & Hcode2 & ->). cbn [fst snd] in *.
  apply destroy_data_inv in Hdestroy as (k'' & w'' & Hd & Hc & ->).
  exists k, s1, a1, s2, k', w', a2, s3, k'', w''. split_and!; try done.
  pose proof (raw_loop_partial fuel [] (zero_bytes (Z.to_nat 1024)) (getDataTimeout s2.1) k s2.2
    ltac:(by intros Hz; apply (f_equal length) in Hz; rewrite length_zero_bytes in Hz)) as Hsound.
  unfold wlp in Hsound. unfold receiveRawResponse in Hraw. rewrite Hraw in Hsound. by apply Hsound.
Qed.

Lemma read_correct_witness :
  let D := socket_DualSocket 200 in
  let s := net_session transfer_script (txt "the text of the file") in
  let p := path_of_string (txt "/readme") in
  let b := txt "the text of the file" in
  ∃ s', ftp_read 50 p s = (Done (Ok b), s') ∧
  ∃ k s1 a1 s2 k' w' a2 s3 k'' w'',
    open_transfer 50 (parent_path p) s = (Done (Ok k), s1) ∧
    ask 50 (txt "RETR " ++ filename p) s1 = (Done (Ok a1), s2) ∧ code a1 = 150 ∧
    receiveRawResponse 50 (getDataTimeout s2.1) (k, s2.2) = (Done (Ok b), (k', w')) ∧
    b = rx k s2.2 ∧
    receive_response 50 (s2.1, w') = (Done (Ok a2), s3) ∧ code a2 = 226 ∧
    destroySocket (k', s3.2) = (Done tt, (k'', w'')) ∧ isConnected k'' w'' = false ∧
    s' = (s3.1, w'').
Proof.
  intros D s p b. exists (ftp_read 50 p s).2.
  assert (ftp_read 50 p s = (Done (Ok b), (ftp_read 50 p s).2)) as Hr
    by by vm_compute.
  split; [exact Hr|]. exact (read_correct 50 p s _ _ Hr).
Defined.

(** C20: a file that is written has been handed over completely: when [write]
    succeeds, the server was ready for the data (150), exactly the bytes of the
    caller went to the data connection, the connection was closed after them, which
    is what ends the file, and only then the server confirmed the transfer (226);
    the result names the size and the path of the file. *)
Theorem write_correct {K W : Type} `{LS : LineSocketSpec K W} `{Env : !FtpEnvironment K W}
    fuel p data (s : fst_ (K := K) (W := W)) f s' :
  ftp_write fuel p data s = (Done (Ok f), s') →
  ∃ k s1 a1 s2 k' w' k'' w'' a2 s3,
    open_transfer fuel (parent_path p) s = (Done (Ok k), s1) ∧
    ask fuel (txt "STOR " ++ filename p) s1 = (Done (Ok a1), s2) ∧ code a1 = 150 ∧
    sent k' w' = sent k s2.2 ++ data ∧
    destroySocket (k', w') = (Done tt, (k'', w'')) ∧ isConnected k'' w'' = false ∧
    receive_response fuel (s2.1, w'') = (Done (Ok a2), s3) ∧ code a2 = 226 ∧
    fl_size f = Z.of_nat (length data) ∧ fl_full_path f = p ∧ fl_file_name f = filename p.
Proof.
  intros (k & s1 & Hopen & Hrun)%bind_expected_inv.
  apply with_data_inv in Hrun as (d & d' & Hrun & _ & _).
  apply bind_expected_inv in Hrun as ([] & d1 & Hbegin & Hrun).
  apply begin_transfer_inv in Hbegin as (a1 & s2 & Hask & Hcode & ->). cbn [fst snd] in *.
  apply bind_expected_inv in Hrun as (n & d2 & Hw & Hrun).
  apply on_data_inv in Hw as (k0 & k' & w' & [= <-] & Hw & ->). cbn [fst snd] in *.
  apply M_bind_inv in Hrun as ([] & d3 & Hdestroy & Hrun).
  apply destroy_data_inv in Hdestroy as (k'' & w'' & Hd & Hc & ->). cbn [fst snd] in *.
  apply bind_expected_inv in Hrun as ([] & d4 & Hend & Hrun).
  apply end_transfer_inv in Hend as (a2 & s3 & Hrecv & Hcode2 & ->). cbn [fst snd] in *.
  injection Hrun as <- _.
  exists k, s1, a1, s2, k', w', k'', w'', a2, s3. split_and!; try done.
  pose proof (writeAll_sound Sync data (Some (getDataTimeout s2.1)) k s2.2) as Hsound.
  unfold wlp in Hsound. rewrite Hw in Hsound. by destruct (Hsound n eq_refl).
Qed.

Lemma write_correct_witness :
  let D := socket_DualSocket 200 in
  let s := net_session transfer_script [] in
  let p := path_of_string (txt "/readme") in
  let f := {| fl_date := 0; fl_size := 5; fl_file_name := txt "readme"; fl_full_path := p |} in
  ∃ s', ftp_write 50 p (txt "hello") s = (Done (Ok f), s') ∧
  ∃ k s1 a1 s2 k' w' k'' w'' a2 s3,
    open_transfer 50 (parent_path p) s = (Done (Ok k), s1) ∧
    ask 50 (txt "STOR " ++ filename p) s1 = (Done (Ok a1), s2) ∧ code a1 = 150 ∧
    sent k' w' = sent k s2.2 ++ txt "hello" ∧
    destroySocket (k', w') = (Done tt, (k'', w'')) ∧ isConnected k'' w'' = false ∧
    receive_response 50 (s2.1, w'') = (Done (Ok a2), s3) ∧ code a2 = 226 ∧
    fl_size f = Z.of_nat (length (txt "hello")) ∧ fl_full_path f = p ∧ fl_file_name f = filename p.
Proof.
  intros D s p f. exists (ftp_write 50 p (txt "hello") s).2.
  assert (ftp_write 50 p (txt "hello") s = (Done (Ok f), (ftp_write 50 p (txt "hello") s).2)) as Hr
    by by vm_compute.
  split; [exact Hr|]. exact (write_correct 50 p _ s _ _ Hr).
Defined.

(** A response 227 to PASV without six numbers in parentheses is not caught:
    the empty optional is dereferenced, whatever the transfer. *)
Theorem malformed_pasv_undefined {K W : Type} `{DualSocket K W} `{AsioErrors}
    `{Env : !FtpEnvironment K W} fuel p (s : fst_ (K := K) (W := W)) s1 a s2 :
  navigate fuel (parent_path p) s = (Done (Ok tt), s1) →
  ask fuel (txt "PASV") s1 = (Done (Ok a), s2) →
  code a = 227 → parsePasvResponse (full_msg a) = None →
  ftp_read fuel p s = (Undef, s2) ∧ ∀ data, ftp_write fuel p data s = (Undef, s2).
Proof.
  intros Hnav Hask Hcode Hparse.
  assert (open_transfer fuel (parent_path p) s = (Undef, s2)) as Hopen.
  { unfold open_transfer. rewrite (bind_expected_Ok _ _ _ _ _ Hnav).
    unfold openDataConnection. rewrite (bind_expected_Ok _ _ _ _ _ Hask).
    rewrite bool_decide_false by (intros Hn; by apply Hn). by rewrite Hparse. }
  split; [|intros data]; unfold ftp_read, ftp_write, bind_expected, mbind, M_bind;
    by rewrite Hopen.
Qed.

Lemma malformed_pasv_undefined_witness :
  let D := socket_DualSocket 200 in
  let s := net_session [txt "227 Entering Passive Mode" ++ CRLF] [] in
  let p := path_of_string (txt "/readme") in
  ∃ s1 a s2, navigate 50 (parent_path p) s = (Done (Ok tt), s1) ∧
    ask 50 (txt "PASV") s1 = (Done (Ok a), s2) ∧ code a = 227 ∧
    parsePasvResponse (full_msg a) = None ∧
    ftp_read 50 p s = (Undef, s2) ∧ ∀ data, ftp_write 50 p data s = (Undef, s2).
Proof.
  intros D s p.
  set (s1 := (navigate 50 (parent_path p) s).2).
  set (a := {| full_msg := txt "227 Entering Passive Mode" ++ CRLF; code := 227 |}).
  set (s2 := (ask 50 (txt "PASV") s1).2).
  assert (navigate 50 (parent_path p) s = (Done (Ok tt), s1)) as H1 by by vm_compute.
  assert (ask 50 (txt "PASV") s1 = (Done (Ok a), s2)) as H2 by by vm_compute.
  exists s1, a, s2. split_and!; [exact H1|exact H2|reflexivity|reflexivity|..].
  all: apply (malformed_pasv_undefined 50 p s s1 a s2 H1 H2 eq_refl eq_refl).
Defined.

(** A transfer is given up, after a response that RFC 959 allows, when the server begins it
    with another code than 150, such as 125, or ends it with another one than 226, such as
    250. *)
Theorem other_codes_refused {K W : Type} `{DualSocket K W} fuel cmd (d : dst (K := K) (W := W)) a s :
  (ask fuel cmd d.2 = (Done (Ok a), s) → code a ≠ 150 →
   begin_transfer fuel cmd d = (Done (Unexpected (make_error_code PROTOCOL_ERROR)), (d.1, s))) ∧
  (receive_response fuel d.2 = (Done (Ok a), s) → code a ≠ 226 →
   end_transfer fuel d = (Done (Unexpected (make_error_code PROTOCOL_ERROR)), (d.1, s))).
Proof.
  unfold begin_transfer, end_transfer, bind_expected, mbind, M_bind, ctl, zoom.
  split; intros -> Hc; simpl; by rewrite bool_decide_true.
Qed.

(** A name with CR LF in it, which a path can have, is not refused: what follows the CR LF
    is sent to the server as a command of its own. *)
Theorem path_injects_commands {K W : Type} `{DualSocketSpec K W} verb p a b t (k : K) (w : W) :
  filename p = a ++ CRLF ++ b → live k w →
  wp (sendCommand (verb ++ filename p) t) (λ r kw, r = Ok tt ∧
    sent kw.1 kw.2 = sent k w ++ (verb ++ a ++ CRLF) ++ (b ++ CRLF)) (k, w).
Proof.
  intros -> Hlive. unfold sendCommand. wp_step. eapply wp_mono; [by apply writeAll_live|].
  intros r kw (-> & Hs & _). wp_steps. split; [done|]. rewrite Hs. by rewrite <- !app_assoc.
Qed.

Lemma path_injects_commands_witness :
  let D := socket_DualSocket (W := mem_net) 200 in
  let p := path_of_string (txt "/pub/a" ++ CRLF ++ txt "DELE readme") in
  let kw := mem_connection [] in
  filename p = txt "a" ++ CRLF ++ txt "DELE readme" ∧ live kw.1 kw.2 ∧
  wp (sendCommand (txt "SIZE " ++ filename p) 1000) (λ r kw', r = Ok tt ∧
    sent kw'.1 kw'.2 = sent kw.1 kw.2 ++ (txt "SIZE " ++ txt "a" ++ CRLF) ++ (txt "DELE readme" ++ CRLF)) kw.
Proof.
  intros D p kw. assert (filename p = txt "a" ++ CRLF ++ txt "DELE readme") as Hp by (vm_compute; reflexivity).
  assert (live kw.1 kw.2) as Hl by (simpl; unfold ok; simpl; lia).
  split; [exact Hp|]. split; [exact Hl|].
  exact (path_injects_commands (txt "SIZE ") p _ _ 1000 kw.1 kw.2 Hp Hl).
Defined.
