(* ===== verification/FtpClient.v ===== *)
(** The FTP client over the TCP client: the environment of FtpFileTransfer with
    [Client(host, port).connect(timeout)] as the program has it, and what opening a
    connection to an unreachable server leaves behind. *)

From S2P Require Import Prelude ErrorCodes ErrorTranslation FsPath Options TlsContext SocketBase Socket.
From S2P Require Import Client FtpParse FtpFileTransfer.

(** What remains of the environment: addresses as texts and the clock. *)
Class SystemEnvironment (W : Type) := {
  sys_address_to_string : Z → bytes;
  sys_clock_now : W → Z
}.

Section ftp_client_environment.
Context {W : Type} `{AE : AsioErrors} `{A : !Asio W} `{AC : !AsioConnect W} `{SI : !SocketIds W}.
Context `{Sys : !SystemEnvironment W}.

(** [connect] is called with the default options of [Client::connect]. *)
#[export] Instance client_environment : FtpEnvironment (socket W) W := {|
  Client_connect host port timeout :=
    connect {| Client.host := host; Client.port := port |} timeout default_tcp_options;
  address_to_string := sys_address_to_string;
  system_clock_now := sys_clock_now
|}.
End ftp_client_environment.

(** What the client relies on: a connection is made, or nothing stays open. *)
Class FtpEnvironmentSpec (W : Type) `{Asio W} `{Env : !FtpEnvironment (socket W) W} := {
  environment_connects host port t w :
    wp (Client_connect host port t) (connected_or_clean TcpSocketClass connect_errors w) w
}.

(** [Client] promises it. *)
#[export] Instance client_environment_spec {W : Type} `{CS : AsioConnectSpec W}
    `{Sys : !SystemEnvironment W} : FtpEnvironmentSpec W.
Proof.
  split. intros host port t w. apply blocking_outcome; [unfold connect_errors; set_solver|].
  apply asyncConnect_outcome.
Qed.

(** Opening an FTP connection when the server cannot be reached gives no client: the
    result is one of the errors of connecting, and no stream is left open that was not
    open before. *)
Theorem openFtpConnection_unreachable {W : Type} `{CS : AsioConnectSpec W}
    `{Sys : !SystemEnvironment W} `{Clk : Clock} fuel h p opts (w w1 : W) e :
  let K := socket_DualSocket (W := W) fuel in
  connect {| Client.host := h; Client.port := p |} (opt_timeout opts) default_tcp_options w =
    (Done (Unexpected e), w1) →
  openFtpConnection fuel h p opts w = (Done (Unexpected e), w1) ∧
  e ∈ connect_errors ∧ only_opens None w w1.
Proof.
  intros K Hc. split.
  - unfold openFtpConnection, ftp_connect, bind_expected, mbind, M_bind, gets, on_world, zoom. simpl.
    by rewrite Hc.
  - pose proof (environment_connects h p (opt_timeout opts) w) as Hw. unfold wp in Hw.
    simpl in Hw. by rewrite Hc in Hw.
Qed.
