(* ===== verification/FtpResources.v ===== *)
(** The streams of an FTP client. The client owns the control connection, and a transfer
    owns its data connection while it lasts; whatever a program does with the client, and
    whatever the server answers, nothing stays open when the client is gone. *)

From S2P Require Import Prelude ErrorCodes ErrorTranslation FsPath Options TlsContext SocketBase Socket.
From S2P Require Import Client SocketResources FtpUtils FtpParse FtpFileTransfer FtpClient.

(** ** Programs with an FTP client *)

Section programs.
Context {W : Type} `{AE : AsioErrors} `{A : !Asio W} `{DS : !DualSocket (socket W) W}.
Context `{Env : !FtpEnvironment (socket W) W} `{Clk : Clock}.
Variable fuel : nat.

(** A callback of the user that opens no connection of its own. *)
Definition opens_nothing {B} (m : M W B) : Prop := steps (only_opens None) m.

(** The operations of [FtpFileTransfer], connecting again among them. *)
Inductive ftp_call : ∀ B, M (fst_ (K := socket W) (W := W)) B → Prop :=
| call_connect opts : ftp_call _ (ftp_connect fuel opts)
| call_list p : ftp_call _ (ftp_list fuel p)
| call_createDir p : ftp_call _ (createDir fuel p)
| call_exists p : ftp_call _ (ftp_exists fuel p)
| call_remove p : ftp_call _ (ftp_remove fuel p)
| call_isDirectory p : ftp_call _ (isDirectory fuel p)
| call_read p : ftp_call _ (ftp_read fuel p)
| call_read_cb p callback :
    (∀ b, opens_nothing (callback b)) → ftp_call _ (ftp_read_cb fuel p callback)
| call_write p data : ftp_call _ (ftp_write fuel p data)
| call_write_cb p next : opens_nothing next → ftp_call _ (ftp_write_cb fuel p next).

(** What a program does with a client: operations one after the other, where each may
    depend on the results of those before it; asking whether the client is alive, and
    whatever else the program does by itself, throwing included. *)
Inductive ftp_program : ∀ B, M (fst_ (K := socket W) (W := W)) B → Prop :=
| program_here B (m : M fst_ B) : (∀ s, (m s).2 = s) → ftp_program B m
| program_call B m : ftp_call B m → ftp_program B m
| program_bind B C (m : M fst_ B) (k : B → M fst_ C) :
    ftp_program B m → (∀ b, ftp_program C (k b)) → ftp_program C (m ≫= k).

(** A block that owns a client: it is destroyed at the end, also when the body throws. *)
Definition with_ftp_client {B} (host : bytes) (port : Z) (opts : ConnectOptions)
    (body : M (fst_ (K := socket W) (W := W)) B) : M W (result B) := λ w,
  match openFtpConnection fuel host port opts w with
  | (Done (Ok c), w1) =>
      let '(o, s) := body (c, w1) in
      if returns_or_throws o then
        let '(od, s') := FtpFileTransfer_destroy s in
        (match od, o with
         | Done _, Done b => Done (Ok b)
         | Done _, Throw x => Throw x
         | _, _ => Undef
         end, s'.2)
      else (match o with NoFuel => NoFuel | _ => Undef end, s.2)
  | (Done (Unexpected e), w1) => (Done (Unexpected e), w1)
  | (Throw x, w1) => (Throw x, w1)
  | (Undef, w1) => (Undef, w1)
  | (NoFuel, w1) => (NoFuel, w1)
  end.
End programs.

(** ** Who keeps a stream open *)

Section ownership.
Context {W : Type} `{Q : AsioQuiet W} (n : nat).
Context `{Env : !FtpEnvironment (socket W) W} `{Clk : Clock}.
Let D : DualSocket (socket W) W := socket_DualSocket n.
#[local] Existing Instance D | 0.
Implicit Types (P : stream W → Prop) (s : fst_ (K := socket W) (W := W)).
Implicit Types d : dst (K := socket W) (W := W).

(** Every open stream is one that [P] accounts for, or the client's. *)
Definition accounted P s : Prop :=
  ∀ x, is_open x s.2 = true → P x ∨ s_stream <$> f_socket s.1 = Some x.

(** [P], and the stream of a data connection. *)
Definition or_stream (k : option (socket W)) P : stream W → Prop :=
  λ x, P x ∨ s_stream <$> k = Some x.

(** What operations of the client keep, and the body of a transfer. *)
Definition ftp_keeps s s' : Prop := ∀ P, accounted P s → accounted P s'.
Definition transfer_keeps d d' : Prop :=
  ∀ P, accounted (or_stream d.1 P) d.2 → accounted (or_stream d'.1 P) d'.2.

#[export] Instance ftp_keeps_preorder : PreOrder ftp_keeps.
Proof. split; [by intros s P|]. intros s1 s2 s3 H1 H2 P HP. by apply H2, H1. Qed.

#[export] Instance transfer_keeps_preorder : PreOrder transfer_keeps.
Proof. split; [by intros d P|]. intros d1 d2 d3 H1 H2 P HP. by apply H2, H1. Qed.

Lemma accounted_none P s : accounted P s ↔ accounted (or_stream None P) s.
Proof.
  split; intros Hs x Hx; (destruct (Hs x Hx) as [H1|]; [|by right]); [by left; left|].
  left. by destruct H1.
Qed.

(** ** The control connection *)

Lemma keeps_on_control {B} (m : M (socket W * W) B) : steps tame m → steps ftp_keeps (on_control m).
Proof.
  intros Hm [c w] P HP. unfold on_control. simpl. destruct (f_socket c) as [k|] eqn:Hk; [|done].
  specialize (Hm (k, w)). destruct (m (k, w)) as [o [k' w']]. destruct Hm as [Hst Ho]. simpl in *.
  intros x Hx. simpl in *. rewrite Hst. destruct (Ho x Hx) as [Hx'|]; [|done].
  specialize (HP x Hx'). simpl in HP. by rewrite Hk in HP.
Qed.

Lemma socket_tame {B} (m : M (socket W * W) B) : socket_call B m → steps tame m.
Proof. apply (socket_keeps (SocketInvariant := tame_invariant n)). Qed.

Lemma tame_sendCommand cmd t : steps tame (sendCommand cmd t).
Proof.
  apply steps_bind; [apply _|apply socket_tame; constructor|]. intros [r|e]; by apply steps_here; [apply _|].
Qed.

Lemma tame_response_loop fuel buf tmp t : steps tame (response_loop fuel buf tmp t).
Proof.
  revert buf tmp. induction fuel as [|fuel IH]; intros buf tmp; cbn [response_loop];
    [by apply steps_here; [apply _|]|].
  apply steps_bind; [apply _|apply socket_tame; constructor|]. intros [[r|e] out]; steps.
Qed.

Lemma tame_receiveResponse fuel t : steps tame (receiveResponse fuel t).
Proof.
  apply steps_bind_expected; [apply _|apply tame_response_loop|]. intros buf. steps.
Qed.

Lemma tame_raw_loop fuel buf tmp t : steps tame (raw_loop fuel buf tmp t).
Proof.
  revert buf tmp. induction fuel as [|fuel IH]; intros buf tmp; cbn [raw_loop];
    [by apply steps_here; [apply _|]|].
  apply steps_bind; [apply _|apply socket_tame; constructor|]. intros [[r|e] out]; steps.
Qed.

Lemma keeps_receive_response fuel : steps ftp_keeps (receive_response fuel).
Proof.
  apply steps_bind; [apply _|by apply steps_here; [apply _|]|].
  intros t. apply keeps_on_control, tame_receiveResponse.
Qed.

Lemma keeps_ask fuel cmd : steps ftp_keeps (ask fuel cmd).
Proof.
  apply steps_bind; [apply _|by apply steps_here; [apply _|]|]. intros t. apply keeps_on_control.
  apply steps_bind_expected; [apply _|apply tame_sendCommand|intros; apply tame_receiveResponse].
Qed.

(** Nothing changes but what the client remembers. *)
Lemma keeps_modify (f : fst_ → fst_) :
  (∀ s, f_socket (f s).1 = f_socket s.1 ∧ (f s).2 = s.2) → steps ftp_keeps (modify f).
Proof.
  intros Hf. apply steps_modify. intros s P HP x. destruct (Hf s) as [-> ->]. apply HP.
Qed.

(** Giving up the control connection closes it; the new one takes its place. *)
Lemma reset_socket_accounted new P s :
  accounted (or_stream new P) s → accounted P (reset_socket new s).2.
Proof.
  destruct s as [c w]. unfold reset_socket. intros HP. simpl.
  destruct (f_socket c) as [k|] eqn:Hk; simpl.
  - pose proof (socket_destroy_closes (k, w)) as Hd. unfold wp in Hd. simpl.
    destruct (socket_destroy (k, w)) as [[[]| | |] [k' w']]; try done.
    destruct Hd as ([_ Ho] & Hc & _). simpl in *. intros x Hx. simpl in *.
    destruct (Ho x Hx) as [Hx'|]; [|done].
    destruct (HP x Hx') as [[?|?]|Hx'']; [by left|by right|].
    simpl in Hx''. rewrite Hk in Hx''. injection Hx'' as <-. congruence.
  - intros x Hx. destruct (HP x Hx) as [[?|?]|Hx']; [by left|by right|]. simpl in Hx'. by rewrite Hk in Hx'.
Qed.

Lemma keeps_reset_socket : steps ftp_keeps (reset_socket None).
Proof. intros s P HP. by apply reset_socket_accounted, (accounted_none P s). Qed.

(** ** Commands *)

Lemma keeps_here {B} (m : M (fst_ (K := socket W) (W := W)) B) : (∀ s, (m s).2 = s) → steps ftp_keeps m.
Proof. apply steps_here, _. Qed.

Lemma keeps_ftpCd fuel dir : steps ftp_keeps (ftpCd fuel dir).
Proof.
  apply steps_bind_expected; [apply _|apply keeps_ask|]. intros r. case_bool_decide; by apply keeps_here.
Qed.

Lemma keeps_navigate fuel p : steps ftp_keeps (navigate fuel p).
Proof.
  pose proof (keeps_ftpCd fuel) as Hcd.
  assert (∀ parts, steps ftp_keeps (cd_each (N := DefaultFtpNavigator fuel) parts)) as Heach.
  { intros parts. induction parts as [|part parts IH]; simpl; steps. }
  unfold navigate. apply steps_bind; [apply _|by apply keeps_here|]. intros current.
  apply steps_bind; [apply _| |intros [r q]; apply steps_bind; [apply _|by apply keeps_modify|]].
  2: { intros; by apply keeps_here. }
  unfold changeDirectory, descendFromRoot. cbn [virtual_ftpSelectDrive DefaultFtpNavigator].
  assert (∀ drive, steps ftp_keeps (ftpSelectDrive fuel drive)) as Hdrive by exact Hcd. steps.
Qed.

Lemma keeps_login_step fuel cmd accepted : steps ftp_keeps (login_step fuel cmd accepted).
Proof.
  pose proof keeps_reset_socket. apply steps_bind; [apply _|apply keeps_ask|]. intros [a|e]; steps.
Qed.

Lemma keeps_existsMlst fuel name : steps ftp_keeps (existsMlst fuel name).
Proof. pose proof (keeps_ask fuel). unfold existsMlst. steps. Qed.

Lemma keeps_existsSize fuel name : steps ftp_keeps (existsSize fuel name).
Proof. pose proof (keeps_ask fuel). unfold existsSize. steps. Qed.

Lemma keeps_existsCwd fuel name : steps ftp_keeps (existsCwd fuel name).
Proof. pose proof (keeps_ask fuel). pose proof (keeps_ftpCd fuel). unfold existsCwd. steps. Qed.

Lemma keeps_exists fuel p : steps ftp_keeps (ftp_exists fuel p).
Proof.
  pose proof (keeps_navigate fuel). pose proof (keeps_existsMlst fuel).
  pose proof (keeps_existsSize fuel). pose proof (keeps_existsCwd fuel). unfold ftp_exists. steps.
Qed.

Lemma keeps_isDirectory fuel p : steps ftp_keeps (isDirectory fuel p).
Proof.
  pose proof (keeps_navigate fuel). pose proof (keeps_ask fuel). pose proof (keeps_ftpCd fuel).
  pose proof (keeps_existsSize fuel). unfold isDirectory, isDirectoryMlst, isDirectoryCwd, fail. steps.
Qed.

Lemma keeps_createDir fuel p : steps ftp_keeps (createDir fuel p).
Proof.
  pose proof (keeps_navigate fuel). pose proof (keeps_ask fuel). pose proof (keeps_exists fuel).
  unfold createDir. steps.
Qed.

Lemma keeps_remove fuel p : steps ftp_keeps (ftp_remove fuel p).
Proof.
  pose proof (keeps_navigate fuel). pose proof (keeps_ask fuel). pose proof (keeps_isDirectory fuel).
  unfold ftp_remove. steps.
Qed.

(** ** New connections *)

(** Code that opens a connection and hands it to its caller, when it succeeds. *)
Definition hands_over (m : M (fst_ (K := socket W) (W := W)) (result (socket W))) : Prop :=
  ∀ P s, accounted P s → returns_or_throws (m s).1 = true →
    accounted (or_stream (match (m s).1 with Done (Ok k) => Some k | _ => None end) P) (m s).2.

(** Code that takes a connection over and gives it up before it comes back. *)
Definition takes_over {B} (k : socket W) (m : M (fst_ (K := socket W) (W := W)) B) : Prop :=
  ∀ P s, accounted (or_stream (Some k) P) s → returns_or_throws (m s).1 = true → accounted P (m s).2.

Lemma takes_over_keeps {B} (m : M fst_ (result (socket W))) (f : socket W → M fst_ (result B)) :
  hands_over m → (∀ k, takes_over k (f k)) → settles ftp_keeps (bind_expected m f).
Proof.
  intros Hm Hf s Hr P HP. unfold bind_expected, mbind, M_bind in *. specialize (Hm P s HP).
  destruct (m s) as [[[k|e]| | |] s1]; simpl in *; try done.
  - apply (Hf k); auto.
  - by apply (accounted_none P s1), Hm.
  - by apply (accounted_none P s1), Hm.
Qed.

Lemma hands_over_after {B} (m : M fst_ (result B)) (f : B → M fst_ (result (socket W))) :
  steps ftp_keeps m → (∀ b, hands_over (f b)) → hands_over (bind_expected m f).
Proof.
  intros Hm Hf P s HP. unfold bind_expected, mbind, M_bind. specialize (Hm s P HP).
  destruct (m s) as [[[b|e]| | |] s1]; simpl in *; try done.
  - by apply Hf.
  - intros _. by apply (accounted_none P s1).
  - intros _. by apply (accounted_none P s1).
Qed.

Lemma hands_over_connect `{ES : !FtpEnvironmentSpec W} host port t :
  hands_over (on_world (Client_connect host port t)).
Proof.
  intros P [c w] HP _. unfold on_world, zoom. simpl.
  pose proof (environment_connects host port t w) as Hc. unfold wp in Hc.
  destruct (Client_connect host port t w) as [[[k|e]| | |] w1]; try done; simpl in *.
  - destruct Hc as (_ & _ & _ & Ho). intros x Hx.
    destruct (Ho x Hx) as [Hx'|[= <-]]; [|by left; right].
    destruct (HP x Hx') as [|]; [by left; left|by right].
  - destruct Hc as [_ Ho]. apply (accounted_none P (c, w1)). intros x Hx. destruct (Ho x Hx) as [Hx'|]; [|done].
    by apply HP.
Qed.

Lemma hands_over_data_connection `{ES : !FtpEnvironmentSpec W} fuel :
  hands_over (openDataConnection fuel).
Proof.
  apply hands_over_after; [apply keeps_ask|]. intros r.
  case_bool_decide; [|destruct (parsePasvResponse _) as [[ip port]|]].
  - intros P s HP _. by apply (accounted_none P s).
  - intros P s HP. by apply (hands_over_connect _ _ _ P s).
  - by intros P s HP.
Qed.

Lemma hands_over_open_transfer `{ES : !FtpEnvironmentSpec W} fuel dir :
  hands_over (open_transfer fuel dir).
Proof. apply hands_over_after; [apply keeps_navigate|intros; apply hands_over_data_connection]. Qed.

Lemma takes_over_reset {B} k (m : M fst_ B) : steps ftp_keeps m → takes_over k (reset_socket (Some k);; m).
Proof.
  intros Hm P s HP _. unfold mbind, M_bind. apply (reset_socket_accounted (Some k)) in HP.
  destruct (reset_socket (Some k) s) as [[[]| | |] s1]; [by apply Hm|exact HP..].
Qed.

Lemma keeps_connect `{ES : !FtpEnvironmentSpec W} fuel opts : settles ftp_keeps (ftp_connect fuel opts).
Proof.
  apply settles_bind; [apply _|by apply steps_settles, keeps_here|]. intros host.
  apply settles_bind; [apply _|by apply steps_settles, keeps_here|]. intros port.
  apply takes_over_keeps; [apply hands_over_connect|]. intros k. apply takes_over_reset.
  apply steps_bind; [apply _|apply keeps_on_control, socket_tame; constructor|]. intros [greeting out].
  pose proof (keeps_ask fuel). pose proof (keeps_login_step fuel).
  assert (∀ msg, steps ftp_keeps (parse_features msg)) by (intros; by apply keeps_modify). steps.
Qed.

(** ** Transfers *)

Lemma keeps_ctl {B} (m : M (fst_ (K := socket W) (W := W)) B) : steps ftp_keeps m → steps transfer_keeps (ctl m).
Proof. intros Hm. apply (steps_zoom _ ftp_keeps); [|done]. intros d s' Hs P HP. by apply Hs. Qed.

Lemma keeps_on_data {B} (m : Z → M (socket W * W) B) :
  (∀ t, steps tame (m t)) → steps transfer_keeps (on_data m).
Proof.
  intros Hm [[k|] [c w]] P HP; [|done]. unfold on_data. simpl. specialize (Hm (getDataTimeout c) (k, w)).
  destruct (m _ (k, w)) as [o [k' w']]. destruct Hm as [Hst Ho]. simpl in *.
  intros x Hx. unfold or_stream in *. simpl in *. rewrite Hst. destruct (Ho x Hx) as [Hx'|]; [|done].
  exact (HP x Hx').
Qed.

(** The data connection is closed when its pointer lets it go. *)
Lemma destroy_data_accounted P d :
  accounted (or_stream d.1 P) d.2 → accounted P (destroy_data d).2.2.
Proof.
  destruct d as [[k|] [c w]]; [|by apply accounted_none]. intros HP. unfold destroy_data. simpl.
  pose proof (socket_destroy_closes (k, w)) as Hd. unfold wp in Hd. simpl.
  destruct (socket_destroy (k, w)) as [[[]| | |] [k' w']]; try done.
  destruct Hd as ([_ Ho] & Hc & _). simpl in *. intros x Hx. simpl in *.
  destruct (Ho x Hx) as [Hx'|]; [|done]. destruct (HP x Hx') as [[?|[= <-]]|]; [by left|congruence|by right].
Qed.

Lemma destroy_data_none d : (destroy_data d).2.1 = None.
Proof.
  destruct d as [[k|] s]; [|done]. unfold destroy_data. simpl. by destruct (socket_destroy _) as [o []].
Qed.

Lemma keeps_destroy_data : steps transfer_keeps destroy_data.
Proof.
  intros d P HP. rewrite destroy_data_none. apply (accounted_none P (destroy_data d).2.2).
  by apply destroy_data_accounted.
Qed.

Lemma takes_over_with_data {B} k (body : M dst B) : steps transfer_keeps body → takes_over k (with_data k body).
Proof.
  intros Hb P s HP. unfold with_data. specialize (Hb (Some k, s) P HP).
  destruct (body (Some k, s)) as [[b|x| |] d]; simpl in *; [|..|done|done].
  - pose proof (destroy_data_accounted P d Hb) as Hd. by destruct (destroy_data d).
  - intros _. by apply destroy_data_accounted.
Qed.

Lemma keeps_begin_transfer fuel cmd : steps transfer_keeps (begin_transfer fuel cmd).
Proof.
  apply steps_bind_expected; [apply _|apply keeps_ctl, keeps_ask|]. intros r. steps.
Qed.

Lemma keeps_end_transfer fuel : steps transfer_keeps (end_transfer fuel).
Proof.
  apply steps_bind_expected; [apply _|apply keeps_ctl, keeps_receive_response|]. intros r. steps.
Qed.

Lemma keeps_callback {B} (m : M W B) : opens_nothing m → steps transfer_keeps (ctl (on_world m)).
Proof.
  intros Hm. apply keeps_ctl. apply (steps_zoom _ (only_opens None)); [|done].
  intros [c w] w' Ho P HP x Hx. destruct (Ho x Hx) as [Hx'|]; [|done]. by apply HP.
Qed.

Lemma keeps_read_chunks fuel callback buffer total :
  (∀ b, opens_nothing (callback b)) → steps transfer_keeps (read_chunks fuel callback buffer total).
Proof.
  intros Hc. revert buffer total.
  induction fuel as [|fuel IH]; intros buffer total; cbn [read_chunks]; [by apply steps_here; [apply _|]|].
  apply steps_bind; [apply _|apply keeps_on_data; intros; apply socket_tame; constructor|].
  pose proof (λ b, keeps_callback _ (Hc b)). intros [[r|e] out]; steps.
Qed.

Lemma keeps_write_chunks fuel next total :
  opens_nothing next → steps transfer_keeps (write_chunks fuel next total).
Proof.
  intros Hc. revert total.
  induction fuel as [|fuel IH]; intros total; cbn [write_chunks]; [by apply steps_here; [apply _|]|].
  pose proof (keeps_callback _ Hc).
  assert (∀ chunk, steps transfer_keeps (on_data (λ t, writeAll Sync chunk (Some t)))).
  { intros chunk. apply keeps_on_data. intros. apply socket_tame. constructor. }
  steps.
Qed.

(** Whatever an operation does, and whatever comes of it, the client's own connection is
    all that it leaves behind. *)
Lemma keeps_ftp_call `{ES : !FtpEnvironmentSpec W} fuel B (m : M fst_ B) :
  ftp_call fuel B m → settles ftp_keeps m.
Proof.
  assert (∀ t, steps tame (receiveRawResponse fuel t)) as Hraw by (intros; apply tame_raw_loop).
  assert (∀ data, steps transfer_keeps (on_data (λ t, writeAll Sync data (Some t)))) as Hwrite.
  { intros data. apply keeps_on_data. intros. apply socket_tame. constructor. }
  pose proof (keeps_on_data _ Hraw). pose proof (keeps_begin_transfer fuel).
  pose proof (keeps_end_transfer fuel). pose proof keeps_destroy_data.
  pose proof (keeps_ctl _ (keeps_receive_response fuel)).
  intros []; try (apply takes_over_keeps; [apply hands_over_open_transfer|];
    intros k; apply takes_over_with_data).
  - apply keeps_connect.
  - steps.
  - apply steps_settles, keeps_createDir.
  - apply steps_settles, keeps_exists.
  - apply steps_settles, keeps_remove.
  - apply steps_settles, keeps_isDirectory.
  - steps.
  - pose proof (λ b t, keeps_read_chunks fuel callback b t ltac:(assumption)). steps.
  - steps.
  - pose proof (λ t, keeps_write_chunks fuel next t ltac:(assumption)). steps.
Qed.

Lemma keeps_ftp_program `{ES : !FtpEnvironmentSpec W} fuel B (m : M fst_ B) :
  ftp_program fuel B m → settles ftp_keeps m.
Proof.
  induction 1 as [B m Hm|B m Hm|B C m k _ IHm _ IHk].
  - by apply steps_settles, keeps_here.
  - by eapply keeps_ftp_call.
  - by apply settles_bind; [apply _|..].
Qed.

(** A client that goes takes its connection with it. *)
Lemma client_destroyed P s : accounted P s →
  ∃ c w, FtpFileTransfer_destroy s = (Done tt, (c, w)) ∧ ∀ x, is_open x w = true → P x.
Proof.
  intros HP. pose proof (keeps_reset_socket s P HP) as Hk. unfold FtpFileTransfer_destroy in *.
  assert (∃ c w, reset_socket None s = (Done tt, (c, w)) ∧ f_socket c = None) as (c & w & E & Hc).
  { destruct s as [c w]. unfold reset_socket. simpl. destruct (f_socket c) as [k|]; [|by eexists _, _].
    pose proof (socket_destroy_closes (k, w)) as Hd. unfold wp in Hd.
    destruct (socket_destroy (k, w)) as [[[]| | |] [k' w']]; try done. by eexists _, _. }
  rewrite E in Hk |- *. exists c, w. split; [done|]. intros x Hx. destruct (Hk x Hx) as [|Hx']; [done|].
  simpl in Hx'. by rewrite Hc in Hx'.
Qed.

(** What the factory gives has no open stream but its own. *)
Lemma open_connection_accounted `{ES : !FtpEnvironmentSpec W} fuel host port opts w :
  match openFtpConnection fuel host port opts w with
  | (Done (Ok c), w1) => accounted (λ x, is_open x w = true) (c, w1)
  | (Done (Unexpected _), w1) | (Throw _, w1) => only_opens None w w1
  | (Undef, _) | (NoFuel, _) => True
  end.
Proof.
  unfold openFtpConnection. set (P := λ x, is_open x w = true).
  assert (accounted P (FtpFileTransfer_new host port, w)) as H0 by by left.
  pose proof (keeps_connect fuel opts (FtpFileTransfer_new host port, w)) as Hc.
  destruct (ftp_connect _ _ _) as [[[[]|e]|x| |] [c w1]]; try done; specialize (Hc eq_refl P H0); [done|..].
  all: simpl in Hc; destruct (client_destroyed P _ Hc) as (c' & w' & -> & Hw); intros y Hy; left; by apply Hw.
Qed.
End ownership.

(** ** Correctness *)

(** C6: whatever a program does with an FTP client leaves nothing open: operations in any
    order, each depending on the results of those before, connecting again, transfers
    that fail half-way, callbacks that throw, and whatever the server answers. When the
    block that owns the client is over, because it returned or because something threw,
    no stream is open that was not open before; and when the connection could not be
    opened there is no client and nothing is left of the attempt. *)
Theorem ftp_session_leaves_nothing_open {W B : Type} `{Q : AsioQuiet W}
    `{AC : !AsioConnect W} `{SI : !SocketIds W} `{CS : !AsioConnectSpec W}
    `{Sys : !SystemEnvironment W} `{Clk : Clock} n fuel host port opts
    (body : M (fst_ (K := socket W) (W := W)) B) (w : W) :
  let D := socket_DualSocket n in
  let run := with_ftp_client fuel host port opts body w in
  ftp_program fuel B body → returns_or_throws run.1 = true → only_opens None w run.2.
Proof.
  intros D run Hb. unfold run, with_ftp_client, D in *. clear run D.
  pose proof (open_connection_accounted n fuel host port opts w) as Ho.
  destruct (openFtpConnection _ _ _ _ w) as [[[c|e]|x| |] w1]; try done.
  pose proof (keeps_ftp_program n fuel B body Hb (c, w1)) as Hk.
  destruct (body (c, w1)) as [o s] eqn:E.
  destruct (returns_or_throws o) eqn:Hr; [|by destruct o].
  destruct (client_destroyed n _ s (Hk Hr _ Ho)) as (c' & w' & -> & Hw). simpl.
  intros _ x Hx. left. by apply Hw.
Qed.

(** ** A concrete session

    One line carries both connections. *)
#[export] Instance dial_SystemEnvironment : SystemEnvironment dial_net :=
  {| sys_address_to_string _ := txt "127.0.0.1"; sys_clock_now _ := 0 |}.

#[local] Instance any_clock : Clock := {| current_year := 2024; mktime _ := 0 |}.

(** The server greets, takes the login, has no features, and opens a data connection; the
    transfer breaks off before the server confirms it. *)
Definition ftp_line : dial_net :=
  dn_set_line (MemNet (lines_text [txt "220 hello"; txt "331 password"; txt "230 welcome"; txt "500 what";
    txt "227 Entering Passive Mode (127,0,0,1,200,10)"; txt "150 opening"; txt "the text"]) [] 100 true false)
    (sample_dial true).

(** A program that reads a file, and looks for it when it cannot be read. *)
Definition look_for (fuel : nat) (p : path)
    : M (fst_ (K := socket dial_net) (W := dial_net)) (result bytes * bool) :=
  let D := socket_DualSocket fuel in
  r ← ftp_read fuel p;
  match r with
  | Ok _ => mret (r, true)
  | Unexpected _ => _ ← ftp_exists fuel p; alive ← gets isAlive; mret (r, alive)
  end.

Lemma look_for_program fuel p :
  ftp_program (DS := socket_DualSocket fuel) fuel _ (look_for fuel p).
Proof.
  apply program_bind; [by apply program_call, call_read|]. intros [b|e]; [by apply program_here|].
  apply program_bind; [by apply program_call, call_exists|]. intros r.
  apply program_bind; [by apply program_here|]. intros alive. by apply program_here.
Defined.

Lemma ftp_session_leaves_nothing_open_witness :
  let D := socket_DualSocket 200 in
  let body := look_for 200 (path_of_string (txt "/readme")) in
  let run := with_ftp_client 200 (txt "localhost") 21 default_options body ftp_line in
  run.1 = Done (Ok (Unexpected (linux_asio_error eof), true)) ∧
  ftp_program 200 _ body ∧ returns_or_throws run.1 = true ∧ only_opens None ftp_line run.2.
Proof.
  intros D body run.
  assert (run.1 = Done (Ok (Unexpected (linux_asio_error eof), true))) as E by by vm_compute.
  assert (ftp_program 200 _ body) as Hb by exact (look_for_program 200 _).
  assert (returns_or_throws run.1 = true) as Hr by by rewrite E.
  split_and!; [exact E|exact Hb|exact Hr|].
  exact (ftp_session_leaves_nothing_open 200 200 (txt "localhost") 21 default_options body ftp_line Hb Hr).
Defined.
