(* ===== verification/FtpFiles.v ===== *)
(** Changing the files of a server with the FTP client: [createDir] and [remove] on a
    server that follows RFC 959 (MKD, RMD and DELE), and the interface
    [IAbstractFileTransfer] with the contract that the FTP client fulfils. *)

From S2P Require Import Prelude ErrorCodes SocketBase FileTree FsPath FtpUtils FtpParse FileTransfer.
From S2P Require Import FtpFileTransfer FtpSession.

(** ** A server whose files can be changed

    A directory is made where there is nothing, a file is deleted, and a directory is
    removed when nothing is in it; everything else is refused and changes nothing. *)
Class WritableServer (K W : Type) `{DualSocket K W} (fuel : nat) `{FS : !FileServer K W fuel} := {
  fs_mkd s n :
    fs_online s → plain_name n → fs_entry s (fs_cwd s) = Some Directory →
    wp (ask fuel (txt "MKD " ++ n)) (λ r s', ∃ a, r = Ok a ∧ fs_online s' ∧ fs_cwd s' = fs_cwd s ∧
      if bool_decide (fs_entry s (fs_cwd s ++ [n]) = None)
      then code a = 257 ∧ ∀ l, fs_entry s' l =
        if bool_decide (l = fs_cwd s ++ [n]) then Some Directory else fs_entry s l
      else code a = 550 ∧ ∀ l, fs_entry s' l = fs_entry s l) s;
  fs_dele s n :
    fs_online s → plain_name n → fs_entry s (fs_cwd s) = Some Directory →
    wp (ask fuel (txt "DELE " ++ n)) (λ r s', ∃ a, r = Ok a ∧ fs_online s' ∧ fs_cwd s' = fs_cwd s ∧
      if bool_decide (fs_kind s (fs_cwd s ++ [n]) = Some false)
      then code a = 250 ∧ ∀ l, fs_entry s' l =
        if bool_decide (l = fs_cwd s ++ [n]) then None else fs_entry s l
      else code a = 550 ∧ ∀ l, fs_entry s' l = fs_entry s l) s;
  fs_rmd s n :
    fs_online s → plain_name n → fs_entry s (fs_cwd s ++ [n]) = Some Directory →
    wp (ask fuel (txt "RMD " ++ n)) (λ r s', ∃ a, r = Ok a ∧ fs_online s' ∧ fs_cwd s' = fs_cwd s ∧
      ((∀ x, fs_entry s ((fs_cwd s ++ [n]) ++ [x]) = None) ∧ code a = 250 ∧ (∀ l, fs_entry s' l =
         if bool_decide (l = fs_cwd s ++ [n]) then None else fs_entry s l) ∨
       (∃ x, fs_entry s ((fs_cwd s ++ [n]) ++ [x]) ≠ None) ∧ code a = 550 ∧
         ∀ l, fs_entry s' l = fs_entry s l)) s
}.

Section changes.
Context {K W : Type} `{DualSocket K W} {fuel : nat} `{FS : !FileServer K W fuel}.
Context `{WS : !WritableServer K W fuel}.
Implicit Types s : fst_ (K := K) (W := W).

(** The server after a change: it has [k] at [l], and everything else as before. *)
Definition changed (l : list bytes) (k : option entry) s s' : Prop :=
  fs_online s' ∧ (∀ l', fs_entry s' l' = if bool_decide (l' = l) then k else fs_entry s l') ∧
  f_capabilities s'.1 = f_capabilities s.1.

Lemma unchanged_changed l k s s' s'' : unchanged s s' → changed l k s' s'' → changed l k s s''.
Proof.
  intros (_ & Hk & Hc) (Hon & Hk' & Hc'). split_and!; [done| |congruence].
  intros l'. by rewrite Hk', Hk.
Qed.

(** The name of a file that does not end with a separator. *)
Lemma get_last_component_plain dir n :
  plain_name n → get_last_component (plain_path (dir ++ [n])) = n.
Proof.
  intros Hn. unfold get_last_component. destruct (plain_name_path dir n Hn) as [-> _].
  rewrite bool_decide_false; [done|]. by destruct Hn.
Qed.

Lemma in_sync_changed s s' names l k :
  in_sync s names → changed l k s s' → f_current s'.1 = f_current s.1 → fs_cwd s' = fs_cwd s →
  names ≠ l → in_sync s' names.
Proof.
  intros (Hon & Hcur & Hcwd & Hn & Hk) (Hon' & Hk' & _) Hc Hw Hne.
  unfold in_sync. rewrite Hk', Hc, Hw, bool_decide_false by done. by split_and!.
Qed.

Lemma snoc_ne {A} (l : list A) x : l ≠ l ++ [x].
Proof. intros E. apply (f_equal length) in E. rewrite length_app in E. simpl in E. lia. Qed.

(** ** Making a directory *)

Lemma mkd_outcome s dir n :
  in_sync s dir → plain_name n →
  wp (r ←? ask fuel (txt "MKD " ++ n);
      if bool_decide (code r ≠ 257) then fail PROTOCOL_ERROR else mret (Ok tt))
    (λ r s', in_sync s' dir ∧
      if bool_decide (fs_entry s (dir ++ [n]) = None)
      then r = Ok tt ∧ changed (dir ++ [n]) (Some Directory) s s'
      else r = Unexpected (make_error_code PROTOCOL_ERROR) ∧ unchanged s s') s.
Proof.
  intros Hs Hn. wp_step. destruct (Hs) as (Hon & Hcur & Hcwd & _ & Hdir).
  eapply wp_mono; [apply ask_wp, fs_mkd; [done|done|by rewrite Hcwd]|].
  intros r s' ((a & -> & Hon' & Hcwd' & Ha) & Hcur' & Hcaps). cbn beta iota. rewrite Hcwd in Ha.
  destruct (bool_decide (fs_entry s (dir ++ [n]) = None)); destruct Ha as [-> Hk]; simpl;
    unfold fail; wp_steps.
  - assert (changed (dir ++ [n]) (Some Directory) s s') as Hc by by split_and!.
    split; [|done]. eapply in_sync_changed; [done|done|done|done|apply snoc_ne].
  - assert (unchanged s s') as Hu by by split_and!.
    split; [|done]. by eapply in_sync_next.
Qed.

(** ** Removing *)

Lemma dele_outcome s dir n :
  in_sync s dir → plain_name n → fs_kind s (dir ++ [n]) = Some false →
  wp (r ←? ask fuel (txt "DELE" ++ txt " " ++ n);
      if bool_decide (code r ≠ 250) then fail PROTOCOL_ERROR else mret (Ok tt))
    (λ r s', in_sync s' dir ∧ r = Ok tt ∧ changed (dir ++ [n]) None s s') s.
Proof.
  intros Hs Hn Hk. wp_step. destruct (Hs) as (Hon & Hcur & Hcwd & _ & Hdir).
  eapply wp_mono; [apply ask_wp, fs_dele; [done|done|by rewrite Hcwd]|].
  intros r s' ((a & -> & Hon' & Hcwd' & Ha) & Hcur' & Hcaps). cbn beta iota.
  rewrite Hcwd, bool_decide_true in Ha by done. destruct Ha as [-> Hk']. simpl. wp_steps.
  assert (changed (dir ++ [n]) None s s') as Hc by by split_and!.
  split_and!; [|done|done]. eapply in_sync_changed; [done|done|done|done|apply snoc_ne].
Qed.

Lemma rmd_outcome s dir n :
  in_sync s dir → plain_name n → fs_entry s (dir ++ [n]) = Some Directory →
  wp (r ←? ask fuel (txt "RMD" ++ txt " " ++ n);
      if bool_decide (code r ≠ 250) then fail PROTOCOL_ERROR else mret (Ok tt))
    (λ r s', in_sync s' dir ∧
      ((∀ x, fs_entry s ((dir ++ [n]) ++ [x]) = None) ∧ r = Ok tt ∧ changed (dir ++ [n]) None s s' ∨
       (∃ x, fs_entry s ((dir ++ [n]) ++ [x]) ≠ None) ∧
         r = Unexpected (make_error_code PROTOCOL_ERROR) ∧ unchanged s s')) s.
Proof.
  intros Hs Hn Hk. wp_step. destruct (Hs) as (Hon & Hcur & Hcwd & _ & Hdir).
  eapply wp_mono; [apply ask_wp, fs_rmd; [done|done|by rewrite Hcwd]|].
  intros r s' ((a & -> & Hon' & Hcwd' & Ha) & Hcur' & Hcaps). cbn beta iota. rewrite Hcwd in Ha.
  destruct Ha as [(Hx & -> & Hk')|(Hx & -> & Hk')]; simpl; unfold fail; wp_steps.
  - assert (changed (dir ++ [n]) None s s') as Hc by by split_and!.
    split; [|by left]. eapply in_sync_changed; [done|done|done|done|apply snoc_ne].
  - assert (unchanged s s') as Hu by by split_and!.
    split; [by eapply in_sync_next|by right].
Qed.
End changes.

Section operations.
Context {K W : Type} `{DualSocket K W} {fuel : nat} `{FS : !FileServer K W fuel}.
Context `{WS : !WritableServer K W fuel}.
Implicit Types s : fst_ (K := K) (W := W).

(** Whether the client can tell a file from nothing. *)
Definition sees_files s : bool := cap_mlst (f_capabilities s.1) || cap_size (f_capabilities s.1).

Lemma unchanged_sees s s' : unchanged s s' → sees_files s' = sees_files s.
Proof. intros (_ & _ & Hc). unfold sees_files. by rewrite Hc. Qed.

Lemma in_sync_plain s names : in_sync s names → Forall plain_name names.
Proof. by intros (_ & _ & _ & Hn & _). Qed.

(** Going to a directory where the client already is. *)
Lemma navigate_again s dir :
  in_sync s dir → wp (navigate fuel (plain_path dir)) (λ r s', unchanged s s' ∧ r = Ok tt ∧ in_sync s' dir) s.
Proof.
  intros Hs. eapply wp_mono; [by eapply navigate_outcome, in_sync_plain|].
  intros r s' (Hu & Hr). destruct (Hs) as (_ & _ & _ & _ & Hk). by rewrite bool_decide_true in Hr.
Qed.

Lemma createDir_outcome s names dir n :
  in_sync s names → Forall plain_name dir → plain_name n →
  wp (createDir fuel (plain_path (dir ++ [n]))) (λ r s',
    if bool_decide (fs_entry s dir = Some Directory) then
      in_sync s' dir ∧
      match fs_entry s (dir ++ [n]) with
      | None => r = Ok tt ∧ changed (dir ++ [n]) (Some Directory) s s'
      | Some e => unchanged s s' ∧
          r = if is_dir e || sees_files s then Ok tt else Unexpected (make_error_code PROTOCOL_ERROR)
      end
    else r = Unexpected (make_error_code PROTOCOL_ERROR) ∧ unchanged s s') s.
Proof.
  intros Hs Hdir Hn. unfold createDir. wp_step.
  eapply wp_mono; [by eapply ftp_exists_outcome|]. intros r s1 (Hu1 & Hr1). cbn beta.
  destruct (bool_decide (fs_entry s dir = Some Directory)); [destruct Hr1 as [Hs1 ->]|by subst r].
  fold (sees_files s). destruct (if sees_files s then _ else _) eqn:Hb; wp_steps.
  - split; [done|]. destruct (fs_entry s (dir ++ [n])) as [[]|] eqn:Hk; [by split| |by destruct (sees_files s)].
    by destruct (sees_files s).
  - destruct (plain_name_path dir n Hn) as [_ ->]. rewrite get_last_component_plain by done.
    eapply wp_mono; [by apply navigate_again|]. intros r s2 (Hu2 & -> & Hs2). cbn beta iota.
    assert (unchanged s s2) as Hu by by eapply unchanged_trans.
    eapply wp_mono; [by apply mkd_outcome|]. intros r s3 (Hs3 & Hr3). split; [done|].
    destruct (Hu) as (_ & Hk2 & _). rewrite Hk2 in Hr3.
    destruct (fs_entry s (dir ++ [n])) as [[]|] eqn:Hk.
    + by destruct (sees_files s).
    + rewrite bool_decide_false in Hr3 by done. destruct Hr3 as [-> Hu3].
      split; [by eapply unchanged_trans|]. by destruct (sees_files s).
    + rewrite bool_decide_true in Hr3 by done. destruct Hr3 as [-> Hc3].
      split; [done|]. by eapply unchanged_changed.
Qed.

Lemma remove_outcome s names dir n :
  in_sync s names → Forall plain_name dir → plain_name n →
  wp (ftp_remove fuel (plain_path (dir ++ [n]))) (λ r s',
    match fs_entry s (dir ++ [n]) with
    | None => r = Unexpected (make_error_code PROTOCOL_ERROR) ∧ unchanged s s'
    | Some (File _) => in_sync s' dir ∧
        if sees_files s then r = Ok tt ∧ changed (dir ++ [n]) None s s'
        else r = Unexpected (make_error_code PROTOCOL_ERROR) ∧ unchanged s s'
    | Some Directory => in_sync s' dir ∧
        ((∀ x, fs_entry s ((dir ++ [n]) ++ [x]) = None) ∧ r = Ok tt ∧ changed (dir ++ [n]) None s s' ∨
         (∃ x, fs_entry s ((dir ++ [n]) ++ [x]) ≠ None) ∧
           r = Unexpected (make_error_code PROTOCOL_ERROR) ∧ unchanged s s')
    end) s.
Proof.
  intros Hs Hdir Hn. unfold ftp_remove. wp_step.
  eapply wp_mono; [by eapply isDirectory_outcome|]. intros r s1 (Hu1 & Hs1 & ->). cbn beta.
  fold (sees_files s). destruct (plain_name_path dir n Hn) as [-> ->].
  destruct (Hu1) as (_ & Hk1 & _).
  destruct (fs_entry s (dir ++ [n])) as [k|] eqn:Hk; [|done].
  specialize (Hs1 (fs_parent s dir n ltac:(by rewrite Hk))).
  destruct k; [|destruct (sees_files s) eqn:Hsee; [|done]]; cbn beta iota.
  - wp_step. eapply wp_mono; [by apply navigate_again|]. intros r s2 (Hu2 & -> & Hs2). cbn beta iota.
    assert (unchanged s s2) as Hu by by eapply unchanged_trans. destruct (Hu) as (_ & Hk2 & _).
    eapply wp_mono; [apply rmd_outcome; [done|done|by rewrite Hk2]|].
    intros r s3 (Hs3 & [(Hx & -> & Hc3)|((x & Hx) & -> & Hu3)]); (split; [done|]).
    + left. split_and!; [by intros x; rewrite <- Hk2|done|by eapply unchanged_changed].
    + right. split_and!; [exists x; by rewrite <- Hk2|done|by eapply unchanged_trans].
  - wp_step. eapply wp_mono; [by apply navigate_again|]. intros r s2 (Hu2 & -> & Hs2). cbn beta iota.
    assert (unchanged s s2) as Hu by by eapply unchanged_trans. destruct (Hu) as (_ & Hk2 & _).
    eapply wp_mono; [apply dele_outcome; [done|done|by rewrite Hk2, Hk]|].
    intros r s3 (Hs3 & -> & Hc3). split_and!; [done|done|by eapply unchanged_changed].
Qed.
End operations.

(** ** The contract of [IAbstractFileTransfer] *)

Section interface.
Context {K W : Type} `{DualSocket K W} `{AE : AsioErrors} `{Env : !FtpEnvironment K W} `{Clk : Clock}.
Variable fuel : nat.

#[export] Instance ftp_AbstractFileTransfer : AbstractFileTransfer (fst_ (K := K) (W := W)) W := {|
  ft_isAlive := isAlive;
  ft_list := ftp_list fuel;
  ft_createDir := createDir fuel;
  ft_exists := ftp_exists fuel;
  ft_remove := ftp_remove fuel;
  ft_read := ftp_read fuel;
  ft_read_cb := ftp_read_cb fuel;
  ft_write := ftp_write fuel;
  ft_write_cb := ftp_write_cb fuel;
  ft_isDirectory := isDirectory fuel
|}.
End interface.

Section contract.
Context {K W : Type} `{DualSocket K W} `{AE : AsioErrors} `{Env : !FtpEnvironment K W} `{Clk : Clock}.
Context {fuel : nat} `{FS : !FileServer K W fuel} `{WS : !WritableServer K W fuel}.
Implicit Types s : fst_ (K := K) (W := W).

#[local] Existing Instance ftp_AbstractFileTransfer | 0.

(** A client that knows where it is and can tell files from nothing. *)
Definition ftp_ready s : Prop := (∃ names, in_sync s names) ∧ sees_files s = true.

Lemma ready_next s s' dir : in_sync s' dir → f_capabilities s'.1 = f_capabilities s.1 →
  sees_files s = true → ftp_ready s'.
Proof. intros Hs Hc Hsee. split; [by exists dir|]. unfold sees_files. by rewrite Hc. Qed.

(** The FTP client keeps the promises of the interface, on a server that keeps its own. *)
#[export] Program Instance ftp_FileTransferSpec :
  @FileTransferSpec (fst_ (K := K) (W := W)) W (ftp_AbstractFileTransfer fuel) :=
  {| ft_ready := ftp_ready; ft_entry := fs_entry |}.
Next Obligation. intros s l x. apply fs_parent. Qed.
Next Obligation.
  intros s dir n ([names Hs] & Hsee) Hdir Hn Hk.
  eapply wp_mono; [by eapply ftp_exists_outcome|]. intros r s' ((Hon & Hk' & Hc) & Hr).
  rewrite bool_decide_true in Hr by done. destruct Hr as [Hs' ->]. fold (sees_files s).
  rewrite Hsee. split_and!; [by eapply ready_next|done|done].
Qed.
Next Obligation.
  intros s dir n is_dir ([names Hs] & Hsee) Hdir Hn Hk.
  eapply wp_mono; [by eapply isDirectory_outcome|]. intros r s' ((Hon & Hk' & Hc) & Hs' & ->).
  fold (sees_files s). rewrite Hsee, Hk.
  assert (in_sync s' dir) as Hs1 by (apply Hs', (fs_parent s dir n); by rewrite Hk).
  split_and!; [by eapply ready_next|done|by destruct is_dir].
Qed.
Next Obligation.
  intros s dir n ([names Hs] & Hsee) Hdir Hn Hk.
  eapply wp_mono; [by eapply createDir_outcome|]. intros r s' Hr.
  rewrite bool_decide_true in Hr by done. destruct Hr as [Hs' Hr].
  destruct (fs_entry s (dir ++ [n])) as [k|] eqn:Hkn.
  - destruct Hr as ((_ & Hk' & Hc) & ->). rewrite Hsee, orb_true_r.
    split_and!; [by eapply ready_next|done|]. intros l. rewrite Hk'. case_bool_decide; [|done].
    subst. by rewrite Hkn.
  - destruct Hr as (-> & _ & Hk' & Hc). split_and!; [by eapply ready_next|done|].
    intros l. rewrite Hk'. case_bool_decide; [|done]. subst. by rewrite Hkn.
Qed.
Next Obligation.
  intros s dir n ([names Hs] & Hsee) Hdir Hn Hk Hx.
  eapply wp_mono; [by eapply remove_outcome|]. intros r s' Hr.
  destruct (fs_entry s (dir ++ [n])) as [[]|]; [| |done].
  - destruct Hr as [Hs' [(_ & -> & _ & Hk' & Hc)|((x & Hx') & _)]]; [|by destruct Hx'].
    split_and!; [by eapply ready_next|done|done].
  - destruct Hr as [Hs' Hr]. rewrite Hsee in Hr. destruct Hr as (-> & _ & Hk' & Hc).
    split_and!; [by eapply ready_next|done|done].
Qed.
End contract.

(** ** Correctness *)

(** C25: on a server that keeps its promises, with the navigator in step, [createDir] of an
    absolute path of plain names makes the directory and changes nothing else; it
    succeeds without a change when the path is a directory already, and also when it is a
    file, if the client can see files; in a missing directory it fails and changes
    nothing. With a separator at the end of the path it only claims to: it succeeds
    without sending anything, whatever is there. *)
Theorem createDir_correct {K W : Type} `{DualSocket K W} {fuel} `{FS : !FileServer K W fuel}
    `{WS : !WritableServer K W fuel} s names dir n :
  in_sync s names → Forall plain_name dir → plain_name n →
  wp (createDir fuel (plain_path (dir ++ [n]))) (λ r s',
    if bool_decide (fs_entry s dir = Some Directory) then
      in_sync s' dir ∧
      match fs_entry s (dir ++ [n]) with
      | None => r = Ok tt ∧ changed (dir ++ [n]) (Some Directory) s s'
      | Some e => unchanged s s' ∧
          r = if is_dir e || sees_files s then Ok tt else Unexpected (make_error_code PROTOCOL_ERROR)
      end
    else r = Unexpected (make_error_code PROTOCOL_ERROR) ∧ unchanged s s') s ∧
  createDir fuel (trailing_path (dir ++ [n])) s = (Done (Ok tt), s).
Proof. intros Hs Hd Hn. split; [by eapply createDir_outcome|done]. Qed.

(** C26: on such a server [remove] of an absolute path of plain names, without a separator
    at its end, deletes a file, if the client can see files, and removes a directory
    exactly when it is empty; everything else fails, and changes nothing. *)
Theorem remove_correct {K W : Type} `{DualSocket K W} {fuel} `{FS : !FileServer K W fuel}
    `{WS : !WritableServer K W fuel} s names dir n :
  in_sync s names → Forall plain_name dir → plain_name n →
  wp (ftp_remove fuel (plain_path (dir ++ [n]))) (λ r s',
    match fs_entry s (dir ++ [n]) with
    | None => r = Unexpected (make_error_code PROTOCOL_ERROR) ∧ unchanged s s'
    | Some (File _) => in_sync s' dir ∧
        if sees_files s then r = Ok tt ∧ changed (dir ++ [n]) None s s'
        else r = Unexpected (make_error_code PROTOCOL_ERROR) ∧ unchanged s s'
    | Some Directory => in_sync s' dir ∧
        ((∀ x, fs_entry s ((dir ++ [n]) ++ [x]) = None) ∧ r = Ok tt ∧ changed (dir ++ [n]) None s s' ∨
         (∃ x, fs_entry s ((dir ++ [n]) ++ [x]) ≠ None) ∧
           r = Unexpected (make_error_code PROTOCOL_ERROR) ∧ unchanged s s')
    end) s.
Proof. apply remove_outcome. Qed.

(** Used through the interface [IAbstractFileTransfer], the FTP client keeps its
    contract: a directory that is made exists, is a directory, can be made again
    without harm, and is gone when it is removed, and the files are as before. *)
Theorem directory_round_trip {K W : Type} `{DualSocket K W} `{AE : AsioErrors}
    `{Env : !FtpEnvironment K W} `{Clk : Clock} {fuel} `{FS : !FileServer K W fuel}
    `{WS : !WritableServer K W fuel} (s : fst_ (K := K) (W := W)) dir n :
  ftp_ready s → Forall plain_name dir → plain_name n → fs_entry s dir = Some Directory →
  fs_entry s (dir ++ [n]) = None →
  wp (@directory_session _ W (ftp_AbstractFileTransfer fuel) (plain_path (dir ++ [n])))
    (λ r s', ftp_ready s' ∧
      r = ([Ok false; Ok true; Ok true; Ok false], [Ok tt; Ok tt; Ok tt]) ∧
      ∀ l, fs_entry s' l = fs_entry s l) s.
Proof.
  intros Hs Hd Hn Hk Hnone.
  exact (@directory_session_correct _ W _ (ftp_FileTransferSpec (fuel := fuel)) s dir n Hd Hn Hk Hs Hnone).
Qed.
