(* ===== verification/FtpStore.v ===== *)
(** The contents of files: reading and writing whole files on a server that follows RFC
    959 (PASV, RETR and STOR with a data connection), and the contract of a file store
    that the FTP client fulfils through IAbstractFileTransfer. *)

From S2P Require Import Prelude ErrorCodes SocketBase FileTree FsPath FtpUtils FtpParse FileTransfer.
From S2P Require Import FtpFileTransfer FtpSession FtpFiles.

(** ** A server with data connections *)

Section keeps.
Context {K W : Type} `{FileServer K W}.
Implicit Types s : fst_ (K := K) (W := W).

(** The server has the same working directory and the same files, but for the one at [x]. *)
Definition fs_keeps (x : option (list bytes)) s s' : Prop :=
  fs_cwd s' = fs_cwd s ∧ ∀ l, x ≠ Some l → fs_entry s' l = fs_entry s l.

#[export] Instance fs_keeps_preorder x : PreOrder (fs_keeps x).
Proof.
  split; [by intros s|]. intros s1 s2 s3 [Hc1 Hl1] [Hc2 Hl2]. split; [congruence|].
  intros l Hx. by rewrite Hl2, Hl1.
Qed.
End keeps.

(** The phases of a data connection [k]: opened and waiting for a command ([fs_data]); a
    download of which [c] is still to come ([fs_sending]), and its end ([fs_sent]); an
    upload to [l] of which [b] has arrived ([fs_taking]), and its end ([fs_stored]); and
    of no more use ([fs_over]). The response 226 follows the end of either. *)
Class TransferServer (K W : Type) `{DualSocket K W} (fuel : nat) `{FS : !FileServer K W fuel}
    `{AE : AsioErrors} `{Env : !FtpEnvironment K W} := {
  fs_passive : Z → Z → fst_ (K := K) (W := W) → Prop;
  fs_data : K → fst_ (K := K) (W := W) → Prop;
  fs_sending : K → bytes → fst_ (K := K) (W := W) → Prop;
  fs_sent : K → fst_ (K := K) (W := W) → Prop;
  fs_taking : K → list bytes → bytes → fst_ (K := K) (W := W) → Prop;
  fs_stored : list bytes → bytes → fst_ (K := K) (W := W) → Prop;
  fs_over : K → fst_ (K := K) (W := W) → Prop;
  fs_pasv s :
    fs_online s →
    wp (ask fuel (txt "PASV")) (λ r s', ∃ a ip port, r = Ok a ∧ code a = 227 ∧
      parsePasvResponse (full_msg a) = Some (ip, port) ∧ fs_passive ip port s' ∧
      fs_online s' ∧ fs_keeps None s s') s;
  fs_connect ip port t s :
    fs_passive ip port s → fs_online s →
    wp (Client_connect (address_to_string ip) port t) (λ r w', ∃ k, r = Ok k ∧
      fs_data k (s.1, w') ∧ fs_online (s.1, w') ∧ fs_keeps None s (s.1, w')) s.2;
  fs_retr k s n :
    fs_data k s → fs_online s → plain_name n →
    wp (ask fuel (txt "RETR " ++ n)) (λ r s', ∃ a, r = Ok a ∧ fs_keeps None s s' ∧
      match fs_content s (fs_cwd s ++ [n]) with
      | Some c => code a = 150 ∧ fs_sending k c s'
      | None => code a = 550 ∧ fs_data k s' ∧ fs_online s'
      end) s;
  fs_stor k s n :
    fs_data k s → fs_online s → plain_name n → fs_entry s (fs_cwd s) = Some Directory →
    wp (ask fuel (txt "STOR " ++ n)) (λ r s', ∃ a, r = Ok a ∧
      if bool_decide (fs_entry s (fs_cwd s ++ [n]) = Some Directory)
      then code a = 550 ∧ fs_data k s' ∧ fs_online s' ∧ fs_keeps None s s'
      else code a = 150 ∧ fs_taking k (fs_cwd s ++ [n]) [] s' ∧
        fs_keeps (Some (fs_cwd s ++ [n])) s s') s;
  fs_chunk k c s out t :
    fs_sending k c s → out ≠ [] →
    wp (readSome Sync out t) (λ ro kw, fs_keeps None s (s.1, kw.2) ∧ length ro.2 = length out ∧
      if bool_decide (c = [])
      then ro.1 = Unexpected (asio_error eof) ∧ fs_sent kw.1 (s.1, kw.2)
      else ∃ n, ro.1 = Ok n ∧ (0 < n ≤ length c)%nat ∧ take n ro.2 = take n c ∧
        fs_sending kw.1 (drop n c) (s.1, kw.2)) (k, s.2);
  fs_confirm_sent k s :
    fs_sent k s →
    wp (receive_response fuel) (λ r s', ∃ a, r = Ok a ∧ code a = 226 ∧ fs_over k s' ∧
      fs_keeps None s s') s;
  fs_accept k l b s data t :
    fs_taking k l b s →
    wp (writeAll Sync data t) (λ r kw, r = Ok (length data) ∧
      fs_taking kw.1 l (b ++ data) (s.1, kw.2) ∧ fs_keeps (Some l) s (s.1, kw.2)) (k, s.2);
  fs_close_taking k l b s :
    fs_taking k l b s →
    wp destroySocket (λ _ kw, fs_stored l b (s.1, kw.2) ∧ fs_keeps (Some l) s (s.1, kw.2)) (k, s.2);
  fs_confirm_stored l b s :
    fs_stored l b s →
    wp (receive_response fuel) (λ r s', ∃ a, r = Ok a ∧ code a = 226 ∧ fs_online s' ∧
      fs_entry s' l = Some (File b) ∧ fs_keeps (Some l) s s') s;
  fs_close k s :
    fs_data k s ∧ fs_online s ∨ fs_over k s →
    wp destroySocket (λ _ kw, fs_online (s.1, kw.2) ∧ fs_keeps None s (s.1, kw.2)) (k, s.2)
}.

(** ** Transfers *)

Section transfers.
Context {K W : Type} `{TS : TransferServer K W}.
Implicit Types s : fst_ (K := K) (W := W).
Implicit Types d : dst (K := K) (W := W).

Lemma wp_ctl {A} (m : M fst_ A) (Q : A → dst → Prop) d :
  wp (ctl m) Q d ↔ wp m (λ a s, Q a (d.1, s)) d.2.
Proof. unfold ctl. by rewrite wp_zoom. Qed.

Lemma wp_on_world {A} (m : M W A) (Q : A → fst_ → Prop) s :
  wp (on_world m) Q s ↔ wp m (λ a w, Q a (s.1, w)) s.2.
Proof. unfold on_world. exact (wp_zoom _ _ m Q s). Qed.

Lemma wp_on_data {A} (m : Z → M (K * W) A) (Q : A → dst → Prop) k s :
  wp (m (getDataTimeout s.1)) (λ a kw, Q a (Some kw.1, (s.1, kw.2))) (k, s.2) →
  wp (on_data m) Q (Some k, s).
Proof. unfold wp, on_data. simpl. by destruct (m _ _) as [[a| | |] [k' w']]. Qed.

Lemma wp_destroy_data (Q : unit → dst → Prop) k s :
  wp destroySocket (λ _ kw, Q tt (None, (s.1, kw.2))) (k, s.2) → wp destroy_data Q (Some k, s).
Proof. unfold wp, destroy_data. simpl. by destruct (destroySocket _) as [[[]| | |] [k' w']]. Qed.

(** A function that owns a data socket: what is left of it is destroyed at the end. *)
Lemma wp_with_data {A} k (body : M dst A) (Q : A → fst_ → Prop) s :
  wp body (λ a d, wp destroy_data (λ _ d', Q a d'.2) d) (Some k, s) → wp (with_data k body) Q s.
Proof.
  unfold wp, with_data. destruct (body _) as [[a| | |] d]; [|done..].
  by destruct (destroy_data d) as [[[]| | |] d'].
Qed.

Lemma receive_same_client s : wlp (receive_response fuel) (λ _ s', same_client s s') s.
Proof.
  unfold receive_response, control_timeout. rewrite wlp_bind, wlp_gets. unfold wlp, on_control.
  destruct (f_socket s.1); [|done]. by destruct (receiveResponse _ _ _) as [[] [? ?]].
Qed.

(** The client in step with the server after an operation that ends in [dir]. *)
Lemma in_sync_keeps x s s' dir :
  in_sync s dir → fs_online s' → same_client s s' → fs_keeps x s s' → x ≠ Some dir → in_sync s' dir.
Proof.
  intros (_ & Hcur & Hcwd & Hp & Hk) Hon [Hc _] [Hw Hl] Hx.
  unfold in_sync. rewrite Hl, Hc, Hw by done. by split_and!.
Qed.

(** A transfer from the client's point of view: what it knows is as it was, and the
    server keeps everything but the file at [x]. *)
Definition stays (x : option (list bytes)) s s' : Prop := same_client s s' ∧ fs_keeps x s s'.

#[export] Instance stays_preorder x : PreOrder (stays x).
Proof.
  split; [by intros s; split|]. intros s1 s2 s3 [[H1 H2] Hk] [[H3 H4] Hk'].
  split; [split; congruence|by etrans].
Qed.

Lemma ask_stays cmd (P : result Answer → fst_ → Prop) x s :
  wp (ask fuel cmd) (λ r s', P r s' ∧ fs_keeps x s s') s →
  wp (ask fuel cmd) (λ r s', P r s' ∧ stays x s s') s.
Proof. intros Hw. eapply wp_mono; [by apply ask_wp|]. by intros r s' [[? ?] ?]. Qed.

Lemma world_stays x s w' : fs_keeps x s (s.1, w') → stays x s (s.1, w').
Proof. by split. Qed.

(** The data connection, when the directory exists. *)
Lemma openDataConnection_outcome s :
  fs_online s →
  wp (openDataConnection fuel) (λ r s', ∃ k, r = Ok k ∧ fs_data k s' ∧ fs_online s' ∧
    stays None s s') s.
Proof.
  intros Hon. unfold openDataConnection. wp_step.
  eapply wp_mono; [by apply ask_wp, fs_pasv|].
  intros r s1 ((a & ip & port & -> & Ha & Hp & Hpas & Hon1 & Hk1) & Hc1). cbn beta iota.
  rewrite Ha, bool_decide_false by (intros Hne; by apply Hne). rewrite Hp. wp_steps.
  rewrite wp_on_world. eapply wp_mono; [by apply (fs_connect ip port _ s1)|].
  intros r w2 (k & -> & Hd2 & Hon2 & Hk2). exists k. split_and!; [done|done|done|].
  etrans; [by split|]. by apply world_stays.
Qed.

Lemma open_transfer_outcome s names dir :
  in_sync s names → Forall plain_name dir →
  wp (open_transfer fuel (plain_path dir)) (λ r s', f_capabilities s'.1 = f_capabilities s.1 ∧
    (∀ l, fs_entry s' l = fs_entry s l) ∧
    if bool_decide (fs_entry s dir = Some Directory)
    then ∃ k, r = Ok k ∧ fs_data k s' ∧ fs_online s' ∧ in_sync s' dir
    else r = Unexpected (make_error_code PROTOCOL_ERROR) ∧ fs_online s') s.
Proof.
  intros Hs Hdir. unfold open_transfer. wp_step.
  eapply wp_mono; [by eapply navigate_outcome|]. intros r s1 ((Hon1 & Hk1 & Hc1) & Hr). cbn beta.
  case_bool_decide as Hd; [destruct Hr as [-> Hs1]|subst r]; [|by split_and!].
  eapply wp_mono; [by apply openDataConnection_outcome|].
  intros r s2 (k & -> & Hd2 & Hon2 & Hst). pose proof Hst as [[Hcur2 Hc2] Hkeep].
  split_and!; [congruence| |].
  - intros l. destruct Hkeep as [_ Hl2]. by rewrite Hl2, Hk1.
  - exists k. split_and!; [done|done|done|]. by eapply in_sync_keeps; [exact Hs1|done|apply Hst..|].
Qed.

(** The loop of a download takes what is still to come. *)
Lemma raw_loop_download n buf tmp t k c s :
  fs_sending k c s → tmp ≠ [] → (length c < n)%nat →
  wp (raw_loop n buf tmp t) (λ r kw, r = Ok (buf ++ c) ∧ fs_sent kw.1 (s.1, kw.2) ∧
    fs_keeps None s (s.1, kw.2)) (k, s.2).
Proof.
  revert buf tmp k c s. induction n as [|n IH]; intros buf tmp k c s Hk Htmp Hl; [lia|].
  simpl. wp_step. eapply wp_mono; [by apply fs_chunk|].
  intros [r out'] [k' w'] (Hkeep & Hlen & Hr). cbn [fst snd] in *.
  case_bool_decide as Hc.
  - destruct Hr as [-> Hsent]. subst c. rewrite bool_decide_true by done. wp_steps.
    by rewrite app_nil_r.
  - destruct Hr as (m & -> & Hm & Htake & Hk'). rewrite bool_decide_false by lia.
    eapply wp_mono; [apply (IH _ _ _ (drop m c) (s.1, w')); [done| |rewrite length_drop; lia]|].
    { intros ->. by destruct tmp. }
    simpl. intros r [k2 w2] (-> & Hsent & Hkeep2). split_and!; [|done|by etrans].
    by rewrite Htake, <- app_assoc, take_drop.
Qed.
(** The response that ends a transfer. *)
Lemma end_transfer_outcome (P : fst_ → Prop) x d :
  wp (receive_response fuel) (λ r s', ∃ a, r = Ok a ∧ code a = 226 ∧ P s' ∧ fs_keeps x d.2 s') d.2 →
  wp (end_transfer fuel) (λ r d', r = Ok tt ∧ d'.1 = d.1 ∧ P d'.2 ∧ stays x d.2 d'.2) d.
Proof.
  intros Hw. unfold end_transfer. wp_step. rewrite wp_ctl.
  eapply wp_mono; [eapply wp_conj; [exact Hw|apply receive_same_client]|].
  simpl. intros r s' ((a & -> & Ha & HP & Hk) & Hc). rewrite Ha.
  rewrite bool_decide_false by (intros Hne; by apply Hne). wp_steps. by split_and!.
Qed.

(** A data connection that goes. *)
Lemma destroy_idle k s :
  fs_data k s ∧ fs_online s ∨ fs_over k s → wp destroy_data (λ _ d', fs_online d'.2 ∧ stays None s d'.2) (Some k, s).
Proof.
  intros Hd. apply wp_destroy_data. eapply wp_mono; [by apply fs_close|].
  simpl. intros _ [k' w'] [Hon Hk]. split; [done|]. by apply world_stays.
Qed.

Lemma download_outcome k s n :
  fs_data k s → fs_online s → plain_name n →
  (∀ c, fs_content s (fs_cwd s ++ [n]) = Some c → (length c < fuel)%nat) →
  wp (with_data k (
        _ ←? begin_transfer fuel (txt "RETR " ++ n);
        buffer ←? on_data (receiveRawResponse fuel);
        _ ←? end_transfer fuel;
        mret (Ok buffer)))
    (λ r s', fs_online s' ∧ stays None s s' ∧
      r = match fs_content s (fs_cwd s ++ [n]) with
          | Some c => Ok c
          | None => Unexpected (make_error_code PROTOCOL_ERROR)
          end) s.
Proof.
  intros Hd Hon Hn Hmax. apply wp_with_data. wp_step. unfold begin_transfer. wp_step. rewrite wp_ctl.
  eapply wp_mono; [apply (ask_stays _ (λ r s', ∃ a, r = Ok a ∧
    match fs_content s (fs_cwd s ++ [n]) with
    | Some c => code a = 150 ∧ fs_sending k c s'
    | None => code a = 550 ∧ fs_data k s' ∧ fs_online s'
    end) None)|].
  { eapply wp_mono; [by apply (fs_retr k)|]. simpl. intros r s' (a & -> & Hk & Ha). by eauto. }
  simpl. intros r s1 ((a & -> & Ha) & Hst1). cbn beta iota.
  destruct (fs_content s (fs_cwd s ++ [n])) as [c|] eqn:Hc; destruct Ha as [-> Hd1]; simpl.
  2: { unfold fail. wp_steps. eapply wp_mono; [by apply destroy_idle; left|].
       intros _ d' [Hon' Hst']. split_and!; [done|by etrans|done]. }
  wp_steps. apply wp_on_data. unfold receiveRawResponse.
  eapply wp_mono; [apply (raw_loop_download _ _ _ _ _ c s1); [done| |by apply Hmax]|].
  { intros Hz. apply (f_equal length) in Hz. by rewrite length_zero_bytes in Hz. }
  simpl. intros r [k2 w2] (-> & Hsent & Hk2). cbn [fst snd] in *. wp_step.
  eapply wp_mono; [apply (end_transfer_outcome (fs_over k2) None); by apply fs_confirm_sent|].
  simpl. intros r [k3 s3] (-> & Hk3 & Hd3 & Hst3). cbn [fst snd] in *. subst k3. wp_steps.
  eapply wp_mono; [by apply destroy_idle; right|]. simpl. intros _ d' [Hon' Hst']. split_and!; [done| |done].
  etrans; [exact Hst1|]. etrans; [by apply world_stays|]. by etrans.
Qed.

Lemma ftp_read_outcome s names dir n :
  in_sync s names → Forall plain_name dir → plain_name n →
  (∀ c, fs_content s (dir ++ [n]) = Some c → (length c < fuel)%nat) →
  wp (ftp_read fuel (plain_path (dir ++ [n]))) (λ r s', fs_online s' ∧
    f_capabilities s'.1 = f_capabilities s.1 ∧
    (∀ l, fs_entry s' l = fs_entry s l) ∧
    (fs_entry s dir = Some Directory → in_sync s' dir) ∧
    r = match fs_content s (dir ++ [n]) with
        | Some c => Ok c
        | None => Unexpected (make_error_code PROTOCOL_ERROR)
        end) s.
Proof.
  intros Hs Hdir Hn Hmax. unfold ftp_read. wp_step.
  destruct (plain_name_path dir n Hn) as [-> ->].
  eapply wp_mono; [by eapply open_transfer_outcome|]. intros r s1 (Hc1 & Hl1 & Hr). cbn beta.
  case_bool_decide as Hd.
  - destruct Hr as (k & -> & Hd1 & Hon1 & Hs1).
    assert (fs_cwd s1 = dir) as Hcwd by apply Hs1.
    eapply wp_mono; [apply download_outcome; [done|done|done|by rewrite Hcwd, Hl1]|].
    simpl. intros r s2 (Hon2 & [Hcl2 Hk2] & ->). rewrite Hcwd, Hl1.
    split_and!; [done|destruct Hcl2; congruence| | |done].
    + intros l. destruct Hk2 as [_ Hl2]. by rewrite Hl2, Hl1.
    + intros _. by eapply in_sync_keeps.
  - destruct Hr as [-> Hon1]. split_and!; [done|done|done|done|].
    destruct (fs_entry s (dir ++ [n])) eqn:E; [|done]. destruct Hd.
    apply (fs_parent s dir n). by rewrite E.
Qed.
(** What a written file is, with the rest as before. *)
Definition stored_at (l : list bytes) (b : bytes) s s' : Prop :=
  fs_online s' ∧ fs_entry s' l = Some (File b) ∧ stays (Some l) s s'.

Lemma upload_outcome k s n data (f : dst → FileListData) :
  fs_data k s → fs_online s → plain_name n → fs_entry s (fs_cwd s) = Some Directory →
  wp (with_data k (
        _ ←? begin_transfer fuel (txt "STOR " ++ n);
        _ ←? on_data (λ t, writeAll Sync data (Some t));
        destroy_data;;
        _ ←? end_transfer fuel;
        d ← gets f;
        mret (Ok d)))
    (λ r s',
      if bool_decide (fs_entry s (fs_cwd s ++ [n]) = Some Directory)
      then r = Unexpected (make_error_code PROTOCOL_ERROR) ∧ fs_online s' ∧ stays None s s'
      else (∃ d, r = Ok (f d)) ∧ stored_at (fs_cwd s ++ [n]) data s s') s.
Proof.
  intros Hd Hon Hn Hdir. apply wp_with_data. wp_step. unfold begin_transfer. wp_step. rewrite wp_ctl.
  eapply wp_mono; [eapply ask_wp, fs_stor; done|].
  simpl. intros r s1 ((a & -> & Ha) & Hcl1). cbn beta iota. case_bool_decide as Hk.
  { destruct Ha as (-> & Hd1 & Hon1 & Hk1). simpl. unfold fail. wp_steps.
    eapply wp_mono; [by apply destroy_idle; left|].
    intros _ d' [Hon' Hst']. split_and!; [done|done|]. etrans; [by split|done]. }
  destruct Ha as (-> & Ht1 & Hk1). simpl. wp_steps.
  set (l := fs_cwd s ++ [n]) in *.
  assert (stays (Some l) s s1) as Hst1 by by split.
  apply wp_on_data. eapply wp_mono; [by apply fs_accept|].
  simpl. intros r [k2 w2] (-> & Ht2 & Hk2). cbn [fst snd] in *. wp_step.
  apply wp_destroy_data. eapply wp_mono; [by apply (fs_close_taking k2 l data (s1.1, w2))|].
  simpl. intros _ [k3 w3] [Hst3 Hk3]. cbn [fst snd] in *. wp_step.
  eapply wp_mono; [apply (end_transfer_outcome (λ s', fs_online s' ∧ fs_entry s' l = Some (File data)) (Some l))|].
  { eapply wp_mono; [by apply (fs_confirm_stored l data)|]. simpl. intros r s4 (b & -> & Hb & H1 & H2 & H3).
    exists b. by split_and!. }
  simpl. intros r [k4 s4] (-> & Hk4 & (Hon4 & Hc4) & Hst4). cbn [fst snd] in *. subst k4.
  wp_steps. unfold wp, destroy_data. simpl. split; [by eexists|]. split_and!; [done|done|].
  etrans; [exact Hst1|]. etrans; [by apply world_stays|]. etrans; [|exact Hst4].
  by apply (world_stays _ (s1.1, w2)).
Qed.

Lemma ftp_write_outcome s names dir n data :
  in_sync s names → Forall plain_name dir → plain_name n →
  wp (ftp_write fuel (plain_path (dir ++ [n])) data) (λ r s', fs_online s' ∧
    f_capabilities s'.1 = f_capabilities s.1 ∧ (fs_entry s dir = Some Directory → in_sync s' dir) ∧
    if bool_decide (fs_entry s dir = Some Directory ∧ fs_entry s (dir ++ [n]) ≠ Some Directory)
    then (∃ f, r = Ok f ∧ fl_size f = Z.of_nat (length data) ∧ fl_file_name f = n) ∧
      ∀ l, fs_entry s' l = if bool_decide (l = dir ++ [n]) then Some (File data) else fs_entry s l
    else r = Unexpected (make_error_code PROTOCOL_ERROR) ∧
      ∀ l, fs_entry s' l = fs_entry s l) s.
Proof.
  intros Hs Hdir Hn. unfold ftp_write. wp_step.
  destruct (plain_name_path dir n Hn) as [-> ->].
  eapply wp_mono; [by eapply open_transfer_outcome|]. intros r s1 (Hc1 & Hl1 & Hr). cbn beta.
  destruct (decide (fs_entry s dir = Some Directory)) as [Hd|Hd].
  2: { rewrite bool_decide_false in Hr by done. rewrite bool_decide_false by (by intros [? _]).
       destruct Hr as [-> Hon1]. by split_and!. }
  rewrite bool_decide_true in Hr by done. destruct Hr as (k & -> & Hd1 & Hon1 & Hs1).
  assert (fs_cwd s1 = dir) as Hcwd by apply Hs1.
  set (f d := {| fl_date := system_clock_now d.2.2; fl_size := Z.of_nat (length data);
                 fl_file_name := n; fl_full_path := plain_path (dir ++ [n]) |} : FileListData).
  eapply wp_mono; [apply (upload_outcome k s1 n data f); [done|done|done|rewrite Hcwd; by apply Hs1]|].
  simpl. rewrite Hcwd, Hl1. intros r s2 Hr.
  case_bool_decide as Hk.
  - destruct Hr as (-> & Hon2 & Hcl2 & Hk2). rewrite bool_decide_false by (by intros [_ ?]).
    split_and!; [done|destruct Hcl2; congruence|intros _; by eapply in_sync_keeps|done|].
    intros l. destruct Hk2 as [_ Hl2]. by rewrite Hl2, Hl1.
  - destruct Hr as [[d ->] (Hon2 & Hcont2 & Hcl2 & Hk2)]. rewrite bool_decide_true by done.
    split_and!; [done|destruct Hcl2; congruence| | |].
    + intros _. eapply in_sync_keeps; [done|done|done|done|]. intros [= E]. by apply (snoc_ne dir n).
    + by eexists.
    + intros l. case_bool_decide as E; [by subst|]. destruct Hk2 as [_ Hl2].
      rewrite Hl2 by congruence. apply Hl1.
Qed.
End transfers.

(** ** The contract of a file store *)

Section store.
Context {K W : Type} `{TS : TransferServer K W} `{WS : !WritableServer K W fuel} `{Clk : Clock}.
Implicit Types s : fst_ (K := K) (W := W).

#[local] Existing Instance ftp_AbstractFileTransfer | 0.

(** The FTP client is a file store, on a server that keeps its promises. *)
#[export] Program Instance ftp_FileStoreSpec :
  @FileStoreSpec _ W _ (ftp_FileTransferSpec (K := K) (W := W) (fuel := fuel)) :=
  {| ft_max := fuel |}.
Next Obligation.
  intros s dir n c ([names Hs] & Hsee) Hdir Hn Hc Hmax. simpl in Hc.
  assert (fs_entry s dir = Some Directory) as Hd by (apply (fs_parent s dir n); by rewrite Hc).
  eapply wp_mono; [eapply ftp_read_outcome; [done..|]|].
  { rewrite Hc. by intros c' [= <-]. }
  simpl. rewrite Hc. intros r s' (_ & Hcaps & Hl & Hs' & ->).
  split_and!; [by eapply ready_next; [apply Hs'|..]|done|done].
Qed.
Next Obligation.
  intros s dir n data ([names Hs] & Hsee) Hdir Hn Hd Hk.
  eapply wp_mono; [by eapply ftp_write_outcome|].
  simpl. intros r s' (_ & Hcaps & Hs' & Hr). rewrite bool_decide_true in Hr by done.
  destruct Hr as [Hf Hl]. split_and!; [by eapply ready_next; [apply Hs'|..]|done|done].
Qed.
End store.

(** ** Correctness *)

(** C11: on a server that keeps its promises, with the navigator in step, [read] of an
    absolute path of plain names returns exactly the content of the file; of anything that
    is not a file there, in whatever directory, it fails. It changes no file and no
    content, and what is shorter than the fuel needs no more of it. *)
Theorem ftp_read_correct {K W : Type} `{TS : TransferServer K W} s names dir n :
  in_sync s names → Forall plain_name dir → plain_name n →
  (∀ c, fs_content s (dir ++ [n]) = Some c → (length c < fuel)%nat) →
  wp (ftp_read fuel (plain_path (dir ++ [n]))) (λ r s', fs_online s' ∧
    f_capabilities s'.1 = f_capabilities s.1 ∧
    (∀ l, fs_entry s' l = fs_entry s l) ∧
    (fs_entry s dir = Some Directory → in_sync s' dir) ∧
    r = match fs_content s (dir ++ [n]) with
        | Some c => Ok c
        | None => Unexpected (make_error_code PROTOCOL_ERROR)
        end) s.
Proof. apply ftp_read_outcome. Qed.

(** C12: on such a server [write] to an absolute path of plain names leaves exactly the
    given bytes in the file, which it makes where there is nothing and overwrites where
    there is one, and reports their number and the name; in a missing directory, or over a directory, it fails and
    changes nothing. Nothing else changes either way. *)
Theorem ftp_write_correct {K W : Type} `{TS : TransferServer K W} s names dir n data :
  in_sync s names → Forall plain_name dir → plain_name n →
  wp (ftp_write fuel (plain_path (dir ++ [n])) data) (λ r s', fs_online s' ∧
    f_capabilities s'.1 = f_capabilities s.1 ∧ (fs_entry s dir = Some Directory → in_sync s' dir) ∧
    if bool_decide (fs_entry s dir = Some Directory ∧ fs_entry s (dir ++ [n]) ≠ Some Directory)
    then (∃ f, r = Ok f ∧ fl_size f = Z.of_nat (length data) ∧ fl_file_name f = n) ∧
      ∀ l, fs_entry s' l = if bool_decide (l = dir ++ [n]) then Some (File data) else fs_entry s l
    else r = Unexpected (make_error_code PROTOCOL_ERROR) ∧
      ∀ l, fs_entry s' l = fs_entry s l) s.
Proof. apply ftp_write_outcome. Qed.

(** Used through the interface [IAbstractFileTransfer], the FTP client is a store of
    files: what is written is read back, also after it is overwritten, the file exists
    until it is removed, and all other files and their contents are as before. *)
Theorem file_round_trip {K W : Type} `{TS : TransferServer K W} `{WS : !WritableServer K W fuel}
    `{Clk : Clock} (s : fst_ (K := K) (W := W)) dir n a b :
  ftp_ready s → Forall plain_name dir → plain_name n → fs_entry s dir = Some Directory →
  fs_entry s (dir ++ [n]) = None → (length a < fuel)%nat → (length b < fuel)%nat →
  wp (@file_session _ W (ftp_AbstractFileTransfer fuel) (plain_path (dir ++ [n])) a b)
    (λ r s', r = ([Ok a; Ok b], [Ok true; Ok false], Ok tt) ∧ ftp_ready s' ∧
      ∀ l, fs_entry s' l = fs_entry s l) s.
Proof.
  intros Hs Hd Hn Hk Hnone Ha Hb.
  exact (@file_session_correct _ W _ (ftp_FileTransferSpec (fuel := fuel)) s dir n Hd Hn Hk
    (ftp_FileStoreSpec (fuel := fuel)) a b Hs Hnone Ha Hb).
Qed.
