(* ===== verification/FtpStream.v ===== *)
(** Streaming transfers of the FTP client, [read] and [write] with callbacks: what the
    callbacks have been given, or have given, when the transfer succeeds. *)

From S2P Require Import Prelude ErrorCodes SocketBase Socket FsPath FtpUtils FtpParse FtpFileTransfer.
From S2P Require Import FtpSession FtpTransfer.

Section streaming.
Context {K W : Type} `{LS : LineSocketSpec K W} `{Env : !FtpEnvironment K W}.
Implicit Types d : dst (K := K) (W := W).

(** A callback that leaves the bytes a socket will deliver, or has accepted, alone. *)
Definition keeps_rx {A} (m : M W A) : Prop :=
  ∀ w, wlp m (λ _ w', ∀ k, rx (K := K) k w' = rx k w) w.
Definition keeps_sent {A} (m : M W A) : Prop :=
  ∀ w, wlp m (λ _ w', ∀ k, sent (K := K) k w' = sent k w) w.

(** A download that is handed over to its callback: reads of the data connection and calls
    of the callback take turns. Every read that brings bytes is followed by one call with
    exactly these bytes, which the callback consumes whole, in the world that the read has
    left; the next read begins in the world that the call has left; and the last read
    finds the end of the stream. Beside the two nothing happens. *)
Inductive chunks_handed (callback : bytes → M W (result nat)) (t : Z) : K * W → list bytes → K * W → Prop :=
| handed_all kw buf buf' kw' :
    readSome Sync buf (Some t) kw = (Done (Unexpected (asio_error eof), buf'), kw') →
    chunks_handed callback t kw [] kw'
| handed_one kw buf n buf' k w chunk w' chunks kw' :
    readSome Sync buf (Some t) kw = (Done (Ok n, buf'), (k, w)) →
    chunk = take n buf' → chunk ≠ [] → callback chunk w = (Done (Ok (length chunk)), w') →
    chunks_handed callback t (k, w') chunks kw' → chunks_handed callback t kw (chunk :: chunks) kw'.

(** An upload that is taken from its callback: every chunk that a call gives is written
    before the next call, and the last call gives an empty one. *)
Inductive chunks_given (next : M W (result bytes)) (t : Z) : K * W → list bytes → K * W → Prop :=
| given_all k w w' : next w = (Done (Ok []), w') → chunks_given next t (k, w) [] (k, w')
| given_one k w chunk w' n kw chunks kw' :
    next w = (Done (Ok chunk), w') → chunk ≠ [] →
    writeAll Sync chunk (Some t) (k, w') = (Done (Ok n), kw) →
    chunks_given next t kw chunks kw' → chunks_given next t (k, w) (chunk :: chunks) kw'.

Lemma on_world_ctl_inv {A} (m : M W A) d a d' :
  ctl (on_world m) d = (Done a, d') →
  ∃ w', m d.2.2 = (Done a, w') ∧ d' = (d.1, (d.2.1, w')).
Proof.
  intros (s' & Hm & ->)%ctl_inv. unfold on_world, zoom in Hm.
  destruct (m d.2.2) as [o w'] eqn:E. injection Hm as -> <-. by exists w'.
Qed.

Lemma take_whole (l : bytes) n : (n ≤ length l)%nat → length (take n l) = n.
Proof. intros Hn. rewrite length_take. lia. Qed.

Lemma read_chunks_sound fuel callback buffer total c k w t d' :
  (∀ b, keeps_rx (callback b)) → buffer ≠ [] →
  read_chunks fuel callback buffer total (Some k, (c, w)) = (Done (Ok t), d') →
  ∃ cs k' w', d' = (Some k', (c, w')) ∧ chunks_handed callback (getDataTimeout c) (k, w) cs (k', w') ∧
    concat cs = rx k w ∧ t = (total + length (concat cs))%nat.
Proof.
  intros Hcb. revert buffer total k w. induction fuel as [|fuel IH]; intros buffer total k w Hb Hr; [done|].
  simpl in Hr. apply M_bind_inv in Hr as ([r buffer'] & d1 & Hread & Hr).
  apply on_data_inv in Hread as (k0 & k1 & w1 & [= <-] & Hread & ->). cbn [fst snd] in *.
  pose proof (readSome_next Sync buffer (Some (getDataTimeout c)) k w Hb) as Hnext.
  unfold wp in Hnext. rewrite Hread in Hnext. destruct Hnext as (Hl & _ & Hn & Heof). cbn [fst snd] in *.
  destruct r as [n|e].
  - destruct (Hn n eq_refl) as [[Hpos Hle] Hrx]. rewrite bool_decide_false in Hr by lia.
    apply bind_expected_inv in Hr as (consumed & d2 & Hcall & Hr).
    apply on_world_ctl_inv in Hcall as (w2 & Hcall & ->). cbn [fst snd] in *.
    case_bool_decide as Hc; [done|]. assert (consumed = n) as -> by lia.
    assert (length (take n buffer') = n) as Hlen by (apply take_whole; lia).
    apply IH in Hr as (cs & k' & w' & -> & Hcs & Hrest & ->); [|by intros ->; simpl in Hl; destruct buffer].
    pose proof (Hcb (take n buffer') w1) as Hkeep. unfold wlp in Hkeep. rewrite Hcall in Hkeep.
    exists (take n buffer' :: cs), k', w'. split_and!; [done| | |].
    + eapply handed_one; [exact Hread|done| |by rewrite Hlen|exact Hcs].
      intros E. rewrite E in Hlen. simpl in Hlen. lia.
    + simpl. by rewrite Hrest, Hkeep, Hrx.
    + simpl. rewrite length_app, Hlen. lia.
  - case_bool_decide as He; [|done]. injection Hr as <- <-. exists [], k1, w1. simpl.
    split_and!; [done| |symmetry; apply Heof; by f_equal|lia].
    subst e. by eapply handed_all.
Qed.

Lemma write_chunks_sound fuel next total c k w t d' :
  keeps_sent next →
  write_chunks fuel next total (Some k, (c, w)) = (Done (Ok t), d') →
  ∃ cs k' w', d' = (Some k', (c, w')) ∧ chunks_given next (getDataTimeout c) (k, w) cs (k', w') ∧
    sent k' w' = sent k w ++ concat cs ∧ t = (total + length (concat cs))%nat.
Proof.
  intros Hnext. revert total k w. induction fuel as [|fuel IH]; intros total k w Hr; [done|].
  simpl in Hr. apply bind_expected_inv in Hr as (chunk & d1 & Hc & Hr).
  apply on_world_ctl_inv in Hc as (w1 & Hc & ->). cbn [fst snd] in *.
  pose proof (Hnext w) as Hkeep. unfold wlp in Hkeep. rewrite Hc in Hkeep.
  case_bool_decide as Hempty.
  - injection Hr as <- <-. subst chunk. exists [], k, w1. simpl.
    split_and!; [done|by constructor|by rewrite app_nil_r|lia].
  - apply bind_expected_inv in Hr as (n & d2 & Hw & Hr).
    apply on_data_inv in Hw as (k0 & k2 & w2 & [= <-] & Hw & ->). cbn [fst snd] in *.
    pose proof (writeAll_sound Sync chunk (Some (getDataTimeout c)) k w1) as Hs.
    unfold wlp in Hs. rewrite Hw in Hs. destruct (Hs n eq_refl) as [-> Hsent]. cbn [fst snd] in *.
    apply IH in Hr as (cs & k' & w' & -> & Hcs & Hall & ->).
    exists (chunk :: cs), k', w'. split_and!; [done| | |].
    + by eapply given_one.
    + by rewrite Hall, Hsent, Hkeep, <- app_assoc.
    + simpl. rewrite length_app. lia.
Qed.
End streaming.

(** ** Correctness *)

(** C21: a file that is read with a callback has been handed over completely and in order:
    between the server's 150 and its 226 the client reads the data connection and calls
    the callback in turns, once for every read and with just the bytes of that read,
    which are not empty and which the callback consumes whole, up to the end of the
    stream. Together the chunks are everything the connection delivered, and the result
    is their length. (The callback may do anything that leaves the connection's bytes
    alone.) *)
Theorem read_callback_correct {K W : Type} `{LS : LineSocketSpec K W} `{Env : !FtpEnvironment K W}
    fuel p callback (s : fst_ (K := K) (W := W)) total s' :
  (∀ b, keeps_rx (K := K) (callback b)) →
  ftp_read_cb fuel p callback s = (Done (Ok total), s') →
  ∃ k s1 a1 s2 cs k' w' a2 s3,
    open_transfer fuel (parent_path p) s = (Done (Ok k), s1) ∧
    ask fuel (txt "RETR " ++ filename p) s1 = (Done (Ok a1), s2) ∧ code a1 = 150 ∧
    chunks_handed callback (getDataTimeout s2.1) (k, s2.2) cs (k', w') ∧
    concat cs = rx k s2.2 ∧ total = length (concat cs) ∧
    receive_response fuel (s2.1, w') = (Done (Ok a2), s3) ∧ code a2 = 226.
Proof.
  intros Hcb (k & s1 & Hopen & Hrun)%bind_expected_inv.
  apply with_data_inv in Hrun as (d & d' & Hrun & _ & _).
  apply bind_expected_inv in Hrun as ([] & d1 & Hbegin & Hrun).
  apply begin_transfer_inv in Hbegin as (a1 & [c2 w2] & Hask & Hcode & ->). cbn [fst snd] in *.
  apply bind_expected_inv in Hrun as (t & d2 & Hread & Hrun).
  apply (read_chunks_sound _ _ _ _ _ _ _ _ _ Hcb) in Hread as (cs & k' & w' & -> & Hcs & Hall & ->);
    [|by intros Hz; apply (f_equal length) in Hz; rewrite length_zero_bytes in Hz].
  apply bind_expected_inv in Hrun as ([] & d3 & Hend & Hrun).
  apply end_transfer_inv in Hend as (a2 & s3 & Hrecv & Hcode2 & ->). injection Hrun as <- _.
  by exists k, s1, a1, (c2, w2), cs, k', w', a2, s3.
Qed.

(** A file that is written with a callback consists of the chunks the callback gave
    before its first empty one, each written before the next one was asked for: exactly
    they went to the data connection, which was then closed, and only then the server
    confirmed the transfer (226); the size that is returned is theirs. *)
Theorem write_callback_correct {K W : Type} `{LS : LineSocketSpec K W} `{Env : !FtpEnvironment K W}
    fuel p next (s : fst_ (K := K) (W := W)) f s' :
  keeps_sent (K := K) next →
  ftp_write_cb fuel p next s = (Done (Ok f), s') →
  ∃ k s1 a1 s2 cs k' w' k'' w'' a2 s3,
    open_transfer fuel (parent_path p) s = (Done (Ok k), s1) ∧
    ask fuel (txt "STOR " ++ filename p) s1 = (Done (Ok a1), s2) ∧ code a1 = 150 ∧
    chunks_given next (getDataTimeout s2.1) (k, s2.2) cs (k', w') ∧
    sent k' w' = sent k s2.2 ++ concat cs ∧
    destroySocket (k', w') = (Done tt, (k'', w'')) ∧ isConnected k'' w'' = false ∧
    receive_response fuel (s2.1, w'') = (Done (Ok a2), s3) ∧ code a2 = 226 ∧
    fl_size f = Z.of_nat (length (concat cs)) ∧ fl_full_path f = p.
Proof.
  intros Hnext (k & s1 & Hopen & Hrun)%bind_expected_inv.
  apply with_data_inv in Hrun as (d & d' & Hrun & _ & _).
  apply bind_expected_inv in Hrun as ([] & d1 & Hbegin & Hrun).
  apply begin_transfer_inv in Hbegin as (a1 & [c2 w2] & Hask & Hcode & ->). cbn [fst snd] in *.
  apply M_bind_inv in Hrun as (now & d1 & Hnow & Hrun). injection Hnow as <- <-.
  apply bind_expected_inv in Hrun as (t & d2 & Hw & Hrun).
  apply (write_chunks_sound _ _ _ _ _ _ _ _ Hnext) in Hw
    as (cs & k' & w' & -> & Hcs & Hsent & ->).
  apply M_bind_inv in Hrun as ([] & d3 & Hdestroy & Hrun).
  apply destroy_data_inv in Hdestroy as (k'' & w'' & Hd & Hc & ->). cbn [fst snd] in *.
  apply bind_expected_inv in Hrun as ([] & d4 & Hend & Hrun).
  apply end_transfer_inv in Hend as (a2 & s3 & Hrecv & Hcode2 & ->). cbn [fst snd] in *.
  injection Hrun as <- _.
  by exists k, s1, a1, (c2, w2), cs, k', w', k'', w'', a2, s3.
Qed.

(** ** Witnesses *)

Definition takes_all (b : bytes) : M ftp_net (result nat) := mret (Ok (length b)).

Lemma read_callback_correct_witness :
  let D := socket_DualSocket 200 in
  let s := net_session transfer_script (txt "the text of the file") in
  let p := path_of_string (txt "/readme") in
  ∃ s', ftp_read_cb 50 p takes_all s = (Done (Ok 20%nat), s') ∧
  ∃ k s1 a1 s2 cs k' w' a2 s3,
    open_transfer 50 (parent_path p) s = (Done (Ok k), s1) ∧
    ask 50 (txt "RETR " ++ filename p) s1 = (Done (Ok a1), s2) ∧ code a1 = 150 ∧
    chunks_handed takes_all (getDataTimeout s2.1) (k, s2.2) cs (k', w') ∧
    concat cs = rx k s2.2 ∧ 20%nat = length (concat cs) ∧
    receive_response 50 (s2.1, w') = (Done (Ok a2), s3) ∧ code a2 = 226.
Proof.
  intros D s p. exists (ftp_read_cb 50 p takes_all s).2.
  assert (ftp_read_cb 50 p takes_all s = (Done (Ok 20%nat), (ftp_read_cb 50 p takes_all s).2)) as Hr
    by by vm_compute.
  split; [exact Hr|]. exact (read_callback_correct 50 p takes_all s _ _ (λ _ _ _, eq_refl) Hr).
Defined.

(** Gives a chunk, and an empty one when the chunk has been sent. *)
Definition one_chunk : M ftp_net (result bytes) := λ w,
  (Done (Ok (if bool_decide (mn_out (n_data w) = []) then txt "hello" else [])), w).

Lemma write_callback_correct_witness :
  let D := socket_DualSocket 200 in
  let s := net_session transfer_script [] in
  let p := path_of_string (txt "/readme") in
  let f := {| fl_date := 0; fl_size := 5; fl_file_name := txt "readme"; fl_full_path := p |} in
  ∃ s', ftp_write_cb 50 p one_chunk s = (Done (Ok f), s') ∧
  ∃ k s1 a1 s2 cs k' w' k'' w'' a2 s3,
    open_transfer 50 (parent_path p) s = (Done (Ok k), s1) ∧
    ask 50 (txt "STOR " ++ filename p) s1 = (Done (Ok a1), s2) ∧ code a1 = 150 ∧
    chunks_given one_chunk (getDataTimeout s2.1) (k, s2.2) cs (k', w') ∧
    sent k' w' = sent k s2.2 ++ concat cs ∧
    destroySocket (k', w') = (Done tt, (k'', w'')) ∧ isConnected k'' w'' = false ∧
    receive_response 50 (s2.1, w'') = (Done (Ok a2), s3) ∧ code a2 = 226 ∧
    fl_size f = Z.of_nat (length (concat cs)) ∧ fl_full_path f = p.
Proof.
  intros D s p f. exists (ftp_write_cb 50 p one_chunk s).2.
  assert (ftp_write_cb 50 p one_chunk s = (Done (Ok f), (ftp_write_cb 50 p one_chunk s).2)) as Hr
    by by vm_compute.
  split; [exact Hr|]. exact (write_callback_correct 50 p one_chunk s _ _ (λ _ _, eq_refl) Hr).
Defined.
