(* ===== verification/FtpLogin.v ===== *)
(** Opening a session of the FTP client: [connect] with its login and the detection of
    the server's capabilities. *)

From S2P Require Import Prelude ErrorCodes SocketBase Socket FsPath FtpUtils FtpParse FtpFileTransfer.
From S2P Require Import FtpSession FtpTransfer.

Section login.
Context {K W : Type} `{DualSocket K W} `{AE : AsioErrors} `{Env : !FtpEnvironment K W}.
Implicit Types s : fst_ (K := K) (W := W).

(** The members of the client that only [connect] and the navigator write. *)
Definition same_members s s' : Prop :=
  f_options s'.1 = f_options s.1 ∧ f_capabilities s'.1 = f_capabilities s.1.

#[export] Instance same_members_preorder : PreOrder same_members.
Proof. split; [by intros s|]. intros s1 s2 s3 [H1 H2] [H3 H4]. split; congruence. Qed.

Lemma on_control_inv {A} (m : M (K * W) A) s a s' :
  on_control m s = (Done a, s') →
  same_members s s' ∧ ∃ k k' w', f_socket s.1 = Some k ∧ m (k, s.2) = (Done a, (k', w')) ∧
    f_socket s'.1 = Some k' ∧ s'.2 = w'.
Proof.
  unfold on_control. destruct (f_socket s.1) as [k|] eqn:Hk; [|done].
  destruct (m (k, s.2)) as [o [k' w']] eqn:Hm. intros [= -> <-]. split; [done|].
  by exists k, k', w'.
Qed.

Lemma ask_inv fuel cmd s r s' :
  ask fuel cmd s = (Done r, s') → same_members s s' ∧ is_Some (f_socket s'.1).
Proof.
  unfold ask, control_timeout, gets, mbind, M_bind. cbn beta iota.
  intros (Hs & k & k' & w' & _ & _ & Hk & _)%on_control_inv. by split; [|exists k'].
Qed.

Lemma reset_socket_inv new s s' :
  reset_socket new s = (Done tt, s') → same_members s s' ∧ f_socket s'.1 = new.
Proof.
  unfold reset_socket. destruct (f_socket s.1).
  - destruct (destroySocket _) as [o [k' w']]. by intros [= -> <-].
  - by intros [= <-].
Qed.

(** A command of the login is accepted, or the connection is dropped. *)
Lemma login_step_inv fuel cmd accepted s r s' :
  login_step fuel cmd accepted s = (Done r, s') →
  same_members s s' ∧
  match r with
  | Ok _ => ∃ a, ask fuel cmd s = (Done (Ok a), s') ∧ code a ∈ accepted
  | Unexpected _ => f_socket s'.1 = None
  end.
Proof.
  intros (ra & s1 & Ha & Hr)%M_bind_inv. pose proof (ask_inv _ _ _ _ _ Ha) as [Hs1 _].
  destruct ra as [a|e].
  - case_bool_decide as Hc; [injection Hr as <- <-; by split; [|exists a]|].
    apply M_bind_inv in Hr as ([] & s2 & Hreset & Hr). injection Hr as <- <-.
    apply reset_socket_inv in Hreset as [Hs2 Hk]. split; [by etrans|done].
  - apply M_bind_inv in Hr as ([] & s2 & Hreset & Hr). injection Hr as <- <-.
    apply reset_socket_inv in Hreset as [Hs2 Hk]. split; [by etrans|done].
Qed.

(** A step of the login that is only made for a text that is not empty. *)
Definition login_done fuel (text cmd : bytes) (accepted : list Z) s s' : Prop :=
  text = [] ∧ s' = s ∨
  text ≠ [] ∧ ∃ a, ask fuel cmd s = (Done (Ok a), s') ∧ code a ∈ accepted.

Lemma maybe_login_inv fuel text cmd accepted s r s' :
  (if bool_decide (text = []) then mret (Ok tt) else login_step fuel cmd accepted) s = (Done r, s') →
  same_members s s' ∧
  match r with
  | Ok _ => login_done fuel text cmd accepted s s'
  | Unexpected _ => f_socket s'.1 = None
  end.
Proof.
  case_bool_decide as Ht.
  - intros [= <- <-]. split; [done|]. by left.
  - intros [Hs Hr]%login_step_inv. split; [done|]. destruct r; [|done]. by right.
Qed.

(** What a login does to the capabilities: the features of a response 211 to FEAT. *)
Definition features_of (r : result Answer) (caps : FtpCapabilities) : FtpCapabilities :=
  match r with
  | Ok a => if bool_decide (code a = 211) then parseFeatures (full_msg a) caps else caps
  | Unexpected _ => caps
  end.

(** Reading the greeting, whose text does not matter. *)
Definition greeting_read s (ok : bool) s' : Prop :=
  ∃ r out, on_control (readUntil Sync (zero_bytes (Z.to_nat 512)) CRLF None) s = (Done (r, out), s') ∧
    has_value r = ok.

(** [connect] up to the end of the login; then FEAT. *)
Lemma ftp_connect_inv fuel opts s r s' :
  ftp_connect fuel opts s = (Done r, s') →
  f_options s'.1 = f_options s.1 ∧
  match r with
  | Ok _ => ∃ sock w1 s1 s2 s3 s4 feat s5,
      Client_connect (f_host s.1) (f_port s.1) (opt_timeout opts) s.2 = (Done (Ok sock), w1) ∧
      reset_socket (Some sock) (s.1, w1) = (Done tt, s1) ∧ greeting_read s1 true s2 ∧
      login_done fuel (opt_username opts) (txt "USER " ++ opt_username opts) [331; 230] s2 s3 ∧
      login_done fuel (opt_password opts) (txt "PASS " ++ opt_password opts) [230; 231] s3 s4 ∧
      ask fuel (txt "FEAT") s4 = (Done feat, s5) ∧
      s' = (set_capabilities (features_of feat (f_capabilities s.1)) s5.1, s5.2)
  | Unexpected e =>
      (∃ w1, Client_connect (f_host s.1) (f_port s.1) (opt_timeout opts) s.2 =
         (Done (Unexpected e), w1) ∧ s' = (s.1, w1)) ∨
      (∃ s1, greeting_read s1 false s') ∨ f_socket s'.1 = None
  end.
Proof.
  unfold ftp_connect. intros (h & t1 & Hh & Hrun)%M_bind_inv. injection Hh as <- <-.
  apply M_bind_inv in Hrun as (p & t2 & Hp & Hrun). injection Hp as <- <-.
  apply M_bind_inv in Hrun as (rsock & t3 & Hc & Hrun). unfold on_world, zoom in Hc.
  destruct (Client_connect _ _ _ s.2) as [oc w1] eqn:Hconn. injection Hc as -> <-.
  destruct rsock as [sock|e]; [|injection Hrun as <- <-; split; [done|left; by exists w1]].
  apply M_bind_inv in Hrun as ([] & s1 & Hreset & Hrun).
  apply reset_socket_inv in Hreset as Hs1. destruct Hs1 as [Hm1 _].
  apply M_bind_inv in Hrun as ([g out] & s2 & Hread & Hrun).
  apply on_control_inv in Hread as Hs2. destruct Hs2 as [Hm2 _].
  assert (Hg : greeting_read s1 (has_value g) s2) by by exists g, out.
  apply M_bind_inv in Hrun as (g' & s2' & Hret & Hrun). injection Hret as <- <-.
  destruct g as [n|e].
  2: { injection Hrun as <- <-. split; [|right; left; by exists s1].
       destruct Hm1 as [H1 _], Hm2 as [H2 _]. simpl in H1. congruence. }
  apply M_bind_inv in Hrun as (ru & s3 & Huser & Hrun).
  apply maybe_login_inv in Huser as [Hm3 Huser].
  destruct ru as [u|e].
  2: { injection Hrun as <- <-. split; [|by right; right].
       destruct Hm1 as [H1 _], Hm2 as [H2 _], Hm3 as [H3 _]. simpl in H1. congruence. }
  apply M_bind_inv in Hrun as (rp & s4 & Hpass & Hrun).
  apply maybe_login_inv in Hpass as [Hm4 Hpass].
  destruct rp as [u'|e].
  2: { injection Hrun as <- <-. split; [|by right; right].
       destruct Hm1 as [H1 _], Hm2 as [H2 _], Hm3 as [H3 _], Hm4 as [H4 _]. simpl in H1. congruence. }
  apply M_bind_inv in Hrun as (feat & s5 & Hfeat & Hrun).
  apply ask_inv in Hfeat as Hs5. destruct Hs5 as [Hm5 _].
  assert (Hm : same_members s s5).
  { transitivity s1; [exact Hm1|]. transitivity s2; [done|]. transitivity s3; [done|].
    by transitivity s4. }
  apply M_bind_inv in Hrun as ([] & s6 & Hset & Hrun). injection Hrun as <- <-.
  assert (Heq : s6 = (set_capabilities (features_of feat (f_capabilities s.1)) s5.1, s5.2)).
  { destruct Hm as [_ Hcaps]. rewrite <- Hcaps. unfold features_of.
    destruct s5 as [[] w5]; destruct feat as [a|e]; simpl in *.
    - destruct (bool_decide (code a = 211)); by injection Hset as <-.
    - by injection Hset as <-. }
  split; [by rewrite Heq; apply Hm|].
  by exists sock, w1, s1, s2, s3, s4, feat, s5.
Qed.
End login.

(** ** Correctness *)

(** [connect] succeeds only after the greeting arrived, and the name and the password
    that are not empty were accepted with their codes; the capabilities are then those
    of a response 211 to FEAT. An error is that of the connection, or a greeting that
    could not be read, or the control connection has been dropped. The options that
    are passed are never stored: the timeouts of the session stay as they were. *)
Theorem ftp_connect_correct {K W : Type} `{DualSocket K W} `{AE : AsioErrors}
    `{Env : !FtpEnvironment K W} fuel opts (s : fst_ (K := K) (W := W)) r s' :
  ftp_connect fuel opts s = (Done r, s') →
  f_options s'.1 = f_options s.1 ∧
  match r with
  | Ok _ => ∃ sock w1 s1 s2 s3 s4 feat s5,
      Client_connect (f_host s.1) (f_port s.1) (opt_timeout opts) s.2 = (Done (Ok sock), w1) ∧
      reset_socket (Some sock) (s.1, w1) = (Done tt, s1) ∧ greeting_read s1 true s2 ∧
      login_done fuel (opt_username opts) (txt "USER " ++ opt_username opts) [331; 230] s2 s3 ∧
      login_done fuel (opt_password opts) (txt "PASS " ++ opt_password opts) [230; 231] s3 s4 ∧
      ask fuel (txt "FEAT") s4 = (Done feat, s5) ∧
      s' = (set_capabilities (features_of feat (f_capabilities s.1)) s5.1, s5.2)
  | Unexpected e =>
      (∃ w1, Client_connect (f_host s.1) (f_port s.1) (opt_timeout opts) s.2 =
         (Done (Unexpected e), w1) ∧ s' = (s.1, w1)) ∨
      (∃ s1, greeting_read s1 false s') ∨ f_socket s'.1 = None
  end.
Proof. apply ftp_connect_inv. Qed.

(** A server that greets, accepts the login and lists its features. *)
Definition login_environment : FtpEnvironment (socket ftp_net) ftp_net := {|
  Client_connect _ _ _ := mret (Ok (Socket 0 TcpSocketClass ControlChannel []));
  address_to_string _ := txt "127.0.0.1";
  system_clock_now _ := 0
|}.

Definition login_net (pass_response : bytes) : ftp_net :=
  FtpNet (MemNet (txt "220 hello" ++ CRLF) [] 100 true false) (MemNet [] [] 4 true false)
    [ txt "331 password please" ++ CRLF; pass_response ++ CRLF;
      txt "211-Features:" ++ CRLF ++ txt " SIZE" ++ CRLF ++ txt "211 end" ++ CRLF ].

Definition login_start (pass_response : bytes) : fst_ (K := socket ftp_net) (W := ftp_net) :=
  (FtpFileTransfer_new (txt "localhost") 21, login_net pass_response).

Lemma ftp_connect_correct_witness :
  let D := socket_DualSocket 200 in
  let E := login_environment in
  let opts := default_options in
  let s := login_start (txt "230 welcome") in
  let s' := (ftp_connect 50 opts s).2 in
  ftp_connect 50 opts s = (Done (Ok tt), s') ∧ cap_size (f_capabilities s'.1) = true ∧
  (ftp_connect 50 opts (login_start (txt "530 no"))).1 =
    Done (Unexpected (make_error_code PROTOCOL_ERROR)) ∧
  f_options s'.1 = f_options s.1 ∧
  ∃ sock w1 s1 s2 s3 s4 feat s5,
    Client_connect (f_host s.1) (f_port s.1) (opt_timeout opts) s.2 = (Done (Ok sock), w1) ∧
    reset_socket (Some sock) (s.1, w1) = (Done tt, s1) ∧ greeting_read s1 true s2 ∧
    login_done 50 (opt_username opts) (txt "USER " ++ opt_username opts) [331; 230] s2 s3 ∧
    login_done 50 (opt_password opts) (txt "PASS " ++ opt_password opts) [230; 231] s3 s4 ∧
    ask 50 (txt "FEAT") s4 = (Done feat, s5) ∧
    s' = (set_capabilities (features_of feat (f_capabilities s.1)) s5.1, s5.2).
Proof.
  intros D E opts s s'.
  assert (ftp_connect 50 opts s = (Done (Ok tt), s')) as Hr by by vm_compute.
  split; [exact Hr|]. split; [by vm_compute|]. split; [by vm_compute|].
  exact (ftp_connect_correct 50 opts s _ _ Hr).
Defined.
