(* ===== verification/FtpServer.v ===== *)
(** A file server at the other end of the FTP client: what the theorems on whole sessions
    assume of the peer, over a state of its own, and a small server that is like that. The
    server is not a part of the program. What is assumed is within RFC 959 and RFC 3659,
    but narrower, because the client is: of the replies that RFC 959 allows it accepts
    only 150 before a transfer and 226 after it, not 125 and 250, and only 331 or 230 to
    USER and 230 (or 231) to PASS, not 202. *)

From S2P Require Import Prelude FileTree FsPath FtpUtils FtpParse FtpFileTransfer.

(** ** The interface *)

(** What the server's data connection is there for: none is open; one is awaited at the
    announced address; one is open and no transfer has begun; or it carries an upload to
    [l], of which [got] has arrived. A download needs no phase of its own: its data are
    given to the connection at once. *)
Inductive data_phase :=
| NoData
| Listening (ip port : Z)
| Connected
| Receiving (l : list bytes) (got : bytes).

(** What a command brings: responses on the control connection, and possibly the data of
    a download, with which the data connection ends. *)
Record reaction (S : Type) := Reaction {
  replies : list (list bytes);
  download : option bytes;
  after : S
}.
Arguments Reaction {S} replies download after.
Arguments replies {S} r.
Arguments download {S} r.
Arguments after {S} r.

(** [srv_session] begins a session, [srv_accept] takes the data connection that was
    awaited, [srv_receive] takes bytes that arrive on it, [srv_finish] is what happens
    when the client has closed it, and [srv_leave] when the client has closed the control
    connection. *)
Class FtpServer (S : Type) := {
  srv_cwd : S → list bytes;
  srv_entry : S → list bytes → option entry;
  srv_data : S → data_phase;
  srv_greeting : bytes;
  srv_session : S → S;
  srv_command : bytes → S → reaction S;
  srv_accept : S → S;
  srv_receive : bytes → S → S;
  srv_finish : S → list (list bytes) * S;
  srv_leave : S → S
}.

(** ** The promises *)

(** The lines of a response with the code [c], and responses as they are sent. *)
Definition reply_of (c : Z) (ls : list bytes) : Prop := ∃ d, ftp_reply d ls ∧ decimal d = c.
Definition wire (rs : list (list bytes)) : bytes := concat (lines_text <$> rs).

Section promises.
Context {S : Type} `{FtpServer S}.
Implicit Types s : S.

(** A command that is answered with one response and needs no data connection. *)
Definition replies_with (cmd : bytes) s (c : Z) (ls : list bytes) s' : Prop :=
  reply_of c ls ∧ srv_command cmd s = Reaction [ls] None s'.

Definition same_files s s' : Prop := ∀ l, srv_entry s' l = srv_entry s l.

(** The server after a command that only asks. *)
Definition asked s s' : Prop := srv_cwd s' = srv_cwd s ∧ same_files s s'.

(** The server has [e] at [l], and everything else as before. *)
Definition replaced (l : list bytes) (e : option entry) s s' : Prop :=
  srv_cwd s' = srv_cwd s ∧ ∀ l', srv_entry s' l' = if bool_decide (l' = l) then e else srv_entry s l'.
End promises.

(** [srv_fresh] is a session whose greeting was sent, and [srv_ready] one that is logged in
    with an account of [srv_account]. SIZE and MLST are promised if the server has them,
    which it says in its answer to FEAT; one without FEAT has neither, as far as the client
    can tell. What is sent at a time is shorter than [srv_limit]. *)
Class FtpServerSpec (S : Type) `{FtpServer S} := {
  srv_limit : nat;
  srv_has_size : bool;
  srv_has_mlst : bool;
  srv_account : bytes → bytes → Prop;
  srv_fresh : S → Prop;
  srv_ready : S → Prop;
  srv_replies_limited cmd s : (length (wire (replies (srv_command cmd s))) < srv_limit)%nat;
  srv_finish_limited s : (length (wire (srv_finish s).1) < srv_limit)%nat;
  srv_greets : proper_line srv_greeting ∧ (length srv_greeting + 2 ≤ 512)%nat ∧
    (length srv_greeting + 2 < srv_limit)%nat;
  srv_root s : srv_entry s [] = Some Directory;
  srv_parent s l x : srv_entry s (l ++ [x]) ≠ None → srv_entry s l = Some Directory;
  session_begins s : srv_fresh (srv_session s) ∧ same_files s (srv_session s);
  session_ends s : srv_ready s → same_files s (srv_leave s);
  login_accepted s name pass :
    srv_fresh s → srv_account name pass →
    ∃ c1 ls1 s1 c2 ls2 s2, c1 ∈ [331; 230] ∧ replies_with (txt "USER " ++ name) s c1 ls1 s1 ∧
      c2 ∈ [230; 231] ∧ replies_with (txt "PASS " ++ pass) s1 c2 ls2 s2 ∧
      srv_ready s2 ∧ srv_cwd s2 = [] ∧ same_files s s2;
  cmd_feat s :
    srv_ready s →
    ∃ c ls s', replies_with (txt "FEAT") s c ls s' ∧ srv_ready s' ∧ asked s s' ∧
      let caps := if bool_decide (c = 211) then parseFeatures (lines_text ls) default_capabilities
                  else default_capabilities in
      cap_size caps = srv_has_size ∧ cap_mlst caps = srv_has_mlst;
  cmd_up s :
    srv_ready s → srv_cwd s ≠ [] →
    ∃ ls s', replies_with (txt "CWD " ++ dotdot) s 250 ls s' ∧ srv_ready s' ∧
      srv_cwd s' = removelast (srv_cwd s) ∧ same_files s s';
  cmd_down s d :
    srv_ready s → plain_name d →
    ∃ c ls s', replies_with (txt "CWD " ++ d) s c ls s' ∧ srv_ready s' ∧ same_files s s' ∧
      if bool_decide (srv_entry s (srv_cwd s ++ [d]) = Some Directory)
      then c = 250 ∧ srv_cwd s' = srv_cwd s ++ [d]
      else c = 550 ∧ srv_cwd s' = srv_cwd s;
  cmd_size s n :
    srv_ready s → plain_name n → srv_has_size = true →
    ∃ c ls s', replies_with (txt "SIZE " ++ n) s c ls s' ∧ srv_ready s' ∧ asked s s' ∧
      c = if bool_decide (kind_of (srv_entry s (srv_cwd s ++ [n])) = Some false) then 213 else 550;
  cmd_mlst s n :
    srv_ready s → plain_name n → srv_has_mlst = true →
    ∃ c ls s', replies_with (txt "MLST " ++ n) s c ls s' ∧ srv_ready s' ∧ asked s s' ∧
      match srv_entry s (srv_cwd s ++ [n]) with
      | None => c = 550
      | Some e => c = 250 ∧ ∃ pre post,
          search (txt "type=") (lines_text ls) = Some (length pre) ∧
          lines_text ls = pre ++ txt "type=" ++ txt (if is_dir e then "dir;" else "file;") ++ post
      end;
  cmd_mkd s n :
    srv_ready s → plain_name n → srv_entry s (srv_cwd s) = Some Directory →
    ∃ c ls s', replies_with (txt "MKD " ++ n) s c ls s' ∧ srv_ready s' ∧
      if bool_decide (srv_entry s (srv_cwd s ++ [n]) = None)
      then c = 257 ∧ replaced (srv_cwd s ++ [n]) (Some Directory) s s'
      else c = 550 ∧ asked s s';
  cmd_dele s n :
    srv_ready s → plain_name n → srv_entry s (srv_cwd s) = Some Directory →
    ∃ c ls s', replies_with (txt "DELE " ++ n) s c ls s' ∧ srv_ready s' ∧
      if bool_decide (kind_of (srv_entry s (srv_cwd s ++ [n])) = Some false)
      then c = 250 ∧ replaced (srv_cwd s ++ [n]) None s s'
      else c = 550 ∧ asked s s';
  cmd_rmd s n :
    srv_ready s → plain_name n → srv_entry s (srv_cwd s ++ [n]) = Some Directory →
    ∃ c ls s', replies_with (txt "RMD " ++ n) s c ls s' ∧ srv_ready s' ∧
      ((∀ x, srv_entry s ((srv_cwd s ++ [n]) ++ [x]) = None) ∧ c = 250 ∧
         replaced (srv_cwd s ++ [n]) None s s' ∨
       (∃ x, srv_entry s ((srv_cwd s ++ [n]) ++ [x]) ≠ None) ∧ c = 550 ∧ asked s s');
  cmd_pasv s :
    srv_ready s →
    ∃ ls s' ip port, replies_with (txt "PASV") s 227 ls s' ∧ srv_ready s' ∧ asked s s' ∧
      parsePasvResponse (lines_text ls) = Some (ip, port) ∧ srv_data s' = Listening ip port;
  data_accepted s ip port :
    srv_ready s → srv_data s = Listening ip port →
    srv_ready (srv_accept s) ∧ asked s (srv_accept s) ∧ srv_data (srv_accept s) = Connected;
  cmd_retr s n :
    srv_ready s → plain_name n → srv_data s = Connected →
    match content_of (srv_entry s (srv_cwd s ++ [n])) with
    | Some b => ∃ ls1 ls2 s', reply_of 150 ls1 ∧ reply_of 226 ls2 ∧
        srv_command (txt "RETR " ++ n) s = Reaction [ls1; ls2] (Some b) s' ∧
        srv_ready s' ∧ asked s s' ∧ srv_data s' = NoData
    | None => ∃ ls s', replies_with (txt "RETR " ++ n) s 550 ls s' ∧ srv_ready s' ∧ asked s s' ∧
        srv_data s' = Connected
    end;
  cmd_stor s n :
    srv_ready s → plain_name n → srv_data s = Connected → srv_entry s (srv_cwd s) = Some Directory →
    ∃ c ls s', replies_with (txt "STOR " ++ n) s c ls s' ∧ srv_ready s' ∧ asked s s' ∧
      if bool_decide (srv_entry s (srv_cwd s ++ [n]) = Some Directory)
      then c = 550 ∧ srv_data s' = Connected
      else c = 150 ∧ srv_data s' = Receiving (srv_cwd s ++ [n]) [];
  data_received s l b data :
    srv_ready s → srv_data s = Receiving l b →
    let s' := srv_receive data s in
    srv_ready s' ∧ asked s s' ∧ srv_data s' = Receiving l (b ++ data);
  (** the file is there when its upload has ended, and that is confirmed *)
  upload_ends s dir n b :
    srv_ready s → srv_data s = Receiving (dir ++ [n]) b → srv_entry s dir = Some Directory →
    srv_entry s (dir ++ [n]) ≠ Some Directory →
    ∃ ls s', srv_finish s = ([ls], s') ∧ reply_of 226 ls ∧ srv_ready s' ∧
      replaced (dir ++ [n]) (Some (File b)) s s';
  (** a data connection that carries no upload just goes *)
  data_ends s :
    srv_ready s → srv_data s = Connected ∨ srv_data s = NoData →
    ∃ s', srv_finish s = ([], s') ∧ srv_ready s' ∧ asked s s'
}.

(** ** A small server

    Its files are a [file_tree]; anybody may log in as "anonymous", with any password. *)
Record tree_ftp := TreeFtp {
  tf_files : file_tree;
  tf_cwd : list bytes;
  tf_named : bool;
  tf_in : bool;
  tf_data : data_phase
}.

Implicit Types v : tree_ftp.

Definition tf_at (n : bytes) v : list bytes := tf_cwd v ++ [n].
Definition tf_entry v (n : bytes) : option entry := tree_entry (tf_files v) (tf_at n v).

Definition tf_go (cwd : list bytes) v : tree_ftp := TreeFtp (tf_files v) cwd (tf_named v) (tf_in v) (tf_data v).
Definition tf_set (l : list bytes) (e : option entry) v : tree_ftp :=
  TreeFtp (tree_set l e (tf_files v)) (tf_cwd v) (tf_named v) (tf_in v) (tf_data v).
Definition tf_turn (d : data_phase) v : tree_ftp := TreeFtp (tf_files v) (tf_cwd v) (tf_named v) (tf_in v) d.
Definition tf_login (named in_ : bool) v : tree_ftp :=
  TreeFtp (tf_files v) (tf_cwd v) named in_ (tf_data v).

(** A response of one line. *)
Definition say (text : String.string) v : reaction tree_ftp := Reaction [[txt text]] None v.
Arguments say text%_string_scope v.
Definition no v : reaction tree_ftp := say "550 no" v.

Definition tf_user (n : bytes) v : reaction tree_ftp :=
  say "331 password please" (tf_login (bool_decide (n = txt "anonymous")) false v).
Definition tf_pass (_ : bytes) v : reaction tree_ftp :=
  if tf_named v then say "230 welcome" (tf_login true true v) else say "530 no" v.
Definition feat_lines : list bytes := [txt "211-Features"; txt " SIZE"; txt " MLST type*;"; txt "211 end"].
Definition tf_feat (_ : bytes) v : reaction tree_ftp := Reaction [feat_lines] None v.
Definition tf_change (d : bytes) v : reaction tree_ftp :=
  if bool_decide (d = dotdot) then say "250 ok" (tf_go (removelast (tf_cwd v)) v)
  else if bool_decide (tf_entry v d = Some Directory) then say "250 ok" (tf_go (tf_at d v) v) else no v.
Definition tf_size (n : bytes) v : reaction tree_ftp :=
  if bool_decide (kind_of (tf_entry v n) = Some false) then say "213 12" v else no v.
Definition mlst_lines (dir : bool) : list bytes :=
  [txt "250-"; txt (if dir then " type=dir;" else " type=file;"); txt "250 end"].
Definition tf_mlst (n : bytes) v : reaction tree_ftp :=
  match tf_entry v n with Some e => Reaction [mlst_lines (is_dir e)] None v | None => no v end.
Definition tf_mkd (n : bytes) v : reaction tree_ftp :=
  if bool_decide (tf_entry v n = None) then say "257 made" (tf_set (tf_at n v) (Some Directory) v) else no v.
Definition tf_dele (n : bytes) v : reaction tree_ftp :=
  if bool_decide (kind_of (tf_entry v n) = Some false) then say "250 ok" (tf_set (tf_at n v) None v) else no v.
Definition tf_rmd (n : bytes) v : reaction tree_ftp :=
  if bool_decide (tf_entry v n = Some Directory) && tree_empty (tf_at n v) (tf_files v)
  then say "250 ok" (tf_set (tf_at n v) None v) else no v.
Definition tf_pasv (_ : bytes) v : reaction tree_ftp :=
  say "227 (127,0,0,1,0,20)" (tf_turn (Listening 2130706433 20) v).
Definition tf_retr (n : bytes) v : reaction tree_ftp :=
  match content_of (tf_entry v n) with
  | Some b => Reaction [[txt "150 go"]; [txt "226 done"]] (Some b) (tf_turn NoData v)
  | None => no v
  end.
Definition tf_stor (n : bytes) v : reaction tree_ftp :=
  if bool_decide (tf_entry v n = Some Directory) then no v
  else say "150 go" (tf_turn (Receiving (tf_at n v) []) v).

(** The commands, and whether they need a login. *)
Definition tf_commands : list (bytes * bool * (bytes → tree_ftp → reaction tree_ftp)) :=
  [(txt "USER ", false, tf_user); (txt "PASS ", false, tf_pass); (txt "FEAT", true, tf_feat);
   (txt "CWD ", true, tf_change); (txt "SIZE ", true, tf_size); (txt "MLST ", true, tf_mlst);
   (txt "MKD ", true, tf_mkd); (txt "DELE ", true, tf_dele); (txt "RMD ", true, tf_rmd);
   (txt "PASV", true, tf_pasv); (txt "RETR ", true, tf_retr); (txt "STOR ", true, tf_stor)].

Fixpoint tf_dispatch (cs : list (bytes * bool * (bytes → tree_ftp → reaction tree_ftp))) (line : bytes) v
    : reaction tree_ftp :=
  match cs with
  | [] => say "500 what" v
  | (name, login, run) :: cs =>
      if starts_with name line then
        if login && negb (tf_in v) then say "530 no" v else run (drop (length name) line) v
      else tf_dispatch cs line v
  end.

Definition tf_finish v : list (list bytes) * tree_ftp :=
  match tf_data v with
  | Receiving l b => ([[txt "226 done"]], tf_set l (Some (File b)) (tf_turn NoData v))
  | _ => ([], tf_turn NoData v)
  end.

#[export] Instance tree_FtpServer : FtpServer tree_ftp := {|
  srv_cwd := tf_cwd;
  srv_entry v := tree_entry (tf_files v);
  srv_data := tf_data;
  srv_greeting := txt "220 hello";
  srv_session v := TreeFtp (tf_files v) [] false false NoData;
  srv_command := tf_dispatch tf_commands;
  srv_accept := tf_turn Connected;
  srv_receive b v :=
    match tf_data v with Receiving l got => tf_turn (Receiving l (got ++ b)) v | _ => v end;
  srv_finish := tf_finish;
  srv_leave v := v
|}.

(** Every command reaches its function: no name is a prefix of another. *)
Lemma tf_dispatch_spec i name login run n v :
  tf_commands !! i = Some (name, login, run) → login = false ∨ tf_in v = true →
  tf_dispatch tf_commands (name ++ n) v = run n v.
Proof.
  intros Hi Hl.
  assert (login && negb (tf_in v) = false) as Hb by (destruct Hl as [->| ->]; by rewrite ?andb_false_r).
  unfold tf_commands in *. do 12 (destruct i as [|i]; [injection Hi as <- <- <-; cbn [tf_dispatch];
    rewrite starts_with_app, Hb; by rewrite (drop_app_length (txt _))|]). done.
Qed.

(** All texts of the server are short. *)
Definition short (r : reaction tree_ftp) : Prop := (length (wire (replies r)) < 100)%nat.

Ltac short := unfold short; repeat case_match; vm_compute; lia.

Lemma tf_commands_short : Forall (λ c, ∀ n v, short (c.2 n v)) tf_commands.
Proof.
  repeat (apply Forall_cons; split); [..|by apply Forall_nil]; intros n v; simpl.
  - short.
  - unfold tf_pass. short.
  - short.
  - unfold tf_change. short.
  - unfold tf_size. short.
  - unfold tf_mlst. destruct (tf_entry v n) as [[]|]; short.
  - unfold tf_mkd. short.
  - unfold tf_dele. short.
  - unfold tf_rmd. short.
  - short.
  - unfold tf_retr. short.
  - unfold tf_stor. short.
Qed.

Lemma tf_dispatch_short cs line v :
  Forall (λ c, ∀ n v, short (c.2 n v)) cs → short (tf_dispatch cs line v).
Proof.
  induction 1 as [|[[name login] run] cs Hc _ IH]; simpl; [short|].
  destruct (starts_with name line); [|done]. destruct (login && _); [short|apply Hc].
Qed.

(** Responses of one line. *)
Ltac reply_lines :=
  repeat first
    [ apply List.Forall_nil | apply List.Forall_cons | split; [split; [done|by repeat constructor]|simpl; lia] ].

Lemma reply_one c d text :
  bool_decide (length d = 3%nat ∧ Forall (λ x, isdigit x = true) d ∧ decimal d = c ∧
    Forall (λ x, is_eol x = false) (d ++ txt " " ++ text) ∧ (length text < 1000)%nat) = true →
  reply_of c [d ++ txt " " ++ text].
Proof.
  intros (Hl & Hd & Hc & He & Ht)%bool_decide_eq_true. exists d. split; [|done].
  split_and!; [done|done| |left; by exists text].
  constructor; [|done]. split; [split; [by destruct d|done]|]. rewrite !length_app, Hl. simpl. lia.
Qed.

Lemma reply_feat : reply_of 211 feat_lines.
Proof.
  exists (txt "211"). split; [|by vm_compute].
  split_and!; [done|by repeat constructor|unfold feat_lines; reply_lines|].
  right. exists (txt "Features"), [txt " SIZE"; txt " MLST type*;"], (txt "end"). split; [done|].
  by repeat constructor.
Qed.

Lemma reply_mlst dir : reply_of 250 (mlst_lines dir).
Proof.
  exists (txt "250"). split; [|by vm_compute].
  split_and!; [done|by repeat constructor|destruct dir; unfold mlst_lines; reply_lines|].
  right. exists [], [txt (if dir then " type=dir;" else " type=file;")], (txt "end"). split; [done|].
  destruct dir; by repeat constructor.
Qed.

(** One of the one-line responses above. *)
Ltac replied :=
  match goal with
  | |- reply_of ?c [txt (String.String ?a (String.String ?b (String.String ?d (String.String ?sp ?t))))] =>
      exact (reply_one c (txt (String.String a (String.String b (String.String d String.EmptyString))))
        (txt t) ltac:(vm_compute; reflexivity))
  end.

(** A command that is answered with a known response. *)
Ltac answered_with c :=
  exists c; eexists _, _; split; [split; [|reflexivity]; first [replied | apply reply_mlst]|]; split; [done|].

(** The tree with something else at a name in the working directory. *)
Lemma tf_replaced n e v :
  tree_entry (tf_files v) (tf_cwd v) = Some Directory → tree_empty (tf_at n v) (tf_files v) = true →
  replaced (tf_at n v) e v (tf_set (tf_at n v) e v).
Proof. intros Hd He. split; [done|]. intros l. by apply tree_set_entry. Qed.

Lemma tf_no_directory n v : tf_entry v n ≠ Some Directory → tree_empty (tf_at n v) (tf_files v) = true.
Proof. intros Hn. apply tree_empty_spec. intros x. rewrite tree_entry_snoc. by rewrite bool_decide_false. Qed.

#[export] Program Instance tree_FtpServerSpec : FtpServerSpec tree_ftp := {|
  srv_limit := 100;
  srv_has_size := true;
  srv_has_mlst := true;
  srv_account name _ := name = txt "anonymous";
  srv_fresh v := tf_cwd v = [];
  srv_ready v := tf_in v = true
|}.
Next Obligation. intros cmd v. apply tf_dispatch_short, tf_commands_short. Qed.
Next Obligation. intros v. unfold srv_finish, tree_FtpServer, tf_finish. destruct (tf_data v); vm_compute; lia. Qed.
Next Obligation. split; [|vm_compute; lia]. split; [done|by repeat constructor]. Qed.
Next Obligation. done. Qed.
Next Obligation. intros v. apply tree_entry_parent. Qed.
Next Obligation. done. Qed.
Next Obligation. done. Qed.
Next Obligation.
  intros v name pass Hf ->. exists 331. eexists _, _. exists 230. eexists _, _.
  unfold replies_with, srv_command, tree_FtpServer.
  rewrite (tf_dispatch_spec 0 _ _ _ (txt "anonymous") v eq_refl) by by left.
  unfold tf_user. rewrite bool_decide_true by done. split; [set_solver|]. split; [split; [|reflexivity]; replied|].
  split; [set_solver|].
  rewrite (tf_dispatch_spec 1 _ _ _ pass _ eq_refl) by by left.
  split; [split; [|reflexivity]; replied|]. by split_and!.
Qed.
Next Obligation.
  intros v Hr. exists 211. eexists _, _. unfold replies_with, srv_command, tree_FtpServer.
  rewrite <- (app_nil_r (txt "FEAT")), (tf_dispatch_spec 2 _ _ _ [] v eq_refl) by by right.
  split; [split; [apply reply_feat|done]|]. split; [done|]. split; [done|]. by vm_compute.
Qed.
Next Obligation.
  intros v Hr Hne. eexists _, _. unfold replies_with, srv_command, tree_FtpServer.
  rewrite (tf_dispatch_spec 3 _ _ _ dotdot v eq_refl) by by right.
  unfold tf_change. rewrite bool_decide_true by done. split; [split; [|reflexivity]; replied|]. done.
Qed.
Next Obligation.
  intros v d Hr (_ & _ & Hd & _). unfold replies_with.
  cbn [srv_cwd srv_entry srv_data srv_command tree_FtpServer] in *.
  rewrite (tf_dispatch_spec 3 _ _ _ d v eq_refl) by by right. unfold tf_change, tf_entry, tf_at.
  rewrite (bool_decide_false (d = dotdot)) by done.
  case_bool_decide; [answered_with 250|answered_with 550]; done.
Qed.
Next Obligation.
  intros v d Hr _ _. unfold replies_with. cbn [srv_cwd srv_entry srv_data srv_command tree_FtpServer] in *.
  rewrite (tf_dispatch_spec 4 _ _ _ d v eq_refl) by by right. unfold tf_size, tf_entry, tf_at.
  case_bool_decide; [answered_with 213|answered_with 550]; done.
Qed.
Next Obligation.
  intros v d Hr _ _. unfold replies_with. cbn [srv_cwd srv_entry srv_data srv_command tree_FtpServer] in *.
  rewrite (tf_dispatch_spec 5 _ _ _ d v eq_refl) by by right. unfold tf_mlst, tf_entry, tf_at.
  destruct (tree_entry _ _) as [e|]; [answered_with 250|answered_with 550]; [|done].
  split; [done|]. split; [done|]. exists (txt "250-" ++ CRLF ++ txt " "), (CRLF ++ txt "250 end" ++ CRLF).
  by destruct e.
Qed.
Next Obligation.
  intros v d Hr _ Hdir. unfold replies_with. cbn [srv_cwd srv_entry srv_data srv_command tree_FtpServer] in *.
  rewrite (tf_dispatch_spec 6 _ _ _ d v eq_refl) by by right. unfold tf_mkd, tf_entry, tf_at.
  case_bool_decide as Hk; [answered_with 257|answered_with 550]; (split; [done|]); [|done].
  apply tf_replaced; [done|]. apply tf_no_directory. unfold tf_entry, tf_at. by rewrite Hk.
Qed.
Next Obligation.
  intros v d Hr _ Hdir. unfold replies_with. cbn [srv_cwd srv_entry srv_data srv_command tree_FtpServer] in *.
  rewrite (tf_dispatch_spec 7 _ _ _ d v eq_refl) by by right. unfold tf_dele, tf_entry, tf_at.
  case_bool_decide as Hk; [answered_with 250|answered_with 550]; (split; [done|]); [|done].
  apply tf_replaced; [done|]. apply tf_no_directory. unfold tf_entry, tf_at. intros E. by rewrite E in Hk.
Qed.
Next Obligation.
  intros v d Hr _ Hk. unfold replies_with. cbn [srv_cwd srv_entry srv_data srv_command tree_FtpServer] in *.
  rewrite (tf_dispatch_spec 8 _ _ _ d v eq_refl) by by right. unfold tf_rmd, tf_entry.
  rewrite bool_decide_true by done. cbn [andb].
  destruct (tree_empty (tf_at d v) (tf_files v)) eqn:He; [answered_with 250|answered_with 550].
  - left. split; [by apply tree_empty_spec|]. split; [done|]. apply tf_replaced; [|done].
    apply (tree_entry_parent _ _ d). by rewrite Hk.
  - right. split; [by apply tree_not_empty|done].
Qed.
Next Obligation.
  intros v Hr. eexists _, _, _, _. unfold replies_with, srv_command, tree_FtpServer.
  rewrite <- (app_nil_r (txt "PASV")), (tf_dispatch_spec 9 _ _ _ [] v eq_refl) by by right.
  split; [split; [|reflexivity]; replied|].
  split; [done|]. split; [done|]. split; [by vm_compute|done].
Qed.
Next Obligation. by intros v ip port Hr _. Qed.
Next Obligation.
  intros v d Hr _ Hd. unfold replies_with. cbn [srv_cwd srv_entry srv_data srv_command tree_FtpServer] in *.
  rewrite (tf_dispatch_spec 10 _ _ _ d v eq_refl) by by right. unfold tf_retr, tf_entry, tf_at.
  destruct (tree_entry _ _) as [[|b]|]; simpl.
  - eexists _, _. split; [split; [|reflexivity]; replied|]. done.
  - eexists _, _, _. split; [|split; [|split; [reflexivity|done]]]; replied.
  - eexists _, _. split; [split; [|reflexivity]; replied|]. done.
Qed.
Next Obligation.
  intros v d Hr _ Hd Hdir. unfold replies_with. cbn [srv_cwd srv_entry srv_data srv_command tree_FtpServer] in *.
  rewrite (tf_dispatch_spec 11 _ _ _ d v eq_refl) by by right. unfold tf_stor, tf_entry, tf_at.
  case_bool_decide; [answered_with 550|answered_with 150]; done.
Qed.
Next Obligation. intros v l b data Hr Hd. simpl in *. by rewrite Hd. Qed.
Next Obligation.
  intros v dir d b Hr Hd Hdir Hx. simpl in *. unfold tf_finish. rewrite Hd.
  eexists _, _. split; [reflexivity|]. split; [replied|]. split; [done|]. split; [done|].
  intros l. simpl. apply tree_set_entry; [done|]. apply tree_empty_spec. intros x.
  rewrite tree_entry_snoc. by rewrite bool_decide_false.
Qed.
Next Obligation. intros v Hr [Hd|Hd]; simpl in *; unfold tf_finish; rewrite Hd; by eexists. Qed.
