(* ===== verification/FtpNetwork.v ===== *)
(** The FTP client on the program's own sockets: a network whose other end is a file
    server, at the level of ASIO's operations, and the proof that commands, responses and
    data connections then do what FtpSession, FtpFiles and FtpStore assume of a server. *)

From S2P Require Import Prelude ErrorCodes ErrorTranslation SocketBase Socket FileTree FsPath Options TlsContext.
From S2P Require Import Client FtpUtils FtpParse FtpFileTransfer FtpClient FtpSession FtpFiles FtpStore FtpServer.

(** ** The network

    What an operation on some stream leaves alone: another stream ([undisturbed]), or
    everything that the client and the server can see ([quiet]). *)
Section quiet.
Context {W S : Type} `{AS : AsioSpec W}.
Variables (ended : stream W → W → Prop) (server_of : W → S) (control_of data_of : W → option (stream W)).

Definition undisturbed_by (h : stream W) (w w' : W) : Prop :=
  incoming h w' = incoming h w ∧ is_open h w' = is_open h w ∧
  (healthy h w → healthy h w') ∧ (ended h w → ended h w').

(** The connections are the same ones, and the server has not noticed anything. *)
Definition same_peers_of (w w' : W) : Prop :=
  server_of w' = server_of w ∧ control_of w' = control_of w ∧ data_of w' = data_of w.

Definition quiet_of (w w' : W) : Prop := same_peers_of w w' ∧ ∀ h, undisturbed_by h w w'.
End quiet.

(** A network in which nothing fails, with a server at [srv_host] and [srv_port]:
    [control_of] is the connection of the session and [data_of] the last data connection;
    [ended] is a stream that brings nothing but what is still [incoming]. A command is
    answered when its line arrives on an idle control connection, and what the server
    then sends is [incoming] at once: it is what the connection will deliver. *)
Class FtpNetwork (W S : Type) `{AS : AsioSpec W} `{AC : !AsioConnect W} `{SI : !SocketIds W}
    `{Sys : !SystemEnvironment W} `{SV : FtpServerSpec S} := {
  srv_host : bytes;
  srv_port : Z;
  server_of : W → S;
  control_of : W → option (stream W);
  data_of : W → option (stream W);
  ended : stream W → W → Prop;
  control_endpoint : endpoints → Prop;
  data_endpoint : Z → Z → endpoints → Prop;
  peers_differ w h : control_of w = Some h → data_of w ≠ Some h;
  (** connecting *)
  peer_pool w : pool_runs w = true;
  peer_resolve w :
    let '(ec, eps, w') := async_resolve srv_host (to_string srv_port) w in
    ec_bool ec = false ∧ control_endpoint eps ∧ quiet_of ended server_of control_of data_of w w';
  peer_resolve_data w ip port :
    srv_data (server_of w) = Listening ip port →
    let '(ec, eps, w') := async_resolve (sys_address_to_string ip) (to_string port) w in
    ec_bool ec = false ∧ data_endpoint ip port eps ∧ quiet_of ended server_of control_of data_of w w';
  peer_new_socket w :
    let '(h, w') := new_tcp_socket w in
    control_of w ≠ Some h ∧ quiet_of ended server_of control_of data_of w w';
  peer_dial h eps t w :
    control_endpoint eps →
    let '(first, ec, w') := connect_or_timer h eps t w in
    first ≠ 1%nat ∧ ec_bool ec = false ∧ control_of w' = Some h ∧ healthy h w' ∧
    incoming h w' = srv_greeting ++ CRLF ∧ server_of w' = srv_session (server_of w);
  peer_dial_data h eps t w ip port :
    srv_data (server_of w) = Listening ip port → data_endpoint ip port eps → control_of w ≠ Some h →
    let '(first, ec, w') := connect_or_timer h eps t w in
    first ≠ 1%nat ∧ ec_bool ec = false ∧ data_of w' = Some h ∧ healthy h w' ∧ incoming h w' = [] ∧
    server_of w' = srv_accept (server_of w) ∧ control_of w' = control_of w ∧
    ∀ h', h' ≠ h → undisturbed_by ended h' w w';
  peer_option h o w :
    let '(ec, w') := set_option h o w in
    ec_bool ec = false ∧ quiet_of ended server_of control_of data_of w w';
  peer_counter n w : quiet_of ended server_of control_of data_of w (set_id_counter n w);
  (** the streams *)
  peer_read h n t w c w' :
    async_read_some h n t w = (c, w') →
    same_peers_of server_of control_of data_of w w' ∧ (ended h w → ended h w') ∧
    ∀ h', h' ≠ h → undisturbed_by ended h' w w';
  peer_read_end h n t w c w' :
    (0 < n)%nat → ended h w → incoming h w = [] →
    async_read_some h n t w = (c, w') → rc_ec c = asio_error eof;
  peer_command h cmd t w c w' :
    control_of w = Some h → healthy h w → incoming h w = [] → CR ∉ cmd → LF ∉ cmd →
    async_write h (cmd ++ CRLF) t w = (c, w') →
    let a := srv_command cmd (server_of w) in
    server_of w' = after a ∧ control_of w' = control_of w ∧ data_of w' = data_of w ∧
    incoming h w' = wire (replies a) ∧
    ∀ d, data_of w = Some d →
      match download a with
      | None => undisturbed_by ended d w w'
      | Some b => incoming d w' = incoming d w ++ b ∧ (healthy d w → healthy d w') ∧ ended d w'
      end;
  peer_upload h b t w c w' :
    data_of w = Some h → healthy h w → async_write h b t w = (c, w') →
    server_of w' = srv_receive b (server_of w) ∧ control_of w' = control_of w ∧
    data_of w' = data_of w ∧ ∀ k, control_of w = Some k → undisturbed_by ended k w w';
  peer_cancel h w : quiet_of ended server_of control_of data_of w (cancel h w) ∧
    quiet_of ended server_of control_of data_of w (emit_cancel_signal h w);
  peer_leave h w :
    control_of w = Some h → is_open h w = true →
    server_of (close h (shutdown_send h w)) = srv_leave (server_of w);
  peer_finish h w :
    data_of w = Some h → is_open h w = true →
    let w' := close h (shutdown_send h w) in
    let '(rs, v) := srv_finish (server_of w) in
    server_of w' = v ∧ control_of w' = control_of w ∧
    ∀ k, control_of w = Some k →
      incoming k w' = incoming k w ++ wire rs ∧ (healthy k w → healthy k w')
}.

(** ** Lemmas *)

Section network.
Context {W S : Type} `{N : FtpNetwork W S}.
Implicit Types w : W.
Implicit Types s : fst_ (K := socket W) (W := W).

Definition undisturbed : stream W → W → W → Prop := undisturbed_by ended.
Definition same_peers : W → W → Prop := same_peers_of server_of control_of data_of.
Definition quiet_world : W → W → Prop := quiet_of ended server_of control_of data_of.

#[export] Instance undisturbed_preorder h : PreOrder (undisturbed h).
Proof.
  split; [by intros w|]. intros w1 w2 w3 (Hi1 & Ho1 & Hh1 & He1) (Hi2 & Ho2 & Hh2 & He2).
  split_and!; [congruence|congruence|by auto|by auto].
Qed.

#[export] Instance same_peers_preorder : PreOrder same_peers.
Proof.
  split; [by intros w|]. intros w1 w2 w3 (H1 & H2 & H3) (H4 & H5 & H6). split_and!; congruence.
Qed.

#[export] Instance quiet_world_preorder : PreOrder quiet_world.
Proof.
  split; [by intros w|]. intros w1 w2 w3 [Hp1 Hu1] [Hp2 Hu2].
  split; [by etrans|]. intros h. transitivity w2; [apply Hu1|apply Hu2].
Qed.

(** Only [h] was read from. *)
Definition read_from (h : stream W) w w' : Prop :=
  same_peers w w' ∧ (ended h w → ended h w') ∧ ∀ h', h' ≠ h → undisturbed h' w w'.

#[export] Instance read_from_preorder h : PreOrder (read_from h).
Proof.
  split; [by intros w|]. intros w1 w2 w3 (Hp1 & He1 & Hu1) (Hp2 & He2 & Hu2).
  split_and!; [by etrans|by auto|]. intros h' Hne. transitivity w2; [by apply Hu1|by apply Hu2].
Qed.

(** The same for a socket that reads. *)
Definition socket_reads (s s' : st W) : Prop :=
  s_stream s'.1 = s_stream s.1 ∧ s_class s'.1 = s_class s.1 ∧ read_from (s_stream s.1) s.2 s'.2.

#[export] Instance socket_reads_preorder : PreOrder socket_reads.
Proof.
  split; [by intros s|]. intros s1 s2 s3 (Hs1 & Hc1 & Hr1) (Hs2 & Hc2 & Hr2).
  rewrite Hs1 in Hr2. split_and!; [congruence|congruence|by etrans].
Qed.

Lemma socket_reads_only fuel md out d t :
  steps socket_reads (socket_readSome md out t) ∧ steps socket_reads (socket_readExact md out t) ∧
  steps socket_reads (socket_readUntil fuel md out d t).
Proof.
  apply socket_read_steps; [apply _|done|]. intros n t' s. split_and!; [done|done|].
  destruct (async_read_some (s_stream s.1) n t' s.2) as [c w'] eqn:Hr. exact (peer_read _ _ _ _ _ _ Hr).
Qed.

Lemma receiveResponse_reads fuel n t :
  steps socket_reads (receiveResponse (H := socket_DualSocket n) fuel t).
Proof.
  assert (∀ m buf tmp, steps socket_reads (response_loop (H := socket_DualSocket n) m buf tmp t)) as Hloop.
  { induction m as [|m IH]; intros buf tmp; simpl; [by apply steps_here; [apply _|]|].
    apply steps_bind; [apply _|apply (socket_reads_only n Sync tmp CRLF)|]. intros [r tmp'].
    destruct r; steps. }
  unfold receiveResponse. steps.
Qed.

(** A write on a connection without faults is one operation of ASIO. *)
Lemma socket_write_run md b t (k : st W) :
  ok k → ∃ c w', async_write (s_stream k.1) b (default hours24 t) k.2 = (c, w') ∧
    ec_bool (wc_ec c) = false ∧ socket_writeAll md b t k = (Done (Ok (length b)), set_world w' k).
Proof.
  intros Hok. destruct (ok_connected k Hok) as [Hc He].
  destruct (async_write (s_stream k.1) b (default hours24 t) k.2) as [c w'] eqn:Hw.
  destruct (healthy_write _ _ _ _ _ _ Hok Hw) as (Hec & _ & _).
  destruct (write_complete _ _ _ _ _ _ Hw Hec) as [Hl _].
  exists c, w'. split_and!; [done|done|].
  assert (asyncWriteAllCommon b t k = (Done (Ok (length b)), set_world w' k)) as Ha.
  { unfold asyncWriteAllCommon, mbind, M_bind, gets. cbn beta iota. rewrite Hc. cbn [negb].
    by rewrite Hw, Hec, Hl. }
  destruct md; simpl; [|done]. unfold block_on. by rewrite He, Ha.
Qed.

(** At the end of a stream a read says so. *)
Lemma socket_readSome_end md out t (k : st W) :
  out ≠ [] → ok k → rxs k = [] → ended (s_stream k.1) k.2 →
  wp (socket_readSome md out t) (λ ro _, ro.1 = Unexpected (asio_error eof)) k.
Proof.
  intros Hout Hok Hrx Hend. destruct (ok_connected k Hok) as [Hc He].
  apply app_eq_nil in Hrx as [Hb Hi].
  assert (length (zeros (length out)) = length out) as Hz by (by unfold zeros; rewrite length_replicate).
  assert (0 < length out)%nat as Hpos by (destruct out; [done|simpl; lia]).
  assert (wp (asyncReadSomeCommon out t) (λ ro _, ro.1 = Unexpected (asio_error eof)) k) as Ha.
  { unfold asyncReadSomeCommon. wp_steps. rewrite Hc. simpl. rewrite bool_decide_false by by destruct out.
    wp_steps. rewrite bool_decide_true by done. rewrite Hz. unfold read_more. wp_steps.
    unfold wp, asyncReadWithTimeout. simpl.
    destruct (async_read_some _ _ _ _) as [c w'] eqn:Hr.
    pose proof (peer_read_end _ _ _ _ _ _ Hpos Hend Hi Hr) as ->. rewrite asio_error_set.
    rewrite bool_decide_false by (by intros ?%(inj asio_error)). done. }
  destruct md; simpl; [|done]. apply block_on_wp; [|done]. by rewrite He.
Qed.

(** ** Connecting *)

(** [connect] of the client: a socket that is new, on the stream that was dialled. [Q]
    says what dialling brings. *)
Lemma connect_dials (leads : endpoints → Prop) (Q : stream W → W → Prop) c t w :
  (let '(ec, eps, w') := async_resolve (host c) (to_string (port c)) w in
   ec_bool ec = false ∧ leads eps ∧ quiet_world w w') →
  (∀ h eps w1, leads eps → quiet_world w w1 → control_of w1 ≠ Some h →
     let '(first, ec, w2) := connect_or_timer h eps t w1 in
     first ≠ 1%nat ∧ ec_bool ec = false ∧ Q h w2) →
  (∀ h w1 w2, Q h w1 → quiet_world w1 w2 → Q h w2) →
  wp (connect c t default_tcp_options) (λ r w', ∃ k, r = Ok k ∧ s_class k = TcpSocketClass ∧
    s_buf k = [] ∧ Q (s_stream k) w') w.
Proof.
  intros Hres Hdial HQ. unfold connect.
  assert (wp (asyncConnect c t default_tcp_options) (λ r w', ∃ k, r = Ok k ∧
    s_class k = TcpSocketClass ∧ s_buf k = [] ∧ Q (s_stream k) w') w) as Hw.
  2: { unfold wp, blocking in *. rewrite peer_pool. by destruct (asyncConnect _ _ _ w) as [[] ?]. }
  unfold asyncConnect, resolve. do 2 wp_step. unfold wp at 1, run.
  destruct (async_resolve _ _ w) as [[ec eps] w1]. destruct Hres as (Hec & Hleads & Hq1).
  rewrite Hec. do 2 wp_step. unfold wp at 1. pose proof (peer_new_socket w1) as Hnew.
  destruct (new_tcp_socket w1) as [h w2]. destruct Hnew as [Hne Hq2].
  assert (quiet_world w w2) as Hq by by etrans.
  assert (control_of w2 ≠ Some h) as Hne2 by (destruct Hq2 as [(_ & -> & _) _]; done).
  specialize (Hdial h eps w2 Hleads Hq Hne2). unfold or_destroy, connect_within. do 3 wp_step.
  unfold wp at 1, run. destruct (connect_or_timer h eps t w2) as [[first ec3] w3].
  destruct Hdial as (Hfirst & Hec3 & HQ3). rewrite bool_decide_false, Hec3 by done. wp_steps.
  unfold applyPreConnectTcpOptions, set_socket_option, when, run. cbn [nodelay default_tcp_options
    keepalive_idle keepalive_interval keepalive_count send_buf_size recv_buf_size linger_timeout].
  do 2 wp_step. unfold wp at 1. pose proof (peer_option h (opt_no_delay true) w3) as Hopt.
  destruct (set_option h (opt_no_delay true) w3) as [ec4 w4]. destruct Hopt as [-> Hq4]. wp_steps.
  rewrite bool_decide_false by (by intros []). cbn [orb]. wp_steps.
  unfold make_socket. wp_steps. eexists. split_and!; [done|done|done|].
  eapply HQ; [|apply peer_counter]. by eapply HQ.
Qed.

(** ** The control connection *)

(** The client holds the connection of the session, and [pending] is what it will still
    get from it. *)
Definition at_control (pending : bytes) s : Prop :=
  ∃ k, f_socket s.1 = Some k ∧ s_class k = TcpSocketClass ∧ control_of s.2 = Some (s_stream k) ∧
    ok (k, s.2) ∧ rxs (k, s.2) = pending.

Lemma undisturbed_ok (k : socket W) w w' :
  undisturbed (s_stream k) w w' → ok (k, w) → ok (k, w') ∧ rxs (k, w') = rxs (k, w).
Proof. intros (Hi & _ & Hh & _) Hok. split; [by apply Hh|]. unfold rxs, inc. simpl. by rewrite Hi. Qed.

(** What does not disturb the control connection leaves the session as it is. *)
Lemma at_control_undisturbed p s w' :
  at_control p s → control_of w' = control_of s.2 →
  (∀ h, control_of s.2 = Some h → undisturbed h s.2 w') → at_control p (s.1, w').
Proof.
  intros (k & Hk & Hcl & Hc & Hok & Hrx) Hsame Hu.
  destruct (undisturbed_ok k s.2 w') as [Hok' Hrx']; [by apply Hu|done|].
  exists k. split_and!; [done|done|simpl; congruence|done|simpl; congruence].
Qed.

Lemma at_control_quiet p s w' : at_control p s → quiet_world s.2 w' → at_control p (s.1, w').
Proof. intros Hs [(_ & Hc & _) Hu]. apply at_control_undisturbed; [done|done|]. intros h _. apply Hu. Qed.

(** The limits of the server are within those of the search for a line ([n]) and of the
    receiving loop. *)
Class EnoughFuel (n fuel : nat) := enough_fuel : (srv_limit ≤ n)%nat ∧ (srv_limit ≤ fuel)%nat.

Section control.
Context {n fuel : nat} `{EF : !EnoughFuel n fuel}.
Let D : DualSocket (socket W) W := socket_DualSocket n.
#[local] Existing Instance D | 0.
#[local] Existing Instance socket_LineSocketSpec.

(** Taking a response off the control connection. *)
Lemma receive_at_control c ls rs s :
  at_control (wire (ls :: rs)) s → reply_of c ls → (length (wire (ls :: rs)) < srv_limit)%nat →
  wp (receive_response fuel) (λ r s', r = Ok {| full_msg := lines_text ls; code := c |} ∧
    at_control (wire rs) s' ∧ ∃ h, control_of s.2 = Some h ∧ read_from h s.2 s'.2) s.
Proof.
  intros (k & Hk & Hcl & Hc & Hok & Hrx) (d & Hreply & <-) Hlim. destruct enough_fuel as [Hn Hf].
  change (wire (ls :: rs)) with (lines_text ls ++ wire rs) in *.
  assert (length ls ≤ fuel)%nat as Hls.
  { pose proof (lines_text_length ls). rewrite length_app in Hlim. lia. }
  unfold receive_response, control_timeout. wp_steps. unfold wp, on_control. rewrite Hk.
  pose proof (receive_reply fuel d ls (wire rs) (opt_timeout (f_options s.1)) k s.2) as Hw.
  simpl in Hw. rewrite Hrx in Hw. specialize (Hw Hok Hreply eq_refl ltac:(lia) Hls).
  pose proof (steps_wlp _ _ (k, s.2) (receiveResponse_reads fuel n (opt_timeout (f_options s.1)))) as Hr.
  unfold wp in Hw. unfold wlp in Hr.
  destruct (receiveResponse _ _ _) as [[r| | |] [k' w']]; [|done..].
  destruct Hw as (-> & Hrx' & _ & Hok'), Hr as (Hst & Hcl' & Hread). simpl in *.
  split; [done|]. split; [|by exists (s_stream k)].
  exists k'. destruct Hread as [(_ & Hcw & _) _]. split_and!; [done|congruence|simpl; congruence|done|done].
Qed.

(** A command and its first response. What the other responses say is still to come, and
    the data connection has got the data, if there are any. *)
Lemma ask_at_control cmd c ls rs data v s :
  at_control [] s → CR ∉ cmd → LF ∉ cmd →
  srv_command cmd (server_of s.2) = Reaction (ls :: rs) data v → reply_of c ls →
  wp (ask fuel cmd) (λ r s', r = Ok {| full_msg := lines_text ls; code := c |} ∧
    at_control (wire rs) s' ∧ server_of s'.2 = v ∧ data_of s'.2 = data_of s.2 ∧
    ∀ d, data_of s.2 = Some d →
      match data with
      | None => undisturbed d s.2 s'.2
      | Some b => incoming d s'.2 = incoming d s.2 ++ b ∧
          (healthy d s.2 → healthy d s'.2) ∧ ended d s'.2
      end) s.
Proof.
  intros (k & Hk & Hcl & Hc & Hok & Hrx) Hcr Hlf Hcmd Hreply.
  unfold ask, control_timeout. wp_step. rewrite wp_gets. set (t := opt_timeout (f_options s.1)).
  destruct (socket_write_run Sync (cmd ++ CRLF) (Some t) (k, s.2) Hok) as (cw & w1 & Hw & Hec & Hrun).
  apply app_eq_nil in Hrx as [Hb Hi].
  pose proof (peer_command _ _ _ _ _ _ Hc Hok Hi Hcr Hlf Hw) as Hp.
  destruct (healthy_write _ _ _ _ _ _ Hok Hw) as (_ & Hok1 & _).
  rewrite Hcmd in Hp. destruct Hp as (Hsv & Hcw & Hdw & Hin & Hdata). simpl in Hin, Hsv, Hdata.
  pose proof (srv_replies_limited cmd (server_of s.2)) as Hlim. rewrite Hcmd in Hlim. simpl replies in Hlim.
  assert (at_control (wire (ls :: rs)) (s.1, w1)) as Hat.
  { exists k. split_and!; [done|done|simpl; congruence|done|].
    unfold rxs, inc, read_buffer in *. simpl in *. by rewrite Hb. }
  pose proof (receive_at_control c ls rs (s.1, w1) Hat Hreply Hlim) as Hr.
  unfold receive_response, control_timeout in Hr. rewrite wp_bind, wp_gets in Hr.
  unfold wp, on_control in *. rewrite Hk. unfold sendAndReceiveResponse, sendCommand.
  unfold bind_expected, mbind, M_bind. change (writeAll Sync (cmd ++ CRLF) (Some t) (k, s.2)) with
    (socket_writeAll Sync (cmd ++ CRLF) (Some t) (k, s.2)). rewrite Hrun. cbn [mret M_ret].
  change (set_world w1 (k, s.2)) with (k, w1). cbn [fst snd] in Hr |- *. rewrite Hk in Hr. fold t in Hr.
  destruct (receiveResponse fuel t (k, w1)) as [[r| | |] [k' w']]; [|done..].
  destruct Hr as (-> & Hat' & h & Hh & Hpeers & _ & Hother). cbn [fst snd] in *.
  destruct Hpeers as (Hs2 & Hc2 & Hd2). simpl in *.
  split_and!; [done|done|congruence|congruence|]. intros d Hd. specialize (Hdata d Hd).
  assert (d ≠ h) as Hne.
  { intros ->. apply (peers_differ w1 h); congruence. }
  specialize (Hother d Hne). destruct data as [b|]; [|by etrans].
  destruct Hother as (Hi' & _ & Hh' & He'), Hdata as (Hi1 & Hh1 & He1).
  split_and!; [congruence|by auto|by auto].
Qed.

(** ** The server behind the commands *)

(** The client believes in no more than what the server has. *)
Definition knows (caps : FtpCapabilities) : Prop :=
  (cap_size caps = true → srv_has_size = true) ∧ (cap_mlst caps = true → srv_has_mlst = true).

Definition online s : Prop :=
  at_control [] s ∧ srv_ready (server_of s.2) ∧ knows (f_capabilities s.1).

Lemma command_outcome cmd s c ls v :
  online s → (CR ∉ cmd) ∧ LF ∉ cmd → replies_with cmd (server_of s.2) c ls v → srv_ready v →
  wp (ask fuel cmd) (λ r s', r = Ok {| full_msg := lines_text ls; code := c |} ∧ online s' ∧
    server_of s'.2 = v) s.
Proof.
  intros (Hat & _ & Hk) [Hcr Hlf] [Hreply Hcmd] Hv.
  eapply wp_mono; [by apply ask_wp, ask_at_control|].
  intros r s' ((-> & Hat' & Hsv & _) & _ & Hc). unfold online. by rewrite Hsv, Hc.
Qed.

Lemma plain_command p d :
  bool_decide ((CR ∉ p) ∧ LF ∉ p) = true → plain_name d → (CR ∉ p ++ d) ∧ LF ∉ p ++ d.
Proof. intros [H1 H2]%bool_decide_eq_true (_ & _ & _ & _ & H3 & H4). rewrite !not_elem_of_app. by split. Qed.

#[export] Program Instance network_FileServer : FileServer (socket W) W fuel := {|
  fs_online := online;
  fs_cwd s := srv_cwd (server_of s.2);
  fs_entry s := srv_entry (server_of s.2)
|}.
Next Obligation. intros s. apply srv_root. Qed.
Next Obligation. intros s. apply srv_parent. Qed.
Next Obligation. intros s p (Hat & Hr & Hk). by split_and!. Qed.
Next Obligation.
  intros s Hs Hne. destruct (cmd_up _ (proj1 (proj2 Hs)) Hne) as (ls & v & Hcmd & Hv & Hcwd & Hl).
  eapply wp_mono; [eapply (command_outcome _ _ _ _ _ Hs); [|exact Hcmd|done]|].
  { apply (bool_decide_eq_true_1 _). by vm_compute. }
  intros r s' (-> & Hon & ->). by eexists.
Qed.
Next Obligation.
  intros s d Hs Hd. destruct (cmd_down _ d (proj1 (proj2 Hs)) Hd) as (c & ls & v & Hcmd & Hv & Hl & Hr).
  eapply wp_mono; [eapply (command_outcome _ _ _ _ _ Hs); [by apply plain_command|exact Hcmd|done]|].
  intros r s' (-> & Hon & ->). by eexists.
Qed.
Next Obligation.
  intros s d Hs Hd Hcap. pose proof Hs as (_ & Hready & Hk).
  destruct (cmd_size _ d Hready Hd (proj1 Hk Hcap)) as (c & ls & v & Hcmd & Hv & [Hcwd Hl] & ->).
  eapply wp_mono; [eapply (command_outcome _ _ _ _ _ Hs); [by apply plain_command|exact Hcmd|done]|].
  intros r s' (-> & Hon & ->). by eexists.
Qed.
Next Obligation.
  intros s d Hs Hd Hcap. pose proof Hs as (_ & Hready & Hk).
  destruct (cmd_mlst _ d Hready Hd (proj2 Hk Hcap)) as (c & ls & v & Hcmd & Hv & [Hcwd Hl] & Hr).
  eapply wp_mono; [eapply (command_outcome _ _ _ _ _ Hs); [by apply plain_command|exact Hcmd|done]|].
  intros r s' (-> & Hon & ->). by eexists.
Qed.

#[export] Program Instance network_WritableServer : WritableServer (socket W) W fuel.
Next Obligation.
  intros s d Hs Hd Hdir. destruct (cmd_mkd _ d (proj1 (proj2 Hs)) Hd Hdir) as (c & ls & v & Hcmd & Hv & Hr).
  eapply wp_mono; [eapply (command_outcome _ _ _ _ _ Hs); [by apply plain_command|exact Hcmd|done]|].
  intros r s' (-> & Hon & Hsv). eexists. simpl in *. rewrite Hsv.
  case_bool_decide; destruct Hr as (-> & Hcwd & Hl); by split_and!.
Qed.
Next Obligation.
  intros s d Hs Hd Hdir. destruct (cmd_dele _ d (proj1 (proj2 Hs)) Hd Hdir) as (c & ls & v & Hcmd & Hv & Hr).
  eapply wp_mono; [eapply (command_outcome _ _ _ _ _ Hs); [by apply plain_command|exact Hcmd|done]|].
  intros r s' (-> & Hon & Hsv). eexists. simpl in *. rewrite Hsv.
  case_bool_decide; destruct Hr as (-> & Hcwd & Hl); by split_and!.
Qed.
Next Obligation.
  intros s d Hs Hd Hdir. destruct (cmd_rmd _ d (proj1 (proj2 Hs)) Hd Hdir) as (c & ls & v & Hcmd & Hv & Hr).
  eapply wp_mono; [eapply (command_outcome _ _ _ _ _ Hs); [by apply plain_command|exact Hcmd|done]|].
  intros r s' (-> & Hon & Hsv). eexists. simpl in *. rewrite Hsv.
  destruct Hr as [(Hx & -> & Hcwd & Hl)|(Hx & -> & Hcwd & Hl)]; (split_and!; [done|done|done|]); auto.
Qed.

(** ** Data connections *)

(** The socket is the one that the program made on the data connection. *)
Definition carries (k : socket W) w : Prop := data_of w = Some (s_stream k) ∧ s_class k = TcpSocketClass.

(** The session when the server has yet to send, or has sent, that the transfer is over. *)
Definition awaiting s : Prop :=
  srv_ready (server_of s.2) ∧ knows (f_capabilities s.1) ∧
  ∃ ls, at_control (wire [ls]) s ∧ reply_of 226 ls ∧ (length (wire [ls]) < srv_limit)%nat.

(** Taking the confirmation. *)
Lemma confirm_outcome s :
  awaiting s →
  wp (receive_response fuel) (λ r s', ∃ a, r = Ok a ∧ code a = 226 ∧ online s' ∧
    ∃ h, control_of s.2 = Some h ∧ read_from h s.2 s'.2) s.
Proof.
  intros (Hready & Hk & ls & Hat & Hreply & Hlim).
  eapply wp_mono; [eapply wp_conj; [by apply receive_at_control|apply receive_same_client]|].
  intros r s' ((-> & Hat' & h & Hh & Hread) & _ & Hc). eexists. split_and!; [done|done| |by exists h].
  unfold online. destruct Hread as [(-> & _) _]. rewrite Hc. by split_and!.
Qed.

(** Reading from the data connection. *)
Lemma read_data_outcome k out t w (Q : result nat * bytes → st W → Prop) :
  wp (socket_readSome Sync out t) Q (k, w) →
  wp (socket_readSome Sync out t) (λ ro kw, Q ro kw ∧ socket_reads (k, w) kw) (k, w).
Proof.
  intros HQ. apply wp_conj; [done|]. apply steps_wlp. apply (socket_reads_only 0 Sync out [] t).
Qed.

(** The session does not notice what happens on a data connection. *)
Lemma at_control_read k p s (kw : st W) :
  carries k s.2 → at_control p s → socket_reads (k, s.2) kw →
  at_control p (s.1, kw.2) ∧ carries kw.1 kw.2 ∧ server_of kw.2 = server_of s.2.
Proof.
  intros [Hd Hcl] Hat (Hst & Hcl' & (Hsv & Hc & Hdw) & _ & Hu). simpl in *.
  split_and!; [|split; congruence|done].
  apply at_control_undisturbed; [done|done|]. intros h Hh. apply Hu. intros ->.
  by apply (peers_differ s.2 (s_stream k)).
Qed.

Lemma cancel_quiet (k : st W) :
  wp socket_cancelSocket (λ _ k', k'.1 = k.1 ∧ quiet_world k.2 k'.2 ∧ connected k' = connected k) k.
Proof.
  destruct k as [k w]. unfold socket_cancelSocket, SocketBase_cancelSocket. wp_steps.
  assert (∀ f, quiet_world w (f (s_stream k) w) →
    connected (on_stream f (k, w)) = connected (k, w)) as Hsame.
  { intros f [_ Hu]. destruct (Hu (s_stream k)) as (_ & Ho & _). done. }
  destruct (peer_cancel (s_stream k) w) as [_ Hemit]. pose proof (Hsame _ Hemit) as Hc.
  destruct (connected (on_stream _ _)) eqn:E; wp_steps; [|split_and!; [done|exact Hemit|congruence]].
  destruct (peer_cancel (s_stream k) (emit_cancel_signal (s_stream k) w)) as [Hcancel _].
  split_and!; [done|by etrans|]. destruct Hcancel as [_ Hu]. destruct (Hu (s_stream k)) as (_ & Ho & _).
  rewrite <- Hc. unfold connected, socket_isConnected in *. simpl in *. by rewrite Ho, E.
Qed.

(** Destroying an open TCP socket: what was cancelled is not noticed, then it is closed. *)
Lemma destroy_run (k : socket W) w :
  s_class k = TcpSocketClass → is_open (s_stream k) w = true →
  ∃ w1, quiet_world w w1 ∧ is_open (s_stream k) w1 = true ∧
    socket_destroy (k, w) = (Done tt, (k, close (s_stream k) (shutdown_send (s_stream k) w1))).
Proof.
  intros Hcl Hopen. pose proof (cancel_quiet (k, w)) as Hq. unfold wp in Hq.
  unfold socket_destroy. unfold mbind at 1, M_bind at 1.
  destruct (socket_cancelSocket (k, w)) as [[[]| | |] [k' w1]]; [|done..].
  destruct Hq as (Hk & Hq & Hc). simpl in *. subst k'. exists w1.
  assert (connected (k, w1) = true) as Hc1 by (rewrite Hc; exact Hopen).
  split_and!; [done|exact Hc1|]. unfold socket_closeSocket, mbind, M_bind, gets. simpl. rewrite Hcl.
  unfold TcpSocket_closeSocket, mbind, M_bind, gets. by rewrite Hc1.
Qed.

(** Destroying the socket of a data connection tells the server that it has ended. *)
Lemma destroy_data_outcome k s p :
  carries k s.2 → is_open (s_stream k) s.2 = true → at_control p s →
  wp socket_destroy (λ _ kw, at_control (p ++ wire (srv_finish (server_of s.2)).1) (s.1, kw.2) ∧
    server_of kw.2 = (srv_finish (server_of s.2)).2) (k, s.2).
Proof.
  intros [Hd Hcl] Hopen Hat. destruct (destroy_run k s.2 Hcl Hopen) as (w1 & Hq & Hc1 & Hrun).
  unfold wp. rewrite Hrun. pose proof (at_control_quiet p s w1 Hat Hq) as Hat1.
  destruct Hq as [(Hsv1 & Hcw1 & Hd1) _]. rewrite <- Hd1 in Hd.
  pose proof (peer_finish (s_stream k) w1 Hd Hc1) as Hfin. simpl in Hfin |- *.
  set (w2 := close (s_stream k) (shutdown_send (s_stream k) w1)) in *. rewrite <- Hsv1.
  destruct (srv_finish (server_of w1)) as [rs v]. destruct Hfin as (Hsv2 & Hcw2 & Hin).
  split; [|done]. destruct Hat1 as (c & Hc' & Hcl' & Hcw & Hok & Hrx). simpl in *.
  destruct (Hin _ Hcw) as [Hin1 Hok1]. exists c.
  split_and!; [done|done|simpl; congruence|by apply Hok1|].
  rewrite <- Hrx. unfold rxs, inc. simpl. by rewrite Hin1, app_assoc.
Qed.

(** Destroying the client ends the session. *)
Lemma destroy_client_outcome s :
  online s →
  wp FtpFileTransfer_destroy (λ _ s', server_of s'.2 = srv_leave (server_of s.2)) s.
Proof.
  intros ((k & Hk & Hcl & Hc & Hok & _) & _). destruct (ok_connected (k, s.2) Hok) as [Hopen _].
  destruct (destroy_run k s.2 Hcl Hopen) as (w1 & [(Hsv1 & Hcw1 & _) _] & Hc1 & Hrun).
  unfold wp, FtpFileTransfer_destroy, reset_socket. rewrite Hk.
  change (destroySocket (k, s.2)) with (socket_destroy (k, s.2)). rewrite Hrun. simpl in *.
  rewrite peer_leave; [by rewrite Hsv1|congruence|done].
Qed.

(** A command while a data connection is open. *)
Lemma data_command_outcome k cmd c ls rs data v s :
  online s → carries k s.2 → ok (k, s.2) → (CR ∉ cmd) ∧ LF ∉ cmd →
  srv_command cmd (server_of s.2) = Reaction (ls :: rs) data v → reply_of c ls →
  wp (ask fuel cmd) (λ r s', r = Ok {| full_msg := lines_text ls; code := c |} ∧
    at_control (wire rs) s' ∧ server_of s'.2 = v ∧ carries k s'.2 ∧ ok (k, s'.2) ∧
    knows (f_capabilities s'.1) ∧
    rxs (k, s'.2) = rxs (k, s.2) ++ default [] data ∧ (data ≠ None → ended (s_stream k) s'.2)) s.
Proof.
  intros (Hat & _ & Hk) [Hd Hcl] Hok [Hcr Hlf] Hcmd Hreply.
  eapply wp_mono; [by apply ask_wp, ask_at_control|].
  intros r s' ((-> & Hat' & Hsv & Hd' & Hdata) & _ & Hc). specialize (Hdata _ Hd). rewrite Hc.
  assert (carries k s'.2) as Hcar by (split; congruence). destruct data as [b|].
  - destruct Hdata as (Hi & Hh & He). split_and!; try done; [by apply Hh|].
    unfold rxs, inc, read_buffer. simpl. by rewrite Hi, app_assoc.
  - destruct (undisturbed_ok k s.2 s'.2 Hdata Hok) as [Hok' ->]. simpl. by rewrite app_nil_r.
Qed.

Definition uploading (k : socket W) (l : list bytes) (b : bytes) s : Prop :=
  online s ∧ carries k s.2 ∧ ok (k, s.2) ∧ srv_data (server_of s.2) = Receiving l b ∧
  ∃ dir n, l = dir ++ [n] ∧ srv_entry (server_of s.2) dir = Some Directory ∧
    srv_entry (server_of s.2) l ≠ Some Directory.

Definition idle k s : Prop :=
  carries k s.2 ∧ ok (k, s.2) ∧ rxs (k, s.2) = [] ∧ srv_data (server_of s.2) = Connected.

(** A data connection that carries nothing more. *)
Definition spent (k : socket W) s : Prop :=
  carries k s.2 ∧ is_open (s_stream k) s.2 = true ∧ srv_data (server_of s.2) = NoData.

#[export] Program Instance network_TransferServer : TransferServer (socket W) W fuel := {|
  fs_passive ip port s := srv_data (server_of s.2) = Listening ip port;
  fs_data := idle;
  fs_sending k c s := awaiting s ∧ carries k s.2 ∧ ok (k, s.2) ∧ rxs (k, s.2) = c ∧
    ended (s_stream k) s.2 ∧ srv_data (server_of s.2) = NoData;
  fs_sent k s := awaiting s ∧ spent k s;
  fs_taking := uploading;
  fs_stored l b s := awaiting s ∧ srv_entry (server_of s.2) l = Some (File b);
  fs_over k s := online s ∧ spent k s
|}.
Next Obligation.
  intros s Hs. destruct (cmd_pasv _ (proj1 (proj2 Hs))) as (ls & v & ip & port & Hcmd & Hv & [Hcwd Hl] & Hp & Hd).
  eapply wp_mono; [eapply (command_outcome _ _ _ _ _ Hs); [|exact Hcmd|done]|].
  { apply (bool_decide_eq_true_1 _). by vm_compute. }
  intros r s' (-> & Hon & Hsv). simpl. rewrite Hsv. eexists _, ip, port. split_and!; try done.
  split; simpl; rewrite Hsv; [done|]. intros l _. apply Hl.
Qed.
Next Obligation.
  intros ip port t s Hp (Hat & Hready & Hk). cbn [Client_connect address_to_string client_environment].
  destruct (data_accepted _ ip port Hready Hp) as (Hready' & [Hcwd Hl] & Hconn).
  eapply wp_mono.
  - apply (connect_dials (data_endpoint ip port) (λ h w', at_control [] (s.1, w') ∧
      server_of w' = srv_accept (server_of s.2) ∧ data_of w' = Some h ∧ healthy h w' ∧ incoming h w' = [])).
    + pose proof (peer_resolve_data s.2 ip port Hp). by destruct (async_resolve _ _ s.2) as [[ec eps] w1].
    + intros h eps w1 Heps Hq Hne. destruct Hq as [(Hsv & Hc & Hd) Hu] eqn:Hquiet. clear Hquiet.
      pose proof (peer_dial_data h eps t w1 ip port ltac:(by rewrite Hsv) Heps Hne) as Hdial.
      destruct (connect_or_timer h eps t w1) as [[first ec] w2].
      destruct Hdial as (Hf & Hec & Hd2 & Hh2 & Hi2 & Hsv2 & Hc2 & Hu2).
      split_and!; [done|done| |by rewrite Hsv2, Hsv|done|done|done].
      apply (at_control_undisturbed [] (s.1, w1)); [by apply at_control_quiet|done|].
      intros h' Hh'. apply Hu2. by intros ->.
    + intros h w1 w2 (H1 & H2 & H3 & H4 & H5) Hq. pose proof Hq as [(Hsv & Hc & Hd) Hu].
      destruct (Hu h) as (Hi & _ & Hh & _).
      split_and!; [by apply (at_control_quiet [] (s.1, w1))|congruence|congruence|by apply Hh|congruence].
  - intros r w' (k & -> & Hcl & Hbuf & Hat' & Hsv & Hd & Hh & Hi). exists k. simpl. unfold idle, online, carries.
    simpl. rewrite Hsv. split_and!; try done.
    + unfold rxs, inc, read_buffer. simpl. by rewrite Hbuf, Hi.
    + split; simpl; [congruence|]. intros l _. rewrite ?Hsv. apply Hl.
Qed.
Next Obligation.
  intros k s x (Hcar & Hok & Hrx & Hd) Hs Hx. pose proof (plain_command (txt "RETR ") x eq_refl Hx) as Hline.
  simpl.
  pose proof (cmd_retr _ x (proj1 (proj2 Hs)) Hx Hd) as Hcmd.
  pose proof (srv_replies_limited (txt "RETR " ++ x) (server_of s.2)) as Hlim.
  destruct (content_of (srv_entry (server_of s.2) (srv_cwd (server_of s.2) ++ [x]))) as [b|].
  - destruct Hcmd as (ls1 & ls2 & v & H1 & H2 & Hcmd & Hv & [Hcwd Hl] & Hd').
    eapply wp_mono; [by apply (data_command_outcome k _ 150 ls1 [ls2] (Some b) v s)|].
    intros r s' (-> & Hat' & Hsv & Hcar' & Hok' & Hk' & Hrx' & He). eexists. split; [done|].
    rewrite Hrx in Hrx'. rewrite Hcmd in Hlim. simpl in Hlim. unfold wire in Hlim. simpl in Hlim.
    rewrite !length_app in Hlim.
    split; [split; simpl; rewrite Hsv; [done|intros l _; apply Hl]|].
    split; [done|]. split_and!; [|done|done|done|by apply He|by rewrite Hsv].
    unfold awaiting. rewrite Hsv. split_and!; [done|done|]. exists ls2. split_and!; [done|done|].
    unfold wire. simpl. rewrite length_app. simpl in *. lia.
  - destruct Hcmd as (ls & v & [Hr Hcmd] & Hv & [Hcwd Hl] & Hd').
    eapply wp_mono; [by apply (data_command_outcome k _ 550 ls [] None v s)|].
    intros r s' (-> & Hat' & Hsv & Hcar' & Hok' & Hk' & Hrx' & _). eexists. split; [done|].
    rewrite Hrx in Hrx'. unfold idle, online. rewrite Hsv.
    split; [split; simpl; rewrite Hsv; [done|intros l _; apply Hl]|]. by split_and!.
Qed.
Next Obligation.
  intros k s x (Hcar & Hok & Hrx & Hd) Hs Hx Hdir.
  pose proof (plain_command (txt "STOR ") x eq_refl Hx) as Hline. simpl in *.
  destruct (cmd_stor _ x (proj1 (proj2 Hs)) Hx Hd Hdir) as (c & ls & v & [Hr Hcmd] & Hv & [Hcwd Hl] & Hres).
  eapply wp_mono; [by apply (data_command_outcome k _ c ls [] None v s)|].
  intros r s' (-> & Hat' & Hsv & Hcar' & Hok' & Hk' & Hrx' & _). eexists. split; [done|].
  rewrite Hrx in Hrx'. unfold idle, uploading, online. rewrite Hsv.
  assert (∀ x, fs_keeps x s s') as Hkeep.
  { intros y. split; simpl; rewrite Hsv; [done|intros l _; apply Hl]. }
  case_bool_decide as He; destruct Hres as [-> Hd']; split_and!; try done.
  eexists _, x. split; [done|]. by rewrite !Hl.
Qed.
Next Obligation.
  intros k c s out t (Haw & Hcar & Hok & Hrx & He & Hd) Hout. simpl.
  assert (∀ p, at_control p s → ∀ kw, socket_reads (k, s.2) kw →
    at_control p (s.1, kw.2) ∧ carries kw.1 kw.2 ∧ server_of kw.2 = server_of s.2) as Hctl.
  { intros p Hat kw. by apply at_control_read. }
  assert (∀ kw, socket_reads (k, s.2) kw → awaiting (s.1, kw.2) ∧ carries kw.1 kw.2 ∧
    server_of kw.2 = server_of s.2 ∧ ended (s_stream kw.1) kw.2 ∧ fs_keeps None s (s.1, kw.2)) as Hreads.
  { intros kw Hr. destruct Haw as (Hv & Hk & ls & Hat & Hls). destruct (Hctl _ Hat kw Hr) as (Hat' & Hcar' & Hsv).
    unfold awaiting. simpl. rewrite Hsv. split_and!; try done; [by exists ls| |].
    - destruct Hr as (-> & _ & _ & He' & _). by apply He'.
    - split; simpl; by rewrite Hsv. }
  case_bool_decide as Hc.
  - subst c. eapply wp_mono; [apply read_data_outcome, (wp_conj _ (λ ro _, ro.1 = Unexpected (asio_error eof)))|].
    + apply (socket_readSome_end Sync out t (k, s.2) Hout Hok Hc He).
    + apply wp_wlp, (socket_readSome_spec Sync out t (k, s.2) Hout).
    + intros ro kw ((Hro & (_ & Ho & _) & Hl & _) & Hr). destruct (Hreads kw Hr) as (Haw' & Hcar' & Hsv & He' & Hk).
      split_and!; try done. unfold spent. simpl. rewrite Hsv. split_and!; [done| |done].
      unfold connected, socket_isConnected in Ho. rewrite Ho. by destruct (ok_connected (k, s.2) Hok).
  - eapply wp_mono; [apply read_data_outcome, (wp_conj _ (λ ro kw, has_value ro.1 = true ∧ ok kw))|].
    + apply (socket_readSome_live Sync out t (k, s.2) Hout Hok). by rewrite Hrx.
    + apply wp_wlp, (socket_readSome_spec Sync out t (k, s.2) Hout).
    + intros [r out'] kw (([Hv Hok'] & _ & Hl & Hn & _) & Hr). simpl in *.
      destruct (Hreads kw Hr) as (Haw' & Hcar' & Hsv & He' & Hk). split_and!; [done|done|].
      destruct r as [m|]; [|done]. destruct (Hn m eq_refl) as [Hm Hrx']. rewrite Hrx in Hrx'.
      assert (length (take m out') = m) as Hlm by (rewrite length_take; lia).
      exists m. split; [done|]. split; [|split].
      * rewrite Hrx', length_app. lia.
      * rewrite Hrx', take_app_le, take_take by lia. by rewrite Nat.min_id.
      * rewrite Hsv. split_and!; try done. rewrite Hrx'. by rewrite drop_app_ge, Hlm, Nat.sub_diag, drop_0 by lia.
Qed.
Next Obligation.
  intros k s (Haw & Hcar & Ho & Hd). eapply wp_mono; [by apply confirm_outcome|].
  intros r s' (a & -> & Ha & Hon & h & Hh & Hread). exists a. simpl.
  destruct Hread as ((Hsv & Hc & Hdw) & _ & Hu). destruct Hcar as [Hdat Hcl].
  split_and!; [done|done|done| |split; simpl; by rewrite Hsv].
  unfold spent, carries. rewrite Hsv, Hdw. split_and!; [done|done| |done].
  destruct (Hu (s_stream k)) as (_ & -> & _); [|done]. intros <-. by apply (peers_differ s.2 (s_stream k)).
Qed.
Next Obligation.
  intros k l b s data t ((Hat & Hv & Hk) & [Hdat Hcl] & Hok & Hd & Hl).
  destruct (socket_write_run Sync data t (k, s.2) Hok) as (c & w' & Hw & _ & Hrun).
  unfold wp. change (writeAll Sync data t (k, s.2)) with (socket_writeAll Sync data t (k, s.2)).
  rewrite Hrun. simpl in *. destruct (healthy_write _ _ _ _ _ _ Hok Hw) as (_ & Hok' & _).
  destruct (peer_upload _ _ _ _ _ _ Hdat Hok Hw) as (Hsv & Hc & Hdw & Hu).
  destruct (data_received _ _ _ data Hv Hd) as (Hv' & [Hcwd Hsame] & Hd').
  split; [done|]. split; [|split; simpl; rewrite Hsv; [done|intros l' _; apply Hsame]].
  unfold uploading, online, carries. simpl. rewrite Hsv. split_and!; try done.
  - by apply at_control_undisturbed.
  - congruence.
  - destruct Hl as (dir & x & Hl). exists dir, x. by rewrite !Hsame.
Qed.
Next Obligation.
  intros k l b s ((Hat & Hv & Hk) & Hcar & Hok & Hd & dir & x & -> & Hdir & Hx). simpl.
  destruct (upload_ends _ _ _ _ Hv Hd Hdir Hx) as (ls & v & Hfin & Hls & Hv' & Hcwd & Hl).
  pose proof (srv_finish_limited (server_of s.2)) as Hlim.
  eapply wp_mono; [apply (destroy_data_outcome k s []); [done|by destruct (ok_connected (k, s.2) Hok)|done]|].
  rewrite Hfin in *. simpl. intros _ kw [Hat' Hsv]. unfold awaiting. simpl. rewrite Hsv.
  split_and!; try done.
  - by exists ls.
  - rewrite Hl. by rewrite bool_decide_true.
  - split; simpl; rewrite Hsv; [done|]. intros l' Hne. rewrite Hl, bool_decide_false; [done|congruence].
Qed.
Next Obligation.
  intros l b s (Haw & Hl). eapply wp_mono; [by apply confirm_outcome|].
  intros r s' (a & -> & Ha & Hon & h & Hh & Hread). exists a. simpl.
  destruct Hread as ((Hsv & _) & _). rewrite Hsv.
  split_and!; [done|done|done|done|split; simpl; by rewrite Hsv].
Qed.
Next Obligation.
  intros k s Hs. simpl.
  assert (online s ∧ carries k s.2 ∧ is_open (s_stream k) s.2 = true ∧
    (srv_data (server_of s.2) = Connected ∨ srv_data (server_of s.2) = NoData))
    as ((Hat & Hv & Hk) & Hcar & Ho & Hd).
  { destruct Hs as [[(Hcar & Hok & _ & Hd) Hon]|(Hon & Hcar & Ho & Hd)]; [|by auto].
    split_and!; [done|done|by destruct (ok_connected (k, s.2) Hok)|by left]. }
  destruct (data_ends _ Hv Hd) as (v & Hfin & Hv' & Hcwd & Hl).
  eapply wp_mono; [by apply (destroy_data_outcome k s [])|].
  rewrite Hfin. simpl. intros _ kw [Hat' Hsv]. unfold online. simpl. rewrite Hsv.
  split_and!; try done. split; simpl; rewrite Hsv; [done|]. intros l _. apply Hl.
Qed.
End control.
End network.
