(* ===== verification/FtpStack.v ===== *)
(** A whole session of the FTP client on a network: opening a connection with its login,
    working with files, and closing it, from the program's interface down to the
    operations of ASIO. *)

From S2P Require Import Prelude ErrorCodes SocketBase Socket FileTree FsPath Options TlsContext.
From S2P Require Import Client FtpUtils FtpParse FileTransfer FtpFileTransfer FtpClient FtpSession FtpFiles FtpStore.
From S2P Require Import FtpResources FtpServer FtpNetwork.

Section stack.
Context {W S : Type} `{N : FtpNetwork W S} `{Clk : Clock}.
Context {n fuel : nat} `{EF : !EnoughFuel n fuel}.
Let D : DualSocket (socket W) W := socket_DualSocket n.
#[local] Existing Instance D | 0.
#[local] Existing Instance socket_LineSocketSpec.
Implicit Types s : fst_ (K := socket W) (W := W).

(** ** Opening *)

(** The session of the client before it knows anything of the server. *)
Definition greeted (v : S) s : Prop := at_control [] s ∧ server_of s.2 = v.

Lemma greeting_outcome s :
  at_control (srv_greeting ++ CRLF) s →
  wp (on_control (readUntil Sync (zero_bytes (Z.to_nat 512)) CRLF None)) (λ ro s',
    has_value ro.1 = true ∧ greeted (server_of s.2) s' ∧
    f_capabilities s'.1 = f_capabilities s.1 ∧ f_current s'.1 = f_current s.1) s.
Proof.
  intros (k & Hk & Hcl & Hc & Hok & Hrx). destruct srv_greets as (Hg & Hlen & Hlim).
  destruct enough_fuel as [Hn Hf]. unfold wp, on_control. rewrite Hk.
  set (out0 := zero_bytes (Z.to_nat 512)).
  assert (wp (socket_readUntil n Sync out0 CRLF None) (λ ro kw, has_value ro.1 = true ∧
    ok kw ∧ rxs kw = []) (k, s.2)) as Hw.
  { eapply wp_mono; [apply (read_line (LS := socket_LineSocketSpec n) srv_greeting [] out0 None k s.2);
      [exact Hok|..]|].
    - by rewrite app_nil_r.
    - by apply proper_no_cr.
    - unfold out0. rewrite length_zero_bytes. lia.
    - simpl. rewrite Hrx, length_app. simpl. lia.
    - intros ro [k' w'] (_ & _ & Hok' & -> & _ & Hrx'). by split_and!. }
  pose proof (steps_wlp _ _ (k, s.2) (proj2 (proj2 (socket_reads_only n Sync out0 CRLF None)))) as Hr.
  unfold wp in Hw. unfold wlp in Hr.
  change (readUntil Sync out0 CRLF None) with (socket_readUntil n Sync out0 CRLF None).
  destruct (socket_readUntil _ _ _ _ _ _) as [[[r out]| | |] [k' w']]; [|done..].
  destruct Hw as (Hv & Hok' & Hrx'), Hr as (Hst & Hcl' & (Hsv & Hcw & _) & _). simpl in *.
  split_and!; [done| |done|done]. split; [|done].
  exists k'. split_and!; [done|congruence|simpl; congruence|done|done].
Qed.

(** A command of the login that the server accepts. *)
Lemma login_step_outcome cmd accepted c ls v s :
  at_control [] s → (CR ∉ cmd) ∧ LF ∉ cmd → replies_with cmd (server_of s.2) c ls v → c ∈ accepted →
  wp (login_step fuel cmd accepted) (λ r s', r = Ok tt ∧ greeted v s' ∧ same_client s s') s.
Proof.
  intros Hat [Hcr Hlf] [Hreply Hcmd] Hin. unfold login_step. wp_step.
  eapply wp_mono; [by apply ask_wp, ask_at_control|].
  intros r s' ((-> & Hat' & Hsv & _) & Hcl). cbn beta iota. simpl.
  rewrite bool_decide_true by done. by wp_steps.
Qed.

(** A text that fits in the line of a command, and is not left out of the login. *)
Definition login_text (t : bytes) : Prop := t ≠ [] ∧ (CR ∉ t) ∧ LF ∉ t.

Lemma login_line p t :
  bool_decide ((CR ∉ p) ∧ LF ∉ p) = true → login_text t → (CR ∉ p ++ t) ∧ LF ∉ p ++ t.
Proof. intros [H1 H2]%bool_decide_eq_true (_ & H3 & H4). rewrite !not_elem_of_app. by split. Qed.

(** Who may log in, and how. *)
Definition may_login (opts : ConnectOptions) : Prop :=
  login_text (opt_username opts) ∧ login_text (opt_password opts) ∧
  srv_account (opt_username opts) (opt_password opts).

(** Dialling the server's address: a connection with the greeting to come. *)
Lemma dial_outcome t w :
  wp (connect {| host := srv_host; port := srv_port |} t default_tcp_options)
    (λ r w', ∃ k, r = Ok k ∧ s_class k = TcpSocketClass ∧ ok (k, w') ∧ control_of w' = Some (s_stream k) ∧
      rxs (k, w') = srv_greeting ++ CRLF ∧ server_of w' = srv_session (server_of w)) w.
Proof.
  eapply wp_mono.
  - apply (connect_dials control_endpoint (λ h w', healthy h w' ∧ control_of w' = Some h ∧
      incoming h w' = srv_greeting ++ CRLF ∧ server_of w' = srv_session (server_of w))).
    + pose proof (peer_resolve w). by destruct (async_resolve _ _ w) as [[ec eps] w1].
    + intros h eps w1 Heps [(Hsv & _) _] _. pose proof (peer_dial h eps t w1 Heps) as Hdial.
      destruct (connect_or_timer h eps t w1) as [[first ec] w2].
      destruct Hdial as (Hf & Hec & Hc & Hh & Hi & Hsv'). split_and!; try done. by rewrite Hsv', Hsv.
    + intros h w1 w2 (H1 & H2 & H3 & H4) [(Hsv & Hc & _) Hu]. destruct (Hu h) as (Hi & _ & Hh & _).
      split_and!; [by apply Hh|congruence|congruence|congruence].
  - intros r w' (k & -> & Hcl & Hbuf & Hh & Hc & Hi & Hsv). exists k. split_and!; try done.
    unfold rxs, inc, read_buffer. simpl. by rewrite Hbuf, Hi.
Qed.

(** What [connect] leaves: a client in the root directory of the server, which knows what
    the server has. *)
Definition opened w s : Prop :=
  in_sync (FS := network_FileServer) s [] ∧
  cap_size (f_capabilities s.1) = srv_has_size ∧ cap_mlst (f_capabilities s.1) = srv_has_mlst ∧
  same_files (server_of w) (server_of s.2).

Lemma ftp_connect_outcome opts w :
  may_login opts →
  wp (ftp_connect fuel opts) (λ r s', r = Ok tt ∧ opened w s')
    (FtpFileTransfer_new srv_host srv_port, w).
Proof.
  intros (Hu & Hp & Hacc). unfold ftp_connect. wp_steps. unfold on_world. wp_step.
  cbn [Client_connect client_environment f_host f_port FtpFileTransfer_new fst snd].
  eapply wp_mono; [apply dial_outcome|]. intros r w1 (k & -> & Hcl & Hok & Hc & Hrx & Hsv). cbn beta iota.
  set (c0 := FtpFileTransfer_new srv_host srv_port).
  wp_step. assert (wp (reset_socket (Some k)) (λ _ s', s' = (set_control (Some k) c0, w1)) (c0, w1)) as Hset
    by done.
  eapply wp_mono; [exact Hset|]. intros [] s' ->. wp_step.
  assert (at_control (srv_greeting ++ CRLF) (set_control (Some k) c0, w1)) as Hat by by exists k.
  eapply wp_mono; [by apply greeting_outcome|]. intros [g out] s2 (Hg & [Hat2 Hsv2] & Hcaps2 & Hcur2).
  cbn beta iota. wp_step. destruct g as [g|]; [|done]. cbn beta iota.
  simpl in Hsv2. rewrite Hsv in Hsv2. destruct (session_begins (server_of w)) as [Hfresh Hfiles].
  rewrite <- Hsv2 in Hfresh, Hfiles.
  destruct (login_accepted _ _ _ Hfresh Hacc)
    as (c1 & ls1 & v1 & c2 & ls2 & v2 & Hin1 & Hcmd1 & Hin2 & Hcmd2 & Hready & Hcwd & Hl).
  rewrite wp_ret. wp_step. rewrite bool_decide_false by apply Hu.
  eapply wp_mono; [eapply login_step_outcome; [done|by apply login_line|exact Hcmd1|exact Hin1]|].
  intros r s3 (-> & [Hat3 Hsv3] & [Hcur3 Hcaps3]). cbn beta iota.
  wp_step. rewrite bool_decide_false by apply Hp. rewrite <- Hsv3 in Hcmd2.
  eapply wp_mono; [eapply login_step_outcome; [done|by apply login_line|exact Hcmd2|exact Hin2]|].
  intros r s4 (-> & [Hat4 Hsv4] & [Hcur4 Hcaps4]). cbn beta iota. rewrite <- Hsv4 in Hready.
  destruct (cmd_feat _ Hready) as (c & ls & v & [Hreply Hcmd] & Hv & [Hcwd5 Hl5] & Hsize & Hmlst).
  wp_step. eapply wp_mono; [eapply ask_wp, ask_at_control; [done| | |exact Hcmd|done]|].
  1, 2: apply (bool_decide_eq_true_1 _); by vm_compute.
  intros r s5 ((-> & Hat5 & Hsv5 & _) & [Hcur5 Hcaps5]). cbn beta iota. simpl code.
  assert (f_capabilities s5.1 = default_capabilities) as Hcaps by (by rewrite Hcaps5, Hcaps4, Hcaps3, Hcaps2).
  assert (f_current s5.1 = plain_path []) as Hcur by (by rewrite Hcur5, Hcur4, Hcur3, Hcur2).
  assert (∀ s6, s6.2 = s5.2 → f_current s6.1 = f_current s5.1 → f_socket s6.1 = f_socket s5.1 →
    f_capabilities s6.1 = (if bool_decide (c = 211)
      then parseFeatures (lines_text ls) default_capabilities else default_capabilities) → opened w s6) as Hend.
  { intros [c6 w6]. cbn [fst snd]. intros -> Hcur6 Hsock6 Hcaps6.
    unfold opened, in_sync. simpl. unfold online, knows. simpl. rewrite Hsv5, Hcaps6, Hsize, Hmlst.
    split_and!; try done.
    - destruct Hat5 as (k5 & Hk5 & Hrest). exists k5. split; [by rewrite <- Hk5|exact Hrest].
    - by rewrite Hcur6.
    - congruence.
    - apply srv_root.
    - intros l. rewrite Hl5, Hsv4, Hl. apply Hfiles. }
  unfold parse_features. case_bool_decide as H211; wp_steps; (split; [done|]); by apply Hend; [..|rewrite ?Hcaps].
Qed.

(** The factory gives that client. *)
Lemma openFtpConnection_outcome opts w :
  may_login opts →
  wp (openFtpConnection fuel srv_host srv_port opts) (λ r w', ∃ c, r = Ok c ∧ opened w (c, w')) w.
Proof.
  intros Hl. pose proof (ftp_connect_outcome opts w Hl) as Hc. unfold wp, openFtpConnection in *.
  destruct (ftp_connect fuel opts _) as [[r| | |] [c w']]; [|done..]. destruct Hc as [-> Ho]. by exists c.
Qed.

(** ** A session from its beginning to its end *)

(** A block that owns a client, whose body leaves the client in a session: after it the
    server has the files that the body has left. *)
Lemma with_ftp_client_outcome {B} opts (body : M fst_ B) (Q : B → S → Prop) w :
  may_login opts →
  (∀ s, opened w s → wp body (λ b s', online s' ∧ Q b (server_of s'.2)) s) →
  wp (with_ftp_client fuel srv_host srv_port opts body) (λ r w', ∃ b v, r = Ok b ∧ Q b v ∧
    same_files v (server_of w')) w.
Proof.
  intros Hl Hbody. pose proof (openFtpConnection_outcome opts w Hl) as Ho.
  unfold wp at 1, with_ftp_client. unfold wp in Ho.
  destruct (openFtpConnection _ _ _ _ w) as [[r| | |] w1]; [|done..].
  destruct Ho as (c & -> & Ho). specialize (Hbody (c, w1) Ho). unfold wp in Hbody.
  destruct (body (c, w1)) as [[b| | |] s']; [|done..]. destruct Hbody as [Hon HQ]. simpl.
  pose proof (destroy_client_outcome (n := n) s' Hon) as Hd. unfold wp in Hd.
  destruct (FtpFileTransfer_destroy s') as [[[]| | |] s2]; [|done..].
  exists b, (server_of s'.2). split_and!; [done|done|]. simpl. rewrite Hd.
  by apply session_ends, Hon.
Qed.

#[local] Existing Instance ftp_AbstractFileTransfer | 0.
#[local] Existing Instances network_FileServer network_WritableServer network_TransferServer.

Lemma opened_ready w s : srv_has_mlst || srv_has_size = true → opened w s → ftp_ready s.
Proof.
  intros Hsee (Hs & Hsize & Hmlst & _). split; [by exists []|]. unfold sees_files. by rewrite Hsize, Hmlst.
Qed.

Lemma ready_online s : ftp_ready s → online s.
Proof. by intros [[names (Hon & _)] _]. Qed.

Lemma opened_entry w s l : opened w s → srv_entry (server_of s.2) l = srv_entry (server_of w) l.
Proof. intros (_ & _ & _ & Hl). apply Hl. Qed.
End stack.

(** ** Correctness *)

(** C3: a whole session does what it is for: the factory opens the connection, logs in and
    learns the server's features; a file that is written is read back, also after it was
    overwritten, exists until it is removed, and is gone then; and the client that is
    destroyed in the end leaves the server with the files it had. From the program's
    interface down, everything between the user and ASIO is the code. That is so over any
    network on which nothing fails, for an absolute path of plain names, a user and a
    password that are not empty, and any server that has SIZE or MLST and replies as the
    client expects: 331 or 230 to USER, 230 or 231 to PASS, 150 before a transfer and 226
    after it; a server that uses RFC 959's other replies, 125 and 250, is refused. *)
Theorem ftp_stack_round_trip {W S : Type} `{N : FtpNetwork W S} `{Clk : Clock} {n fuel : nat}
    `{EF : !EnoughFuel n fuel} opts dir x a b (w : W) :
  may_login opts → srv_has_mlst || srv_has_size = true →
  Forall plain_name dir → plain_name x → srv_entry (server_of w) dir = Some Directory →
  srv_entry (server_of w) (dir ++ [x]) = None → (length a < fuel)%nat → (length b < fuel)%nat →
  let D := socket_DualSocket n in
  wp (with_ftp_client fuel srv_host srv_port opts
       (@file_session _ W (ftp_AbstractFileTransfer fuel) (plain_path (dir ++ [x])) a b))
    (λ r w', r = Ok ([Ok a; Ok b], [Ok true; Ok false], Ok tt) ∧
      same_files (server_of w) (server_of w')) w.
Proof.
  intros Hl Hsee Hdir Hx Hd Hnone Ha Hb D.
  eapply wp_mono; [apply (with_ftp_client_outcome opts _ (λ r v,
    r = ([Ok a; Ok b], [Ok true; Ok false], Ok tt) ∧ same_files (server_of w) v)); [done|]|].
  - intros s Ho.
    assert (srv_entry (server_of s.2) dir = Some Directory) as Hk by by rewrite (opened_entry w s dir Ho).
    assert (srv_entry (server_of s.2) (dir ++ [x]) = None) as Hn by by rewrite (opened_entry w s _ Ho).
    eapply wp_mono; [exact (@file_session_correct _ W _ (ftp_FileTransferSpec (fuel := fuel))
      s dir x Hdir Hx Hk (ftp_FileStoreSpec (fuel := fuel)) a b (opened_ready w s Hsee Ho) Hn Ha Hb)|].
    intros r s' (-> & Hr & Hl'). split; [by apply ready_online|]. split; [done|].
    intros l. etrans; [exact (Hl' l)|by apply opened_entry].
  - intros r w' (res & v & -> & [-> Hv] & Hv'). split; [done|]. intros l. by rewrite Hv', Hv.
Qed.

(** C2: what one session of the FTP client writes, a later one reads: a client is opened,
    writes a file and goes, and another one, which connects and logs in anew, reads exactly
    those bytes; no other file is touched by either. The path is absolute and of plain
    names, the user and the password are not empty, the network does not fail, and the
    server replies as the client expects (331 or 230, 230 or 231, 150, 226); it needs
    neither SIZE nor MLST. *)
Theorem ftp_sessions_share_files {W S : Type} `{N : FtpNetwork W S} `{Clk : Clock} {n fuel : nat}
    `{EF : !EnoughFuel n fuel} opts dir x data (w : W) :
  may_login opts → Forall plain_name dir → plain_name x →
  srv_entry (server_of w) dir = Some Directory → srv_entry (server_of w) (dir ++ [x]) ≠ Some Directory →
  (length data < fuel)%nat →
  let D := socket_DualSocket n in
  let p := plain_path (dir ++ [x]) in
  wp (w1 ← with_ftp_client fuel srv_host srv_port opts (ftp_write fuel p data);
      r2 ← with_ftp_client fuel srv_host srv_port opts (ftp_read fuel p);
      mret (w1, r2))
    (λ r w', (∃ f, r.1 = Ok (Ok f) ∧ fl_size f = Z.of_nat (length data) ∧ fl_file_name f = x) ∧
      r.2 = Ok (Ok data) ∧
      ∀ l, srv_entry (server_of w') l =
        if bool_decide (l = dir ++ [x]) then Some (File data) else srv_entry (server_of w) l) w.
Proof.
  intros Hl Hdir Hx Hd Hne Hlen D p. wp_step.
  eapply wp_mono; [apply (with_ftp_client_outcome opts _ (λ r v,
    (∃ f, r = Ok f ∧ fl_size f = Z.of_nat (length data) ∧ fl_file_name f = x) ∧
    ∀ l, srv_entry v l = if bool_decide (l = dir ++ [x]) then Some (File data)
                         else srv_entry (server_of w) l)); [done|]|].
  { intros s Ho. eapply wp_mono; [by apply (ftp_write_outcome s [] dir x data); [apply Ho|..]|].
    pose proof (λ l, opened_entry w s l Ho) as E. change (λ l, srv_entry (server_of s.2) l) with (fs_entry s) in E.
    rewrite bool_decide_true by (split; [by etrans; [apply E|]|intros E'; apply Hne; by rewrite <- E]).
    intros r s' (Hon & _ & _ & Hf & Hr). split_and!; [done|done|]. intros l.
    etrans; [apply Hr|]. case_bool_decide; [done|apply E]. }
  intros r w1 (b & v & -> & [Hf Hv] & Hw1). destruct Hf as (f & -> & Hf). wp_step.
  eapply wp_mono; [apply (with_ftp_client_outcome opts _ (λ r v', r = Ok data ∧ same_files v v')); [done|]|].
  { intros s Ho. assert (content_of (srv_entry (server_of s.2) (dir ++ [x])) = Some data) as Hc.
    { rewrite (opened_entry w1 s _ Ho), Hw1, Hv. by rewrite bool_decide_true. }
    eapply wp_mono; [apply (ftp_read_outcome s [] dir x); [apply Ho|done|done|]|].
    { intros c E. assert (c = data) as -> by (simpl in E; congruence). done. }
    intros r s' (Hon & _ & Hl' & _ & ->). split; [done|]. split; [simpl; by rewrite Hc|]. intros l.
    etrans; [apply Hl'|]. etrans; [by apply opened_entry|apply Hw1]. }
  intros r w2 (b & v' & -> & [-> Hv'] & Hw2). wp_steps. split_and!; [by exists f|done|].
  intros l. by rewrite Hw2, Hv', Hv.
Qed.
