(* ===== verification/FtpWorld.v ===== *)
(** A concrete network with any file server at its other end, and a concrete file server:
    the promises of FtpNetwork and FtpServer can be kept, and the theorems on whole
    sessions can be run. *)

From S2P Require Import Prelude ErrorCodes ErrorTranslation SocketBase Socket FileTree FsPath Options TlsContext.
From S2P Require Import Client FtpUtils FtpParse FileTransfer FtpFileTransfer FtpClient FtpSession FtpFiles FtpStore.
From S2P Require Import FtpResources FtpServer FtpNetwork FtpStack.

(** ** A network

    Streams are numbers; each has a line to the server, on which [l_in] is still to be
    read. Reads give pieces of at most five bytes. *)
Record line := Line { l_in : bytes; l_out : bytes; l_open : bool; l_ended : bool }.

Record ftp_world (S : Type) := FtpWorld {
  fw_server : S;
  fw_lines : gmap nat line;
  fw_next : nat;
  fw_control : option nat;
  fw_data : option nat;
  fw_ids : Z
}.
Arguments FtpWorld {S}.
Arguments fw_server {S}.
Arguments fw_lines {S}.
Arguments fw_next {S}.
Arguments fw_control {S}.
Arguments fw_data {S}.
Arguments fw_ids {S}.

Inductive target := ControlTarget | DataTarget.

Section world.
Context {S : Type} `{SV : FtpServerSpec S}.
Implicit Types w : ftp_world S.

Definition closed_line : line := Line [] [] false false.
Definition line_at (h : nat) w : line := default closed_line (fw_lines w !! h).
Definition set_line (h : nat) (l : line) w : ftp_world S :=
  FtpWorld (fw_server w) (<[h := l]> (fw_lines w)) (fw_next w) (fw_control w) (fw_data w) (fw_ids w).
Definition set_server (v : S) w : ftp_world S :=
  FtpWorld v (fw_lines w) (fw_next w) (fw_control w) (fw_data w) (fw_ids w).
Definition set_peers (c d : option nat) w : ftp_world S :=
  FtpWorld (fw_server w) (fw_lines w) (fw_next w) c d (fw_ids w).

Definition world_data w : option nat :=
  if bool_decide (fw_data w = fw_control w) then None else fw_data w.

(** More to read on a line, and a line that ends after it. *)
Definition deliver (b : bytes) (ends : bool) (l : line) : line :=
  Line (l_in l ++ b) (l_out l) (l_open l) (ends || l_ended l).
Definition deliver_to (h : option nat) (b : bytes) (ends : bool) w : ftp_world S :=
  match h with Some h => set_line h (deliver b ends (line_at h w)) w | None => w end.
Definition send (b : bytes) (l : line) : line := Line (l_in l) (l_out l ++ b) (l_open l) (l_ended l).
Definition shut (l : line) : line := Line (l_in l) (l_out l) false (l_ended l).

Definition world_read (h n : nat) (_ : Z) w : read_completion * ftp_world S :=
  let l := line_at h w in
  if bool_decide (l_in l = []) then
    (if l_ended l then ReadCompletion (linux_asio_error eof) [] false
     else ReadCompletion (linux_asio_error operation_aborted) [] true, w)
  else
    let k := (n `min` 5)%nat in
    (ReadCompletion ec_none (take k (l_in l)) false,
     set_line h (Line (drop k (l_in l)) (l_out l) (l_open l) (l_ended l)) w).

(** A line on the control connection is a command; what goes to the data connection is
    the server's. *)
Definition world_command (cmd : bytes) w : ftp_world S :=
  let a := srv_command cmd (fw_server w) in
  let w := deliver_to (fw_control w) (wire (replies a)) false (set_server (after a) w) in
  match download a with
  | Some b => deliver_to (world_data w) b true w
  | None => w
  end.

Definition world_write (h : nat) (b : bytes) (_ : Z) w : write_completion * ftp_world S :=
  let w' := set_line h (send b (line_at h w)) w in
  (WriteCompletion ec_none (length b) false,
   if bool_decide (fw_control w = Some h) then world_command (take (length b - 2) b) w'
   else if bool_decide (world_data w = Some h) then set_server (srv_receive b (fw_server w)) w'
   else w').

Definition world_close (h : nat) w : ftp_world S :=
  let w' := set_line h (shut (line_at h w)) w in
  if bool_decide (fw_control w = Some h) then set_server (srv_leave (fw_server w)) w'
  else if bool_decide (world_data w = Some h) then
    let '(rs, v) := srv_finish (fw_server w) in deliver_to (fw_control w) (wire rs) false (set_server v w')
  else w'.

#[export] Instance world_Asio : Asio (ftp_world S) := {|
  stream := nat;
  is_open := λ h w, l_open (line_at h w);
  executor_runs := λ _ _, true;
  async_read_some := world_read;
  async_write := world_write;
  shutdown_send := λ _ w, w;
  close := world_close;
  cancel := λ _ w, w;
  emit_cancel_signal := λ _ w, w;
  dyn_prepare := λ v n, v ++ replicate n Byte.x00;
  dyn_commit := λ v size k, take (size + k `min` (length v - size)) v
|}.

Definition world_dial (h : nat) (t : target) w : ftp_world S :=
  match t with
  | ControlTarget =>
      set_server (srv_session (fw_server w)) (set_line h (Line (srv_greeting ++ CRLF) [] true false)
        (set_peers (Some h) None w))
  | DataTarget =>
      set_server (srv_accept (fw_server w)) (set_line h (Line [] [] true false)
        (set_peers (fw_control w) (Some h) w))
  end.

(** The name of the server leads to its control port, addresses to its data ports. *)
Definition world_host : bytes := txt "localhost".

#[export] Instance world_AsioConnect : AsioConnect (ftp_world S) := {|
  endpoints := target;
  pool_runs := λ _, true;
  async_resolve := λ host _ w,
    (ec_none, if bool_decide (host = world_host) then ControlTarget else DataTarget, w);
  new_tcp_socket := λ w,
    let h := Datatypes.S (default 0%nat (fw_control w) `max` fw_next w) in
    (h, FtpWorld (fw_server w) (fw_lines w) h (fw_control w) (fw_data w) (fw_ids w));
  connect_or_timer := λ h t _ w, (0%nat, ec_none, world_dial h t w);
  set_option := λ _ _ w, (ec_none, w);
  destroy_stream := λ h w, set_line h (shut (line_at h w)) w
|}.

#[export] Instance world_SocketIds : SocketIds (ftp_world S) := {|
  id_counter := fw_ids;
  set_id_counter := λ n w,
    FtpWorld (fw_server w) (fw_lines w) (fw_next w) (fw_control w) (fw_data w) n
|}.

#[export] Instance world_SystemEnvironment : SystemEnvironment (ftp_world S) :=
  {| sys_address_to_string _ := txt "127.0.0.1"; sys_clock_now _ := 0 |}.

(** ** Lemmas *)

Lemma line_at_set h l w h' :
  line_at h' (set_line h l w) = if bool_decide (h' = h) then l else line_at h' w.
Proof.
  unfold line_at, set_line. simpl. case_bool_decide as E.
  - subst. by rewrite lookup_insert_eq.
  - by rewrite lookup_insert_ne.
Qed.

Lemma line_at_server h v w : line_at h (set_server v w) = line_at h w.
Proof. done. Qed.

Lemma line_at_deliver h b e w h' :
  line_at h' (deliver_to h b e w) = if bool_decide (h = Some h') then deliver b e (line_at h' w) else line_at h' w.
Proof.
  destruct h as [h|]; simpl; [|done]. rewrite line_at_set. do 2 case_bool_decide; congruence.
Qed.

(** A read is one on the line alone. *)
Lemma world_read_inv h n t w c w' :
  world_read h n t w = (c, w') →
  l_in (line_at h w) = [] ∧ w' = w ∧ rc_data c = [] ∧ ec_bool (rc_ec c) = true ∧
    (l_ended (line_at h w) = true → rc_ec c = asio_error eof) ∨
  l_in (line_at h w) ≠ [] ∧ rc_ec c = ec_none ∧ rc_data c = take (n `min` 5) (l_in (line_at h w)) ∧
    w' = set_line h (Line (drop (n `min` 5) (l_in (line_at h w))) (l_out (line_at h w))
      (l_open (line_at h w)) (l_ended (line_at h w))) w.
Proof.
  unfold world_read. case_bool_decide as E; intros [= <- <-]; [left|by right].
  by destruct (l_ended _).
Qed.

(** A line that has got more to read, if anything. *)
Definition longer (l l' : line) : Prop :=
  l_out l' = l_out l ∧ l_open l' = l_open l ∧ ∃ more, l_in l' = l_in l ++ more.

#[export] Instance longer_preorder : PreOrder longer.
Proof.
  split; [intros l; split_and!; [done|done|exists []; by rewrite app_nil_r]|].
  intros l1 l2 l3 (H1 & H2 & m & Hm) (H3 & H4 & m' & Hm'). split_and!; [congruence|congruence|].
  exists (m ++ m'). by rewrite Hm', Hm, app_assoc.
Qed.

Lemma deliver_longer h b e w h' : longer (line_at h' w) (line_at h' (deliver_to h b e w)).
Proof. rewrite line_at_deliver. case_bool_decide; [|done]. split_and!; [done|done|by eexists]. Qed.

(** What a write does to the line itself. *)
Lemma world_write_line h b t w :
  longer (send b (line_at h w)) (line_at h (world_write h b t w).2).
Proof.
  simpl. assert (line_at h (set_line h (send b (line_at h w)) w) = send b (line_at h w)) as Hl.
  { rewrite line_at_set. by rewrite bool_decide_true. }
  destruct (bool_decide (fw_control w = Some h)); [|by destruct (bool_decide _); rewrite ?line_at_server, ?Hl].
  unfold world_command. set (w1 := deliver_to _ _ _ _).
  assert (longer (send b (line_at h w)) (line_at h w1)) as H1.
  { rewrite <- Hl. apply (deliver_longer _ _ _ (set_server _ _)). }
  destruct (download _); [|done]. etrans; [exact H1|apply deliver_longer].
Qed.

Lemma world_close_line h w :
  line_at h (world_close h w) = shut (line_at h w).
Proof.
  assert (line_at h (set_line h (shut (line_at h w)) w) = shut (line_at h w)) as Hl.
  { rewrite line_at_set. by rewrite bool_decide_true. }
  unfold world_close. destruct (bool_decide (fw_control w = Some h)) eqn:E; [done|].
  destruct (bool_decide (world_data w = Some h)); [|done].
  destruct (srv_finish _) as [rs v]. rewrite line_at_deliver, line_at_server, Hl. by rewrite E.
Qed.

#[export] Program Instance world_AsioSpec : AsioSpec (ftp_world S) := {|
  incoming := λ h w, l_in (line_at h w);
  outgoing := λ h w, l_out (line_at h w);
  healthy := λ h w, l_open (line_at h w) = true
|}.
Next Obligation.
  intros h n t w c w' [(_ & _ & -> & _)|(_ & _ & -> & _)]%world_read_inv; simpl; [lia|].
  rewrite length_take. lia.
Qed.
Next Obligation.
  intros h n t w c w' [(_ & _ & -> & _)|(_ & -> & _)]%world_read_inv; [done|by intros [=]].
Qed.
Next Obligation.
  intros h n t w c w' [(_ & -> & -> & _)|(_ & _ & -> & ->)]%world_read_inv; [done|]. simpl.
  rewrite line_at_set, bool_decide_true by done. simpl. by rewrite take_drop.
Qed.
Next Obligation.
  intros h n t w c w' Hn [(-> & _)|(Hne & He & Hd & _)]%world_read_inv; [done|].
  rewrite He, Hd. intros [[=]|[_ Hnil]]. destruct (l_in (line_at h w)); [done|].
  destruct n; simpl in Hnil; [lia|done].
Qed.
Next Obligation.
  intros h b t w c w' Hw _. pose proof (world_write_line h b t w) as (Ho & _).
  simpl in Hw. rewrite Hw in Ho. split; [|done]. by injection Hw as <- _.
Qed.
Next Obligation. done. Qed.
Next Obligation.
  intros h n t w c w' Ho Hn Hne [(Hnil & _)|(_ & -> & -> & ->)]%world_read_inv; [done|].
  rewrite line_at_set, bool_decide_true by done. split_and!; [done| |done].
  simpl in Hne. destruct (l_in (line_at h w)); [done|]. destruct n; [lia|done].
Qed.
Next Obligation.
  intros h b t w c w' Ho Hw. pose proof (world_write_line h b t w) as (_ & Hop & Hm).
  simpl in Hw. rewrite Hw in Hop, Hm. simpl in Hop.
  split_and!; [by injection Hw as <- _|by rewrite Hop|done].
Qed.
Next Obligation. intros h w. simpl. by rewrite world_close_line. Qed.
Next Obligation. intros h w. simpl. by rewrite world_close_line. Qed.
Next Obligation. intros v n. eexists. split; [|done]. by rewrite length_replicate. Qed.
Next Obligation. done. Qed.

Definition line_ended (h : nat) w : Prop := l_ended (line_at h w) = true.

(** A change that a line does not see. *)
Lemma line_undisturbed h w w' :
  line_at h w' = line_at h w → undisturbed_by line_ended h w w'.
Proof.
  intros Hl. unfold undisturbed_by, line_ended. simpl. rewrite Hl. by split_and!.
Qed.

Lemma world_quiet w w' :
  fw_server w' = fw_server w → fw_control w' = fw_control w → fw_data w' = fw_data w →
  fw_lines w' = fw_lines w → quiet_of line_ended fw_server fw_control world_data w w'.
Proof.
  intros H1 H2 H3 H4. split.
  - split_and!; [done|done|]. unfold world_data. by rewrite H2, H3.
  - intros h. apply line_undisturbed. unfold line_at. by rewrite H4.
Qed.

Lemma world_peers_differ w h : fw_control w = Some h → world_data w ≠ Some h.
Proof. unfold world_data. case_bool_decide; congruence. Qed.

Lemma deliver_to_peers h b e w :
  let w' := deliver_to h b e w in
  fw_server w' = fw_server w ∧ fw_control w' = fw_control w ∧ world_data w' = world_data w.
Proof. by destruct h. Qed.

#[export] Program Instance world_FtpNetwork : FtpNetwork (ftp_world S) S := {|
  srv_host := world_host;
  srv_port := 21;
  server_of := fw_server;
  control_of := fw_control;
  data_of := world_data;
  ended := line_ended;
  control_endpoint t := t = ControlTarget;
  data_endpoint _ _ t := t = DataTarget
|}.
Next Obligation. intros w h. apply world_peers_differ. Qed.
Next Obligation. done. Qed.
Next Obligation. intros w. split_and!; [done|done|by apply world_quiet]. Qed.
Next Obligation. intros w ip port _. split_and!; [done|done|by apply world_quiet]. Qed.
Next Obligation.
  intros w. split; [|by apply world_quiet]. simpl. destruct (fw_control w); simpl; [|done].
  intros [= E]. lia.
Qed.
Next Obligation.
  intros h eps t w ->. simpl. rewrite line_at_server, line_at_set, bool_decide_true by done. done.
Qed.
Next Obligation.
  intros h eps t w ip port _ -> Hne. simpl. rewrite line_at_server, line_at_set, bool_decide_true by done.
  split_and!; try done.
  - unfold world_data. simpl. by rewrite bool_decide_false by (intros E; by destruct Hne).
  - intros h' Hh. apply line_undisturbed. by rewrite line_at_server, line_at_set, bool_decide_false by done.
Qed.
Next Obligation. intros h o w. split; [done|by apply world_quiet]. Qed.
Next Obligation. intros n w. by apply world_quiet. Qed.
Next Obligation.
  intros h n t w c w' [(_ & -> & _)|(_ & _ & _ & ->)]%world_read_inv.
  - split_and!; [by split_and!|done|]. intros h' _. by apply line_undisturbed.
  - split_and!; [by split_and!| |].
    + unfold line_ended. by rewrite line_at_set, bool_decide_true by done.
    + intros h' Hh. apply line_undisturbed. by rewrite line_at_set, bool_decide_false by done.
Qed.
Next Obligation.
  intros h n t w c w' _ He Hi [(_ & _ & _ & _ & Heof)|(Hne & _)]%world_read_inv; [by apply Heof|done].
Qed.
Next Obligation.
  intros h cmd t w c w' Hc Hh Hi _ _ Hw. simpl in Hw. injection Hw as _ <-.
  rewrite bool_decide_true by done. rewrite length_app, Nat.add_sub, take_app_length.
  unfold world_command. change (fw_server (set_line _ _ _)) with (fw_server w).
  change (fw_control (set_line _ _ _)) with (fw_control w). rewrite Hc. set (a := srv_command cmd (fw_server w)).
  set (w1 := deliver_to (Some h) (wire (replies a)) false _).
  assert (fw_server w1 = after a ∧ fw_control w1 = Some h ∧ world_data w1 = world_data w)
    as (H1 & H2 & H3) by done.
  assert (l_in (line_at h w1) = wire (replies a)) as H4.
  { unfold w1. rewrite line_at_deliver, bool_decide_true by done. simpl.
    rewrite line_at_server, line_at_set, bool_decide_true by done. simpl in *. by rewrite Hi. }
  assert (∀ d, world_data w = Some d → line_at d w1 = line_at d w) as H5.
  { intros d Hd. assert (h ≠ d) as Hne by (intros ->; by apply (world_peers_differ w d)).
    unfold w1. rewrite line_at_deliver, bool_decide_false by congruence.
    by rewrite line_at_server, line_at_set, bool_decide_false by congruence. }
  destruct (download a) as [b|] eqn:Ha; simpl.
  - destruct (deliver_to_peers (world_data w1) b true w1) as (H6 & H7 & H8). rewrite H6, H7, H8.
    split_and!; [done|by etrans; [exact H2|symmetry]|done| |].
    + rewrite line_at_deliver, bool_decide_false; [done|]. rewrite H3. by apply world_peers_differ.
    + intros d Hd. unfold line_ended. rewrite line_at_deliver, bool_decide_true by congruence.
      by rewrite H5 by done.
  - split_and!; [done|by etrans; [exact H2|symmetry]|done|done|]. intros d Hd. apply line_undisturbed. by apply H5.
Qed.
Next Obligation.
  intros h b t w c w' Hd Hh Hw. simpl in Hw. injection Hw as _ <-.
  rewrite bool_decide_false by (intros E; by apply (world_peers_differ w h)).
  rewrite bool_decide_true by done.
  split_and!; [done|done|done|]. intros k Hk. apply line_undisturbed.
  rewrite line_at_server, line_at_set, bool_decide_false; [done|]. intros ->. by apply (world_peers_differ w h).
Qed.
Next Obligation. intros h w. split; by apply world_quiet. Qed.
Next Obligation. intros h w Hc _. simpl. unfold world_close. by rewrite bool_decide_true. Qed.
Next Obligation.
  intros h w Hd Ho. simpl. unfold world_close.
  rewrite bool_decide_false by (intros E; by apply (world_peers_differ w h)). rewrite bool_decide_true by done.
  destruct (srv_finish (fw_server w)) as [rs v].
  set (w1 := set_server v _). destruct (deliver_to_peers (fw_control w) (wire rs) false w1) as (H6 & H7 & _).
  rewrite H6, H7. split_and!; [done|done|]. intros k Hk.
  assert (line_at k w1 = line_at k w) as Hl.
  { unfold w1. rewrite line_at_server, line_at_set, bool_decide_false; [done|].
    intros ->. by apply (world_peers_differ w h). }
  rewrite line_at_deliver, bool_decide_true by done. by rewrite Hl.
Qed.
End world.

(** ** Witnesses *)

#[export] Instance sample_fuel : EnoughFuel (S := tree_ftp) 200 200.
Proof. split; simpl; lia. Qed.

#[local] Existing Instance sample_clock.

Abbreviation sample_sockets := (socket_DualSocket (W := ftp_world tree_ftp) 200).

(** A server with files, before any session and in one. *)
Definition sample_world : ftp_world tree_ftp :=
  FtpWorld (TreeFtp sample_tree [] false false NoData) ∅ 0 None None 0.

Definition sample_session (caps : FtpCapabilities)
    : fst_ (K := socket (ftp_world tree_ftp)) (W := ftp_world tree_ftp) :=
  (FtpClient (txt "localhost") 21 (plain_path []) 
     (Some (Socket (W := ftp_world tree_ftp) 0 TcpSocketClass 0%nat [])) default_options caps,
   FtpWorld (TreeFtp sample_tree [] true true NoData) {[ 0%nat := Line [] [] true false ]} 0 (Some 0%nat) None 1).

Lemma sample_in_sync caps : in_sync (FS := network_FileServer (n := 200) (fuel := 200)) (sample_session caps) [].
Proof.
  split_and!; try done. split_and!; [|done|done].
  eexists. by split_and!.
Qed.

Definition mlst_session := sample_session (parseFeatures (txt " MLST type*;size*;" ++ CRLF) default_capabilities).

Lemma mlst_ready : ftp_ready (FS := network_FileServer (n := 200) (fuel := 200)) mlst_session.
Proof. split; [|vm_compute; reflexivity]. exists []. apply sample_in_sync. Qed.

Lemma plain_pub : Forall plain_name [txt "pub"].
Proof. constructor; [by apply plain_letters|done]. Qed.
Lemma plain_new : plain_name (txt "new").
Proof. by apply plain_letters. Qed.
Lemma plain_docs : plain_name (txt "docs").
Proof. by apply plain_letters. Qed.
Lemma plain_readme : plain_name (txt "readme").
Proof. by apply plain_letters. Qed.

Lemma sample_login : may_login (S := tree_ftp) default_options.
Proof.
  assert (∀ t, bool_decide (t ≠ [] ∧ (CR ∉ t) ∧ LF ∉ t) = true → login_text t) as Ht
    by (intros t Hb; by apply bool_decide_eq_true in Hb).
  split; [|split]; [by apply Ht|by apply Ht|done].
Qed.

Lemma exists_correct_witness :
  let D := sample_sockets in
  let FS := network_FileServer (n := 200) (fuel := 200) in
  let s := sample_session default_capabilities in
  in_sync s [] ∧ Forall plain_name [txt "pub"] ∧ plain_name (txt "docs") ∧
  wp (ftp_exists 200 (plain_path ([txt "pub"] ++ [txt "docs"]))) (λ r s', unchanged s s' ∧
    if bool_decide (fs_entry s [txt "pub"] = Some Directory) then
      in_sync s' [txt "pub"] ∧
      r = Ok (if cap_mlst (f_capabilities s.1) || cap_size (f_capabilities s.1)
              then bool_decide (fs_entry s ([txt "pub"] ++ [txt "docs"]) ≠ None)
              else bool_decide (fs_entry s ([txt "pub"] ++ [txt "docs"]) = Some Directory))
    else r = Unexpected (make_error_code PROTOCOL_ERROR)) s ∧
  ftp_exists 200 (trailing_path ([txt "pub"] ++ [txt "docs"])) s = (Done (Ok true), s).
Proof.
  intros D FS s. split; [apply sample_in_sync|]. split; [exact plain_pub|]. split; [exact plain_docs|].
  exact (exists_correct s [] [txt "pub"] (txt "docs") (sample_in_sync _) plain_pub plain_docs).
Defined.

Lemma isDirectory_correct_witness :
  let D := sample_sockets in
  let FS := network_FileServer (n := 200) (fuel := 200) in
  in_sync mlst_session [] ∧ Forall plain_name [txt "pub"] ∧ plain_name (txt "readme") ∧
  wp (isDirectory 200 (plain_path ([txt "pub"] ++ [txt "readme"]))) (λ r s', unchanged mlst_session s' ∧
    (fs_entry mlst_session [txt "pub"] = Some Directory → in_sync s' [txt "pub"]) ∧
    r = match fs_entry mlst_session ([txt "pub"] ++ [txt "readme"]) with
        | Some Directory => Ok true
        | Some (File _) => if cap_mlst (f_capabilities mlst_session.1) || cap_size (f_capabilities mlst_session.1)
                           then Ok false else Unexpected (make_error_code PROTOCOL_ERROR)
        | None => Unexpected (make_error_code PROTOCOL_ERROR)
        end) mlst_session.
Proof.
  intros D FS. split_and!; [apply sample_in_sync|exact plain_pub|exact plain_readme|].
  exact (isDirectory_correct mlst_session [] [txt "pub"] (txt "readme") (sample_in_sync _) plain_pub plain_readme).
Defined.

Lemma createDir_correct_witness :
  let D := sample_sockets in
  let FS := network_FileServer (n := 200) (fuel := 200) in
  in_sync mlst_session [] ∧
  srv_entry (server_of (createDir 200 (plain_path [txt "pub"; txt "new"]) mlst_session).2.2)
    [txt "pub"; txt "new"] = Some Directory ∧
  wp (createDir 200 (plain_path ([txt "pub"] ++ [txt "new"]))) (λ r s',
    if bool_decide (fs_entry mlst_session [txt "pub"] = Some Directory) then
      in_sync s' [txt "pub"] ∧
      match fs_entry mlst_session ([txt "pub"] ++ [txt "new"]) with
      | None => r = Ok tt ∧ changed ([txt "pub"] ++ [txt "new"]) (Some Directory) mlst_session s'
      | Some e => unchanged mlst_session s' ∧
          r = if is_dir e || sees_files mlst_session then Ok tt
              else Unexpected (make_error_code PROTOCOL_ERROR)
      end
    else r = Unexpected (make_error_code PROTOCOL_ERROR) ∧ unchanged mlst_session s') mlst_session ∧
  createDir 200 (trailing_path ([txt "pub"] ++ [txt "new"])) mlst_session = (Done (Ok tt), mlst_session).
Proof.
  intros D FS. split; [apply sample_in_sync|]. split; [vm_compute; reflexivity|].
  exact (createDir_correct mlst_session [] [txt "pub"] (txt "new") (sample_in_sync _) plain_pub plain_new).
Defined.

Lemma remove_correct_witness :
  let D := sample_sockets in
  let FS := network_FileServer (n := 200) (fuel := 200) in
  in_sync mlst_session [] ∧
  srv_entry (server_of (ftp_remove 200 (plain_path [txt "pub"; txt "docs"]) mlst_session).2.2)
    [txt "pub"; txt "docs"] = None ∧
  wp (ftp_remove 200 (plain_path ([txt "pub"] ++ [txt "docs"]))) (λ r s',
    match fs_entry mlst_session ([txt "pub"] ++ [txt "docs"]) with
    | None => r = Unexpected (make_error_code PROTOCOL_ERROR) ∧ unchanged mlst_session s'
    | Some (File _) => in_sync s' [txt "pub"] ∧
        if sees_files mlst_session
        then r = Ok tt ∧ changed ([txt "pub"] ++ [txt "docs"]) None mlst_session s'
        else r = Unexpected (make_error_code PROTOCOL_ERROR) ∧ unchanged mlst_session s'
    | Some Directory => in_sync s' [txt "pub"] ∧
        ((∀ x, fs_entry mlst_session (([txt "pub"] ++ [txt "docs"]) ++ [x]) = None) ∧ r = Ok tt ∧
           changed ([txt "pub"] ++ [txt "docs"]) None mlst_session s' ∨
         (∃ x, fs_entry mlst_session (([txt "pub"] ++ [txt "docs"]) ++ [x]) ≠ None) ∧
           r = Unexpected (make_error_code PROTOCOL_ERROR) ∧ unchanged mlst_session s')
    end) mlst_session.
Proof.
  intros D FS. split; [apply sample_in_sync|]. split; [vm_compute; reflexivity|].
  exact (remove_correct mlst_session [] [txt "pub"] (txt "docs") (sample_in_sync _) plain_pub plain_docs).
Defined.

Lemma directory_round_trip_witness :
  let D := sample_sockets in
  let FS := network_FileServer (n := 200) (fuel := 200) in
  ftp_ready mlst_session ∧ fs_entry mlst_session ([txt "pub"] ++ [txt "new"]) = None ∧
  wp (@directory_session _ (ftp_world tree_ftp) (ftp_AbstractFileTransfer 200)
       (plain_path ([txt "pub"] ++ [txt "new"])))
    (λ r s', ftp_ready s' ∧
      r = ([Ok false; Ok true; Ok true; Ok false], [Ok tt; Ok tt; Ok tt]) ∧
      ∀ l, fs_entry s' l = fs_entry mlst_session l) mlst_session.
Proof.
  intros D FS.
  assert (fs_entry mlst_session [txt "pub"] = Some Directory) as H1 by (vm_compute; reflexivity).
  assert (fs_entry mlst_session ([txt "pub"] ++ [txt "new"]) = None) as H2 by (vm_compute; reflexivity).
  split; [exact mlst_ready|]. split; [exact H2|].
  exact (directory_round_trip mlst_session [txt "pub"] (txt "new") mlst_ready plain_pub plain_new H1 H2).
Defined.

Lemma ftp_read_correct_witness :
  let D := sample_sockets in
  let FS := network_FileServer (n := 200) (fuel := 200) in
  in_sync mlst_session [] ∧
  (ftp_read 200 (plain_path [txt "pub"; txt "readme"]) mlst_session).1 = Done (Ok (txt "read this")) ∧
  wp (ftp_read 200 (plain_path ([txt "pub"] ++ [txt "readme"]))) (λ r s', fs_online s' ∧
    f_capabilities s'.1 = f_capabilities mlst_session.1 ∧
    (∀ l, fs_entry s' l = fs_entry mlst_session l) ∧
    (fs_entry mlst_session [txt "pub"] = Some Directory → in_sync s' [txt "pub"]) ∧
    r = match fs_content mlst_session ([txt "pub"] ++ [txt "readme"]) with
        | Some c => Ok c
        | None => Unexpected (make_error_code PROTOCOL_ERROR)
        end) mlst_session.
Proof.
  intros D FS. split; [apply sample_in_sync|]. split; [vm_compute; reflexivity|].
  apply (ftp_read_correct (TS := network_TransferServer) mlst_session [] [txt "pub"] (txt "readme")
    (sample_in_sync _) plain_pub plain_readme).
  vm_compute. intros c [= <-]. simpl. lia.
Defined.

Lemma ftp_write_correct_witness :
  let D := sample_sockets in
  let FS := network_FileServer (n := 200) (fuel := 200) in
  in_sync mlst_session [] ∧
  srv_entry (server_of (ftp_write 200 (plain_path [txt "pub"; txt "new"]) (txt "some text") mlst_session).2.2)
    [txt "pub"; txt "new"] = Some (File (txt "some text")) ∧
  wp (ftp_write 200 (plain_path ([txt "pub"] ++ [txt "new"])) (txt "some text")) (λ r s', fs_online s' ∧
    f_capabilities s'.1 = f_capabilities mlst_session.1 ∧
    (fs_entry mlst_session [txt "pub"] = Some Directory → in_sync s' [txt "pub"]) ∧
    if bool_decide (fs_entry mlst_session [txt "pub"] = Some Directory ∧
                    fs_entry mlst_session ([txt "pub"] ++ [txt "new"]) ≠ Some Directory)
    then (∃ f, r = Ok f ∧ fl_size f = Z.of_nat (length (txt "some text")) ∧ fl_file_name f = txt "new") ∧
      ∀ l, fs_entry s' l = if bool_decide (l = [txt "pub"] ++ [txt "new"])
        then Some (File (txt "some text")) else fs_entry mlst_session l
    else r = Unexpected (make_error_code PROTOCOL_ERROR) ∧
      ∀ l, fs_entry s' l = fs_entry mlst_session l) mlst_session.
Proof.
  intros D FS. split; [apply sample_in_sync|]. split; [vm_compute; reflexivity|].
  exact (ftp_write_correct (TS := network_TransferServer) mlst_session [] [txt "pub"] (txt "new") (txt "some text")
    (sample_in_sync _) plain_pub plain_new).
Defined.

Lemma file_round_trip_witness :
  let D := sample_sockets in
  let FS := network_FileServer (n := 200) (fuel := 200) in
  ftp_ready mlst_session ∧ fs_entry mlst_session ([txt "pub"] ++ [txt "new"]) = None ∧
  wp (@file_session _ (ftp_world tree_ftp) (ftp_AbstractFileTransfer 200)
       (plain_path ([txt "pub"] ++ [txt "new"])) (txt "one") (txt "two"))
    (λ r s', r = ([Ok (txt "one"); Ok (txt "two")], [Ok true; Ok false], Ok tt) ∧ ftp_ready s' ∧
      ∀ l, fs_entry s' l = fs_entry mlst_session l) mlst_session.
Proof.
  intros D FS.
  assert (fs_entry mlst_session [txt "pub"] = Some Directory) as H1 by (vm_compute; reflexivity).
  assert (fs_entry mlst_session ([txt "pub"] ++ [txt "new"]) = None) as H2 by (vm_compute; reflexivity).
  split; [exact mlst_ready|]. split; [exact H2|].
  apply (file_round_trip (TS := network_TransferServer) mlst_session [txt "pub"] (txt "new") (txt "one")
    (txt "two") mlst_ready plain_pub plain_new H1 H2); simpl; lia.
Defined.

Lemma ftp_stack_round_trip_witness :
  let D := sample_sockets in
  may_login (S := tree_ftp) default_options ∧
  srv_entry (server_of sample_world) [txt "pub"] = Some Directory ∧
  srv_entry (server_of sample_world) ([txt "pub"] ++ [txt "new"]) = None ∧
  wp (with_ftp_client 200 srv_host srv_port default_options
       (@file_session _ (ftp_world tree_ftp) (ftp_AbstractFileTransfer 200) (plain_path ([txt "pub"] ++ [txt "new"]))
         (txt "one") (txt "two")))
    (λ r w', r = Ok ([Ok (txt "one"); Ok (txt "two")], [Ok true; Ok false], Ok tt) ∧
      same_files (server_of sample_world) (server_of w')) sample_world.
Proof.
  intros D.
  assert (srv_entry (server_of sample_world) [txt "pub"] = Some Directory) as H1 by (vm_compute; reflexivity).
  assert (srv_entry (server_of sample_world) ([txt "pub"] ++ [txt "new"]) = None) as H2
    by (vm_compute; reflexivity).
  split; [exact sample_login|]. split; [exact H1|]. split; [exact H2|].
  apply (ftp_stack_round_trip (n := 200) default_options [txt "pub"] (txt "new") (txt "one") (txt "two")
    sample_world sample_login eq_refl plain_pub plain_new H1 H2); simpl; lia.
Defined.

Lemma ftp_sessions_share_files_witness :
  let D := sample_sockets in
  let p := plain_path ([txt "pub"] ++ [txt "new"]) in
  may_login (S := tree_ftp) default_options ∧
  srv_entry (server_of sample_world) [txt "pub"] = Some Directory ∧
  srv_entry (server_of sample_world) ([txt "pub"] ++ [txt "new"]) ≠ Some Directory ∧
  wp (w1 ← with_ftp_client 200 srv_host srv_port default_options (ftp_write 200 p (txt "some text"));
      r2 ← with_ftp_client 200 srv_host srv_port default_options (ftp_read 200 p);
      mret (w1, r2))
    (λ r w', (∃ f, r.1 = Ok (Ok f) ∧ fl_size f = Z.of_nat (length (txt "some text")) ∧ fl_file_name f = txt "new") ∧
      r.2 = Ok (Ok (txt "some text")) ∧
      ∀ l, srv_entry (server_of w') l =
        if bool_decide (l = [txt "pub"] ++ [txt "new"]) then Some (File (txt "some text"))
        else srv_entry (server_of sample_world) l) sample_world.
Proof.
  intros D p.
  assert (srv_entry (server_of sample_world) [txt "pub"] = Some Directory) as H1 by (vm_compute; reflexivity).
  assert (srv_entry (server_of sample_world) ([txt "pub"] ++ [txt "new"]) ≠ Some Directory) as H2
    by (vm_compute; discriminate).
  split; [exact sample_login|]. split; [exact H1|]. split; [exact H2|].
  apply (ftp_sessions_share_files (n := 200) default_options [txt "pub"] (txt "new") (txt "some text")
    sample_world sample_login plain_pub plain_new H1 H2); simpl; lia.
Defined.
